(* ===== verification/_CoqProject ===== *)
-Q . S2P
Prelude.v
Message.v
WireFormat.v
Schema.v
Net.v
Sys.v
Constant.v
Api.v
Notifier.v
Gateway.v
Connection.v
Tun.v
Device.v
Node.v
Buffers.v
Mesh.v
Delivery.v
Establish.v
Pe.v
TunUnix.v
Memmod.v
MemmodFacts.v
PeTables.v
MemmodSections.v
MemmodLedger.v
MemmodImports.v
MemmodFuel.v
MemmodExports.v
MemmodLoad.v
MemmodStart.v
MemmodAttach.v
MemmodDemo.v
MemmodStartDemo.v
MemmodLoadDemo.v
MemmodAttachDemo.v
LazyDll.v
Utf16.v
Resource.v
Wintun.v
TunWindows.v
Main.v
