(* ===== verification/Prelude.v ===== *)
(** * Zetamesh: a verification development

    Zetamesh connects machines into a virtual IPv4 network.  A gateway ([gateway/], [api/])
    listens on UDP and HTTP.  A node ([node/]) reads packets from a virtual device, and
    sends each to the node that has its destination address: over a UDP connection of the
    two once there is one (a tunnel), through the gateway until then.  To get a tunnel a
    node asks the gateway by HTTP; the gateway introduces the two nodes to each other by
    UDP, again and again until each has acknowledged; each then dials the other, and a
    ping and a pong show that the path is open.

    ** The files

    - [Prelude.v]: bytes, machine integers ([uwrap], [swrap]), the outcomes of Go code
      (a value, a panic, or blocked), bounded channels, and what they all need.
    - [Message.v]: [message/api.pb.go] and [codec/codec.go].  The protobuf runtime is the
      class [Proto] with the laws [ProtoLaws] (a marshalled message unmarshals to itself);
      [WireFormat.v] is an instance of it, the proto3 format, for the examples.
      [Schema.v]: the descriptor that the generated code embeds, decoded, and the tables of
      types that go with it.
    - [Net.v]: [net.IP] of Go's standard library.  [Constant.v]: [constant/constant.go].
    - [Api.v]: [version/], [api/]: the directory of peers that heartbeats fill, the handler
      that asks for introductions through the interface [Notifier] (a class here, with the
      laws [NotifierLaws] that the handler's theorem needs), the client, and the route by which
      the gateway serves it.
    - [Notifier.v]: [gateway/notifier.go]: the pending introductions, the queue of relayed
      data, the dispatch loop and its workers; it is the instance of [Api.Notifier].
    - [Gateway.v]: [gateway/processor.go] and [gateway/gateway.go]: what one datagram does,
      and [gstep], the whole gateway as a transition system.
    - [Connection.v]: [node/connection.go]: the record of a connection, one turn of its
      select loop, and [close] in its two steps, also as a transition system of its callers.
    - [Tun.v]: [Read] and [Write] of [node/tun/tun_darwin.go] (framing) and of
      [node/tun/tun_windows.go] (the rings of a wintun session, and its rate meter).
      [Device.v]: the interface [Device] of [node/tun/tun.go] as a class, with an instance for
      each platform.
    - [Node.v]: [node/handler.go] and [node/node.go]: every handler, [forward], the device
      loops on any [Device], and [exec], one step of any goroutine of a node.
    - [Buffers.v]: the node again, with the buffers that its goroutines read into, and slices
      in its channels instead of values; it refines [Node.v].
    - [Mesh.v]: two nodes and the gateway together.  [Delivery.v]: a stream of packets from
      one device to the other.  [Establish.v]: from the first packet to a tunnel.
    - [Sys.v]: programs over the operating system, as finite trees of calls, their runs on
      a host, and ledgers of what a run leaves behind.  [TunUnix.v]: [NewTUN] of
      [node/tun/tun_linux.go] and [node/tun/tun_darwin.go]; [TunWindows.v]: [NewTUN] and
      [Close] of [node/tun/tun_windows.go]; [Main.v]: [main.go] and the start of the two
      programs, with [NewTUN] of each platform inside, all as such programs.
    - [Wintun.v]: [node/tun/wintun/wintun_windows.go] and [session_windows.go], the bindings
      of the driver, also as programs; [Utf16.v]: the strings they pass; [LazyDll.v]:
      [dll_windows.go] and its two variants, which load the driver's library and look its
      procedures up once, from any number of goroutines; [Resource.v]: [resource/], which
      reads the library from the executable, and the error handling of the system call
      stubs.
    - [Pe.v]: a byte-addressed memory, the structures of [memmod/syscall_windows.go] with
      Go's layout, and the rounding functions ([PeTables.v]: the rest of that file, its tables
      of constants); [Memmod.v]: the loader of
      [memmod/memmod_windows.go], which maps wintun.dll from memory.  Both are for either
      width of [uintptr] (class [Arch]).  [MemmodFacts.v] has the theorems on relocation,
      [MemmodImports.v] that on the import table, [MemmodSections.v] that on the protection
      of sections, [MemmodLedger.v] those on reserved memory and headers, [MemmodExports.v]
      that on the export table, [MemmodFuel.v] that on fuel, [MemmodLoad.v] that on a load up
      to the linked image, [MemmodStart.v] that on what follows, and [MemmodAttach.v] the two
      as one; [MemmodDemo.v], [MemmodStartDemo.v], [MemmodLoadDemo.v] and
      [MemmodAttachDemo.v] are libraries that are loaded.

    ** How code became definitions

    A function of the source is a definition of the same name, one branch for each of its
    branches.  A method that changes its receiver returns the new state.  Pointers that are
    shared (the connections of a node, the peers of the directory) are locations in a
    store, so an entry of a table can outlive or lose what it points to; the decoding
    buffers [protos], shared by all goroutines of a node, are part of its state.  Slices are
    values but in [Buffers.v], where they are parts of arrays, and copies are made.  A
    goroutine is a program counter or a list of work, and a step of the transition system
    is the code between two points where another goroutine can be seen: a mutex-protected
    region, a channel operation, a turn of a select loop.  In a node, decoding a packet and
    dispatching it are two steps, because the buffers are not locked; [onOpenTunnel] looks its
    peer up in one step and enters the new connection in a later one; and the test and the
    close of a connection's channel are two, because two goroutines may close the same.  The
    other handlers and [forward] are one step: each finds an object in the table and then
    changes that object, or [pending], alone.  A datagram is read into a buffer of 4096 bytes and
    cut there ([Constant.cut]).  Clocks, random
    numbers, names that are resolved and sockets that are dialled are arguments.  A log
    line has no effect; a failed socket write is only logged by the code, and a datagram
    that is lost is one that no later step receives.

    Code that only calls the system ([Sys.v]) is a tree of its calls, each with what follows
    for every reply; what the kernel, a command or the driver does is the host's, and the
    theorems are on every host.  A [defer] runs at the end of every path.  An entry of a
    ledger is a descriptor, an adapter or a session; closing it takes one entry away.

    In [Memmod.v] the process is its mapped memory and the state of Windows, which the
    functions of the class [WinAPI] may change in any way; an access to an address that is
    not mapped is a panic.  The memory is what the program maps; a library that Windows
    loads for it is known by its handle and the addresses of its procedures.  Six theorems
    assume something of those functions: the one on
    reserved memory (class [Ledger]) that they keep account of what is reserved, and that
    nothing but [VirtualAlloc] and [VirtualFree] changes it, and (class [QuietLibrary]) that
    the code of the library leaves what the loader reserved alone; those on sections and on
    the start (class [Pages]) that protecting or decommitting pages leaves the bytes of others
    alone, and the latter that callbacks leave the headers and their own table alone; the one
    on imports (class [Linker]) that looking a library or a procedure up changes nothing in
    that memory; and the two on a load as a whole also (class [Committer]) that
    committing pages that are committed already succeeds and leaves their bytes alone.

    ** What the theorems show

    - The mesh: a packet for a node without a tunnel leads to one that is established on
      both sides, with nothing pending at the gateway ([Establish.tunnel_is_established]; its
      parts are also [Mesh.open_tunnel_handshake] and [ping_pong_establishes]); a packet
      reaches the other node's device unchanged through the gateway
      ([Delivery.relayed_data_is_delivered]); a stream of packets crosses from device to device over a
      tunnel ([Delivery.packets_cross_the_mesh]).
    - Aliasing: no read changes a packet that waits in a channel, so that packets may be taken
      for values, as the other theorems on nodes do ([Buffers.buffers_refine_values]).
    - Safety of every interleaving: the steps at which a node panics
      ([Node.node_panics_exactly]: a connection closed twice, and what the device does; on
      Linux and macOS the former alone), [Gateway.gateway_never_panics], [Node.connection_table_sound],
      [Node.established_only_by_pong], [Gateway.pending_until_acknowledged],
      [Gateway.acknowledged_not_resent].
    - Each operation on every branch: [Gateway.process_correct],
      [Node.handlePacket_correct], [Node.forward_correct], [Node.onOpenTunnel_correct],
      [Node.device_read_classifies], [Connection.timer_turns_correct],
      [Notifier.sends_round_robin], [Notifier.retry_sends_all_pending].
    - Abstract specifications: [Api.heartbeats_refine_directory],
      [Api.OpenTunnel_introduces_both], [Api.client_sees_server_answer].
    - Types: the embedded descriptor decodes to [protos/api.proto] and fits the Go types
      ([Schema.descriptor_describes_types]).
    - The start: joining either serves, or closes every socket that it opened and leaves what
      [NewTUN] leaves ([Main.join_start_releases]); [NewTUN] configures the device by exactly the calls that
      it should, and where it fails it leaves a descriptor, an adapter or a session behind
      in the cases the theorems say ([TunUnix.LinuxFacts.linux_NewTUN_descriptors],
      [TunUnix.DarwinTunFacts.darwin_NewTUN_descriptors], [TunWindows.windows_NewTUN_leaves];
      [windows_Close_releases]).
    - The driver's bindings: the library is loaded at most once and every [Find] is right
      ([LazyDll.loaded_once]) and ends ([find_terminates]); names survive pools
      ([Wintun.pool_round_trip]); deletion of matching adapters reports every failure
      ([DeleteMatchingAdapters_correct]); so does reading a resource
      ([Resource.resource_Load_reports]).
    - The loader: with a well-formed library nothing fails before its pages are protected,
      and memory is what the headers, sections and tables say
      ([MemmodLoad.LoadLibrary_correct]); then the pages of the file's sections are protected
      and the functions it names are called, or the load fails
      ([MemmodAttach.LoadLibrary_runs_library]); its exports are found by name
      ([MemmodExports.exports_resolve]); it neither leaks nor over-frees
      ([MemmodLedger.LoadLibrary_balances]),
      relocates what the table names and nothing else
      ([MemmodFacts.performBaseRelocation_correct], [relocate_thumb_correct]), fills every
      import slot and nothing else ([MemmodImports.buildImportTable_correct]), gives each
      section's pages the rights it asks for ([MemmodSections.finalizeSections_protects]),
      can restore the addresses it truncates ([truncated_address_recovers]), and rounds
      ([Pe.align_rounds]).
    - The devices: what one macOS device writes another reads
      ([Tun.DarwinFacts.frames_round_trip], [writes_frame_packets]); the rate of the Windows
      device ([Tun.WindowsFacts.update_measures_rate]).
    - Behaviour that is not what the code means: [Node.reconnect_orphans_replacement],
      [Node.concurrent_pongs_lose_one], [Connection.CloseRaceFacts.close_needs_one_caller],
      [Gateway.retry_has_no_limit], [Mesh.one_byte_datagram_crashes_windows],
      [Tun.WindowsFacts.read_count_may_exceed_buffer],
      [MemmodLedger.negative_lfanew_reads_outside], [ordinal_bound_off_by_one],
      [Main.main_exits_0], [schedule_returns_cancelled].  A refusal of the gateway reaches the
      client with its code only under the HTTP status 200 ([client_sees_server_answer]).

    ** Bounds and fuel

    A packet crosses the network whole when its datagram fits the buffers of 4096 bytes: over a
    tunnel one of up to 4095 bytes, through the gateway one whose relay message does
    ([Message.wire_size] counts its fields, which are at most 38 bytes more than the data for an
    IPv4 address).  The run of [tunnel_is_established] has nonces of at most 128
    bytes, the length of the code's, and UDP addresses of at most 4000.

    The gateway's steps that count (acknowledgement numbers, round trips) are those below
    2^63, which no run reaches.  The loops of the loader that memory or Windows controls
    take fuel, and running out of it is [Block], never a result: the theorems on them say
    what holds of any run that ends ([LoadLibrary_balances]) and, where the table bounds the
    loop, that it ends: one turn more than there are blocks is enough for
    [performBaseRelocation_correct], and more than there are libraries, functions of one
    library and letters of one name together for [buildImportTable_correct]; both together for
    [LoadLibrary_correct], the longest exported name for [exports_resolve], and more than there
    are callbacks for [LoadLibrary_runs_library].  More fuel
    never changes what a load does ([MemmodFuel.LoadLibrary_fuel_irrelevant]).  The loop of
    [Windows.Read] takes its events as a list, and blocks at its end, as [Main.schedule]
    does.  Programs of [Sys.v] are finite and take no fuel.

    ** What is not modelled

    Flag parsing (cobra) and logging (zap); [String] of the messages and enumerations, which
    the protobuf runtime formats, and the system call stubs beyond their error handling, which
    only pass their arguments on.  JSON, HTTP, semver, gopacket's decoder and the protobuf
    runtime are parameters (with [fn] and [mux], which serve the API, as classes in [Api.v]), and so
    are the kernel, Windows, wintun.dll and the commands that
    configure an interface.  The buffers of the gateway and of the devices are values: the
    gateway decodes each datagram before it reads the next, and a device copies what it is
    given before it returns; only the slices of a node outlive the call that filled them,
    and those are in [Buffers.v].  A library's own code, once it is called, may do anything that
    the hypotheses of a theorem do not exclude. *)

From stdpp Require Export base gmap strings list fin_maps pretty numbers relations sorting.
From Stdlib Require Export ZArith Lia.
From Stdlib.Strings Require Import Byte.

(** The whole development reads integers as [Z] unless annotated. *)
#[export] Set Default Goal Selector "!".

(** ** Bytes

    Go's [byte] is [Byte.byte]; a Go string is a [string] of 8-bit characters; a
    [[]byte] is a [list byte]. *)

Abbreviation byte := Byte.byte.
Abbreviation bytes := (list Byte.byte).

#[global] Instance byte_eq_dec : EqDecision byte := Byte.byte_eq_dec.

Definition byte_val (b : byte) : Z := Z.of_N (Byte.to_N b).

(** The conversion [byte(z)], which keeps the low 8 bits. *)
Definition to_byte (z : Z) : byte :=
  match Byte.of_N (Z.to_N (z mod 256)) with Some b => b | None => Byte.x00 end.

Lemma byte_val_range b : (0 <= byte_val b < 256)%Z.
Proof. unfold byte_val. pose proof (Byte.to_N_bounded b). lia. Qed.

Lemma to_byte_val b : to_byte (byte_val b) = b.
Proof.
  unfold to_byte. rewrite Z.mod_small by apply byte_val_range.
  unfold byte_val. rewrite N2Z.id, Byte.of_to_N. done.
Qed.

Lemma byte_val_to_byte z : byte_val (to_byte z) = (z mod 256)%Z.
Proof.
  unfold to_byte, byte_val.
  pose proof (Z.mod_pos_bound z 256 ltac:(lia)) as Hz.
  destruct (Byte.of_N (Z.to_N (z mod 256))) as [b|] eqn:E.
  - apply Byte.to_of_N in E. rewrite E. lia.
  - apply Byte.of_N_None_iff in E. lia.
Qed.

Lemma byte_val_inj a b : byte_val a = byte_val b → a = b.
Proof. intros H. rewrite <- (to_byte_val a), H. apply to_byte_val. Qed.

(** Strings and bytes are two views of the same data ([[]byte(s)], [string(b)]). *)
Definition string_bytes (s : string) : bytes := String.list_byte_of_string s.
Definition bytes_string (b : bytes) : string := String.string_of_list_byte b.

Lemma bytes_string_bytes b : string_bytes (bytes_string b) = b.
Proof. apply String.list_byte_of_string_of_list_byte. Qed.

Lemma string_bytes_string s : bytes_string (string_bytes s) = s.
Proof. apply String.string_of_list_byte_of_string. Qed.

Lemma string_bytes_inj s t : string_bytes s = string_bytes t → s = t.
Proof. intros H. by rewrite <- (string_bytes_string s), H, string_bytes_string. Qed.

Lemma string_app_nil_r s : (s +:+ "")%string = s.
Proof. induction s as [|c s IH]; [done|]. change (String c (s +:+ "") = String c s). by rewrite IH. Qed.

(** ** Machine integers

    A [w]-bit unsigned integer is a [Z] in [0, 2^w); [uwrap] is the result of an
    unsigned operation, [swrap] of a signed one. *)
Section words.
Local Open Scope Z_scope.

Definition uwrap (w z : Z) : Z := z mod 2 ^ w.
Definition swrap (w z : Z) : Z := (z + 2 ^ (w - 1)) mod 2 ^ w - 2 ^ (w - 1).

Definition in_uint (w z : Z) : Prop := 0 <= z < 2 ^ w.
Definition in_int (w z : Z) : Prop := - 2 ^ (w - 1) <= z < 2 ^ (w - 1).

Lemma uwrap_small w z : in_uint w z → uwrap w z = z.
Proof. apply Z.mod_small. Qed.

Lemma uwrap_in w z : 0 <= w → in_uint w (uwrap w z).
Proof. intros. apply Z.mod_pos_bound. lia. Qed.

Lemma pow2_split w : 1 <= w → 2 ^ w = 2 * 2 ^ (w - 1).
Proof. intros. rewrite <- Z.pow_succ_r by lia. f_equal. lia. Qed.

Lemma swrap_small w z : 1 <= w → in_int w z → swrap w z = z.
Proof.
  intros Hw Hz. unfold swrap, in_int in *. pose proof (pow2_split w Hw).
  rewrite Z.mod_small; lia.
Qed.

Lemma swrap_in w z : 1 <= w → in_int w (swrap w z).
Proof.
  intros Hw. unfold swrap, in_int. pose proof (pow2_split w Hw).
  pose proof (Z.mod_pos_bound (z + 2 ^ (w - 1)) (2 ^ w) ltac:(lia)). lia.
Qed.

Lemma uwrap_idemp w z : uwrap w (uwrap w z) = uwrap w z.
Proof. apply Z.mod_mod_divide, Z.divide_refl. Qed.

Lemma uwrap_add_l w a b : uwrap w (uwrap w a + b) = uwrap w (a + b).
Proof. apply Zplus_mod_idemp_l. Qed.

Lemma uwrap_add_r w a b : uwrap w (a + uwrap w b) = uwrap w (a + b).
Proof. apply Zplus_mod_idemp_r. Qed.

End words.

(** ** Outcomes

    What running a piece of Go code to its end gives: a value, a panic of the
    goroutine, or a goroutine that is blocked (a send on a full channel). *)

Inductive outcome (A : Type) : Type :=
| Ret (a : A)
| Panic (msg : string)
| Block.
Arguments Ret {A} a.
Arguments Panic {A} msg.
Arguments Block {A}.

#[global] Instance outcome_ret : MRet outcome := @Ret.
#[global] Instance outcome_bind : MBind outcome := λ A B f m,
  match m with Ret a => f a | Panic msg => Panic msg | Block => Block end.

#[global] Instance outcome_eq_dec `{EqDecision A} : EqDecision (outcome A).
Proof. solve_decision. Defined.

Definition is_panic {A} (o : outcome A) : bool :=
  match o with Panic _ => true | _ => false end.

Lemma outcome_bind_ret {A B} (m : outcome A) (f : A → outcome B) b :
  m ≫= f = Ret b ↔ ∃ a, m = Ret a ∧ f a = Ret b.
Proof. destruct m; simpl; naive_solver. Qed.

Lemma outcome_bind_panic {A B} (m : outcome A) (f : A → outcome B) e :
  m ≫= f = Panic e ↔ m = Panic e ∨ ∃ a, m = Ret a ∧ f a = Panic e.
Proof. destruct m; simpl; naive_solver. Qed.

Lemma no_panic {A} (m : outcome A) e : is_panic m = false → m ≠ Panic e.
Proof. by intros Hm ->. Qed.

Lemma outcome_bind_no_panic {A B} (m : outcome A) (f : A → outcome B) :
  is_panic m = false → (∀ a, m = Ret a → is_panic (f a) = false) →
  is_panic (m ≫= f) = false.
Proof. destruct m; simpl; naive_solver. Qed.

(** ** Channels

    A buffered channel of capacity [cap]: a FIFO queue.  [chan_send] is the
    statement [ch <- v], which blocks when the buffer is full; [chan_try_send] is
    the [select] with a [default] branch. *)

Record chan (A : Type) : Type := Chan { cap : nat; buf : list A }.
Arguments Chan {A} cap buf.
Arguments cap {A} c.
Arguments buf {A} c.

Definition make_chan (A : Type) (n : nat) : chan A := Chan n [].

Definition chan_full {A} (c : chan A) : bool := bool_decide (cap c ≤ length (buf c)).

Definition chan_push {A} (v : A) (c : chan A) : chan A := Chan (cap c) (buf c ++ [v]).

Definition chan_send {A} (v : A) (c : chan A) : outcome (chan A) :=
  if chan_full c then Block else Ret (chan_push v c).

Definition chan_try_send {A} (v : A) (c : chan A) : chan A * bool :=
  if chan_full c then (c, false) else (chan_push v c, true).

Definition chan_recv {A} (c : chan A) : option (A * chan A) :=
  match buf c with [] => None | v :: vs => Some (v, Chan (cap c) vs) end.

(** The buffer never holds more than its capacity. *)
Definition chan_ok {A} (c : chan A) : Prop := length (buf c) ≤ cap c.

Lemma chan_full_false {A} (c : chan A) : chan_full c = false ↔ length (buf c) < cap c.
Proof. unfold chan_full. rewrite bool_decide_eq_false. lia. Qed.

Lemma chan_send_Ret {A} (v : A) c c' :
  chan_send v c = Ret c' ↔ length (buf c) < cap c ∧ c' = chan_push v c.
Proof.
  unfold chan_send. destruct (chan_full c) eqn:E.
  - apply bool_decide_eq_true in E. split; [done | lia].
  - apply chan_full_false in E. split; [by intros [= <-] | by intros [_ ->]].
Qed.

Lemma chan_send_no_panic {A} (v : A) c : is_panic (chan_send v c) = false.
Proof. unfold chan_send. by destruct (chan_full c). Qed.

Lemma chan_push_ok {A} (v : A) c : length (buf c) < cap c → chan_ok (chan_push v c).
Proof. unfold chan_ok, chan_push; simpl. rewrite length_app; simpl. lia. Qed.

Lemma chan_recv_ok {A} (c c' : chan A) v : chan_ok c → chan_recv c = Some (v, c') → chan_ok c'.
Proof.
  unfold chan_ok, chan_recv. destruct (buf c); simpl; intros; simplify_eq/=; lia.
Qed.

(** ** Errors

    Go's [error] values, built with [errors.New]/[errors.Errorf] and wrapped with a
    message or with an API status code. *)

Create HintDb zeta.
#[export] Hint Resolve byte_val_range chan_send_no_panic chan_push_ok : zeta.
#[export] Hint Rewrite to_byte_val byte_val_to_byte bytes_string_bytes
  string_bytes_string @length_app : zeta.

(** [destruct_outcome] splits a bind that returned into its two halves. *)
Ltac inv_bind :=
  repeat match goal with
  | H : mbind _ _ = Ret _ |- _ =>
      apply outcome_bind_ret in H as (? & ? & ?)
  | H : Ret _ = Ret _ |- _ => injection H as H; subst
  | H : chan_send _ _ = Ret _ |- _ => apply chan_send_Ret in H as [? ->]
  end.

(** ** Reachability by steps

    [rtc] of stdpp is the reflexive transitive closure of a step relation; an
    invariant is a predicate that the steps preserve. *)
Section reachability.
Context {S : Type} (step : S → S → Prop).

Lemma rtc_invariant (I : S → Prop) :
  (∀ s s', I s → step s s' → I s') → ∀ s s', I s → rtc step s s' → I s'.
Proof. intros Hstep s s' Hs Hr. induction Hr; eauto. Qed.

End reachability.
