(* ===== verification/Message.v ===== *)
(** * Messages and their binary format

    [message/api.pb.go] (the enums and the six control messages that protoc generates
    from [protos/api.proto]) and [codec/codec.go] (one type byte in front of the
    payload).  The protobuf runtime is third-party code: it is the class [Proto], whose
    laws are what its documentation promises; [WireFormat.v] has an instance. *)

From S2P Require Import Prelude.

(** ** Enums *)

Module PacketType.
Local Open Scope Z_scope.

Definition Heartbeat : Z := 0.
Definition Relay : Z := 1.
Definition OpenTunnel : Z := 2.
Definition OpenTunnelAck : Z := 3.
Definition Ping : Z := 4.
Definition Pong : Z := 5.
Definition Data : Z := 6.

Definition PacketType_name : gmap Z string :=
  list_to_map [(0, "Heartbeat"%string); (1, "Relay"%string); (2, "OpenTunnel"%string);
    (3, "OpenTunnelAck"%string); (4, "Ping"%string); (5, "Pong"%string); (6, "Data"%string)].

Definition PacketType_value : gmap string Z :=
  list_to_map [("Heartbeat"%string, 0); ("Relay"%string, 1); ("OpenTunnel"%string, 2);
    ("OpenTunnelAck"%string, 3); ("Ping"%string, 4); ("Pong"%string, 5); ("Data"%string, 6)].

End PacketType.

Module StatusCode.
Local Open Scope Z_scope.

Definition Success : Z := 0.
Definition ServerInternal : Z := 1.
Definition InvalidVersion : Z := 2.
Definition AddConflicted : Z := 3.
Definition VersionTooOld : Z := 4.
Definition KeyNotMatched : Z := 5.

Definition StatusCode_name : gmap Z string :=
  list_to_map [(0, "Success"%string); (1, "ServerInternal"%string); (2, "InvalidVersion"%string);
    (3, "AddConflicted"%string); (4, "VersionTooOld"%string); (5, "KeyNotMatched"%string)].

Definition StatusCode_value : gmap string Z :=
  list_to_map [("Success"%string, 0); ("ServerInternal"%string, 1); ("InvalidVersion"%string, 2);
    ("AddConflicted"%string, 3); ("VersionTooOld"%string, 4); ("KeyNotMatched"%string, 5)].

End StatusCode.

(** ** The control messages

    The protobuf bookkeeping fields ([state], [sizeCache], [unknownFields]) belong to
    the runtime and are left out. *)

Record CtrlHeartbeat := { hb_VirtAddress : string }.
Record CtrlPing := { ping_VirtAddress : string; ping_Nonce : string }.
Record CtrlPong := { pong_VirtAddress : string; pong_Nonce : string }.
Record CtrlOpenTunnel := { ot_AckId : Z; ot_VirtAddress : string; ot_UdpAddress : string }.
Record CtrlOpenTunnelAck := { ota_AckId : Z }.
Record CtrlRelay := { rl_VirtAddress : string; rl_Data : bytes }.

#[global] Instance CtrlHeartbeat_eq_dec : EqDecision CtrlHeartbeat.
Proof. solve_decision. Defined.
#[global] Instance CtrlPing_eq_dec : EqDecision CtrlPing.
Proof. solve_decision. Defined.
#[global] Instance CtrlPong_eq_dec : EqDecision CtrlPong.
Proof. solve_decision. Defined.
#[global] Instance CtrlOpenTunnel_eq_dec : EqDecision CtrlOpenTunnel.
Proof. solve_decision. Defined.
#[global] Instance CtrlOpenTunnelAck_eq_dec : EqDecision CtrlOpenTunnelAck.
Proof. solve_decision. Defined.
#[global] Instance CtrlRelay_eq_dec : EqDecision CtrlRelay.
Proof. solve_decision. Defined.

(** A [proto.Message] interface value: the dynamic type is the constructor. *)
Inductive message :=
| MHeartbeat (m : CtrlHeartbeat)
| MPing (m : CtrlPing)
| MPong (m : CtrlPong)
| MOpenTunnel (m : CtrlOpenTunnel)
| MOpenTunnelAck (m : CtrlOpenTunnelAck)
| MRelay (m : CtrlRelay).

#[global] Instance message_eq_dec : EqDecision message.
Proof. solve_decision. Defined.

Inductive kind := KHeartbeat | KPing | KPong | KOpenTunnel | KOpenTunnelAck | KRelay.

#[global] Instance kind_eq_dec : EqDecision kind.
Proof. solve_decision. Defined.

Definition kind_of (m : message) : kind :=
  match m with
  | MHeartbeat _ => KHeartbeat | MPing _ => KPing | MPong _ => KPong
  | MOpenTunnel _ => KOpenTunnel | MOpenTunnelAck _ => KOpenTunnelAck | MRelay _ => KRelay
  end.

(** [x.Reset()]: the zero value of the message's type. *)
Definition Reset (k : kind) : message :=
  match k with
  | KHeartbeat => MHeartbeat {| hb_VirtAddress := "" |}
  | KPing => MPing {| ping_VirtAddress := ""; ping_Nonce := "" |}
  | KPong => MPong {| pong_VirtAddress := ""; pong_Nonce := "" |}
  | KOpenTunnel => MOpenTunnel {| ot_AckId := 0; ot_VirtAddress := ""; ot_UdpAddress := "" |}
  | KOpenTunnelAck => MOpenTunnelAck {| ota_AckId := 0 |}
  | KRelay => MRelay {| rl_VirtAddress := ""; rl_Data := [] |}
  end.

(** *** Getters

    A getter's receiver may be [nil]; then it is the zero value of the field. *)
Definition getter {R A} (zero : A) (f : R → A) (x : option R) : A :=
  match x with Some x => f x | None => zero end.

Definition CtrlHeartbeat_GetVirtAddress : option CtrlHeartbeat → string := getter EmptyString hb_VirtAddress.
Definition CtrlPing_GetVirtAddress : option CtrlPing → string := getter EmptyString ping_VirtAddress.
Definition CtrlPing_GetNonce : option CtrlPing → string := getter EmptyString ping_Nonce.
Definition CtrlPong_GetVirtAddress : option CtrlPong → string := getter EmptyString pong_VirtAddress.
Definition CtrlPong_GetNonce : option CtrlPong → string := getter EmptyString pong_Nonce.
Definition CtrlOpenTunnel_GetAckId : option CtrlOpenTunnel → Z := getter 0%Z ot_AckId.
Definition CtrlOpenTunnel_GetVirtAddress : option CtrlOpenTunnel → string := getter EmptyString ot_VirtAddress.
Definition CtrlOpenTunnel_GetUdpAddress : option CtrlOpenTunnel → string := getter EmptyString ot_UdpAddress.
Definition CtrlOpenTunnelAck_GetAckId : option CtrlOpenTunnelAck → Z := getter 0%Z ota_AckId.
Definition CtrlRelay_GetVirtAddress : option CtrlRelay → string := getter EmptyString rl_VirtAddress.
Definition CtrlRelay_GetData : option CtrlRelay → bytes := getter [] rl_Data.

(** The getters of [nil] are those of a message that was reset. *)
Lemma getters_of_nil :
  (∀ m, Reset KHeartbeat = MHeartbeat m → CtrlHeartbeat_GetVirtAddress (Some m) = CtrlHeartbeat_GetVirtAddress None) ∧
  (∀ m, Reset KPing = MPing m → CtrlPing_GetNonce (Some m) = CtrlPing_GetNonce None) ∧
  (∀ m, Reset KPong = MPong m → CtrlPong_GetNonce (Some m) = CtrlPong_GetNonce None) ∧
  (∀ m, Reset KOpenTunnel = MOpenTunnel m → CtrlOpenTunnel_GetAckId (Some m) = CtrlOpenTunnel_GetAckId None) ∧
  (∀ m, Reset KRelay = MRelay m → CtrlRelay_GetData (Some m) = CtrlRelay_GetData None).
Proof. by split_and!; intros m [= <-]. Qed.

(** ** UTF-8

    [utf8.Valid] of Go's standard library: the byte ranges of the well-formed UTF-8
    sequences. *)
Definition in_rng (lo hi : Z) (b : byte) : bool :=
  bool_decide (lo ≤ byte_val b ∧ byte_val b ≤ hi)%Z.

Definition cont (b : byte) : bool := in_rng 128 191 b.

Fixpoint utf8_valid (bs : bytes) : bool :=
  match bs with
  | [] => true
  | b0 :: r0 =>
      if in_rng 0 127 b0 then utf8_valid r0 else
      match r0 with
      | [] => false
      | b1 :: r1 =>
          if in_rng 194 223 b0 then cont b1 && utf8_valid r1 else
          match r1 with
          | [] => false
          | b2 :: r2 =>
              if in_rng 224 224 b0 then in_rng 160 191 b1 && cont b2 && utf8_valid r2 else
              if in_rng 237 237 b0 then in_rng 128 159 b1 && cont b2 && utf8_valid r2 else
              if in_rng 225 239 b0 then cont b1 && cont b2 && utf8_valid r2 else
              match r2 with
              | [] => false
              | b3 :: r3 =>
                  if in_rng 240 240 b0 then in_rng 144 191 b1 && cont b2 && cont b3 && utf8_valid r3 else
                  if in_rng 241 243 b0 then cont b1 && cont b2 && cont b3 && utf8_valid r3 else
                  if in_rng 244 244 b0 then in_rng 128 143 b1 && cont b2 && cont b3 && utf8_valid r3 else
                  false
              end
          end
      end
  end.

Definition valid_string (s : string) : bool := utf8_valid (string_bytes s).

Lemma utf8_valid_ascii bs : Forall (λ b, byte_val b < 128)%Z bs → utf8_valid bs = true.
Proof.
  induction 1 as [|b bs Hb _ IH]; [done|]. simpl. unfold in_rng.
  pose proof (byte_val_range b). by rewrite bool_decide_eq_true_2 by lia.
Qed.

(** What the runtime can put on the wire: proto3 strings are UTF-8, [int64] fields are in
    range. *)
Definition valid_int64 (z : Z) : bool := bool_decide (- 2 ^ 63 ≤ z ∧ z < 2 ^ 63)%Z.

Definition valid_message (m : message) : bool :=
  match m with
  | MHeartbeat h => valid_string (hb_VirtAddress h)
  | MPing p => valid_string (ping_VirtAddress p) && valid_string (ping_Nonce p)
  | MPong p => valid_string (pong_VirtAddress p) && valid_string (pong_Nonce p)
  | MOpenTunnel o =>
      valid_int64 (ot_AckId o) && valid_string (ot_VirtAddress o) && valid_string (ot_UdpAddress o)
  | MOpenTunnelAck a => valid_int64 (ota_AckId a)
  | MRelay r => valid_string (rl_VirtAddress r)
  end.

(** The [int64] fields hold an [int64], also after a failed [Unmarshal]. *)
Definition well_typed (m : message) : bool :=
  match m with
  | MOpenTunnel o => valid_int64 (ot_AckId o)
  | MOpenTunnelAck a => valid_int64 (ota_AckId a)
  | _ => true
  end.

Lemma valid_well_typed m : valid_message m = true → well_typed m = true.
Proof. destruct m; simpl; try done. rewrite !andb_true_iff. naive_solver. Qed.

(** The most bytes that a message has on the wire: a field is a tag of one byte (the numbers
    are below 16), then a length or a number in at most ten, then the contents. *)
Definition wire_field (n : nat) : nat := 11 + n.

Definition wire_size (m : message) : nat :=
  let str s := wire_field (length (string_bytes s)) in
  match m with
  | MHeartbeat h => str (hb_VirtAddress h)
  | MPing p => str (ping_VirtAddress p) + str (ping_Nonce p)
  | MPong p => str (pong_VirtAddress p) + str (pong_Nonce p)
  | MOpenTunnel o => wire_field 0 + (str (ot_VirtAddress o) + str (ot_UdpAddress o))
  | MOpenTunnelAck _ => wire_field 0
  | MRelay r => str (rl_VirtAddress r) + wire_field (length (rl_Data r))
  end.

(** ** The protobuf runtime

    [marshal] is [proto.Marshal] ([None]: it returned an error).  [unmarshal k b] is
    [proto.Unmarshal(b, m)] into a message of type [k] (which it resets first): whether
    it succeeded, and the message it leaves behind. *)
Class Proto := {
  marshal : message → option bytes;
  unmarshal : kind → bytes → bool * message;
}.

Class ProtoLaws (P : Proto) : Prop := {
  marshal_valid m : valid_message m = true → is_Some (marshal m);
  unmarshal_marshal m b : marshal m = Some b → unmarshal (kind_of m) b = (true, m);
  marshal_size m b : marshal m = Some b → (Z.of_nat (wire_size m) < 2 ^ 31)%Z → length b ≤ wire_size m;
  unmarshal_kind k b : kind_of (unmarshal k b).2 = k;
  unmarshal_typed k b : well_typed (unmarshal k b).2 = true;
  unmarshal_valid k b m : unmarshal k b = (true, m) → valid_message m = true;
}.

#[export] Hint Resolve marshal_valid unmarshal_marshal unmarshal_kind unmarshal_valid : zeta.

(** ** codec.go *)

Section codec.
Context `{Proto}.

(** [Encode]: the type byte, then the marshalled payload; panics when the payload cannot
    be marshalled. *)
Definition Encode (typ : Z) (payload : message) : outcome bytes :=
  match marshal payload with
  | None => Panic "marshal"
  | Some data => Ret (to_byte typ :: data)
  end.

Definition EncodeRaw (payload : bytes) : bytes := to_byte PacketType.Data :: payload.

Lemma Encode_Ret typ m d :
  Encode typ m = Ret d ↔ ∃ b, marshal m = Some b ∧ d = to_byte typ :: b.
Proof. unfold Encode. destruct (marshal m); naive_solver. Qed.

Context `{!ProtoLaws _}.

Lemma Encode_valid typ m : valid_message m = true → ∃ d, Encode typ m = Ret d.
Proof.
  intros [b Hb]%marshal_valid. unfold Encode. rewrite Hb. eauto.
Qed.

Lemma Encode_valid_no_panic typ m : valid_message m = true → is_panic (Encode typ m) = false.
Proof. by intros [d ->]%(Encode_valid typ). Qed.

(** What [Encode] produced for [m] starts with the type byte, and its tail decodes to
    [m]. *)
Lemma Encode_decode typ m d :
  Encode typ m = Ret d →
  ∃ b, d = to_byte typ :: b ∧ unmarshal (kind_of m) b = (true, m).
Proof. intros (b & Hb & ->)%Encode_Ret. eauto using unmarshal_marshal. Qed.

Lemma Encode_length typ m d :
  Encode typ m = Ret d → (Z.of_nat (wire_size m) < 2 ^ 31)%Z → length d ≤ S (wire_size m).
Proof. intros (b & Hb & ->)%Encode_Ret Hm. simpl. apply le_n_S. by apply marshal_size. Qed.

End codec.

#[export] Hint Resolve Encode_valid_no_panic : zeta.
