(* ===== verification/WireFormat.v ===== *)
(** * An instance of the protobuf interface

    The proto3 wire format of the six control messages, with the field numbers and types
    of the struct tags in [message/api.pb.go].  It shows that the laws of
    [Message.ProtoLaws] can hold, and lets the examples of the development run the
    handlers on concrete packets.  No theorem about the program rests on it. *)

From S2P Require Import Prelude Message.

Local Open Scope Z_scope.

(** ** Varints *)

Fixpoint put_varint (fuel : nat) (n : Z) : bytes :=
  match fuel with
  | O => [to_byte n]
  | S f => if bool_decide (n < 128) then [to_byte n]
           else to_byte (n mod 128 + 128) :: put_varint f (n / 128)
  end.

Fixpoint get_varint (bs : bytes) : option (Z * bytes) :=
  match bs with
  | [] => None
  | b :: r =>
      if bool_decide (byte_val b < 128) then Some (byte_val b, r)
      else '(v, r') ← get_varint r; Some (byte_val b - 128 + 128 * v, r')
  end.

(** Seven bits a byte: [log2 n + 1] bytes are enough. *)
Definition varint (n : Z) : bytes := put_varint (Z.to_nat (Z.log2 n)) n.

Lemma get_put_varint f n r :
  0 <= n < 2 ^ (7 * Z.of_nat (S f)) → get_varint (put_varint f n ++ r) = Some (n, r).
Proof.
  revert n. induction f as [|f IH]; intros n Hn; simpl.
  - rewrite byte_val_to_byte, Z.mod_small by lia. by rewrite bool_decide_eq_true_2 by lia.
  - case_bool_decide as Hs; simpl.
    + rewrite byte_val_to_byte, Z.mod_small by lia. by rewrite bool_decide_eq_true_2 by lia.
    + pose proof (Z.mod_pos_bound n 128 ltac:(lia)).
      rewrite byte_val_to_byte, Z.mod_small by lia.
      rewrite bool_decide_eq_false_2 by lia.
      rewrite IH; simpl.
      * f_equal. f_equal. pose proof (Z.div_mod n 128 ltac:(lia)). lia.
      * split; [apply Z.div_pos; lia|]. apply Z.div_lt_upper_bound; [lia|].
        replace (7 * Z.of_nat (S (S f))) with (7 + 7 * Z.of_nat (S f)) in Hn by lia.
        rewrite Z.pow_add_r in Hn by lia. lia.
Qed.

Lemma get_varint_app n r : 0 <= n → get_varint (varint n ++ r) = Some (n, r).
Proof.
  intros Hn. apply get_put_varint. split; [done|].
  destruct (decide (n = 0)) as [->|]; [by vm_compute|].
  apply Z.lt_le_trans with (2 ^ Z.succ (Z.log2 n)); [apply Z.log2_spec; lia|].
  apply Z.pow_le_mono_r; [lia|]. pose proof (Z.log2_nonneg n). lia.
Qed.

Lemma put_varint_cons f n : ∃ b r, put_varint f n = b :: r.
Proof. destruct f; simpl; [eauto | case_bool_decide; eauto]. Qed.

(** ** Fields *)

Inductive wval := WVarint (z : Z) | WLen (b : bytes) | WFixed.

Definition put_field (f : Z * wval) : bytes :=
  match f with
  | (n, WVarint z) => varint (8 * n) ++ varint z
  | (n, WLen b) => varint (8 * n + 2) ++ varint (Z.of_nat (length b)) ++ b
  | (_, WFixed) => []
  end.

Definition get_field (bs : bytes) : option ((Z * wval) * bytes) :=
  '(tag, r) ← get_varint bs;
  let n := tag / 8 in
  match tag mod 8 with
  | 0 => '(z, r') ← get_varint r; Some ((n, WVarint z), r')
  | 2 => '(l, r') ← get_varint r;
         if bool_decide (l ≤ Z.of_nat (length r'))
         then Some ((n, WLen (take (Z.to_nat l) r')), drop (Z.to_nat l) r') else None
  | 1 => if bool_decide (8 ≤ length r)%nat then Some ((n, WFixed), drop 8 r) else None
  | 5 => if bool_decide (4 ≤ length r)%nat then Some ((n, WFixed), drop 4 r) else None
  | _ => None
  end.

#[global] Arguments get_field : simpl never.
#[global] Arguments put_field : simpl never.

Fixpoint get_fields (fuel : nat) (bs : bytes) : option (list (Z * wval)) :=
  match bs, fuel with
  | [], _ => Some []
  | _, O => None
  | _, S f => '(x, r) ← get_field bs; xs ← get_fields f r; Some (x :: xs)
  end.

Definition field_ok (f : Z * wval) : Prop :=
  0 <= f.1 ∧ match f.2 with WVarint z => 0 <= z | WLen _ => True | WFixed => False end.

Lemma get_put_field f r : field_ok f → get_field (put_field f ++ r) = Some (f, r).
Proof.
  destruct f as [n [z|b|]]; intros [Hn Hv]; simpl in *; [..|done]; unfold get_field, put_field.
  - rewrite <- app_assoc, get_varint_app by lia; simpl.
    replace (8 * n) with (n * 8) by lia.
    rewrite Z.mod_mul, Z.div_mul by lia.
    by rewrite get_varint_app by lia.
  - rewrite <- app_assoc, get_varint_app by lia; simpl.
    replace (8 * n + 2) with (2 + n * 8) by lia.
    rewrite Z.mod_add, Z.div_add by lia. simpl.
    rewrite <- app_assoc, get_varint_app by lia; simpl.
    rewrite bool_decide_eq_true_2 by (rewrite length_app; lia).
    rewrite Nat2Z.id, take_app_length, drop_app_length. done.
Qed.

Lemma put_field_cons f : field_ok f → ∃ b r, put_field f = b :: r.
Proof.
  destruct f as [n [z|b|]]; intros [_ Hv]; [..|done]; unfold put_field;
    edestruct put_varint_cons as (? & ? & E); unfold varint; rewrite E; simpl; eauto.
Qed.

Lemma get_put_fields fs fuel :
  Forall field_ok fs → (length fs ≤ fuel)%nat →
  get_fields fuel (concat (map put_field fs)) = Some fs.
Proof.
  intros Hfs. revert fuel. induction Hfs as [|f fs Hf _ IH]; intros fuel Hl; simpl in *.
  - by destruct fuel.
  - destruct fuel as [|fuel]; [lia|].
    destruct (put_field_cons f Hf) as (b & r & E).
    pose proof (get_put_field f (concat (map put_field fs)) Hf) as G.
    rewrite E in *; simpl in *. rewrite G; simpl. by rewrite IH by lia.
Qed.

Lemma length_put_fields fs :
  Forall field_ok fs → (length fs ≤ length (concat (map put_field fs)))%nat.
Proof.
  induction 1 as [|f fs Hf _ IH]; simpl; [lia|]. rewrite length_app.
  destruct (put_field_cons f Hf) as (b & r & ->). simpl. lia.
Qed.

(** ** Messages as fields (default values are omitted) *)

Definition str_field (n : Z) (s : string) : list (Z * wval) :=
  if decide (s = ""%string) then [] else [(n, WLen (string_bytes s))].
Definition bytes_field (n : Z) (b : bytes) : list (Z * wval) :=
  match b with [] => [] | _ => [(n, WLen b)] end.
Definition int_field (n z : Z) : list (Z * wval) :=
  if decide (z = 0) then [] else [(n, WVarint (z mod 2 ^ 64))].

Definition fields (m : message) : list (Z * wval) :=
  match m with
  | MHeartbeat h => str_field 1 (hb_VirtAddress h)
  | MPing p => str_field 1 (ping_VirtAddress p) ++ str_field 2 (ping_Nonce p)
  | MPong p => str_field 1 (pong_VirtAddress p) ++ str_field 2 (pong_Nonce p)
  | MOpenTunnel o =>
      int_field 1 (ot_AckId o) ++ str_field 2 (ot_VirtAddress o) ++ str_field 3 (ot_UdpAddress o)
  | MOpenTunnelAck a => int_field 1 (ota_AckId a)
  | MRelay r => str_field 1 (rl_VirtAddress r) ++ bytes_field 2 (rl_Data r)
  end.

Definition set_str (b : bytes) (f : string → message) : option message :=
  if utf8_valid b then Some (f (bytes_string b)) else None.

(** Merge one field; an unknown field is skipped, a string that is not UTF-8 is an error. *)
Definition set_field (m : message) (f : Z * wval) : option message :=
  match m, f with
  | MHeartbeat _, (1, WLen b) => set_str b (λ s, MHeartbeat {| hb_VirtAddress := s |})
  | MPing p, (1, WLen b) =>
      set_str b (λ s, MPing {| ping_VirtAddress := s; ping_Nonce := ping_Nonce p |})
  | MPing p, (2, WLen b) =>
      set_str b (λ s, MPing {| ping_VirtAddress := ping_VirtAddress p; ping_Nonce := s |})
  | MPong p, (1, WLen b) =>
      set_str b (λ s, MPong {| pong_VirtAddress := s; pong_Nonce := pong_Nonce p |})
  | MPong p, (2, WLen b) =>
      set_str b (λ s, MPong {| pong_VirtAddress := pong_VirtAddress p; pong_Nonce := s |})
  | MOpenTunnel o, (1, WVarint z) =>
      Some (MOpenTunnel {| ot_AckId := swrap 64 z; ot_VirtAddress := ot_VirtAddress o;
                           ot_UdpAddress := ot_UdpAddress o |})
  | MOpenTunnel o, (2, WLen b) =>
      set_str b (λ s, MOpenTunnel {| ot_AckId := ot_AckId o; ot_VirtAddress := s;
                                     ot_UdpAddress := ot_UdpAddress o |})
  | MOpenTunnel o, (3, WLen b) =>
      set_str b (λ s, MOpenTunnel {| ot_AckId := ot_AckId o;
                                     ot_VirtAddress := ot_VirtAddress o; ot_UdpAddress := s |})
  | MOpenTunnelAck _, (1, WVarint z) => Some (MOpenTunnelAck {| ota_AckId := swrap 64 z |})
  | MRelay r, (1, WLen b) =>
      set_str b (λ s, MRelay {| rl_VirtAddress := s; rl_Data := rl_Data r |})
  | MRelay r, (2, WLen b) =>
      Some (MRelay {| rl_VirtAddress := rl_VirtAddress r; rl_Data := b |})
  | _, _ => Some m
  end.

Fixpoint set_fields (m : message) (fs : list (Z * wval)) : bool * message :=
  match fs with
  | [] => (true, m)
  | f :: fs' => match set_field m f with
                | Some m' => set_fields m' fs'
                | None => (false, m)
                end
  end.

#[global] Instance wire_proto : Proto := {
  marshal m := if valid_message m then Some (concat (map put_field (fields m))) else None;
  unmarshal k b :=
    match get_fields (length b) b with
    | Some fs => set_fields (Reset k) fs
    | None => (false, Reset k)
    end;
}.

(** ** The laws *)

Lemma fields_ok m : Forall field_ok (fields m).
Proof.
  assert (∀ n s, 0 <= n → Forall field_ok (str_field n s)).
  { intros n s ?. unfold str_field. case_decide; repeat constructor; done. }
  assert (∀ n z, 0 <= n → Forall field_ok (int_field n z)).
  { intros n z ?. unfold int_field. case_decide; repeat constructor; simpl; try done.
    apply Z.mod_pos_bound. lia. }
  destruct m; simpl; rewrite ?Forall_app; split_and?; auto with lia.
  unfold bytes_field. destruct (rl_Data m); repeat constructor; simpl; done || lia.
Qed.

Lemma set_field_kind m f m' : set_field m f = Some m' → kind_of m' = kind_of m.
Proof.
  unfold set_field, set_str. intros. repeat case_match; simplify_eq/=; done.
Qed.

Lemma set_fields_kind m fs : kind_of (set_fields m fs).2 = kind_of m.
Proof.
  revert m. induction fs as [|f fs IH]; intros m; simpl; [done|].
  destruct (set_field m f) eqn:E; [|done]. rewrite IH. eauto using set_field_kind.
Qed.

Lemma valid_int64_swrap z : valid_int64 (swrap 64 z) = true.
Proof. apply bool_decide_eq_true_2. apply (swrap_in 64). lia. Qed.

Lemma set_field_valid m f m' :
  set_field m f = Some m' → valid_message m = true → valid_message m' = true.
Proof.
  unfold set_field, set_str. intros Hs Hm.
  repeat case_match; simplify_eq/=; try done; unfold valid_string in *;
    rewrite ?bytes_string_bytes, ?valid_int64_swrap;
    rewrite ?andb_true_iff in *; naive_solver.
Qed.

Lemma set_field_typed m f m' :
  set_field m f = Some m' → well_typed m = true → well_typed m' = true.
Proof.
  unfold set_field, set_str. intros Hs Hm.
  repeat case_match; simplify_eq/=; by rewrite ?valid_int64_swrap.
Qed.

Lemma set_fields_typed m fs : well_typed m = true → well_typed (set_fields m fs).2 = true.
Proof.
  revert m. induction fs as [|f fs IH]; intros m Hm; simpl; [done|].
  destruct (set_field m f) eqn:E; [|done]. eauto using set_field_typed.
Qed.

Lemma set_fields_valid m fs m' :
  set_fields m fs = (true, m') → valid_message m = true → valid_message m' = true.
Proof.
  revert m. induction fs as [|f fs IH]; intros m; simpl; [naive_solver|].
  destruct (set_field m f) eqn:E; [|done]. eauto using set_field_valid.
Qed.

Lemma swrap_mod z : valid_int64 z = true → swrap 64 (z mod 2 ^ 64) = z.
Proof.
  intros Hz%bool_decide_eq_true. transitivity (swrap 64 z).
  - unfold swrap. f_equal. apply Zplus_mod_idemp_l.
  - by apply swrap_small.
Qed.

Lemma set_str_valid s f : valid_string s = true → set_str (string_bytes s) f = Some (f s).
Proof. unfold valid_string, set_str. intros ->. by rewrite string_bytes_string. Qed.

Lemma set_fields_fields m :
  valid_message m = true → set_fields (Reset (kind_of m)) (fields m) = (true, m).
Proof.
  destruct m as [[v]|[v n]|[v n]|[a v u]|[a]|[v d]]; simpl; intros Hm;
    unfold str_field, int_field, bytes_field in *;
    rewrite ?andb_true_iff in Hm; destruct_and?; repeat case_decide;
    subst; try destruct d; simpl;
    repeat (rewrite set_str_valid by done; simpl); rewrite ?swrap_mod by done;
    repeat (rewrite set_str_valid by done; simpl); done.
Qed.

(** *** Sizes *)

Lemma length_put_varint f k n :
  0 <= n < 2 ^ (7 * Z.of_nat (S k)) → (length (put_varint f n) <= S k)%nat.
Proof.
  revert k n. induction f as [|f IH]; intros k n Hn; simpl; [lia|].
  case_bool_decide; simpl; [lia|]. destruct k as [|k]; [simpl in Hn; lia|].
  apply le_n_S, IH. split; [apply Z.div_pos; lia|]. apply Z.div_lt_upper_bound; [lia|].
  replace (7 * Z.of_nat (S (S k))) with (7 + 7 * Z.of_nat (S k)) in Hn by lia.
  rewrite Z.pow_add_r in Hn by lia. lia.
Qed.

Lemma length_varint_10 n : 0 <= n < 2 ^ 64 → (length (varint n) <= 10)%nat.
Proof. intros Hn. apply length_put_varint. simpl. lia. Qed.

Lemma length_varint_tag n : 0 <= n < 128 → (length (varint n) <= 1)%nat.
Proof. intros Hn. apply length_put_varint. simpl. lia. Qed.

(** The sum of the lengths of fields with numbers below 16. *)
Definition fits (k : nat) (fs : list (Z * wval)) : Prop := (length (concat (map put_field fs)) <= k)%nat.

Lemma fits_app k1 k2 l1 l2 : fits k1 l1 → fits k2 l2 → fits (k1 + k2) (l1 ++ l2).
Proof. unfold fits. rewrite map_app, concat_app, length_app. lia. Qed.

Lemma fits_str n s : 1 <= n < 16 → Z.of_nat (length (string_bytes s)) < 2 ^ 31 →
  fits (wire_field (length (string_bytes s))) (str_field n s).
Proof.
  intros Hn Hs. unfold str_field, fits, wire_field. case_decide; [simpl; lia|]. simpl.
  rewrite app_nil_r. unfold put_field. rewrite !length_app.
  pose proof (length_varint_tag (8 * n + 2) ltac:(lia)).
  pose proof (length_varint_10 (Z.of_nat (length (string_bytes s))) ltac:(lia)). lia.
Qed.

Lemma fits_bytes n b : 1 <= n < 16 → Z.of_nat (length b) < 2 ^ 31 → fits (wire_field (length b)) (bytes_field n b).
Proof.
  intros Hn Hs. unfold bytes_field, fits, wire_field. destruct b as [|x b]; [simpl; lia|]. simpl map.
  simpl concat. rewrite app_nil_r. unfold put_field. rewrite !length_app.
  pose proof (length_varint_tag (8 * n + 2) ltac:(lia)).
  pose proof (length_varint_10 (Z.of_nat (length (x :: b))) ltac:(lia)). lia.
Qed.

Lemma fits_int n z : 1 <= n < 16 → fits (wire_field 0) (int_field n z).
Proof.
  intros Hn. unfold int_field, fits, wire_field. case_decide; [simpl; lia|]. simpl.
  rewrite app_nil_r. unfold put_field. rewrite !length_app.
  pose proof (length_varint_tag (8 * n) ltac:(lia)).
  pose proof (length_varint_10 (z mod 2 ^ 64) ltac:(apply Z.mod_pos_bound; lia)). lia.
Qed.

Lemma fits_fields m : Z.of_nat (wire_size m) < 2 ^ 31 → fits (wire_size m) (fields m).
Proof.
  destruct m; cbn [fields wire_size]; intros Hm; unfold wire_field in Hm;
    repeat apply fits_app; first [apply fits_str; lia|apply fits_bytes; lia|apply fits_int; lia].
Qed.

#[global] Instance wire_laws : ProtoLaws wire_proto.
Proof.
  split; simpl.
  - intros m ->. eauto.
  - intros m b Hm. destruct (valid_message m) eqn:Hv; [|done]. injection Hm as <-.
    rewrite get_put_fields by eauto using fields_ok, length_put_fields.
    by apply set_fields_fields.
  - intros m b Hm Hs. destruct (valid_message m); [|done]. injection Hm as <-. by apply fits_fields.
  - intros k b. destruct (get_fields _ _); [rewrite set_fields_kind|]; by destruct k.
  - intros k b. destruct (get_fields _ _); [apply set_fields_typed|]; by destruct k.
  - intros k b m. destruct (get_fields _ _); [|done].
    intros H. eapply set_fields_valid; [done|]. by destruct k.
Qed.
