(* ===== verification/Schema.v ===== *)
(** * The descriptor of the messages

    The tables that protoc puts into [message/api.pb.go] for the protobuf runtime: the
    serialized descriptor of [protos/api.proto], the struct tags, the indices by which a Go
    type finds its message, and the package's initialization.  The descriptor is decoded
    here (the format of [descriptor.proto], the fields that occur) and compared with the Go
    types.  [CompressGZIP] and [TypeBuilder.Build] are the runtime's. *)

From S2P Require Import Prelude Message WireFormat.

Local Open Scope Z_scope.

Definition file_api_proto_rawDesc : bytes := map to_byte
  [0x0a; 0x09; 0x61; 0x70; 0x69; 0x2e; 0x70; 0x72; 0x6f; 0x74; 0x6f; 0x22; 0x31; 0x0a; 0x0d; 0x43;
   0x74; 0x72; 0x6c; 0x48; 0x65; 0x61; 0x72; 0x74; 0x62; 0x65; 0x61; 0x74; 0x12; 0x20; 0x0a; 0x0b;
   0x76; 0x69; 0x72; 0x74; 0x41; 0x64; 0x64; 0x72; 0x65; 0x73; 0x73; 0x18; 0x01; 0x20; 0x01; 0x28;
   0x09; 0x52; 0x0b; 0x76; 0x69; 0x72; 0x74; 0x41; 0x64; 0x64; 0x72; 0x65; 0x73; 0x73; 0x22; 0x42;
   0x0a; 0x08; 0x43; 0x74; 0x72; 0x6c; 0x50; 0x69; 0x6e; 0x67; 0x12; 0x20; 0x0a; 0x0b; 0x76; 0x69;
   0x72; 0x74; 0x41; 0x64; 0x64; 0x72; 0x65; 0x73; 0x73; 0x18; 0x01; 0x20; 0x01; 0x28; 0x09; 0x52;
   0x0b; 0x76; 0x69; 0x72; 0x74; 0x41; 0x64; 0x64; 0x72; 0x65; 0x73; 0x73; 0x12; 0x14; 0x0a; 0x05;
   0x6e; 0x6f; 0x6e; 0x63; 0x65; 0x18; 0x02; 0x20; 0x01; 0x28; 0x09; 0x52; 0x05; 0x6e; 0x6f; 0x6e;
   0x63; 0x65; 0x22; 0x42; 0x0a; 0x08; 0x43; 0x74; 0x72; 0x6c; 0x50; 0x6f; 0x6e; 0x67; 0x12; 0x20;
   0x0a; 0x0b; 0x76; 0x69; 0x72; 0x74; 0x41; 0x64; 0x64; 0x72; 0x65; 0x73; 0x73; 0x18; 0x01; 0x20;
   0x01; 0x28; 0x09; 0x52; 0x0b; 0x76; 0x69; 0x72; 0x74; 0x41; 0x64; 0x64; 0x72; 0x65; 0x73; 0x73;
   0x12; 0x14; 0x0a; 0x05; 0x6e; 0x6f; 0x6e; 0x63; 0x65; 0x18; 0x02; 0x20; 0x01; 0x28; 0x09; 0x52;
   0x05; 0x6e; 0x6f; 0x6e; 0x63; 0x65; 0x22; 0x68; 0x0a; 0x0e; 0x43; 0x74; 0x72; 0x6c; 0x4f; 0x70;
   0x65; 0x6e; 0x54; 0x75; 0x6e; 0x6e; 0x65; 0x6c; 0x12; 0x14; 0x0a; 0x05; 0x61; 0x63; 0x6b; 0x49;
   0x64; 0x18; 0x01; 0x20; 0x01; 0x28; 0x03; 0x52; 0x05; 0x61; 0x63; 0x6b; 0x49; 0x64; 0x12; 0x20;
   0x0a; 0x0b; 0x76; 0x69; 0x72; 0x74; 0x41; 0x64; 0x64; 0x72; 0x65; 0x73; 0x73; 0x18; 0x02; 0x20;
   0x01; 0x28; 0x09; 0x52; 0x0b; 0x76; 0x69; 0x72; 0x74; 0x41; 0x64; 0x64; 0x72; 0x65; 0x73; 0x73;
   0x12; 0x1e; 0x0a; 0x0a; 0x75; 0x64; 0x70; 0x41; 0x64; 0x64; 0x72; 0x65; 0x73; 0x73; 0x18; 0x03;
   0x20; 0x01; 0x28; 0x09; 0x52; 0x0a; 0x75; 0x64; 0x70; 0x41; 0x64; 0x64; 0x72; 0x65; 0x73; 0x73;
   0x22; 0x29; 0x0a; 0x11; 0x43; 0x74; 0x72; 0x6c; 0x4f; 0x70; 0x65; 0x6e; 0x54; 0x75; 0x6e; 0x6e;
   0x65; 0x6c; 0x41; 0x63; 0x6b; 0x12; 0x14; 0x0a; 0x05; 0x61; 0x63; 0x6b; 0x49; 0x64; 0x18; 0x01;
   0x20; 0x01; 0x28; 0x03; 0x52; 0x05; 0x61; 0x63; 0x6b; 0x49; 0x64; 0x22; 0x41; 0x0a; 0x09; 0x43;
   0x74; 0x72; 0x6c; 0x52; 0x65; 0x6c; 0x61; 0x79; 0x12; 0x20; 0x0a; 0x0b; 0x76; 0x69; 0x72; 0x74;
   0x41; 0x64; 0x64; 0x72; 0x65; 0x73; 0x73; 0x18; 0x01; 0x20; 0x01; 0x28; 0x09; 0x52; 0x0b; 0x76;
   0x69; 0x72; 0x74; 0x41; 0x64; 0x64; 0x72; 0x65; 0x73; 0x73; 0x12; 0x12; 0x0a; 0x04; 0x64; 0x61;
   0x74; 0x61; 0x18; 0x02; 0x20; 0x01; 0x28; 0x0c; 0x52; 0x04; 0x64; 0x61; 0x74; 0x61; 0x2a; 0x67;
   0x0a; 0x0a; 0x50; 0x61; 0x63; 0x6b; 0x65; 0x74; 0x54; 0x79; 0x70; 0x65; 0x12; 0x0d; 0x0a; 0x09;
   0x48; 0x65; 0x61; 0x72; 0x74; 0x62; 0x65; 0x61; 0x74; 0x10; 0x00; 0x12; 0x09; 0x0a; 0x05; 0x52;
   0x65; 0x6c; 0x61; 0x79; 0x10; 0x01; 0x12; 0x0e; 0x0a; 0x0a; 0x4f; 0x70; 0x65; 0x6e; 0x54; 0x75;
   0x6e; 0x6e; 0x65; 0x6c; 0x10; 0x02; 0x12; 0x11; 0x0a; 0x0d; 0x4f; 0x70; 0x65; 0x6e; 0x54; 0x75;
   0x6e; 0x6e; 0x65; 0x6c; 0x41; 0x63; 0x6b; 0x10; 0x03; 0x12; 0x08; 0x0a; 0x04; 0x50; 0x69; 0x6e;
   0x67; 0x10; 0x04; 0x12; 0x08; 0x0a; 0x04; 0x50; 0x6f; 0x6e; 0x67; 0x10; 0x05; 0x12; 0x08; 0x0a;
   0x04; 0x44; 0x61; 0x74; 0x61; 0x10; 0x06; 0x2a; 0x7a; 0x0a; 0x0a; 0x53; 0x74; 0x61; 0x74; 0x75;
   0x73; 0x43; 0x6f; 0x64; 0x65; 0x12; 0x0b; 0x0a; 0x07; 0x53; 0x75; 0x63; 0x63; 0x65; 0x73; 0x73;
   0x10; 0x00; 0x12; 0x12; 0x0a; 0x0e; 0x53; 0x65; 0x72; 0x76; 0x65; 0x72; 0x49; 0x6e; 0x74; 0x65;
   0x72; 0x6e; 0x61; 0x6c; 0x10; 0x01; 0x12; 0x12; 0x0a; 0x0e; 0x49; 0x6e; 0x76; 0x61; 0x6c; 0x69;
   0x64; 0x56; 0x65; 0x72; 0x73; 0x69; 0x6f; 0x6e; 0x10; 0x02; 0x12; 0x11; 0x0a; 0x0d; 0x41; 0x64;
   0x64; 0x43; 0x6f; 0x6e; 0x66; 0x6c; 0x69; 0x63; 0x74; 0x65; 0x64; 0x10; 0x03; 0x12; 0x11; 0x0a;
   0x0d; 0x56; 0x65; 0x72; 0x73; 0x69; 0x6f; 0x6e; 0x54; 0x6f; 0x6f; 0x4f; 0x6c; 0x64; 0x10; 0x04;
   0x12; 0x11; 0x0a; 0x0d; 0x4b; 0x65; 0x79; 0x4e; 0x6f; 0x74; 0x4d; 0x61; 0x74; 0x63; 0x68; 0x65;
   0x64; 0x10; 0x05; 0x42; 0x0a; 0x5a; 0x08; 0x2f; 0x6d; 0x65; 0x73; 0x73; 0x61; 0x67; 0x65; 0x62;
   0x06; 0x70; 0x72; 0x6f; 0x74; 0x6f; 0x33].

(** ** Descriptors, as [descriptor.proto] numbers their fields *)

Record FieldDescriptor := {
  f_name : string; f_number : Z; f_label : Z; f_type : Z; f_json_name : string }.
Record Descriptor := { d_name : string; d_fields : list FieldDescriptor }.
Record EnumDescriptor := { e_name : string; e_values : list (Z * string) }.
Record FileDescriptor := {
  file_name : string; file_messages : list Descriptor; file_enums : list EnumDescriptor;
  file_go_package : string; file_syntax : string }.

Definition LABEL_OPTIONAL : Z := 1.
Definition TYPE_INT64 : Z := 3.
Definition TYPE_STRING : Z := 9.
Definition TYPE_BYTES : Z := 12.

(** The values of the fields of number [n], in their order. *)
Definition lens (n : Z) (fs : list (Z * wval)) : list bytes :=
  omap (λ f, match f with (i, WLen b) => if bool_decide (i = n) then Some b else None | _ => None end) fs.
Definition ints (n : Z) (fs : list (Z * wval)) : list Z :=
  omap (λ f, match f with (i, WVarint z) => if bool_decide (i = n) then Some z else None | _ => None end) fs.

(** The last one counts; a field that is missing is the zero value. *)
Definition str (n : Z) (fs : list (Z * wval)) : string := bytes_string (default [] (last (lens n fs))).
Definition int (n : Z) (fs : list (Z * wval)) : Z := default 0 (last (ints n fs)).

Definition parse (b : bytes) : option (list (Z * wval)) := get_fields (length b) b.

Definition parse_field (b : bytes) : option FieldDescriptor :=
  fs ← parse b;
  Some {| f_name := str 1 fs; f_number := int 3 fs; f_label := int 4 fs; f_type := int 5 fs;
          f_json_name := str 10 fs |}.

Definition parse_message (b : bytes) : option Descriptor :=
  fs ← parse b; l ← mapM parse_field (lens 2 fs); Some {| d_name := str 1 fs; d_fields := l |}.

Definition parse_value (b : bytes) : option (Z * string) := fs ← parse b; Some (int 2 fs, str 1 fs).

Definition parse_enum (b : bytes) : option EnumDescriptor :=
  fs ← parse b; l ← mapM parse_value (lens 2 fs); Some {| e_name := str 1 fs; e_values := l |}.

Definition parse_file (b : bytes) : option FileDescriptor :=
  fs ← parse b;
  ms ← mapM parse_message (lens 4 fs);
  es ← mapM parse_enum (lens 5 fs);
  options ← mapM parse (lens 8 fs);
  Some {| file_name := str 1 fs; file_messages := ms; file_enums := es;
          file_go_package := str 11 (concat options); file_syntax := str 12 fs |}.

(** ** The Go structs

    A field of a struct: its Go name and type, and its tags. *)
Inductive go_type := GoString | GoInt64 | GoBytes.

Record StructField := {
  g_name : string; g_type : go_type;
  g_wire : string; g_number : Z; g_card : string; g_proto : string; g_json : string }.

Definition virtAddress (n : Z) : StructField :=
  {| g_name := "VirtAddress"; g_type := GoString; g_wire := "bytes"; g_number := n; g_card := "opt";
     g_proto := "virtAddress"; g_json := "virtAddress" |}.
Definition nonce (n : Z) : StructField :=
  {| g_name := "Nonce"; g_type := GoString; g_wire := "bytes"; g_number := n; g_card := "opt";
     g_proto := "nonce"; g_json := "nonce" |}.
Definition ackId (n : Z) : StructField :=
  {| g_name := "AckId"; g_type := GoInt64; g_wire := "varint"; g_number := n; g_card := "opt";
     g_proto := "ackId"; g_json := "ackId" |}.

Definition CtrlHeartbeat_tags : list StructField := [virtAddress 1].
Definition CtrlPing_tags : list StructField := [virtAddress 1; nonce 2].
Definition CtrlPong_tags : list StructField := [virtAddress 1; nonce 2].
Definition CtrlOpenTunnel_tags : list StructField :=
  [ackId 1; virtAddress 2;
   {| g_name := "UdpAddress"; g_type := GoString; g_wire := "bytes"; g_number := 3; g_card := "opt";
      g_proto := "udpAddress"; g_json := "udpAddress" |}].
Definition CtrlOpenTunnelAck_tags : list StructField := [ackId 1].
Definition CtrlRelay_tags : list StructField :=
  [virtAddress 1;
   {| g_name := "Data"; g_type := GoBytes; g_wire := "bytes"; g_number := 2; g_card := "opt";
      g_proto := "data"; g_json := "data" |}].

Definition tags (k : kind) : list StructField :=
  match k with
  | KHeartbeat => CtrlHeartbeat_tags | KPing => CtrlPing_tags | KPong => CtrlPong_tags
  | KOpenTunnel => CtrlOpenTunnel_tags | KOpenTunnelAck => CtrlOpenTunnelAck_tags | KRelay => CtrlRelay_tags
  end.

(** The field of a struct, by its Go name. *)
Inductive value := VString (s : string) | VInt64 (z : Z) | VBytes (b : bytes).

Definition value_of (m : message) (name : string) : option value :=
  match m, name with
  | MHeartbeat h, "VirtAddress"%string => Some (VString (hb_VirtAddress h))
  | MPing p, "VirtAddress"%string => Some (VString (ping_VirtAddress p))
  | MPing p, "Nonce"%string => Some (VString (ping_Nonce p))
  | MPong p, "VirtAddress"%string => Some (VString (pong_VirtAddress p))
  | MPong p, "Nonce"%string => Some (VString (pong_Nonce p))
  | MOpenTunnel o, "AckId"%string => Some (VInt64 (ot_AckId o))
  | MOpenTunnel o, "VirtAddress"%string => Some (VString (ot_VirtAddress o))
  | MOpenTunnel o, "UdpAddress"%string => Some (VString (ot_UdpAddress o))
  | MOpenTunnelAck a, "AckId"%string => Some (VInt64 (ota_AckId a))
  | MRelay r, "VirtAddress"%string => Some (VString (rl_VirtAddress r))
  | MRelay r, "Data"%string => Some (VBytes (rl_Data r))
  | _, _ => None
  end.

(** What the tags say of a field, if type and tags go together. *)
Definition described_by (g : StructField) : option FieldDescriptor :=
  typ ← match g_type g, g_wire g with
        | GoString, "bytes"%string => Some TYPE_STRING
        | GoBytes, "bytes"%string => Some TYPE_BYTES
        | GoInt64, "varint"%string => Some TYPE_INT64
        | _, _ => None
        end;
  if bool_decide (g_card g = "opt"%string)
  then Some {| f_name := g_proto g; f_number := g_number g; f_label := LABEL_OPTIONAL; f_type := typ;
               f_json_name := g_json g |}
  else None.

(** The fields on the wire of a message by its descriptor: the value of each field, found
    through the tags, as the field's type is encoded in proto3. *)
Definition encode_value (n typ : Z) (v : value) : option (list (Z * wval)) :=
  match v with
  | VString s => if bool_decide (typ = TYPE_STRING) then Some (str_field n s) else None
  | VInt64 z => if bool_decide (typ = TYPE_INT64) then Some (int_field n z) else None
  | VBytes b => if bool_decide (typ = TYPE_BYTES) then Some (bytes_field n b) else None
  end.

Definition encode_field (m : message) (f : FieldDescriptor) : option (list (Z * wval)) :=
  g ← head (filter (λ g, g_proto g = f_name f) (tags (kind_of m)));
  v ← value_of m (g_name g);
  encode_value (f_number f) (f_type f) v.

Definition encode_by (d : Descriptor) (m : message) : option (list (Z * wval)) :=
  (λ l, concat l) <$> mapM (encode_field m) (d_fields d).

(** ** The indices of the types *)

Definition NumEnums : Z := 2.
Definition NumMessages : Z := 6.

Inductive enum := EPacketType | EStatusCode.

Definition file_api_proto_goTypes : list (enum + kind) :=
  [inl EPacketType; inl EStatusCode; inr KHeartbeat; inr KPing; inr KPong; inr KOpenTunnel;
   inr KOpenTunnelAck; inr KRelay].

(** The sub-lists of a descriptor's dependencies: none has any. *)
Definition file_api_proto_depIdxs : list Z := [0; 0; 0; 0; 0].

(** The names of the Go types. *)
Definition type_name (t : enum + kind) : string :=
  match t with
  | inl EPacketType => "PacketType" | inl EStatusCode => "StatusCode"
  | inr KHeartbeat => "CtrlHeartbeat" | inr KPing => "CtrlPing" | inr KPong => "CtrlPong"
  | inr KOpenTunnel => "CtrlOpenTunnel" | inr KOpenTunnelAck => "CtrlOpenTunnelAck" | inr KRelay => "CtrlRelay"
  end.

(** The maps of an enum's names and values. *)
Definition enum_names (e : enum) : gmap Z string :=
  match e with EPacketType => PacketType.PacketType_name | EStatusCode => StatusCode.StatusCode_name end.
Definition enum_numbers (e : enum) : gmap string Z :=
  match e with EPacketType => PacketType.PacketType_value | EStatusCode => StatusCode.StatusCode_value end.

(** *** The bookkeeping field [state] of a message, which caches the index of its type *)
Section reflect.
Variable UnsafeEnabled : bool.

Definition MessageState : Type := option Z.

(** What [ProtoReflect] returns: a view through the message's state, or through the type. *)
Inductive view := OfState (ms : MessageState) | MessageOf (mi : Z).

(** The body of every [ProtoReflect], for the type [mi]; a message may be [nil]. *)
Definition reflect_as (mi : Z) (x : option MessageState) : view * option MessageState :=
  match x with
  | Some ms =>
      if UnsafeEnabled then let ms := Some (default mi ms) in (OfState ms, Some ms) else (MessageOf mi, x)
  | None => (MessageOf mi, x)
  end.

Definition CtrlHeartbeat_ProtoReflect := reflect_as 0.
Definition CtrlPing_ProtoReflect := reflect_as 1.
Definition CtrlPong_ProtoReflect := reflect_as 2.
Definition CtrlOpenTunnel_ProtoReflect := reflect_as 3.
Definition CtrlOpenTunnelAck_ProtoReflect := reflect_as 4.
Definition CtrlRelay_ProtoReflect := reflect_as 5.

Definition ProtoReflect (k : kind) : option MessageState → view * option MessageState :=
  match k with
  | KHeartbeat => CtrlHeartbeat_ProtoReflect | KPing => CtrlPing_ProtoReflect
  | KPong => CtrlPong_ProtoReflect | KOpenTunnel => CtrlOpenTunnel_ProtoReflect
  | KOpenTunnelAck => CtrlOpenTunnelAck_ProtoReflect | KRelay => CtrlRelay_ProtoReflect
  end.

(** The state that a [Reset] leaves, for the type [mi]. *)
Definition reset_as (mi : Z) : MessageState := if UnsafeEnabled then Some mi else None.

Definition CtrlHeartbeat_Reset := reset_as 0.
Definition CtrlPing_Reset := reset_as 1.
Definition CtrlPong_Reset := reset_as 2.
Definition CtrlOpenTunnel_Reset := reset_as 3.
Definition CtrlOpenTunnelAck_Reset := reset_as 4.
Definition CtrlRelay_Reset := reset_as 5.

Definition Reset_state (k : kind) : MessageState :=
  match k with
  | KHeartbeat => CtrlHeartbeat_Reset | KPing => CtrlPing_Reset | KPong => CtrlPong_Reset
  | KOpenTunnel => CtrlOpenTunnel_Reset | KOpenTunnelAck => CtrlOpenTunnelAck_Reset | KRelay => CtrlRelay_Reset
  end.

Definition view_index (v : view) : option Z := match v with OfState ms => ms | MessageOf mi => Some mi end.

(** The state of a message of type [k]: fresh, or as [Reset] or [ProtoReflect] left it. *)
Definition own_state (k : kind) (x : option MessageState) : Prop :=
  ∀ ms, x = Some ms → ms = None ∨ ms = Reset_state k.

Lemma reflect_own mi k x v x' :
  Reset_state k = reset_as mi → own_state k x → reflect_as mi x = (v, x') →
  view_index v = Some mi ∧ own_state k x'.
Proof.
  unfold own_state, reflect_as. intros ->. unfold reset_as. intros Hx. destruct x as [ms|]; [|by intros [= <- <-]].
  destruct UnsafeEnabled; intros [= <- <-]; simpl; [|naive_solver].
  destruct (Hx ms eq_refl) as [->| ->]; simpl; naive_solver.
Qed.

End reflect.

(** The [Exporter]s, by the types they are for.  That of the message type [i] gives the
    runtime the unexported fields of a message, by their numbers; a message of another type
    is a failed assertion, and so is the call of one that was not set. *)
Inductive unexported := state_ | sizeCache | unknownFields.

Definition exported_types : list kind := [KHeartbeat; KPing; KPong; KOpenTunnel; KOpenTunnelAck; KRelay].

Definition Exporter (types : list kind) (i : nat) (v : kind) (n : Z) : outcome (option unexported) :=
  if bool_decide (types !! i = Some v) then
    Ret (if bool_decide (n = 0) then Some state_ else if bool_decide (n = 1) then Some sizeCache
         else if bool_decide (n = 2) then Some unknownFields else None)
  else Panic "interface conversion".

(** ** The package *)
Section package.
Variable File : Type.
Variable CompressGZIP : bytes → bytes.
Variable Build : bytes → Z → Z → list (enum + kind) → list Z → File.
Variable UnsafeEnabled : bool.

Record package := {
  File_api_proto : option File;
  rawDesc : bytes;
  rawDescData : bytes;
  rawDescOnce : bool;
  goTypes : list (enum + kind);
  depIdxs : list Z;
  exporters : list kind;
}.

(** The package before its [init]: a variable that is initialized with another shares its
    bytes. *)
Definition uninitialized : package := {|
  File_api_proto := None; rawDesc := file_api_proto_rawDesc; rawDescData := file_api_proto_rawDesc;
  rawDescOnce := false; goTypes := file_api_proto_goTypes; depIdxs := file_api_proto_depIdxs;
  exporters := [] |}.

Definition file_api_proto_init (p : package) : package :=
  match File_api_proto p with
  | Some _ => p
  | None =>
      {| File_api_proto := Some (Build (rawDesc p) NumEnums NumMessages (goTypes p) (depIdxs p)); rawDesc := [];
         rawDescData := rawDescData p; rawDescOnce := rawDescOnce p; goTypes := []; depIdxs := [];
         exporters := if UnsafeEnabled then exporters p else exported_types |}
  end.

Definition file_api_proto_rawDescGZIP (p : package) : bytes * package :=
  let p := if rawDescOnce p then p else
    {| File_api_proto := File_api_proto p; rawDesc := rawDesc p;
       rawDescData := CompressGZIP (rawDescData p); rawDescOnce := true; goTypes := goTypes p;
       depIdxs := depIdxs p; exporters := exporters p |} in
  (rawDescData p, p).

(** The body of every [Descriptor] and [EnumDescriptor], for the type [i] of its sort. *)
Definition described_at (i : Z) (p : package) : (bytes * list Z) * package :=
  let '(b, p) := file_api_proto_rawDescGZIP p in ((b, [i]), p).

Definition PacketType_EnumDescriptor := described_at 0.
Definition StatusCode_EnumDescriptor := described_at 1.
Definition CtrlHeartbeat_Descriptor := described_at 0.
Definition CtrlPing_Descriptor := described_at 1.
Definition CtrlPong_Descriptor := described_at 2.
Definition CtrlOpenTunnel_Descriptor := described_at 3.
Definition CtrlOpenTunnelAck_Descriptor := described_at 4.
Definition CtrlRelay_Descriptor := described_at 5.

(** The methods by the type that has them. *)
Definition EnumDescriptor_of (e : enum) : package → (bytes * list Z) * package :=
  match e with EPacketType => PacketType_EnumDescriptor | EStatusCode => StatusCode_EnumDescriptor end.
Definition Descriptor_of (k : kind) : package → (bytes * list Z) * package :=
  match k with
  | KHeartbeat => CtrlHeartbeat_Descriptor | KPing => CtrlPing_Descriptor | KPong => CtrlPong_Descriptor
  | KOpenTunnel => CtrlOpenTunnel_Descriptor | KOpenTunnelAck => CtrlOpenTunnelAck_Descriptor
  | KRelay => CtrlRelay_Descriptor
  end.

(** The package after its [init] and any calls of the two. *)
Inductive reachable : package → Prop :=
| reachable_init : reachable (file_api_proto_init uninitialized)
| reachable_again p : reachable p → reachable (file_api_proto_init p)
| reachable_gzip p : reachable p → reachable (file_api_proto_rawDescGZIP p).2.

Definition package_inv (p : package) : Prop :=
  File_api_proto p =
    Some (Build file_api_proto_rawDesc NumEnums NumMessages file_api_proto_goTypes file_api_proto_depIdxs) ∧
  exporters p = (if UnsafeEnabled then [] else exported_types) ∧
  rawDescData p = if rawDescOnce p then CompressGZIP file_api_proto_rawDesc else file_api_proto_rawDesc.

Lemma package_reachable_inv p : reachable p → package_inv p.
Proof.
  induction 1 as [|p _ (Hf & He & Hd)|p _ (Hf & He & Hd)].
  - done.
  - unfold file_api_proto_init. by rewrite Hf.
  - unfold file_api_proto_rawDescGZIP. by destruct (rawDescOnce p) eqn:E; split_and!; simpl; rewrite ?E, ?Hd.
Qed.

Lemma rawDescGZIP_compressed p :
  reachable p → (file_api_proto_rawDescGZIP p).1 = CompressGZIP file_api_proto_rawDesc.
Proof.
  intros (_ & _ & Hd)%package_reachable_inv. unfold file_api_proto_rawDescGZIP. by destruct (rawDescOnce p); simpl; rewrite Hd.
Qed.

Lemma described_at_run i p :
  reachable p → (described_at i p).1 = (CompressGZIP file_api_proto_rawDesc, [i]).
Proof.
  intros Hp%rawDescGZIP_compressed. unfold described_at.
  destruct (file_api_proto_rawDescGZIP p) as [b p']. simpl in *. by subst b.
Qed.

End package.

(** ** The descriptor decoded *)

Definition field_descriptor (name : string) (n typ : Z) : FieldDescriptor :=
  {| f_name := name; f_number := n; f_label := LABEL_OPTIONAL; f_type := typ; f_json_name := name |}.

(** [protos/api.proto]. *)
Definition api_proto : FileDescriptor := {|
  file_name := "api.proto";
  file_messages :=
    [{| d_name := "CtrlHeartbeat"; d_fields := [field_descriptor "virtAddress" 1 TYPE_STRING] |};
     {| d_name := "CtrlPing";
        d_fields := [field_descriptor "virtAddress" 1 TYPE_STRING; field_descriptor "nonce" 2 TYPE_STRING] |};
     {| d_name := "CtrlPong";
        d_fields := [field_descriptor "virtAddress" 1 TYPE_STRING; field_descriptor "nonce" 2 TYPE_STRING] |};
     {| d_name := "CtrlOpenTunnel";
        d_fields := [field_descriptor "ackId" 1 TYPE_INT64; field_descriptor "virtAddress" 2 TYPE_STRING;
                     field_descriptor "udpAddress" 3 TYPE_STRING] |};
     {| d_name := "CtrlOpenTunnelAck"; d_fields := [field_descriptor "ackId" 1 TYPE_INT64] |};
     {| d_name := "CtrlRelay";
        d_fields := [field_descriptor "virtAddress" 1 TYPE_STRING; field_descriptor "data" 2 TYPE_BYTES] |}];
  file_enums :=
    [{| e_name := "PacketType"; e_values := [(0, "Heartbeat"%string); (1, "Relay"%string); (2, "OpenTunnel"%string);
          (3, "OpenTunnelAck"%string); (4, "Ping"%string); (5, "Pong"%string); (6, "Data"%string)] |};
     {| e_name := "StatusCode"; e_values := [(0, "Success"%string); (1, "ServerInternal"%string);
          (2, "InvalidVersion"%string); (3, "AddConflicted"%string); (4, "VersionTooOld"%string);
          (5, "KeyNotMatched"%string)] |}];
  file_go_package := "/message";
  file_syntax := "proto3" |}.

Lemma rawDesc_decodes : parse_file file_api_proto_rawDesc = Some api_proto.
Proof. by vm_compute. Qed.

(** Replaces a descriptor that an equation computes. *)
Ltac computed H := vm_compute in H; injection H as <-.

(** The place of a type among those of its sort. *)
Definition message_index (k : kind) : nat :=
  match k with
  | KHeartbeat => 0 | KPing => 1 | KPong => 2 | KOpenTunnel => 3 | KOpenTunnelAck => 4 | KRelay => 5
  end.
Definition enum_index (e : enum) : nat := match e with EPacketType => 0 | EStatusCode => 1 end.

Definition message_descriptor (k : kind) : option Descriptor := file_messages api_proto !! message_index k.
Definition enum_descriptor (e : enum) : option EnumDescriptor := file_enums api_proto !! enum_index e.

Lemma encode_by_descriptor m d : message_descriptor (kind_of m) = Some d → encode_by d m = Some (fields m).
Proof.
  destruct m; intros Hd; computed Hd; unfold encode_by; simpl; by rewrite ?app_nil_r.
Qed.

(** Each map of an enum has the descriptor's values, one under its number, one under its name. *)
Lemma enum_maps e d :
  enum_descriptor e = Some d →
  (∀ z s, (z, s) ∈ e_values d ↔ enum_names e !! z = Some s) ∧
  (∀ z s, enum_names e !! z = Some s ↔ enum_numbers e !! s = Some z).
Proof.
  intros Hd.
  assert (enum_names e = list_to_map (e_values d)) as Hn by (destruct e; by computed Hd).
  assert (enum_numbers e = list_to_map (prod_swap <$> e_values d)) as Hm by (destruct e; by computed Hd).
  assert (NoDup (e_values d).*1 ∧ NoDup (prod_swap <$> e_values d).*1) as [N1 N2].
  { destruct e; computed Hd; split; apply (bool_decide_unpack _); by vm_compute. }
  assert (∀ z s, (z, s) ∈ e_values d ↔ enum_names e !! z = Some s) as H1.
  { intros z s. rewrite Hn. split; [by apply elem_of_list_to_map_1|by apply elem_of_list_to_map_2]. }
  split; [exact H1|]. intros z s. rewrite <- H1, Hm.
  assert ((z, s) ∈ e_values d ↔ (s, z) ∈ prod_swap <$> e_values d) as ->.
  { rewrite list_elem_of_fmap. split; [by exists (z, s)|]. intros ([z' s'] & [= -> ->] & ?). done. }
  split; [by apply elem_of_list_to_map_1|by apply elem_of_list_to_map_2].
Qed.

(** C20: The tables of the message package fit each other and the Go types.  The embedded
    bytes decode to [protos/api.proto].  At any time after the package was initialized, the
    index that [Descriptor] or [EnumDescriptor] of a type returns, together with the
    compressed bytes, is that of the type's own entry: the entry has the Go type's name, and
    the Go type has that place among the Go types.  A message's entry has the fields that the
    types and tags of the struct give; reflecting a fresh, reset or reflected message finds
    the same index, whose exporter, where exporters are set, takes messages of that type and
    no other; and encoding a
    message field by field as its entry says gives the bytes of the wire format.  An enum's
    entry has exactly the values of its two Go maps, which are the inverse of each other. *)
Theorem descriptor_describes_types File CompressGZIP Build u :
  parse_file file_api_proto_rawDesc = Some api_proto ∧
  Z.of_nat (length (file_messages api_proto)) = NumMessages ∧
  Z.of_nat (length (file_enums api_proto)) = NumEnums ∧
  (∀ k, ∃ i d,
    (∀ (p : package File), reachable File CompressGZIP Build u p →
      (Descriptor_of File CompressGZIP k p).1 = (CompressGZIP file_api_proto_rawDesc, [Z.of_nat i])) ∧
    file_messages api_proto !! i = Some d ∧ d_name d = type_name (inr k) ∧
    file_api_proto_goTypes !! (Z.to_nat NumEnums + i)%nat = Some (inr k) ∧
    mapM described_by (tags k) = Some (d_fields d) ∧
    (∀ x v x', own_state u k x → ProtoReflect u k x = (v, x') →
      view_index v = Some (Z.of_nat i) ∧ own_state u k x') ∧
    (∀ (p : package File) k' n, reachable File CompressGZIP Build u p → u = false →
      is_panic (Exporter (exporters File p) i k' n) = negb (bool_decide (k' = k))) ∧
    (∀ m, kind_of m = k → valid_message m = true →
      (λ fs, concat (map put_field fs)) <$> encode_by d m = marshal m)) ∧
  (∀ e, ∃ i d,
    (∀ (p : package File), reachable File CompressGZIP Build u p →
      (EnumDescriptor_of File CompressGZIP e p).1 = (CompressGZIP file_api_proto_rawDesc, [Z.of_nat i])) ∧
    file_enums api_proto !! i = Some d ∧ e_name d = type_name (inl e) ∧
    file_api_proto_goTypes !! i = Some (inl e) ∧
    (∀ z s, (z, s) ∈ e_values d ↔ enum_names e !! z = Some s) ∧
    (∀ z s, enum_names e !! z = Some s ↔ enum_numbers e !! s = Some z)).
Proof.
  split_and!; [apply rawDesc_decodes|done|done| |].
  - intros k. assert (∃ d, message_descriptor k = Some d) as [d Hd] by (destruct k; by eexists).
    exists (message_index k), d. split_and!; [|exact Hd|try (by destruct k; computed Hd)..|].
    + intros p Hp. destruct k; exact (described_at_run _ _ _ _ _ _ Hp).
    + intros x v x'. destruct k; by apply reflect_own.
    + intros p k' n (_ & He & _)%package_reachable_inv ->. rewrite He. by destruct k, k'.
    + intros m <- Hv. rewrite (encode_by_descriptor m d Hd). simpl. by rewrite Hv.
  - intros e. assert (∃ d, enum_descriptor e = Some d) as [d Hd] by (destruct e; by eexists).
    destruct (enum_maps e d Hd) as [H1 H2]. exists (enum_index e), d.
    split_and!; [|exact Hd|by destruct e; computed Hd|by destruct e|exact H1|exact H2].
    intros p Hp. destruct e; exact (described_at_run _ _ _ _ _ _ Hp).
Qed.
