(* ===== verification/Net.v ===== *)
(** * The parts of Go's net package that the program calls

    [net.IP] values, [IP.Mask], [IP.Equal], [IP.String] and [net.ParseIP], as the standard
    library of the Go version in [go.mod] defines them.  A [nil] IP is the empty slice.
    The IPv6 text form is left as a parameter of the two functions that use it. *)

From Stdlib Require Import Ascii.
From S2P Require Import Prelude.

Abbreviation IP := (list Byte.byte).

Definition IPv4len : nat := 4.
Definition IPv6len : nat := 16.

Definition v4InV6Prefix : bytes := replicate 10 Byte.x00 ++ [Byte.xff; Byte.xff].

Definition allFF (b : bytes) : bool := forallb (λ x, bool_decide (x = Byte.xff)) b.

Definition byte_and (a b : byte) : byte := to_byte (Z.land (byte_val a) (byte_val b)).

Definition IPv4 (a b c d : byte) : IP := v4InV6Prefix ++ [a; b; c; d].

(** [ip.Mask(mask)]. *)
Definition Mask (ip : IP) (mask : bytes) : IP :=
  let mask := if bool_decide (length mask = IPv6len ∧ length ip = IPv4len) && allFF (take 12 mask)
              then drop 12 mask else mask in
  let ip := if bool_decide (length mask = IPv4len ∧ length ip = IPv6len)
               && bool_decide (take 12 ip = v4InV6Prefix)
            then drop 12 ip else ip in
  if bool_decide (length ip = length mask) then zip_with byte_and ip mask else [].

(** [ip.Equal(x)]. *)
Definition Equal (ip x : IP) : bool :=
  if bool_decide (length ip = length x) then bool_decide (ip = x)
  else if bool_decide (length ip = IPv4len ∧ length x = IPv6len)
  then bool_decide (take 12 x = v4InV6Prefix) && bool_decide (ip = drop 12 x)
  else if bool_decide (length ip = IPv6len ∧ length x = IPv4len)
  then bool_decide (take 12 ip = v4InV6Prefix) && bool_decide (drop 12 ip = x)
  else false.

Definition To4 (ip : IP) : IP :=
  if bool_decide (length ip = IPv4len) then ip
  else if bool_decide (length ip = IPv6len) && bool_decide (take 12 ip = v4InV6Prefix)
  then drop 12 ip else [].

Definition byte_dec (b : byte) : string := pretty (Byte.to_N b).

Definition dotted (a b c d : byte) : string :=
  (byte_dec a +:+ "." +:+ byte_dec b +:+ "." +:+ byte_dec c +:+ "." +:+ byte_dec d)%string.

Section text.
(** How an address that is not IPv4 prints and parses. *)
Variable string6 : IP → string.
Variable parse6 : string → IP.

(** [ip.String()]. *)
Definition IP_String (ip : IP) : string :=
  match ip with
  | [] => "<nil>"
  | _ => match To4 ip with
         | [a; b; c; d] => dotted a b c d
         | _ => string6 ip
         end
  end.

(** [dtoi]: a decimal number, and the rest of the string. *)
Definition digit (c : Ascii.ascii) : option Z :=
  let z := Z.of_N (Ascii.N_of_ascii c) in
  if bool_decide (48 ≤ z ∧ z ≤ 57)%Z then Some (z - 48)%Z else None.

Definition big : Z := 16777215.

Fixpoint dtoi_go (n : Z) (some : bool) (s : string) : option (Z * string) :=
  match s with
  | EmptyString => if some then Some (n, s) else None
  | String c r =>
      match digit c with
      | Some d => let n := (n * 10 + d)%Z in
                  if bool_decide (big ≤ n)%Z then None else dtoi_go n true r
      | None => if some then Some (n, s) else None
      end
  end.

Definition dtoi : string → option (Z * string) := dtoi_go 0 false.

(** The loop of [parseIPv4] over the octets that are left; [first] is [i == 0]. *)
Fixpoint parseIPv4_go (k : nat) (first : bool) (s : string) : option bytes :=
  match k with
  | O => match s with EmptyString => Some [] | _ => None end
  | S k' =>
      s ← (match s with
           | EmptyString => None
           | String c r =>
               if first then Some s
               else if bool_decide (c = "."%char) then Some r else None
           end);
      '(n, r) ← dtoi s;
      if bool_decide (255 < n)%Z then None
      else o ← parseIPv4_go k' false r; Some (to_byte n :: o)
  end.

Definition parseIPv4 (s : string) : IP :=
  match parseIPv4_go IPv4len true s with
  | Some [a; b; c; d] => IPv4 a b c d
  | _ => []
  end.

(** [net.ParseIP]: the first ['.'] or [':'] decides the family. *)
Fixpoint ParseIP_scan (s : string) : option bool :=
  match s with
  | EmptyString => None
  | String c r =>
      if bool_decide (c = "."%char) then Some true
      else if bool_decide (c = ":"%char) then Some false
      else ParseIP_scan r
  end.

Definition ParseIP (s : string) : IP :=
  match ParseIP_scan s with
  | Some true => parseIPv4 s
  | Some false => parse6 s
  | None => []
  end.

(** ** Printing and parsing IPv4 addresses *)

(** A string at which [dtoi] stops. *)
Definition stops (s : string) : Prop :=
  s = ""%string ∨ ∃ r, s = String "." r.

Lemma dtoi_byte_dec b r : stops r → dtoi (byte_dec b +:+ r) = Some (byte_val b, r).
Proof.
  intros [-> | [r' ->]]; destruct b; vm_compute; done.
Qed.

Lemma byte_dec_cons b : ∃ c r, byte_dec b = String c r ∧ c ≠ "."%char ∧ c ≠ ":"%char.
Proof. destruct b; (eexists _, _; split; [vm_compute; reflexivity|done]). Qed.

Lemma byte_dec_inj a b r s :
  stops r → stops s → (byte_dec a +:+ r)%string = (byte_dec b +:+ s)%string → a = b ∧ r = s.
Proof.
  intros Hr Hs H. apply (f_equal dtoi) in H.
  rewrite !dtoi_byte_dec in H by done. injection H as H ->. eauto using byte_val_inj.
Qed.

Lemma parseIPv4_go_byte k first b r o :
  stops r → parseIPv4_go k false r = Some o →
  parseIPv4_go (S k) first
    ((if first then ""%string else "."%string) +:+ (byte_dec b +:+ r)) = Some (b :: o).
Proof.
  intros Hr Ho. pose proof (dtoi_byte_dec b r Hr) as Hd.
  pose proof (byte_val_range b).
  assert ((byte_dec b +:+ r)%string ≠ ""%string).
  { destruct (byte_dec_cons b) as (c & t & Hb & _). by rewrite Hb. }
  unfold parseIPv4_go; fold parseIPv4_go.
  assert (∀ s, s ≠ ""%string → dtoi s = Some (byte_val b, r) →
    ('(n, r) ← dtoi s; if bool_decide (255 < n)%Z then None
      else o ← parseIPv4_go k false r; Some (to_byte n :: o)) = Some (b :: o)) as Hs.
  { intros s _ ->. simpl. rewrite bool_decide_eq_false_2 by lia.
    rewrite Ho; simpl. by rewrite to_byte_val. }
  destruct first; simpl.
  - destruct (byte_dec b +:+ r)%string eqn:E; [done|]. by apply Hs.
  - by apply Hs.
Qed.

Lemma parseIPv4_dotted a b c d : parseIPv4 (dotted a b c d) = IPv4 a b c d.
Proof.
  unfold parseIPv4, dotted.
  pose proof (parseIPv4_go_byte 0 false d ""%string [] (or_introl eq_refl) eq_refl) as Hd.
  pose proof (parseIPv4_go_byte 1 false c _ _ (or_intror (ex_intro _ _ eq_refl)) Hd) as Hc.
  pose proof (parseIPv4_go_byte 2 false b _ _ (or_intror (ex_intro _ _ eq_refl)) Hc) as Hb.
  pose proof (parseIPv4_go_byte 3 true a _ _ (or_intror (ex_intro _ _ eq_refl)) Hb) as Ha.
  rewrite string_app_nil_r in Ha. change (parseIPv4_go 4 true (dotted a b c d) = Some [a; b; c; d]) in Ha.
  unfold IPv4len. unfold dotted in Ha. by rewrite Ha.
Qed.
Lemma stops_dot r : stops (String "." r).
Proof. right. eauto. Qed.

Lemma stops_nil : stops "".
Proof. by left. Qed.

Lemma dotted_inj a b c d a' b' c' d' :
  dotted a b c d = dotted a' b' c' d' → [a; b; c; d] = [a'; b'; c'; d'].
Proof.
  unfold dotted. intros H. rewrite <- (string_app_nil_r (byte_dec d)),
    <- (string_app_nil_r (byte_dec d')) in H.
  apply byte_dec_inj in H as [-> H]; [|apply stops_dot..]. apply String.app_inj in H.
  apply byte_dec_inj in H as [-> H]; [|apply stops_dot..]. apply String.app_inj in H.
  apply byte_dec_inj in H as [-> H]; [|apply stops_dot..]. apply String.app_inj in H.
  by apply byte_dec_inj in H as [-> _]; [|apply stops_nil..].
Qed.

Lemma ParseIP_scan_dotted a b c d : ParseIP_scan (dotted a b c d) = Some true.
Proof. unfold dotted. by destruct a. Qed.

Lemma ParseIP_dotted a b c d : ParseIP (dotted a b c d) = IPv4 a b c d.
Proof. unfold ParseIP. by rewrite ParseIP_scan_dotted, parseIPv4_dotted. Qed.

Lemma IP_String_4 a b c d : IP_String [a; b; c; d] = dotted a b c d.
Proof. done. Qed.

End text.

(** ** Addresses are ASCII *)

Definition ascii_string (s : string) : Prop := Forall (λ b, byte_val b < 128)%Z (string_bytes s).

Lemma string_bytes_app s t : string_bytes (s +:+ t) = string_bytes s ++ string_bytes t.
Proof.
  induction s as [|c s IH]; [done|].
  change (Ascii.byte_of_ascii c :: string_bytes (s +:+ t)
          = Ascii.byte_of_ascii c :: (string_bytes s ++ string_bytes t)).
  by rewrite IH.
Qed.

Lemma ascii_string_app s t : ascii_string s → ascii_string t → ascii_string (s +:+ t).
Proof. unfold ascii_string. rewrite string_bytes_app. intros. by apply Forall_app. Qed.

Lemma byte_dec_ascii b : ascii_string (byte_dec b).
Proof. destruct b; repeat constructor. Qed.

Lemma dotted_ascii a b c d : ascii_string (dotted a b c d).
Proof.
  assert (ascii_string ".") by repeat constructor.
  unfold dotted. repeat apply ascii_string_app; auto using byte_dec_ascii.
Qed.

Lemma length_byte_dec b : (length (string_bytes (byte_dec b)) <= 3)%nat.
Proof. destruct b; vm_compute; lia. Qed.

Lemma length_dotted a b c d : (length (string_bytes (dotted a b c d)) <= 15)%nat.
Proof.
  unfold dotted. rewrite !string_bytes_app, !length_app. change (length (string_bytes ".")) with 1%nat.
  pose proof (length_byte_dec a). pose proof (length_byte_dec b). pose proof (length_byte_dec c).
  pose proof (length_byte_dec d). lia.
Qed.

(** ** Masks *)

Lemma byte_and_ff b : byte_and b Byte.xff = b.
Proof. by destruct b. Qed.

Lemma byte_and_00 b : byte_and b Byte.x00 = Byte.x00.
Proof. by destruct b. Qed.

(** The [/16] mask of the program. *)
Lemma Mask16_4 a b c d :
  Mask [a; b; c; d] [Byte.xff; Byte.xff; Byte.x00; Byte.x00] = [a; b; Byte.x00; Byte.x00].
Proof. unfold Mask; simpl. by rewrite !byte_and_ff, !byte_and_00. Qed.

Lemma Mask16_IPv4 a b c d :
  Mask (IPv4 a b c d) [Byte.xff; Byte.xff; Byte.x00; Byte.x00] = [a; b; Byte.x00; Byte.x00].
Proof. unfold Mask; simpl. by rewrite !byte_and_ff, !byte_and_00. Qed.

Lemma Equal_same_length (a b : IP) : length a = length b → Equal a b = bool_decide (a = b).
Proof. intros H. unfold Equal. by rewrite bool_decide_eq_true_2. Qed.
