(* ===== verification/Sys.v ===== *)
(** * Programs over the operating system

    The code that opens a device is a sequence of calls to the operating system, to a
    driver's library or to a command, and what it does next depends on the replies.  Such
    code is a [prog]: a finite tree of calls.  A [host] answers the calls; [run] is the
    program on a host, with the trace of the calls and their replies.  A theorem on all
    hosts is one on the paths of the tree ([every]). *)

From S2P Require Import Prelude.

(** ** Errors

    [errors.New], [fmt.Errorf] with a verb for an error (the text is the format), and
    [syscall.Errno]. *)
Inductive error := New (text : string) | Wrap (text : string) (e : error) | Errno (z : Z).

#[global] Instance error_eq_dec : EqDecision error.
Proof. solve_decision. Defined.

(** ** Programs *)

Inductive prog {C : Type} (reply : C → Type) (A : Type) : Type :=
| Done (a : A)
| Crash (msg : string)
| Do (c : C) (k : reply c → prog reply A).
Arguments Done {C reply A} a.
Arguments Crash {C reply A} msg.
Arguments Do {C reply A} c k.

Section prog.
Context {C : Type} {reply : C → Type}.

Abbreviation prog := (prog reply).

#[global] Instance prog_ret : MRet prog := @Done C reply.

#[global] Instance prog_bind : MBind prog := λ A B f,
  fix bind (m : prog A) : prog B :=
    match m with
    | Done a => f a
    | Crash msg => Crash msg
    | Do c k => Do c (λ r, bind (k r))
    end.

(** One call. *)
Definition do (c : C) : prog (reply c) := Do c Done.

(** [defer d]: [d] runs when the function returns, and when it panics. *)
Fixpoint defer {A} (d : prog ()) (m : prog A) : prog A :=
  match m with
  | Done a => d ≫= λ _, Done a
  | Crash msg => d ≫= λ _, Crash msg
  | Do c k => Do c (λ r, defer d (k r))
  end.

(** A function with an error result: [x, err := m; if err != nil { return nil, err }]. *)
Definition or_return {A B} (m : prog (A + error)) (f : A → prog (B + error)) : prog (B + error) :=
  m ≫= λ r, match r with inl a => f a | inr e => Done (inr e) end.

(** The error that is returned in place of another one. *)
Definition with_error {A} (f : error → error) (m : prog (A + error)) : prog (A + error) :=
  m ≫= λ r, Done match r with inl a => inl a | inr e => inr (f e) end.

(** ** Hosts and traces *)

Definition event : Type := {c : C & reply c}.

Definition host (S : Type) : Type := ∀ c : C, S → reply c * S.

Fixpoint run {S A} (h : host S) (m : prog A) (s : S) : outcome A * list event * S :=
  match m with
  | Done a => (Ret a, [], s)
  | Crash msg => (Panic msg, [], s)
  | Do c k =>
      let '(r, s) := h c s in
      let '(o, tr, s) := run h (k r) s in (o, existT c r :: tr, s)
  end.

(** The calls of a trace. *)
Definition calls (tr : list event) : list C := projT1 <$> tr.

(** [Q] holds of the trace and the outcome of every path. *)
Fixpoint every {A} (m : prog A) (Q : list event → outcome A → Prop) : Prop :=
  match m with
  | Done a => Q [] (Ret a)
  | Crash msg => Q [] (Panic msg)
  | Do c k => ∀ r, every (k r) (λ tr, Q (existT c r :: tr))
  end.

Lemma every_run {S A} (h : host S) (m : prog A) s Q :
  every m Q → Q (run h m s).1.2 (run h m s).1.1.
Proof.
  revert s Q. induction m as [a|msg|c k IH]; intros s Q; simpl; [done..|].
  intros HQ. destruct (h c s) as [r s'].
  specialize (IH r s' _ (HQ r)). by destruct (run h (k r) s') as [[o tr] s''].
Qed.

Lemma run_every {S A} (h : host S) (m : prog A) s Q :
  every m Q → let '(o, tr, _) := run h m s in Q tr o.
Proof. intros Hm. pose proof (every_run h m s Q Hm) as HQ. by destruct (run h m s) as [[o tr] s']. Qed.

Lemma every_mono {A} (m : prog A) (P Q : list event → outcome A → Prop) :
  (∀ tr o, P tr o → Q tr o) → every m P → every m Q.
Proof.
  revert P Q. induction m as [a|msg|c k IH]; intros P Q HPQ; simpl; [by auto..|].
  intros HP r. eapply IH; [|exact (HP r)]. simpl. auto.
Qed.

Lemma every_bind {A B} (m : prog A) (f : A → prog B) Q :
  every m (λ tr o, match o with
                   | Ret a => every (f a) (λ tr', Q (tr ++ tr'))
                   | Panic msg => Q tr (Panic msg)
                   | Block => True
                   end) →
  every (m ≫= f) Q.
Proof.
  revert Q. induction m as [a|msg|c k IH]; intros Q; simpl; [by auto..|].
  intros Hm r. apply IH. exact (Hm r).
Qed.

Lemma every_defer {A} (d : prog ()) (m : prog A) Q :
  every m (λ tr o, every d (λ tr' o', match o' with
                                      | Ret _ => Q (tr ++ tr') o
                                      | Panic msg => Q (tr ++ tr') (Panic msg)
                                      | Block => True
                                      end)) →
  every (defer d m) Q.
Proof.
  revert Q. induction m as [a|msg|c k IH]; intros Q; simpl.
  - intros Hd. apply every_bind. eapply every_mono; [|exact Hd].
    intros tr [[]|msg|]; simpl; try done. by rewrite app_nil_r.
  - intros Hd. apply every_bind. eapply every_mono; [|exact Hd].
    intros tr [[]|msg'|]; simpl; try done. by rewrite app_nil_r.
  - intros Hm r. apply IH. exact (Hm r).
Qed.

Lemma every_and {A} (m : prog A) P Q : every m P → every m Q → every m (λ tr o, P tr o ∧ Q tr o).
Proof.
  revert P Q. induction m as [a|msg|c k IH]; intros P Q; simpl; [done..|].
  intros HP HQ r. apply IH; auto.
Qed.

Lemma every_not_blocked {A} (m : prog A) : every m (λ _ o, o ≠ Block).
Proof. induction m as [a|msg|c k IH]; simpl; [done..|]. intros r. apply IH. Qed.

End prog.

#[global] Arguments event {C} reply.
#[global] Arguments host {C} reply S.

Notation "x ←? m ; k" := (or_return m (λ x : _, k))
  (at level 20, m at level 100, k at level 200, only parsing) : stdpp_scope.
Notation "' x ←? m ; k" := (or_return m (λ x : _, k))
  (at level 20, x pattern, m at level 100, k at level 200, only parsing) : stdpp_scope.

(** What holds of every path, one call at a time; [tac] unfolds the replies. *)
Ltac path_with tac :=
  repeat first
    [ progress cbn [every mbind prog_bind mret prog_ret do or_return with_error defer fst snd
        calls fmap list_fmap projT1 app]
    | tac
    | case_bool_decide
    | match goal with
      | |- ∀ r : _ + _, _ => intros [?|?]
      | |- ∀ r : option _, _ => intros [?|]
      | |- ∀ r : _ * _, _ => intros [? ?]
      | |- ∀ _, _ => intros ?
      | |- context [match ?r with Some _ => _ | None => _ end] => is_var r; destruct r
      | |- context [match ?p with pair _ _ => _ end] => is_var p; destruct p
      end ].

(** ** Ledgers

    What a trace leaves behind, as a list: an event may add an entry or take one away. *)
Section ledger.
Context {A : Type} `{EqDecision A}.

Fixpoint remove1 (x : A) (l : list A) : list A :=
  match l with
  | [] => []
  | y :: l => if bool_decide (x = y) then l else y :: remove1 x l
  end.

Inductive entry := Adds (x : A) | Takes (x : A) | Skips.

Definition post (e : entry) (l : list A) : list A :=
  match e with Adds x => x :: l | Takes x => remove1 x l | Skips => l end.

(** The ledger at the end of a trace. *)
Definition balance {E} (f : E → entry) (tr : list E) (l : list A) : list A :=
  foldl (λ l e, post (f e) l) l tr.

Lemma remove1_head x l : remove1 x (x :: l) = l.
Proof. simpl. by rewrite bool_decide_eq_true_2. Qed.

Lemma balance_app {E} (f : E → entry) tr tr' l : balance f (tr ++ tr') l = balance f tr' (balance f tr l).
Proof. apply foldl_app. Qed.

End ledger.
#[global] Arguments entry : clear implicits.
#[export] Hint Rewrite @remove1_head @balance_app : zeta.
