(* ===== verification/Constant.v ===== *)
(** * constant/constant.go: the tuning constants, durations in nanoseconds *)

From S2P Require Import Prelude.

Local Open Scope Z_scope.

(** [time.Duration] values. *)
Definition Millisecond : Z := 1000000.
Definition Second : Z := 1000 * Millisecond.

Definition HeartbeatInterval : Z := 20.
Definition MaxBufferSize : nat := 4096.
Definition MaxRetrySend : Z := 10.
Definition ConnectingRetryDuration : Z := 100 * Millisecond.
Definition PeerKeepaliveDuration : Z := 5 * Second.

(** What a read into a buffer of that size keeps of a datagram. *)
Definition cut (data : bytes) : bytes := take MaxBufferSize data.

#[global] Arguments cut : simpl never.

Lemma cut_short data : (length data <= MaxBufferSize)%nat → cut data = data.
Proof. apply take_ge. Qed.

Lemma cut_cut data : cut (cut data) = cut data.
Proof. unfold cut. by rewrite take_take, Nat.min_id. Qed.
