(* ===== verification/Api.v ===== *)
(** * The HTTP API: versions, errors, the peer directory and the client

    [version/version.go], [api/errors.go], [api/protocol.go], [api/api_server.go],
    [api/api_client.go], and the two result encoders of [gateway/gateway.go].  JSON, HTTP
    and semver parsing are parameters. *)

From S2P Require Import Prelude Message.

(** ** version.go *)
Module Version.

Definition MajorVersion : Z := 0.
Definition MinorVersion : Z := 1.
Definition PatchVersion : Z := 0.
Definition GitHash : string := "Unknown".
Definition GitBranch : string := "Unknown".

Record Version := {
  major : Z;
  minor : Z;
  patch : Z;
  gitBranch : string;
  gitHash : string;
  goVersion : string;
}.

(** [runtime.Version()] is an argument. *)
Definition NewVersion (runtime_Version : string) : Version := {|
  major := MajorVersion;
  minor := MinorVersion;
  patch := PatchVersion;
  gitBranch := GitBranch;
  gitHash := GitHash;
  goVersion := runtime_Version;
|}.

Definition SemVer (v : Version) : string :=
  pretty (major v) +:+ "." +:+ pretty (minor v) +:+ "." +:+ pretty (patch v).

Definition String (v : Version) : string := SemVer v.

Definition FullInfo (v : Version) : string :=
  String v +:+ " (" +:+ gitBranch v +:+ "/" +:+ gitHash v +:+ ") " +:+ goVersion v.

Lemma String_NewVersion r : String (NewVersion r) = "0.1.0"%string.
Proof. reflexivity. Qed.

End Version.

(** ** errors.go

    An [error] value: a foreign error with its text, one wrapped with a message
    ([errors.WithMessage]), or an [*api.Error]. *)
Inductive error :=
| ErrNew (text : string)
| ErrWithMessage (e : error) (msg : string)
| ErrApi (Code : Z) (Err : error).

#[global] Instance error_eq_dec : EqDecision error.
Proof. solve_decision. Defined.

Definition isSuccess (code : Z) : bool := bool_decide (code = StatusCode.Success).

(** [e.Error()]; the case of [*api.Error] is [(e *Error) Error]. *)
Fixpoint Error (e : error) : string :=
  match e with
  | ErrNew text => text
  | ErrWithMessage e msg => msg +:+ ": " +:+ Error e
  | ErrApi _ e => Error e
  end.

Definition ErrorWithCode (code : Z) (err : error) : error := ErrApi code err.

Inductive result (A : Type) := Ok (a : A) | Err (e : error).
Arguments Ok {A} a.
Arguments Err {A} e.

#[global] Instance result_eq_dec `{EqDecision A} : EqDecision (result A).
Proof. solve_decision. Defined.

(** ** protocol.go *)

Record OpenTunnelRequest := {
  req_Version : string;
  req_Algorithm : string;
  req_Nonce : string;
  req_Cipher : string;
  req_Source : string;
  req_Destination : string;
}.

Record OpenTunnelResponse := { res_Encrypt : string }.

#[global] Instance OpenTunnelResponse_eq_dec : EqDecision OpenTunnelResponse.
Proof. solve_decision. Defined.

(** The body of every API response. *)
Record Result := {
  r_Code : Z;
  r_Error : string;
  r_Data : option OpenTunnelResponse;
}.

(** The error and response encoders that [setupMiddleware] installs. *)
Definition error_encoder (err : error) : Result := {|
  r_Code := match err with ErrApi code _ => code | _ => StatusCode.ServerInternal end;
  r_Error := Error err;
  r_Data := None;
|}.

Definition response_encoder (payload : OpenTunnelResponse) : Result := {|
  r_Code := StatusCode.Success;
  r_Error := "";
  r_Data := Some payload;
|}.

Definition encode_result (r : result OpenTunnelResponse) : Result :=
  match r with Ok p => response_encoder p | Err e => error_encoder e end.

(** ** api_server.go *)

Record PeerInfo := { VirtAddress : string; UDPAddress : string; LastHeartbeat : Z }.

#[global] Instance PeerInfo_eq_dec : EqDecision PeerInfo.
Proof. solve_decision. Defined.

(** The interface [api.Notifier]: [OpenTunnel(src, dst)] on the notifier's state. *)
Class Notifier (N : Type) := notifier_OpenTunnel : PeerInfo → PeerInfo → N → outcome N.

(** What the server relies on: in a state that satisfies [notifier_ok], [OpenTunnel]
    returns, keeps [notifier_ok], and adds to the pending introductions (whom to tell, and
    the virtual and UDP address of the peer to tell about) one for each side. *)
Class NotifierLaws (N : Type) `{Notifier N} := {
  notifier_ok : N → Prop;
  notifier_room : N → Prop;
  introductions : N → list (string * (string * string));
  notifier_law src dst n :
    notifier_ok n → notifier_room n →
    ∃ n', notifier_OpenTunnel src dst n = Ret n' ∧ notifier_ok n' ∧
      introductions n' ≡ₚ
        (UDPAddress src, (VirtAddress dst, UDPAddress dst)) ::
        (UDPAddress dst, (VirtAddress src, UDPAddress src)) :: introductions n;
}.

(** [peers] maps a virtual address to a pointer: [heap] holds the [PeerInfo] objects the
    map's values point to, which [Heartbeat] mutates in place. *)
Abbreviation loc := nat.

Record Server := {
  key : string;
  peers : gmap string loc;
  heap : gmap loc PeerInfo;
  next : loc;
}.

Definition NewServer (key : string) : Server :=
  {| key := key; peers := ∅; heap := ∅; next := O |}.

(** [Peer]: a pointer, or [nil]. *)
Definition Peer (virtAddr : string) (s : Server) : option loc := peers s !! virtAddr.

Definition deref (s : Server) (l : loc) : outcome PeerInfo :=
  match heap s !! l with Some p => Ret p | None => Panic "nil pointer" end.

(** [Heartbeat]: [remote] is [remote.String()], [now] is [time.Now()]. *)
Definition Heartbeat (remote : string) (now : Z) (hb : CtrlHeartbeat) (s : Server)
    : outcome Server :=
  let virt := hb_VirtAddress hb in
  match peers s !! virt with
  | Some l =>
      peer ← deref s l;
      let peer := {| VirtAddress := VirtAddress peer; UDPAddress := UDPAddress peer;
                     LastHeartbeat := now |} in
      let peer := if bool_decide (UDPAddress peer ≠ remote)
                  then {| VirtAddress := VirtAddress peer; UDPAddress := remote;
                          LastHeartbeat := LastHeartbeat peer |}
                  else peer in
      Ret {| key := key s; peers := peers s; heap := <[l := peer]> (heap s); next := next s |}
  | None =>
      let peer := {| VirtAddress := virt; UDPAddress := remote; LastHeartbeat := now |} in
      Ret {| key := key s; peers := <[virt := next s]> (peers s);
             heap := <[next s := peer]> (heap s); next := S (next s) |}
  end.

Section server.
(** [semver.NewVersion]: the major version, or its error. *)
Variable semver_NewVersion : string → result Z.
Variable runtime_Version : string.
Context {N : Type} `{Notifier N}.

Definition version_error (v : string) : error :=
  ErrNew ("client version " +:+ v +:+ " doesn't match the server version " +:+
          Version.String (Version.NewVersion runtime_Version)).

Definition source_error (a : string) : error :=
  ErrNew ("source peer '" +:+ a +:+ "' not found in cache").
Definition destination_error (a : string) : error :=
  ErrNew ("destination peer '" +:+ a +:+ "' not found in cache").

Definition OpenTunnel (req : OpenTunnelRequest) (s : Server) (n : N)
    : outcome (N * result OpenTunnelResponse) :=
  match semver_NewVersion (req_Version req) with
  | Err err => Ret (n, Err (ErrorWithCode StatusCode.InvalidVersion err))
  | Ok Major =>
      if bool_decide (Major < Version.MajorVersion)%Z
      then Ret (n, Err (ErrorWithCode StatusCode.VersionTooOld (version_error (req_Version req))))
      else
        match Peer (req_Source req) s with
        | None => Ret (n, Err (source_error (req_Source req)))
        | Some src =>
            match Peer (req_Destination req) s with
            | None => Ret (n, Err (destination_error (req_Destination req)))
            | Some dst =>
                psrc ← deref s src;
                pdst ← deref s dst;
                n' ← notifier_OpenTunnel psrc pdst n;
                Ret (n', Ok {| res_Encrypt := "" |})
            end
        end
  end.

End server.

(** ** api_client.go *)

Definition URIOpenTunnel : string := "/api/v1/tunnel".
Definition StatusOK : Z := 200.

Record Client := { gateway : string; client_key : string; tls : bool }.

Definition NewClient (gateway key : string) (tls : bool) : Client :=
  {| gateway := gateway; client_key := key; tls := tls |}.

(** An HTTP response: [StatusCode], [Status] and the body. *)
Record response := { resp_StatusCode : Z; resp_Status : string; resp_Body : bytes }.

Section client.
(** [http.NewRequest] (its error), [http.DefaultClient.Do], and the JSON codec. *)
Variable NewRequest : string → string → option error.
Variable Do : string → string → bytes → result response.
Variable json_encode : OpenTunnelRequest → result bytes.
Variable json_decode : bytes → result Result.
Variable runtime_Version : string.

Definition client_url (c : Client) (api : string) : string :=
  (if tls c then "https://" else "http://") +:+ gateway c +:+ api.

(** [reader] is [nil] or the encoded request; with a [nil] reader [request.Body] is [nil],
    and the deferred [request.Body.Close()] panics. *)
Definition do (c : Client) (method api : string) (reader : option bytes) : outcome (result unit) :=
  let url := client_url c api in
  match NewRequest method url with
  | Some err => Ret (Err err)
  | None =>
      match reader with
      | None => Panic "nil request.Body"
      | Some body =>
          match Do method url body with
          | Err err => Ret (Err err)
          | Ok resp =>
              if bool_decide (resp_StatusCode resp ≠ StatusOK)
              then Ret (Err (ErrNew (resp_Status resp)))
              else
                match json_decode (resp_Body resp) with
                | Err err =>
                    Ret (Err (ErrWithMessage err ("invalid json response when request " +:+ api)))
                | Ok result =>
                    if negb (isSuccess (r_Code result))
                    then Ret (Err (ErrorWithCode (r_Code result) (ErrNew (r_Error result))))
                    else Ret (Ok tt)
                end
          end
      end
  end.

Definition get (c : Client) (api : string) : outcome (result unit) := do c "GET" api None.

Definition post (c : Client) (api : string) (req : OpenTunnelRequest) : outcome (result unit) :=
  match json_encode req with
  | Err err => Ret (Err err)
  | Ok buffer => do c "POST" api (Some buffer)
  end.

Definition client_request (src dst : string) : OpenTunnelRequest := {|
  req_Version := Version.String (Version.NewVersion runtime_Version);
  req_Algorithm := ""; req_Nonce := ""; req_Cipher := "";
  req_Source := src;
  req_Destination := dst;
|}.

Definition Client_OpenTunnel (c : Client) (src dst : string) : outcome (result unit) :=
  r ← post c URIOpenTunnel (client_request src dst);
  match r with
  | Err err => Ret (Err (ErrWithMessage err "open tunnel failed"))
  | Ok _ => Ret (Ok tt)
  end.

End client.

(** ** The peer directory

    The contract of the server's peer table: a map from virtual addresses to peers.
    [directory] is the abstraction function from the pointers. *)

Definition directory (s : Server) : gmap string PeerInfo := omap (λ l, heap s !! l) (peers s).

Record server_ok (s : Server) : Prop := {
  server_ok_peers v l : peers s !! v = Some l → ∃ p, heap s !! l = Some p ∧ VirtAddress p = v;
  server_ok_next l p : heap s !! l = Some p → l < next s;
}.

Lemma server_ok_new k : server_ok (NewServer k).
Proof. split; simpl; intros *; by rewrite lookup_empty. Qed.

Lemma directory_lookup s v : directory s !! v = peers s !! v ≫= λ l, heap s !! l.
Proof. apply lookup_omap. Qed.

Lemma directory_Peer s v p :
  directory s !! v = Some p ↔ ∃ l, Peer v s = Some l ∧ deref s l = Ret p.
Proof.
  rewrite directory_lookup. unfold Peer, deref.
  destruct (peers s !! v) as [l|]; simpl; [|naive_solver].
  destruct (heap s !! l) as [q|] eqn:E; split.
  - intros [= ->]. exists l. by rewrite E.
  - intros (l' & [= <-] & H). rewrite E in H. congruence.
  - done.
  - intros (l' & [= <-] & H). by rewrite E in H.
Qed.

Lemma directory_Peer_None s v : server_ok s → directory s !! v = None → Peer v s = None.
Proof.
  intros Hs. rewrite directory_lookup. unfold Peer. destruct (peers s !! v) as [l|] eqn:E; [|done].
  destruct (server_ok_peers s Hs v l E) as (p & Hp & _). simpl. by rewrite Hp.
Qed.

(** Distinct virtual addresses never share a [PeerInfo] object. *)
Lemma server_ok_inj s v w l :
  server_ok s → peers s !! v = Some l → peers s !! w = Some l → v = w.
Proof.
  intros Hs Hv Hw. destruct (server_ok_peers s Hs _ _ Hv) as (p & Hp & <-).
  destruct (server_ok_peers s Hs _ _ Hw) as (q & Hq & <-). congruence.
Qed.

(** [Heartbeat] is an insertion into the directory. *)
Lemma Heartbeat_directory remote now hb s :
  server_ok s →
  ∃ s', Heartbeat remote now hb s = Ret s' ∧ server_ok s' ∧ key s' = key s ∧
    directory s' = <[hb_VirtAddress hb := {| VirtAddress := hb_VirtAddress hb;
                       UDPAddress := remote; LastHeartbeat := now |}]> (directory s).
Proof.
  intros Hs. unfold Heartbeat. destruct hb as [v]; simpl.
  destruct (peers s !! v) as [l|] eqn:E.
  - destruct (server_ok_peers s Hs v l E) as (p & Hp & Hv). unfold deref. rewrite Hp; simpl.
    eexists; split; [done|]. set (p' := if bool_decide _ then _ else _).
    assert (p' = {| VirtAddress := v; UDPAddress := remote; LastHeartbeat := now |}) as ->.
    { subst p'. simpl. case_bool_decide; by subst. }
    split_and!; [split; simpl|done|].
    + intros w l'. rewrite lookup_insert. case_decide; [|by apply Hs]. subst l'.
      intros Hw. eexists; split; [done|]. simpl. by eapply server_ok_inj.
    + intros l' q. rewrite lookup_insert. case_decide; [|by apply Hs].
      subst l'. intros _. by eapply Hs.
    + apply map_eq. intros w. rewrite directory_lookup; simpl. rewrite lookup_insert.
      case_decide as Hw; [subst w; rewrite E; simpl; by rewrite lookup_insert_eq|].
      rewrite directory_lookup. destruct (peers s !! w) as [l'|] eqn:E'; simpl; [|done].
      rewrite lookup_insert_ne; [done|]. intros ->. apply Hw. by eapply server_ok_inj.
  - eexists; split; [done|]. split_and!; [split; simpl|done|].
    + intros w l. rewrite !lookup_insert. case_decide; subst.
      * intros [= <-]. eexists. rewrite decide_True by done. done.
      * intros Hw. destruct (server_ok_peers s Hs w l Hw) as (p & Hp & <-).
        pose proof (server_ok_next s Hs _ _ Hp). rewrite decide_False by lia. eauto.
    + intros l p. rewrite lookup_insert. case_decide; [lia|].
      intros Hp%Hs. lia.
    + apply map_eq. intros w. rewrite directory_lookup; simpl. rewrite !lookup_insert.
      case_decide; simpl; [by rewrite lookup_insert_eq|].
      rewrite directory_lookup. destruct (peers s !! w) as [l|] eqn:E'; simpl; [|done].
      destruct (server_ok_peers s Hs w l E') as (p & Hp & _).
      pose proof (server_ok_next s Hs _ _ Hp). by rewrite lookup_insert_ne by lia.
Qed.

(** ** What the server promises *)

(** A sequence of heartbeats, oldest first: sender, time and message. *)
Fixpoint heartbeats (hs : list (string * Z * CtrlHeartbeat)) (s : Server) : outcome Server :=
  match hs with
  | [] => Ret s
  | (remote, now, hb) :: hs' => s' ← Heartbeat remote now hb s; heartbeats hs' s'
  end.

(** Its specification: later heartbeats replace earlier ones of the same address. *)
Definition directory_spec (hs : list (string * Z * CtrlHeartbeat)) (d : gmap string PeerInfo)
    : gmap string PeerInfo :=
  foldl (λ d '(remote, now, hb),
    <[hb_VirtAddress hb := {| VirtAddress := hb_VirtAddress hb; UDPAddress := remote;
                              LastHeartbeat := now |}]> d) d hs.

Lemma heartbeats_directory hs s :
  server_ok s →
  ∃ s', heartbeats hs s = Ret s' ∧ server_ok s' ∧ directory s' = directory_spec hs (directory s).
Proof.
  revert s. induction hs as [|[[remote now] hb] hs IH]; intros s Hs; simpl; [eauto|].
  destruct (Heartbeat_directory remote now hb s Hs) as (s1 & -> & Hs1 & _ & Hd); simpl.
  destruct (IH s1 Hs1) as (s' & -> & Hs' & Hd'). exists s'. split_and!; [done..|].
  by rewrite Hd', Hd.
Qed.

(** C11: Any sequence of heartbeats runs without a panic on a new server and refines the
    abstract directory: looking a virtual address up ([Peer], then following the pointer)
    gives exactly the last heartbeat sent from it, and [nil] when there was none, although
    the code updates shared [PeerInfo] objects in place. *)
Theorem heartbeats_refine_directory k hs :
  ∃ s, heartbeats hs (NewServer k) = Ret s ∧
    ∀ v, match directory_spec hs ∅ !! v with
         | Some p => ∃ l, Peer v s = Some l ∧ deref s l = Ret p
         | None => Peer v s = None
         end.
Proof.
  destruct (heartbeats_directory hs (NewServer k) (server_ok_new k)) as (s & Hs & Hok & Hd).
  assert (directory (NewServer k) = ∅) as E by apply omap_empty. rewrite E in Hd.
  exists s. split; [done|]. intros v. rewrite <- Hd.
  destruct (directory s !! v) as [p|] eqn:Ev; [by apply directory_Peer|].
  by apply directory_Peer_None.
Qed.

Section promises.
Variable semver_NewVersion : string → result Z.
Variable runtime_Version : string.

(** The checks of [OpenTunnel] in their order, on the directory. *)
Definition OpenTunnel_spec (d : gmap string PeerInfo) (req : OpenTunnelRequest)
    : result (PeerInfo * PeerInfo) :=
  match semver_NewVersion (req_Version req) with
  | Err err => Err (ErrApi StatusCode.InvalidVersion err)
  | Ok major =>
      if bool_decide (major < Version.MajorVersion)%Z
      then Err (ErrApi StatusCode.VersionTooOld (version_error runtime_Version (req_Version req)))
      else
        match d !! req_Source req, d !! req_Destination req with
        | None, _ => Err (source_error (req_Source req))
        | _, None => Err (destination_error (req_Destination req))
        | Some src, Some dst => Ok (src, dst)
        end
  end.

Lemma OpenTunnel_run {N} `{Notifier N} req s (n : N) :
  server_ok s →
  OpenTunnel semver_NewVersion runtime_Version req s n =
  match OpenTunnel_spec (directory s) req with
  | Err e => Ret (n, Err e)
  | Ok (src, dst) => n' ← notifier_OpenTunnel src dst n; Ret (n', Ok {| res_Encrypt := "" |})
  end.
Proof.
  intros Hs. unfold OpenTunnel, OpenTunnel_spec, ErrorWithCode.
  destruct (semver_NewVersion _) as [major|]; [|done]. case_bool_decide; [done|].
  destruct (directory s !! req_Source req) as [ps|] eqn:Es.
  - apply directory_Peer in Es as (ls & -> & Hls).
    destruct (directory s !! req_Destination req) as [pd|] eqn:Ed.
    + apply directory_Peer in Ed as (ld & -> & Hld). by rewrite Hls, Hld.
    + by rewrite (directory_Peer_None _ _ Hs Ed).
  - by rewrite (directory_Peer_None _ _ Hs Es).
Qed.

(** C21: [OpenTunnel] returns in every state; it answers success exactly when the version is
    acceptable and both peers are in the directory, and then (against any notifier that
    keeps the interface's laws) exactly two introductions are added, each side learning the
    other's virtual address and latest UDP address; every refusal names the first failed
    check and leaves the notifier alone. *)
Theorem OpenTunnel_introduces_both {N} `{NotifierLaws N} req s (n : N) :
  server_ok s → notifier_ok n → notifier_room n →
  ∃ n' r, OpenTunnel semver_NewVersion runtime_Version req s n = Ret (n', r) ∧ notifier_ok n' ∧
    match OpenTunnel_spec (directory s) req with
    | Err e => r = Err e ∧ n' = n
    | Ok (src, dst) =>
        r = Ok {| res_Encrypt := "" |} ∧
        introductions n' ≡ₚ
          (UDPAddress src, (VirtAddress dst, UDPAddress dst)) ::
          (UDPAddress dst, (VirtAddress src, UDPAddress src)) :: introductions n
    end.
Proof.
  intros Hs Hn Hroom. rewrite OpenTunnel_run by done.
  destruct (OpenTunnel_spec (directory s) req) as [[src dst]|e]; [|by eauto 10].
  destruct (notifier_law src dst n Hn Hroom) as (n' & -> & Hn' & Hi). simpl. eauto 10.
Qed.

(** The code of an error as the client sees it. *)
Definition error_code (e : error) : Z := r_Code (error_encoder e).

Lemma OpenTunnel_spec_code d req e :
  OpenTunnel_spec d req = Err e → isSuccess (error_code e) = false.
Proof. unfold OpenTunnel_spec. intros. repeat case_match; by simplify_eq. Qed.

End promises.

(** ** The exchange over HTTP

    What serves and carries a request is not this program's code: [encoding/json],
    [github.com/pingcap/fn] and [github.com/gorilla/mux] are operations with the laws their
    documentation states. *)

(** [json.NewEncoder(w).Encode] and [json.NewDecoder(r).Decode], of requests and of results. *)
Class Json := {
  json_encode : OpenTunnelRequest → result bytes;
  json_decode_request : bytes → result OpenTunnelRequest;
  json_encode_result : Result → bytes;
  json_decode : bytes → result Result;
}.

Definition valid_request (req : OpenTunnelRequest) : Prop :=
  Forall (λ s, valid_string s = true)
    [req_Version req; req_Algorithm req; req_Nonce req; req_Cipher req; req_Source req; req_Destination req].
Definition valid_result (res : Result) : Prop :=
  Forall (λ s, valid_string s = true) (r_Error res :: option_list (res_Encrypt <$> r_Data res)).

(** Strings keep their value when they are UTF-8; other bytes are replaced. *)
Class JsonLaws `{Json} := {
  json_request req :
    valid_request req → ∃ b, json_encode req = Ok b ∧ json_decode_request b = Ok req;
  json_result res : valid_result res → json_decode (json_encode_result res) = Ok res;
}.

(** A handler answers a method, a path and a body, in the state [N] of the process. *)
Definition handler (N : Type) : Type := string → string → bytes → N → outcome (N * response).

(** [fn.Wrap(f)], under the encoders that were set, and
    [router.Handle(path, handler).Methods(method)] on a new router. *)
Class Http := {
  Wrap {N} : (error → Result) → (OpenTunnelResponse → Result) →
    (OpenTunnelRequest → N → outcome (N * result OpenTunnelResponse)) → handler N;
  Handle {N} : string → handler N → string → handler N;
}.

(** A body that decodes is given to the function, and what it returns is encoded: a success
    with status 200; the status of an error is [fn]'s.  A request for the path with the method
    goes to its handler.  Nothing is said of another request, or of a body that does not
    decode. *)
Class HttpLaws `{Json, Http} := {
  Wrap_law {N} ee re f method path body req (n : N) n' r :
    json_decode_request body = Ok req → f req n = Ret (n', r) →
    ∃ resp, Wrap ee re f method path body n = Ret (n', resp) ∧
      match r with
      | Ok p => resp_StatusCode resp = StatusOK ∧ resp_Body resp = json_encode_result (re p)
      | Err e => resp_Body resp = json_encode_result (ee e)
      end;
  Handle_law {N} path (h : handler N) method body n : Handle path h method method path body n = h method path body n;
}.

Section exchange.
Context `{JsonLaws, !Http, !HttpLaws}.
Variable semver_NewVersion : string → result Z.
Variable runtime_Version : string.

(** The API that [gateway.Serve] registers. *)
Definition router {N} `{Notifier N} (s : Server) : handler N :=
  Handle URIOpenTunnel
    (Wrap error_encoder response_encoder (λ req n, OpenTunnel semver_NewVersion runtime_Version req s n)) "POST".

Lemma router_answers {N} `{Notifier N} s body req (n n' : N) r :
  json_decode_request body = Ok req →
  OpenTunnel semver_NewVersion runtime_Version req s n = Ret (n', r) →
  ∃ resp, router s "POST" URIOpenTunnel body n = Ret (n', resp) ∧
    (∀ p, r = Ok p → resp_StatusCode resp = StatusOK) ∧
    resp_Body resp = json_encode_result (encode_result r).
Proof.
  intros Hb Hr. unfold router. rewrite Handle_law.
  edestruct (Wrap_law error_encoder response_encoder
    (λ req n, OpenTunnel semver_NewVersion runtime_Version req s n) "POST" URIOpenTunnel body req n n' r)
    as (resp & -> & Hresp); [done..|].
  exists resp. split; [done|]. destruct r; naive_solver.
Qed.

(** The client's transport: the gateway listens at [addr], with TLS or without. *)
Variable NewRequest : string → string → option error.
Variable Do : string → string → bytes → result response.

Definition scheme (tls : bool) : string := if tls then "https://" else "http://".

(** A request for a path of the gateway can be made, reaches its server as that method, path
    and body, and the answer arrives. *)
Definition carries {N} (method : string) (tls : bool) (addr path : string) (h : handler N) (n : N) : Prop :=
  NewRequest method (scheme tls +:+ addr +:+ path) = None ∧
  ∀ body n' resp, h method path body n = Ret (n', resp) →
    Do method (scheme tls +:+ addr +:+ path) body = Ok resp.

(** How the client reports an answer that refuses. *)
Definition refusal_seen (resp : response) (e : error) : error :=
  if bool_decide (resp_StatusCode resp = StatusOK)
  then ErrApi (error_code e) (ErrNew (Error e)) else ErrNew (resp_Status resp).

(** C30: A client configured with the address at which the gateway serves, and for TLS if it
    does, posts to the registered path a body that the gateway decodes to the request with
    the client's version, source and destination; the gateway answers with what
    [Server.OpenTunnel] decides on it; and the client returns without error exactly when the
    server accepted.  A refusal reaches it as the server's status code and text only if the
    answer has the HTTP status 200; under any other it is the text of that status. *)
Theorem client_sees_server_answer {N} `{Notifier N} addr key tls src dst s (n n' : N) r :
  server_ok s → carries "POST" tls addr "/api/v1/tunnel" (router s) n →
  valid_string src = true → valid_string dst = true →
  valid_result (encode_result r) →
  OpenTunnel semver_NewVersion runtime_Version (client_request runtime_Version src dst) s n = Ret (n', r) →
  ∃ body resp,
    router s "POST" "/api/v1/tunnel" body n = Ret (n', resp) ∧
    json_decode_request body = Ok {| req_Version := "0.1.0"; req_Algorithm := ""; req_Nonce := ""; req_Cipher := "";
                                     req_Source := src; req_Destination := dst |} ∧
    Client_OpenTunnel NewRequest Do json_encode json_decode runtime_Version (NewClient addr key tls) src dst
    = Ret (match r with
           | Ok _ => Ok tt
           | Err e => Err (ErrWithMessage (refusal_seen resp e) "open tunnel failed")
           end).
Proof.
  intros Hs [Hnew Hdo] Hsrc Hdst Hv Hr.
  destruct (json_request (client_request runtime_Version src dst)) as (body & Hb & Hd); [by repeat constructor|].
  destruct (router_answers s body _ n n' r Hd Hr) as (resp & Hresp & Hok & Hbody).
  exists body, resp. split_and!; [done|done|].
  unfold Client_OpenTunnel, post, do. rewrite Hb.
  change (client_url _ _) with (scheme tls +:+ addr +:+ "/api/v1/tunnel").
  rewrite Hnew, (Hdo _ n' resp Hresp), Hbody, (json_result _ Hv).
  rewrite OpenTunnel_run in Hr by done. destruct (OpenTunnel_spec _ _ _) as [[ps pd]|e] eqn:E.
  - apply outcome_bind_ret in Hr as (? & _ & [= _ <-]). by rewrite (Hok _ eq_refl).
  - injection Hr as <- <-. unfold refusal_seen. do 2 case_bool_decide; try done. simpl.
    pose proof (OpenTunnel_spec_code _ _ _ _ _ E) as Hc. unfold error_code in Hc; simpl in Hc. by rewrite Hc.
Qed.

End exchange.

(** The gateway's key takes no part in the answer. *)
Lemma OpenTunnel_ignores_key semver rt {N} `{Notifier N} req s (n : N) k :
  OpenTunnel semver rt req {| key := k; peers := peers s; heap := heap s; next := next s |} n
  = OpenTunnel semver rt req s n.
Proof. done. Qed.

(** [get] passes a [nil] reader, so it never gets past [defer request.Body.Close()]. *)
Lemma get_panics NewRequest Do json_decode c api :
  (∀ m u, NewRequest m u = None) → is_panic (get NewRequest Do json_decode c api) = true.
Proof. intros Hn. unfold get, do. by rewrite Hn. Qed.
