(* ===== verification/Notifier.v ===== *)
(** * The gateway's notifier

    [gateway/notifier.go]: the packets that wait for an acknowledgement, the queue of
    relayed data, the dispatch loop of [start] and its workers.  The notifier implements
    the interface [Api.Notifier] that the HTTP server calls. *)

From S2P Require Import Prelude Message Constant Api.

Local Open Scope Z_scope.

(** ** Data *)

(** The [message interface{}] of a packet: the two types [start] tells apart. *)
Inductive payload := PProto (m : message) | PBytes (b : bytes).

#[global] Instance payload_eq_dec : EqDecision payload.
Proof. solve_decision. Defined.

Record packet := { destination : string; typ : Z; pmessage : payload }.

#[global] Instance packet_eq_dec : EqDecision packet.
Proof. solve_decision. Defined.

Record retryPacket := { rp_packet : packet; counter : Z }.

Record notifier := {
  queue : chan packet;
  ackID : Z;
  data : gmap Z retryPacket;
  read : chan unit;
}.

Definition newNotifier : notifier := {|
  queue := make_chan packet 16;
  ackID := 0;
  data := ∅;
  read := make_chan unit 16;
|}.

(** ** Operations *)

Definition notify (n : notifier) : notifier :=
  {| queue := queue n; ackID := ackID n; data := data n; read := (chan_try_send tt (read n)).1 |}.

(** One iteration of the loop of [OpenTunnel]: tell [p] about [other]. *)
Definition introduce (p other : PeerInfo) (n : notifier) : notifier :=
  let id := swrap 64 (ackID n + 1) in
  {| queue := queue n;
     ackID := id;
     data := <[id := {| rp_packet := {|
                          destination := UDPAddress p;
                          typ := PacketType.OpenTunnel;
                          pmessage := PProto (MOpenTunnel {|
                            ot_AckId := id;
                            ot_VirtAddress := VirtAddress other;
                            ot_UdpAddress := UDPAddress other |}) |};
                        counter := 0 |}]> (data n);
     read := read n |}.

Definition OpenTunnel (src dst : PeerInfo) (n : notifier) : notifier :=
  notify (introduce dst src (introduce src dst n)).

Definition openTunnelAck (id : Z) (n : notifier) : notifier :=
  {| queue := queue n; ackID := ackID n; data := delete id (data n); read := read n |}.

Definition relay (dest : string) (d : bytes) (n : notifier) : outcome notifier :=
  q ← chan_send {| destination := dest; typ := PacketType.Data; pmessage := PBytes d |} (queue n);
  Ret {| queue := q; ackID := ackID n; data := data n; read := read n |}.

#[global] Instance gateway_notifier : Api.Notifier notifier :=
  λ src dst n, Ret (OpenTunnel src dst n).

(** ** The dispatch loop of [start]

    [roundTrip] and [chs] are its local variables.  [todo] is the part of the range loop
    of [retry] that is left: [retry] holds [n.mu] while it is [Some]. *)
Record dispatcher := {
  roundTrip : Z;
  chs : list (chan packet);
  todo : option (list Z);
}.

Definition start (concurrency : Z) : outcome dispatcher :=
  if bool_decide (concurrency < 0) then Panic "makeslice: len out of range"
  else Ret {| roundTrip := 0; chs := replicate (Z.to_nat concurrency) (make_chan packet 256);
              todo := None |}.

(** [chs[roundTrip%len(chs)] <- p; roundTrip++]. *)
Definition send (p : packet) (d : dispatcher) : outcome dispatcher :=
  let len := Z.of_nat (length (chs d)) in
  if bool_decide (len = 0) then Panic "integer divide by zero"
  else
    let i := Z.rem (roundTrip d) len in
    match (if bool_decide (i < 0) then None else chs d !! Z.to_nat i) with
    | None => Panic "index out of range"
    | Some ch =>
        ch' ← chan_send p ch;
        Ret {| roundTrip := swrap 64 (roundTrip d + 1);
               chs := <[Z.to_nat i := ch']> (chs d); todo := todo d |}
    end.

(** The body of the range loop of [retry], for the key [k]. *)
Definition retry_one (k : Z) (n : notifier) (d : dispatcher) : outcome (notifier * dispatcher) :=
  match data n !! k with
  | None => Ret (n, d)
  | Some rp =>
      if bool_decide (counter rp > MaxRetrySend)
      then Ret (openTunnelAck k n, d)
      else d' ← send (rp_packet rp) d; Ret (n, d')
  end.

(** [retry] run to its end, over the keys in the order [ks] that the map iteration gives. *)
Fixpoint retry (ks : list Z) (n : notifier) (d : dispatcher) : outcome (notifier * dispatcher) :=
  match ks with
  | [] => Ret (n, d)
  | k :: ks' => '(n', d') ← retry_one k n d; retry ks' n' d'
  end.

(** [for p := range ch]: what a worker writes for [p].  [ResolveUDPAddr] is an argument;
    [None] is a packet that is skipped. *)
Section worker.
Context `{Proto}.
Variable ResolveUDPAddr : string → option string.

Definition worker_bytes (p : packet) : outcome bytes :=
  match pmessage p with
  | PProto m => Encode (typ p) m
  | PBytes b => Ret (EncodeRaw b)
  end.

Definition worker (p : packet) : outcome (option (string * bytes)) :=
  match ResolveUDPAddr (destination p) with
  | None => Ret None
  | Some dest => d ← worker_bytes p; Ret (Some (dest, d))
  end.

End worker.

(** ** The invariant of the pending packets *)

Definition intro_packet (id : Z) (dest virt udp : string) : packet := {|
  destination := dest;
  typ := PacketType.OpenTunnel;
  pmessage := PProto (MOpenTunnel {| ot_AckId := id; ot_VirtAddress := virt; ot_UdpAddress := udp |});
|}.

Definition pending_ok (max : Z) (k : Z) (rp : retryPacket) : Prop :=
  0 < k <= max ∧ counter rp = 0 ∧ ∃ dest virt udp, rp_packet rp = intro_packet k dest virt udp.

Record pending_inv (n : notifier) : Prop := {
  pending_ackID : 0 <= ackID n;
  pending_data : map_Forall (pending_ok (ackID n)) (data n);
}.

(** Two more acknowledgement numbers fit into an [int64]. *)
Definition ack_room (n : notifier) : Prop := ackID n + 2 < 2 ^ 63.

Definition intro_of (rp : retryPacket) : string * (string * string) :=
  (destination (rp_packet rp),
   match pmessage (rp_packet rp) with
   | PProto (MOpenTunnel o) => (ot_VirtAddress o, ot_UdpAddress o)
   | _ => (""%string, ""%string)
   end).

Definition pending_intros (n : notifier) : list (string * (string * string)) :=
  (λ kv, intro_of kv.2) <$> map_to_list (data n).

Lemma pending_inv_new : pending_inv newNotifier.
Proof. split; simpl; [lia|]. apply map_Forall_empty. Qed.

Lemma pending_ok_weaken m m' k rp : m <= m' → pending_ok m k rp → pending_ok m' k rp.
Proof. intros ? ([? ?] & ? & ?). split_and!; auto with lia. Qed.

Lemma next_id n : pending_inv n → ackID n + 1 < 2 ^ 63 → swrap 64 (ackID n + 1) = ackID n + 1.
Proof. intros [? _] ?. apply swrap_small; [lia|]. unfold in_int. lia. Qed.

Lemma next_id_fresh n : pending_inv n → data n !! (ackID n + 1) = None.
Proof.
  intros Hn. destruct (data n !! (ackID n + 1)) as [rp|] eqn:E; [|done].
  destruct (pending_data n Hn _ _ E) as ([_ ?] & _). lia.
Qed.

Lemma introduce_inv p other n :
  pending_inv n → ackID n + 1 < 2 ^ 63 → pending_inv (introduce p other n).
Proof.
  intros Hn Hr. pose proof (pending_ackID n Hn).
  split; simpl; rewrite next_id by done; [lia|].
  apply map_Forall_insert_2.
  - split_and!; simpl; [lia..|]. eexists _, _, _. reflexivity.
  - eapply map_Forall_impl; [apply Hn|]. intros k rp. apply pending_ok_weaken. lia.
Qed.

Lemma introduce_intros p other n :
  pending_inv n → ackID n + 1 < 2 ^ 63 →
  pending_intros (introduce p other n) ≡ₚ
    (UDPAddress p, (VirtAddress other, UDPAddress other)) :: pending_intros n.
Proof.
  intros Hn Hr. unfold pending_intros; simpl. rewrite next_id by done.
  rewrite map_to_list_insert by by apply next_id_fresh. done.
Qed.

Lemma introduce_ackID p other n :
  pending_inv n → ackID n + 1 < 2 ^ 63 → ackID (introduce p other n) = ackID n + 1.
Proof. intros. simpl. by apply next_id. Qed.

Lemma notify_inv n : pending_inv n → pending_inv (notify n).
Proof. by intros []. Qed.

Lemma OpenTunnel_inv src dst n : pending_inv n → ack_room n → pending_inv (OpenTunnel src dst n).
Proof.
  unfold ack_room. intros Hn Hr. apply notify_inv, introduce_inv; [apply introduce_inv; [done|lia]|].
  rewrite introduce_ackID by (done || lia). lia.
Qed.

Lemma ack_pending_inv id n : pending_inv n → pending_inv (openTunnelAck id n).
Proof. intros [? ?]. split; simpl; [done|]. by apply map_Forall_delete. Qed.

Lemma OpenTunnel_intros src dst n :
  pending_inv n → ack_room n →
  pending_intros (OpenTunnel src dst n) ≡ₚ
    (UDPAddress src, (VirtAddress dst, UDPAddress dst)) ::
    (UDPAddress dst, (VirtAddress src, UDPAddress src)) :: pending_intros n.
Proof.
  unfold ack_room. intros Hn Hr.
  change (pending_intros (introduce dst src (introduce src dst n)) ≡ₚ
    (UDPAddress src, (VirtAddress dst, UDPAddress dst)) ::
    (UDPAddress dst, (VirtAddress src, UDPAddress src)) :: pending_intros n).
  rewrite introduce_intros; [|apply introduce_inv; done || lia |
    rewrite introduce_ackID by (done || lia); lia].
  rewrite introduce_intros by (done || lia). apply Permutation_swap.
Qed.

(** The notifier keeps what [Api.NotifierLaws] asks of it. *)
#[global] Instance gateway_notifier_laws : Api.NotifierLaws notifier.
Proof.
  refine {| notifier_ok := pending_inv; notifier_room := ack_room;
            introductions := pending_intros |}.
  intros src dst n Hn Hr. eexists; split; [reflexivity|].
  eauto using OpenTunnel_inv, OpenTunnel_intros.
Defined.

(** ** Sequences of sends: the round robin over the workers *)

Fixpoint sends (ps : list packet) (d : dispatcher) : outcome dispatcher :=
  match ps with
  | [] => Ret d
  | p :: ps' => d' ← send p d; sends ps' d'
  end.

(** The packets that go to worker [i] of [c], when the first one has number [r]. *)
Fixpoint share {A} (c i r : nat) (ps : list A) : list A :=
  match ps with
  | [] => []
  | p :: ps' =>
      if bool_decide (r `mod` c = i)%nat then p :: share c i (S r) ps' else share c i (S r) ps'
  end.

Record disp_ok (d : dispatcher) : Prop := {
  disp_workers : chs d ≠ [];
  disp_roundTrip : 0 <= roundTrip d < 2 ^ 63;
}.

Lemma send_index d :
  disp_ok d →
  Z.rem (roundTrip d) (Z.of_nat (length (chs d)))
  = Z.of_nat (Z.to_nat (roundTrip d) `mod` length (chs d))%nat.
Proof.
  intros [Hc Hr]. assert (0 < Z.of_nat (length (chs d))).
  { destruct (chs d); simpl; [done|lia]. }
  rewrite Z.rem_mod_nonneg by lia. rewrite Nat2Z.inj_mod. by rewrite Z2Nat.id by lia.
Qed.

(** [send] puts the packet into the channel of worker [roundTrip mod concurrency], or
    blocks when that channel is full; it does not panic. *)
Lemma send_spec p d :
  disp_ok d →
  let i := (Z.to_nat (roundTrip d) `mod` length (chs d))%nat in
  ∃ ch, chs d !! i = Some ch ∧
    send p d = (ch' ← chan_send p ch;
                Ret {| roundTrip := swrap 64 (roundTrip d + 1);
                       chs := <[i := ch']> (chs d); todo := todo d |}).
Proof.
  intros Hd i. pose proof (send_index d Hd) as Hi. destruct Hd as [Hc Hr].
  assert (i < length (chs d))%nat as Hlt.
  { apply Nat.mod_upper_bound. destruct (chs d); [done|]. simpl. lia. }
  destruct (lookup_lt_is_Some_2 _ _ Hlt) as [ch Hch]. exists ch. split; [done|].
  unfold send. rewrite bool_decide_eq_false_2 by lia. rewrite Hi.
  rewrite bool_decide_eq_false_2 by lia. rewrite Nat2Z.id. fold i. by rewrite Hch.
Qed.

Lemma send_no_panic p d : disp_ok d → is_panic (send p d) = false.
Proof.
  intros Hd. destruct (send_spec p d Hd) as (ch & _ & ->).
  apply outcome_bind_no_panic; [apply chan_send_no_panic|done].
Qed.

Lemma send_Ret p d d' :
  disp_ok d → send p d = Ret d' →
  ∃ ch, chs d !! (Z.to_nat (roundTrip d) `mod` length (chs d))%nat = Some ch ∧
    (length (buf ch) < cap ch)%nat ∧
    d' = {| roundTrip := swrap 64 (roundTrip d + 1);
            chs := <[(Z.to_nat (roundTrip d) `mod` length (chs d))%nat := chan_push p ch]> (chs d);
            todo := todo d |}.
Proof.
  intros Hd Hs. destruct (send_spec p d Hd) as (ch & Hch & E). rewrite E in Hs.
  inv_bind. exists ch. split_and!; auto with lia.
Qed.

Lemma send_ok p d d' :
  disp_ok d → roundTrip d + 1 < 2 ^ 63 → send p d = Ret d' →
  disp_ok d' ∧ roundTrip d' = roundTrip d + 1 ∧ length (chs d') = length (chs d) ∧ todo d' = todo d.
Proof.
  intros Hd Hr (ch & Hch & Hl & ->)%send_Ret; [|done].
  assert (swrap 64 (roundTrip d + 1) = roundTrip d + 1) as E.
  { apply swrap_small; [lia|]. unfold in_int. destruct Hd. lia. }
  split_and!; simpl; rewrite ?length_insert, ?E; try done.
  destruct Hd as [Hc ?]. split; simpl; rewrite ?E; [|lia].
  intros Hn%(f_equal length). rewrite length_insert in Hn. by destruct (chs d).
Qed.

Lemma sends_share ps d d' :
  disp_ok d → roundTrip d + Z.of_nat (length ps) < 2 ^ 63 → sends ps d = Ret d' →
  disp_ok d' ∧ roundTrip d' = roundTrip d + Z.of_nat (length ps) ∧
  length (chs d') = length (chs d) ∧ todo d' = todo d ∧
  ∀ i ch, chs d !! i = Some ch →
    chs d' !! i = Some (Chan (cap ch)
      (buf ch ++ share (length (chs d)) i (Z.to_nat (roundTrip d)) ps)).
Proof.
  revert d. induction ps as [|p ps IH]; intros d Hd Hr Hs; simpl in *.
  - injection Hs as <-. split_and!; auto with lia. intros i [c b] ->. by rewrite app_nil_r.
  - apply outcome_bind_ret in Hs as (d1 & Hs1 & Hs).
    destruct (send_ok p d d1 Hd ltac:(lia) Hs1) as (Hd1 & Hr1 & Hc1 & Ht1).
    destruct (IH d1 Hd1 ltac:(lia) Hs) as (? & Hr' & Hc' & Ht' & Hsh).
    split_and!; [done|lia|congruence|congruence|].
    intros i ch Hi. apply send_Ret in Hs1 as (ch0 & Hch0 & Hl & ->); [|done].
    rewrite Hr1, Hc1 in Hsh. simpl in Hsh.
    replace (Z.to_nat (roundTrip d + 1)) with (S (Z.to_nat (roundTrip d))) in Hsh
      by (destruct Hd; lia).
    case_bool_decide as Hm.
    + subst i. rewrite Hch0 in Hi. injection Hi as ->.
      erewrite Hsh; [|by apply list_lookup_insert_eq; eapply lookup_lt_Some].
      simpl. by rewrite <- app_assoc.
    + apply Hsh. by rewrite list_lookup_insert_ne.
Qed.

(** How many of [n] consecutive numbers from [r] are [i] modulo [c]. *)
Lemma share_count {A} (c i r : nat) (ps : list A) :
  (i < c)%nat →
  Z.of_nat (length (share c i r ps))
  = (Z.of_nat (r + length ps) + Z.of_nat (c - 1 - i)) / Z.of_nat c
    - (Z.of_nat r + Z.of_nat (c - 1 - i)) / Z.of_nat c.
Proof.
  intros Hi. revert r. induction ps as [|p ps IH]; intros r; simpl; [rewrite Nat.add_0_r; lia|].
  specialize (IH (S r)). rewrite Nat.add_succ_comm in IH.
  set (a := Z.of_nat (c - 1 - i)) in *.
  assert ((Z.of_nat (S r) + a) / Z.of_nat c
          = (Z.of_nat r + a) / Z.of_nat c + (if bool_decide (r `mod` c = i)%nat then 1 else 0)) as Hs.
  { pose proof (Nat.div_mod_eq r c) as Hdm. pose proof (Nat.mod_upper_bound r c ltac:(lia)).
    set (q := (r / c)%nat) in *. set (m := (r `mod` c)%nat) in *.
    assert ((Z.of_nat r + a) / Z.of_nat c = Z.of_nat q + (Z.of_nat m + a) / Z.of_nat c) as ->.
    { replace (Z.of_nat r + a) with ((Z.of_nat m + a) + Z.of_nat q * Z.of_nat c) by lia.
      rewrite Z.div_add by lia. lia. }
    assert ((Z.of_nat (S r) + a) / Z.of_nat c = Z.of_nat q + (Z.of_nat m + a + 1) / Z.of_nat c) as ->.
    { replace (Z.of_nat (S r) + a) with ((Z.of_nat m + a + 1) + Z.of_nat q * Z.of_nat c) by lia.
      rewrite Z.div_add by lia. lia. }
    assert (∀ x, 0 <= x < Z.of_nat c → x / Z.of_nat c = 0) as D0 by (intros; by apply Z.div_small).
    assert (∀ x, Z.of_nat c <= x < 2 * Z.of_nat c → x / Z.of_nat c = 1) as D1.
    { intros x Hx. replace x with ((x - Z.of_nat c) + 1 * Z.of_nat c) by lia.
      rewrite Z.div_add, Z.div_small by lia. done. }
    case_bool_decide.
    - rewrite (D0 (Z.of_nat m + a)), (D1 (Z.of_nat m + a + 1)) by lia. lia.
    - destruct (decide (m < i)%nat); [rewrite !D0 by lia | rewrite !D1 by lia]; lia. }
  case_bool_decide; simpl length; lia.
Qed.

(** Every worker gets [n / c] of [n] packets, or one more. *)
Lemma share_fair {A} (c i r : nat) (ps : list A) :
  (i < c)%nat →
  (length ps / c ≤ length (share c i r ps) ≤ length ps / c + 1)%nat.
Proof.
  intros Hi. pose proof (share_count c i r ps Hi) as Hs.
  set (a := Z.of_nat r + Z.of_nat (c - 1 - i)) in *.
  replace (Z.of_nat (r + length ps) + Z.of_nat (c - 1 - i)) with (a + Z.of_nat (length ps)) in Hs by lia.
  pose proof (Nat2Z.inj_div (length ps) c) as Hd.
  set (n := Z.of_nat (length ps)) in *. set (cz := Z.of_nat c) in *.
  assert (0 < cz) by lia.
  pose proof (Z.div_mod a cz ltac:(lia)). pose proof (Z.mod_pos_bound a cz ltac:(lia)).
  pose proof (Z.div_mod n cz ltac:(lia)). pose proof (Z.mod_pos_bound n cz ltac:(lia)).
  assert (a / cz + n / cz <= (a + n) / cz <= a / cz + n / cz + 1) as [? ?].
  { split; [apply Z.div_le_lower_bound; nia|].
    apply Z.lt_succ_r, Z.div_lt_upper_bound; nia. }
  lia.
Qed.

(** ** What [retry] does

    No operation of the program increments the [counter] of a [retryPacket], so [retry]
    never gives a packet up: under the invariant it resends every pending packet, and
    keeps them all. *)

Definition pending_packets (ks : list Z) (n : notifier) : list packet :=
  omap (λ k, rp_packet <$> data n !! k) ks.

Lemma retry_one_pending k n d :
  pending_inv n →
  retry_one k n d = (d' ← sends (pending_packets [k] n) d; Ret (n, d')).
Proof.
  intros Hn. unfold retry_one, pending_packets; simpl.
  destruct (data n !! k) as [rp|] eqn:E; simpl; [|done].
  destruct (pending_data n Hn _ _ E) as (_ & Hc & _).
  rewrite bool_decide_eq_false_2 by (rewrite Hc; by vm_compute).
  by destruct (send (rp_packet rp) d).
Qed.

Lemma retry_pending ks n d :
  pending_inv n →
  retry ks n d = (d' ← sends (pending_packets ks n) d; Ret (n, d')).
Proof.
  intros Hn. revert d. induction ks as [|k ks IH]; intros d; simpl; [done|].
  rewrite retry_one_pending by done. unfold pending_packets; simpl.
  destruct (data n !! k) as [rp|] eqn:E; simpl; [|apply IH].
  destruct (send (rp_packet rp) d); simpl; [apply IH|done..].
Qed.

(** A run of sends deals the packets to the workers in turn: worker [i] gets, in order,
    exactly the packets whose number is [i] modulo the concurrency, appended to what its
    channel held, so of [n] packets each worker gets [n / c] or one more. *)
Theorem sends_round_robin ps d d' i ch :
  disp_ok d → roundTrip d + Z.of_nat (length ps) < 2 ^ 63 →
  sends ps d = Ret d' → chs d !! i = Some ch →
  let mine := share (length (chs d)) i (Z.to_nat (roundTrip d)) ps in
  chs d' !! i = Some (Chan (cap ch) (buf ch ++ mine)) ∧
  (length ps / length (chs d) ≤ length mine ≤ length ps / length (chs d) + 1)%nat.
Proof.
  intros Hd Hr Hs Hi. destruct (sends_share ps d d' Hd Hr Hs) as (_ & _ & _ & _ & Hsh).
  split; [by apply Hsh|]. apply share_fair. by eapply lookup_lt_Some.
Qed.

Definition demo_packet (k : Z) : packet := intro_packet k "9.9.9.9:9" "10.0.0.1" "1.1.1.1:1".
Definition demo_disp : dispatcher :=
  {| roundTrip := 1; chs := [make_chan packet 4; make_chan packet 4]; todo := None |}.

Lemma sends_round_robin_witness :
  chs (match sends [demo_packet 1; demo_packet 2; demo_packet 3] demo_disp with
       | Ret d => d | _ => demo_disp end) !! 1%nat
  = Some (Chan 4 [demo_packet 1; demo_packet 3]).
Proof.
  refine (proj1 (sends_round_robin [demo_packet 1; demo_packet 2; demo_packet 3] demo_disp _ 1
    (make_chan packet 4) _ _ _ _)).
  - split; [done|by vm_compute].
  - by vm_compute.
  - reflexivity.
  - reflexivity.
Defined.

Lemma pending_packets_all n ks :
  ks ≡ₚ (map_to_list (data n)).*1 →
  pending_packets ks n ≡ₚ (λ kv, rp_packet kv.2) <$> map_to_list (data n).
Proof.
  intros Hks. unfold pending_packets. rewrite Hks. apply reflexive_eq.
  assert (∀ l, (∀ k rp, (k, rp) ∈ l → data n !! k = Some rp) →
    omap (λ k, rp_packet <$> data n !! k) l.*1 = (λ kv, rp_packet kv.2) <$> l) as Hl.
  { induction l as [|[k rp] l IH]; intros Hin; [done|]. simpl.
    rewrite (Hin k rp) by set_solver. simpl. f_equal. apply IH. set_solver. }
  apply Hl. intros k rp. apply elem_of_map_to_list.
Qed.

(** One [retry] sends every pending packet once, in whatever order the map iteration
    takes, and takes none of them out of the table: no operation ever increments a
    [counter], so the limit [MaxRetrySend] is never reached. *)
Theorem retry_sends_all_pending ks n d n' d' :
  pending_inv n → ks ≡ₚ (map_to_list (data n)).*1 →
  retry ks n d = Ret (n', d') →
  n' = n ∧ ∃ ps, sends ps d = Ret d' ∧ ps ≡ₚ (λ kv, rp_packet kv.2) <$> map_to_list (data n).
Proof.
  intros Hn Hks Hr. rewrite retry_pending in Hr by done. inv_bind. simplify_eq.
  split; [done|]. eauto using pending_packets_all.
Qed.

Definition demo_peer (v u : string) : PeerInfo :=
  {| VirtAddress := v; UDPAddress := u; LastHeartbeat := 0 |}.
Definition demo_notifier : notifier :=
  OpenTunnel (demo_peer "10.0.0.1" "1.1.1.1:1") (demo_peer "10.0.0.2" "2.2.2.2:2") newNotifier.

Lemma demo_notifier_inv : pending_inv demo_notifier.
Proof. apply OpenTunnel_inv; [apply pending_inv_new|by vm_compute]. Qed.

Lemma retry_sends_all_pending_witness :
  ∃ d', retry [1; 2] demo_notifier demo_disp = Ret (demo_notifier, d').
Proof.
  destruct (retry [1; 2] demo_notifier demo_disp) as [[n' d']| |] eqn:E; [|by vm_compute in E..].
  pose proof (proj1 (retry_sends_all_pending [1; 2] demo_notifier demo_disp n' d'
    demo_notifier_inv ltac:(vm_compute; first [reflexivity | apply Permutation_swap]) E)) as ->. by exists d'.
Defined.
