(* ===== verification/Gateway.v ===== *)
(** * The gateway process

    [gateway/processor.go] (the UDP packets from the nodes), the receive loop of
    [gateway/gateway.go], and the whole gateway as a transition system: the UDP loop, the
    HTTP handlers, the dispatch loop and the workers interleave. *)

From S2P Require Import Prelude Message WireFormat Constant Api Notifier.

Local Open Scope Z_scope.

(** ** processor.go *)

(** The table [protos], indexed by packet type: [nil] where the array literal has no
    element. *)
Definition protos : list (option kind) :=
  [Some KHeartbeat; Some KRelay; None; Some KOpenTunnelAck].

Record processor := { server : Server; notif : notifier }.

Definition newProcessor (server : Server) (notif : notifier) : processor :=
  {| server := server; notif := notif |}.

Definition enum_string (names : gmap Z string) (z : Z) : string :=
  default (pretty z) (names !! z).

Section process.
Context `{Proto}.
(** The error of [proto.Unmarshal] on bytes it cannot parse. *)
Variable proto_error : bytes → error.

Definition unrecognized (packetType : Z) : error :=
  ErrNew ("unrecognized message type: " +:+ pretty packetType).
Definition unmarshal_failed (packetType : Z) (payload : bytes) : error :=
  ErrWithMessage (proto_error payload)
    ("unmarshal message " +:+ enum_string PacketType.PacketType_name packetType +:+ " failed").
Definition peer_not_found (virt : string) : error :=
  ErrNew ("destination peer '" +:+ virt +:+ "' not found").

Definition process (addr : string) (now : Z) (data : bytes) (p : processor)
    : outcome (processor * option error) :=
  match data with
  | [] => Panic "index out of range"
  | t :: payload =>
      let packetType := byte_val t in
      if bool_decide (packetType >= Z.of_nat (length protos))
      then Ret (p, Some (unrecognized packetType))
      else
        match mjoin (protos !! Z.to_nat packetType) with
        | None => Ret (p, None)
        | Some k =>
            let '(ok, protoType) := unmarshal k payload in
            if negb ok then Ret (p, Some (unmarshal_failed packetType payload))
            else if bool_decide (packetType = PacketType.Heartbeat) then
              match protoType with
              | MHeartbeat heartbeat =>
                  if bool_decide (hb_VirtAddress heartbeat = ""%string) then Ret (p, None)
                  else s ← Heartbeat addr now heartbeat (server p);
                       Ret ({| server := s; notif := notif p |}, None)
              | _ => Panic "interface conversion"
              end
            else if bool_decide (packetType = PacketType.OpenTunnelAck) then
              match protoType with
              | MOpenTunnelAck ack =>
                  Ret ({| server := server p; notif := openTunnelAck (ota_AckId ack) (notif p) |}, None)
              | _ => Panic "interface conversion"
              end
            else if bool_decide (packetType = PacketType.Relay) then
              match protoType with
              | MRelay rl =>
                  match Peer (rl_VirtAddress rl) (server p) with
                  | None => Ret (p, Some (peer_not_found (rl_VirtAddress rl)))
                  | Some l =>
                      dst ← deref (server p) l;
                      n ← relay (UDPAddress dst) (rl_Data rl) (notif p);
                      Ret ({| server := server p; notif := n |}, None)
                  end
              | _ => Panic "interface conversion"
              end
            else Ret (p, None)
        end
  end.

(** One turn of the receive loop of [Serve], for the datagram [d]: it is cut at the end of the
    buffer, an empty packet is skipped, an error of [process] is logged. *)
Definition serve_packet (addr : string) (now : Z) (d : bytes) (p : processor)
    : outcome processor :=
  let data := cut d in
  if bool_decide (length data < 1)%nat then Ret p
  else '(p', _) ← process addr now data p; Ret p'.

End process.

(** ** What [process] does, packet type by packet type *)

Section process_spec.
Context `{Proto} `{!ProtoLaws _}.
Variable proto_error : bytes → error.
Abbreviation process := (process proto_error).

(** What an incoming packet means to the gateway. *)
Inductive gw_packet :=
| GwHeartbeat (virt : string)
| GwAck (id : Z)
| GwRelay (virt : string) (data : bytes)
| GwIgnored
| GwBad (e : error).

Definition gw_decode (t : byte) (payload : bytes) : gw_packet :=
  match unmarshal KHeartbeat payload, unmarshal KRelay payload, unmarshal KOpenTunnelAck payload with
  | (okh, mh), (okr, mr), (oka, ma) =>
      match byte_val t with
      | 0 => if okh then match mh with
                         | MHeartbeat h => if bool_decide (hb_VirtAddress h = ""%string)
                                           then GwIgnored else GwHeartbeat (hb_VirtAddress h)
                         | _ => GwIgnored end
             else GwBad (unmarshal_failed proto_error 0 payload)
      | 1 => if okr then match mr with MRelay r => GwRelay (rl_VirtAddress r) (rl_Data r)
                                     | _ => GwIgnored end
             else GwBad (unmarshal_failed proto_error 1 payload)
      | 2 => GwIgnored
      | 3 => if oka then match ma with MOpenTunnelAck a => GwAck (ota_AckId a) | _ => GwIgnored end
             else GwBad (unmarshal_failed proto_error 3 payload)
      | z => GwBad (unrecognized z)
      end
  end.

Lemma unmarshal_cases k b :
  ∃ ok m, unmarshal k b = (ok, m) ∧ kind_of m = k.
Proof.
  destruct (unmarshal k b) as [ok m] eqn:E. exists ok, m. split; [done|].
  rewrite <- (unmarshal_kind k b), E. done.
Qed.

Lemma process_spec addr now t payload p :
  process addr now (t :: payload) p =
  match gw_decode t payload with
  | GwHeartbeat v =>
      s ← Heartbeat addr now {| hb_VirtAddress := v |} (server p);
      Ret ({| server := s; notif := notif p |}, None)
  | GwAck id => Ret ({| server := server p; notif := openTunnelAck id (notif p) |}, None)
  | GwRelay v d =>
      match Peer v (server p) with
      | None => Ret (p, Some (peer_not_found v))
      | Some l => dst ← deref (server p) l; n ← relay (UDPAddress dst) d (notif p);
                  Ret ({| server := server p; notif := n |}, None)
      end
  | GwIgnored => Ret (p, None)
  | GwBad e => Ret (p, Some e)
  end.
Proof.
  unfold process, gw_decode.
  destruct (unmarshal_cases KHeartbeat payload) as (okh & mh & Eh & Kh).
  destruct (unmarshal_cases KRelay payload) as (okr & mr & Er & Kr).
  destruct (unmarshal_cases KOpenTunnelAck payload) as (oka & ma & Ea & Ka).
  rewrite Eh, Er, Ea. pose proof (byte_val_range t) as Ht.
  destruct (decide (byte_val t < 4)) as [Hlt|Hge].
  - rewrite bool_decide_eq_false_2 by (simpl; lia).
    assert (byte_val t = 0 ∨ byte_val t = 1 ∨ byte_val t = 2 ∨ byte_val t = 3) as Hc by lia.
    destruct Hc as [-> | [-> | [-> | ->]]]; simpl; rewrite ?Eh, ?Er, ?Ea.
    + destruct okh, mh as [[v]| | | | |]; simpl; try done. by case_bool_decide.
    + by destruct okr, mr.
    + done.
    + by destruct oka, ma.
  - rewrite bool_decide_eq_true_2 by (simpl; lia).
    destruct (byte_val t) as [|[[q|q|]|[q|q|]|]|]; try lia; try done.
Qed.

End process_spec.

(** ** The gateway as a transition system

    [proc] is the state that the UDP loop, the HTTP handlers and the dispatch loop share;
    [disp] the local state of the dispatch loop with the worker channels; [sent] the
    datagrams the workers wrote, oldest first. *)
Record gateway := {
  proc : processor;
  disp : dispatcher;
  sent : list (string * bytes);
}.

Definition with_proc (p : processor) (g : gateway) : gateway :=
  {| proc := p; disp := disp g; sent := sent g |}.
Definition with_notif (n : notifier) (g : gateway) : gateway :=
  {| proc := {| server := server (proc g); notif := n |}; disp := disp g; sent := sent g |}.
Definition with_disp (d : dispatcher) (g : gateway) : gateway :=
  {| proc := proc g; disp := d; sent := sent g |}.
Definition with_todo (t : option (list Z)) (d : dispatcher) : dispatcher :=
  {| roundTrip := roundTrip d; chs := chs d; todo := t |}.
Definition with_chs (c : list (chan packet)) (d : dispatcher) : dispatcher :=
  {| roundTrip := roundTrip d; chs := c; todo := todo d |}.
Definition with_queue (q : chan packet) (n : notifier) : notifier :=
  {| queue := q; ackID := ackID n; data := data n; read := read n |}.
Definition with_read (r : chan unit) (n : notifier) : notifier :=
  {| queue := queue n; ackID := ackID n; data := data n; read := r |}.

Inductive label :=
| LRecv (addr : string) (now : Z) (data : bytes)
| LHttp (req : OpenTunnelRequest)
| LTick
| LNotified
| LRetryNext
| LRetryEnd
| LQueue
| LWorker (i : nat).

(** The keys of the pending packets, in the order the map iteration happens to take. *)
Definition range_order (n : notifier) (ks : list Z) : Prop :=
  ks ≡ₚ (map_to_list (data n)).*1.

(** [n.mu]: the steps that write [data] outside of [retry] need the lock. *)
Definition mu_free (g : gateway) : Prop := todo (disp g) = None.

Section steps.
Context `{Proto}.
Variable proto_error : bytes → error.
Variable semver_NewVersion : string → result Z.
Variable runtime_Version : string.
Variable ResolveUDPAddr : string → option string.

Abbreviation serve_packet := (serve_packet proto_error).
Abbreviation http_OpenTunnel := (Api.OpenTunnel semver_NewVersion runtime_Version).

(** The rules cover the executions in which [ackID] and [roundTrip] stay below the
    largest [int64] (at a million packets a second, the first 290,000 years). *)
Inductive gstep : label → gateway → gateway → Prop :=
| g_recv addr now d g p :
    valid_string addr = true →
    serve_packet addr now d (proc g) = Ret p →
    (data (notif p) = data (notif (proc g)) ∨ mu_free g) →
    gstep (LRecv addr now d) g (with_proc p g)
| g_http req g n r :
    ack_room (notif (proc g)) →
    http_OpenTunnel req (server (proc g)) (notif (proc g)) = Ret (n, r) →
    (data n = data (notif (proc g)) ∨ mu_free g) →
    gstep (LHttp req) g (with_notif n g)
| g_tick g ks :
    mu_free g → range_order (notif (proc g)) ks →
    gstep LTick g (with_disp (with_todo (Some ks) (disp g)) g)
| g_notified g ks r :
    mu_free g → range_order (notif (proc g)) ks →
    chan_recv (read (notif (proc g))) = Some (tt, r) →
    gstep LNotified g
      (with_disp (with_todo (Some ks) (disp g)) (with_notif (with_read r (notif (proc g))) g))
| g_retry_next g k ks n d :
    todo (disp g) = Some (k :: ks) →
    roundTrip (disp g) + 1 < 2 ^ 63 →
    retry_one k (notif (proc g)) (disp g) = Ret (n, d) →
    gstep LRetryNext g (with_disp (with_todo (Some ks) d) (with_notif n g))
| g_retry_end g :
    todo (disp g) = Some [] →
    gstep LRetryEnd g (with_disp (with_todo None (disp g)) g)
| g_queue g p q d :
    todo (disp g) = None →
    roundTrip (disp g) + 1 < 2 ^ 63 →
    chan_recv (queue (notif (proc g))) = Some (p, q) →
    send p (disp g) = Ret d →
    gstep LQueue g (with_disp d (with_notif (with_queue q (notif (proc g))) g))
| g_worker g i ch p ch' o :
    chs (disp g) !! i = Some ch →
    chan_recv ch = Some (p, ch') →
    worker ResolveUDPAddr p = Ret o →
    gstep (LWorker i) g
      {| proc := proc g; disp := with_chs (<[i := ch']> (chs (disp g))) (disp g);
         sent := sent g ++ option_list o |}.

Definition step (g g' : gateway) : Prop := ∃ l, gstep l g g'.

(** [Serve] with a positive [--concurrency]. *)
Definition gateway_init (key : string) (concurrency : Z) (g : gateway) : Prop :=
  0 < concurrency ∧
  ∃ d, start concurrency = Ret d ∧
    g = {| proc := newProcessor (NewServer key) newNotifier; disp := d; sent := [] |}.

(** ** The invariant *)

Definition packet_ok (p : packet) : Prop :=
  match pmessage p with
  | PProto m => typ p = PacketType.OpenTunnel ∧ kind_of m = KOpenTunnel ∧ valid_message m = true
  | PBytes _ => True
  end.

Definition peer_ok (v : string) (p : PeerInfo) : Prop :=
  v ≠ ""%string ∧ VirtAddress p = v ∧ valid_string v = true ∧ valid_string (UDPAddress p) = true.

Definition chan_packets_ok (c : chan packet) : Prop := chan_ok c ∧ Forall packet_ok (buf c).

Record proc_inv (p : processor) : Prop := {
  pi_server : server_ok (server p);
  pi_peers : map_Forall peer_ok (directory (server p));
  pi_pending : pending_inv (notif p);
  pi_room : ackID (notif p) < 2 ^ 63;
  pi_packets : map_Forall (λ _ rp, packet_ok (rp_packet rp)) (data (notif p));
  pi_queue : chan_packets_ok (queue (notif p));
}.

Record gateway_inv (g : gateway) : Prop := {
  gi_proc : proc_inv (proc g);
  gi_disp : disp_ok (disp g);
  gi_chs : Forall chan_packets_ok (chs (disp g));
}.

Lemma chan_packets_push c p :
  chan_packets_ok c → (length (buf c) < cap c)%nat → packet_ok p → chan_packets_ok (chan_push p c).
Proof.
  intros [? Hb] ??. split; [by apply chan_push_ok|]. simpl. apply Forall_app; auto.
Qed.

Lemma chan_packets_recv c p c' :
  chan_packets_ok c → chan_recv c = Some (p, c') → packet_ok p ∧ chan_packets_ok c'.
Proof.
  intros [Hc Hb] Hr. pose proof (chan_recv_ok _ _ _ Hc Hr). unfold chan_recv in Hr.
  destruct (buf c); [done|]. simplify_eq/=. apply Forall_cons in Hb as [? ?]. done.
Qed.

Lemma make_chan_packets_ok n : chan_packets_ok (make_chan packet n).
Proof. split; [unfold chan_ok; simpl; lia|constructor]. Qed.

(** *** Each operation keeps it *)

Lemma Heartbeat_proc_inv addr now v s p :
  proc_inv p → v ≠ ""%string → valid_string v = true → valid_string addr = true →
  Heartbeat addr now {| hb_VirtAddress := v |} (server p) = Ret s →
  proc_inv {| server := s; notif := notif p |}.
Proof.
  intros [] Hv Hvv Ha Hs.
  destruct (Heartbeat_directory addr now {| hb_VirtAddress := v |} (server p)) as (s' & Hs' & ? & ? & Hd);
    [done|].
  rewrite Hs' in Hs. injection Hs as <-. split; simpl; [done| |done..].
  rewrite Hd. apply map_Forall_insert_2; [|done]. by split_and!.
Qed.

Lemma openTunnelAck_proc_inv id p :
  proc_inv p → proc_inv {| server := server p; notif := openTunnelAck id (notif p) |}.
Proof.
  intros []. split; simpl; [done|done|by apply ack_pending_inv|done|by apply map_Forall_delete|done].
Qed.

Lemma relay_proc_inv dest d n p :
  proc_inv p → relay dest d (notif p) = Ret n → proc_inv {| server := server p; notif := n |}.
Proof.
  intros [? ? [] ? ? ?] Hr. unfold relay in Hr. inv_bind. simpl in *.
  split; simpl; try done. by apply chan_packets_push.
Qed.

Lemma introduce_packets p other n :
  valid_string (VirtAddress other) = true → valid_string (UDPAddress other) = true →
  map_Forall (λ _ rp, packet_ok (rp_packet rp)) (data n) →
  map_Forall (λ _ rp, packet_ok (rp_packet rp)) (data (introduce p other n)).
Proof.
  intros Hv Hu Hn. simpl. apply map_Forall_insert_2; [|done].
  unfold packet_ok; simpl. rewrite Hv, Hu, !andb_true_r. split_and!; [done..|].
  apply bool_decide_eq_true_2. apply (swrap_in 64). lia.
Qed.

Lemma OpenTunnel_proc_inv src dst p :
  proc_inv p → ack_room (notif p) →
  valid_string (VirtAddress src) = true → valid_string (UDPAddress src) = true →
  valid_string (VirtAddress dst) = true → valid_string (UDPAddress dst) = true →
  proc_inv {| server := server p; notif := Notifier.OpenTunnel src dst (notif p) |}.
Proof.
  intros [] Hroom ????. split; simpl notif; simpl server; [done|done| | | |done].
  - by apply OpenTunnel_inv.
  - unfold ack_room in Hroom. change (ackID (introduce dst src (introduce src dst (notif p))) < 2 ^ 63).
    rewrite !introduce_ackID by (try apply introduce_inv; try rewrite introduce_ackID; done || lia). lia.
  - by apply introduce_packets, introduce_packets.
Qed.

Lemma directory_valid p v q :
  proc_inv p → directory (server p) !! v = Some q →
  valid_string (VirtAddress q) = true ∧ valid_string (UDPAddress q) = true.
Proof. intros Hp Hq. destruct (pi_peers p Hp _ _ Hq) as (_ & -> & ? & ?). done. Qed.

Context `{!ProtoLaws _}.

Lemma gw_decode_heartbeat t b v :
  gw_decode proto_error t b = GwHeartbeat v → v ≠ ""%string ∧ valid_string v = true.
Proof.
  unfold gw_decode.
  destruct (unmarshal_cases KHeartbeat b) as (okh & mh & Eh & Kh).
  destruct (unmarshal_cases KRelay b) as (okr & mr & Er & Kr).
  destruct (unmarshal_cases KOpenTunnelAck b) as (oka & ma & Ea & Ka).
  rewrite Eh, Er, Ea. intros Hg. repeat case_match; simplify_eq/=.
  case_bool_decide; simplify_eq. split; [done|]. exact (unmarshal_valid _ _ _ Eh).
Qed.

Lemma process_proc_inv addr now d p p' e :
  proc_inv p → valid_string addr = true →
  process proto_error addr now d p = Ret (p', e) → proc_inv p'.
Proof.
  intros Hp Ha. destruct d as [|t b]; [done|]. rewrite process_spec.
  destruct (gw_decode proto_error t b) as [v|id|v d| |err] eqn:E; intros Hr; inv_bind; try done.
  - apply gw_decode_heartbeat in E as [? ?]. simplify_eq. eauto using Heartbeat_proc_inv.
  - simplify_eq. by apply openTunnelAck_proc_inv.
  - destruct (Peer v (server p)); inv_bind; simplify_eq; [|done]. by eapply relay_proc_inv.
Qed.

Lemma serve_proc_inv addr now d p p' :
  proc_inv p → valid_string addr = true → serve_packet addr now d p = Ret p' → proc_inv p'.
Proof.
  intros Hp Ha. unfold Gateway.serve_packet. case_bool_decide; [by intros [= <-]|].
  intros ([p1 e] & Hs & [= <-])%outcome_bind_ret. by eapply process_proc_inv.
Qed.

(** The handler either refuses, or introduces two peers of the directory. *)
Lemma http_cases req s n n' r :
  http_OpenTunnel req s n = Ret (n', r) →
  n' = n ∨
  ∃ ps pd, directory s !! req_Source req = Some ps ∧ directory s !! req_Destination req = Some pd ∧
    n' = Notifier.OpenTunnel ps pd n.
Proof.
  unfold Api.OpenTunnel. intros Hr. repeat case_match; try (left; congruence). right.
  apply outcome_bind_ret in Hr as (ps & Hps & Hr). apply outcome_bind_ret in Hr as (pd & Hpd & Hr).
  exists ps, pd. split_and!; [by apply directory_Peer; eauto..|].
  apply outcome_bind_ret in Hr as (? & [= <-] & [= <- _]). done.
Qed.

Lemma http_proc_inv req p n r :
  proc_inv p → ack_room (notif p) →
  http_OpenTunnel req (server p) (notif p) = Ret (n, r) →
  proc_inv {| server := server p; notif := n |}.
Proof.
  intros Hp Hroom [->|(ps & pd & Hs & Hd & ->)]%http_cases; [by destruct p|].
  edestruct (directory_valid p _ _ Hp Hs), (directory_valid p _ _ Hp Hd).
  by apply OpenTunnel_proc_inv.
Qed.

(** *** Every step keeps it *)

Lemma retry_one_inv g k n d :
  gateway_inv g → roundTrip (disp g) + 1 < 2 ^ 63 →
  retry_one k (notif (proc g)) (disp g) = Ret (n, d) →
  n = notif (proc g) ∧ disp_ok d ∧ Forall chan_packets_ok (chs d).
Proof.
  intros [Hp Hd Hc] Hr Ho. rewrite retry_one_pending in Ho by apply Hp.
  unfold pending_packets in Ho; simpl in Ho.
  destruct (data (notif (proc g)) !! k) as [rp|] eqn:E; simpl in Ho; inv_bind; simplify_eq; [|done].
  destruct (send (rp_packet rp) (disp g)) as [d'| |] eqn:Hs; simplify_eq/=.
  split; [done|]. split; [by eapply send_ok|].
  eapply send_Ret in Hs as (ch & Hch & Hl & ->); [|done]. simpl.
  apply Forall_insert; [done|]. apply chan_packets_push; [|done|].
  - by eapply Forall_lookup_1.
  - by eapply (pi_packets (proc g) Hp).
Qed.

Lemma send_inv p d d' :
  disp_ok d → Forall chan_packets_ok (chs d) → packet_ok p → roundTrip d + 1 < 2 ^ 63 →
  send p d = Ret d' → disp_ok d' ∧ Forall chan_packets_ok (chs d').
Proof.
  intros Hd Hc Hp Hr Hs. split; [by eapply send_ok|].
  eapply send_Ret in Hs as (ch & Hch & Hl & ->); [|done]. simpl.
  apply Forall_insert; [done|]. apply chan_packets_push; [|done|done].
  by eapply Forall_lookup_1.
Qed.

Lemma with_notif_same g : with_notif (notif (proc g)) g = g.
Proof. by destruct g as [[]]. Qed.

Lemma disp_ok_todo t d : disp_ok d → disp_ok (with_todo t d).
Proof. by intros []. Qed.

Lemma gstep_inv l g g' : gateway_inv g → gstep l g g' → gateway_inv g'.
Proof.
  intros Hg Hs. pose proof Hg as [Hp Hd Hc]. inversion Hs; subst; clear Hs.
  - split; simpl; [|done..]. by eapply serve_proc_inv.
  - split; simpl; [|done..]. by eapply http_proc_inv.
  - split; simpl; [done|by apply disp_ok_todo|done].
  - split; simpl; [|by apply disp_ok_todo|done]. by destruct Hp as [? ? []]; split.
  - match goal with Ho : retry_one _ _ _ = _ |- _ =>
      destruct (retry_one_inv _ _ _ _ Hg ltac:(done) Ho) as (-> & ? & ?) end.
    rewrite with_notif_same. split; simpl; [done|by apply disp_ok_todo|done].
  - split; simpl; [done|by apply disp_ok_todo|done].
  - edestruct chan_packets_recv; [apply (pi_queue _ Hp)|done|].
    edestruct send_inv; [exact Hd|exact Hc|done..|].
    split; simpl; [|done..]. by destruct Hp as [? ? []]; split.
  - split; simpl; [done| |].
    + destruct Hd as [Hn ?]. split; simpl; [|done].
      intros E%(f_equal length). rewrite length_insert in E. by destruct (chs (disp g)).
    + apply Forall_insert; [done|].
      edestruct chan_packets_recv; [|done|done]. by eapply Forall_lookup_1.
Qed.

Lemma gateway_init_inv key c g : gateway_init key c g → gateway_inv g.
Proof.
  intros (Hc & d & Hd & ->). unfold start in Hd. rewrite bool_decide_eq_false_2 in Hd by lia.
  injection Hd as <-. split; simpl.
  - split; simpl; [apply server_ok_new| |apply pending_inv_new|lia| |apply make_chan_packets_ok].
    + unfold directory; simpl. rewrite omap_empty. apply map_Forall_empty.
    + apply map_Forall_empty.
  - split; simpl; [|lia]. destruct (Z.to_nat c) eqn:E; [lia|done].
  - apply Forall_replicate, make_chan_packets_ok.
Qed.

Lemma gateway_reachable_inv key c g0 g : gateway_init key c g0 → rtc step g0 g → gateway_inv g.
Proof.
  intros H0. apply (rtc_invariant step gateway_inv); [|by eapply gateway_init_inv].
  intros s s' ? [l ?]. by eapply gstep_inv.
Qed.

(** *** No operation panics where it holds *)

Lemma process_no_panic addr now t b p :
  proc_inv p → is_panic (process proto_error addr now (t :: b) p) = false.
Proof.
  intros []. rewrite process_spec. destruct (gw_decode proto_error t b) as [v|id|v d| |err]; try done.
  - destruct (Heartbeat_directory addr now {| hb_VirtAddress := v |} (server p)) as (s' & -> & _); done.
  - unfold Peer. destruct (peers (server p) !! v) as [l|] eqn:E; [|done].
    destruct (server_ok_peers _ pi_server0 _ _ E) as (q & Hq & _). unfold deref. rewrite Hq; simpl.
    repeat (apply outcome_bind_no_panic; [|done]). apply chan_send_no_panic.
Qed.

Lemma serve_packet_no_panic addr now d p :
  proc_inv p → is_panic (serve_packet addr now d p) = false.
Proof.
  intros Hp. unfold serve_packet, Gateway.serve_packet. case_bool_decide as Hl; [done|].
  apply outcome_bind_no_panic; [|by intros []]. destruct (cut d); simpl in Hl; [lia|].
  by apply process_no_panic.
Qed.

Lemma http_no_panic req p : proc_inv p → is_panic (http_OpenTunnel req (server p) (notif p)) = false.
Proof.
  intros []. unfold Api.OpenTunnel. repeat case_match; try done.
  unfold Peer in *.
  repeat match goal with E : peers _ !! _ = Some _ |- _ =>
    destruct (server_ok_peers _ pi_server0 _ _ E) as (? & ? & _); clear E end.
  unfold deref. by simplify_option_eq.
Qed.

Lemma worker_no_panic p : packet_ok p → is_panic (worker ResolveUDPAddr p) = false.
Proof.
  intros Hp. unfold worker, worker_bytes. destruct (ResolveUDPAddr _); [|done].
  apply outcome_bind_no_panic; [|done]. unfold packet_ok in Hp.
  destruct (pmessage p); [destruct Hp as (_ & _ & ?); by apply Encode_valid_no_panic|done].
Qed.

Lemma retry_one_no_panic k n d : disp_ok d → is_panic (retry_one k n d) = false.
Proof.
  intros Hd. unfold retry_one. repeat case_match; try done.
  apply outcome_bind_no_panic; [by apply send_no_panic|done].
Qed.

(** *** A pending packet leaves the table only by its acknowledgement *)

Lemma gw_decode_ack_data addr now d p p' k rp :
  serve_packet addr now d p = Ret p' →
  data (notif p) !! k = Some rp →
  data (notif p') !! k = Some rp ∨
  ∃ t b, cut d = t :: b ∧ gw_decode proto_error t b = GwAck k.
Proof.
  unfold serve_packet, Gateway.serve_packet. intros Hs Hk.
  case_bool_decide; inv_bind; [by left|]. destruct x as [p1 e]. inv_bind.
  destruct (cut d) as [|t b]; [done|]. rewrite process_spec in H1.
  destruct (gw_decode proto_error t b) as [v|id|v payload| |err] eqn:E; inv_bind; simplify_eq/=; auto.
  - destruct (decide (id = k)) as [->|]; [by right; eauto|].
    left. by rewrite lookup_delete_ne.
  - destruct (Peer v (server p)); inv_bind; simplify_eq; [|by left].
    unfold relay in *. inv_bind. by left.
Qed.

Lemma introduce_keeps p other n k rp :
  pending_inv n → ackID n + 1 < 2 ^ 63 → data n !! k = Some rp →
  data (introduce p other n) !! k = Some rp.
Proof.
  intros Hn Hr Hk. simpl. rewrite next_id by done. rewrite lookup_insert_ne; [done|].
  intros <-. by rewrite next_id_fresh in Hk.
Qed.

Lemma http_keeps req s n n' r k rp :
  pending_inv n → ack_room n → http_OpenTunnel req s n = Ret (n', r) →
  data n !! k = Some rp → data n' !! k = Some rp.
Proof.
  intros Hn Hroom [->|(ps & pd & _ & _ & ->)]%http_cases Hk; [done|]. unfold ack_room in Hroom.
  change (data (introduce pd ps (introduce ps pd n)) !! k = Some rp).
  apply introduce_keeps; [by apply introduce_inv; [|lia]| |by apply introduce_keeps; [|lia|]].
  rewrite introduce_ackID by (done || lia). lia.
Qed.

Lemma gstep_pending l g g' k rp :
  gateway_inv g → gstep l g g' →
  data (notif (proc g)) !! k = Some rp →
  data (notif (proc g')) !! k = Some rp ∨
  ∃ addr now d t b, l = LRecv addr now d ∧ cut d = t :: b ∧ gw_decode proto_error t b = GwAck k.
Proof.
  intros Hg Hs Hk. inversion Hs; subst; simpl; auto.
  - edestruct gw_decode_ack_data as [?|(t & b & ? & ?)]; [done|done|by left|].
    right. eauto 10.
  - left. eapply http_keeps; [apply Hg|done..].
  - left. edestruct retry_one_inv as (-> & _); done.
Qed.

(** *** An acknowledged packet is not sent again *)

Definition packet_for (k : Z) (p : packet) : bool :=
  match pmessage p with
  | PProto (MOpenTunnel o) => bool_decide (ot_AckId o = k)
  | _ => false
  end.

Definition datagram_for (k : Z) (x : string * bytes) : bool :=
  match x.2 with
  | [] => false
  | t :: b => bool_decide (byte_val t = PacketType.OpenTunnel) &&
      match unmarshal KOpenTunnel b with
      | (true, MOpenTunnel o) => bool_decide (ot_AckId o = k)
      | _ => false
      end
  end.

Lemma worker_datagram k p x :
  packet_ok p → worker ResolveUDPAddr p = Ret (Some x) → datagram_for k x = packet_for k p.
Proof.
  unfold worker, worker_bytes, packet_for, packet_ok. destruct (ResolveUDPAddr _); [|done].
  destruct (pmessage p) as [m|b]; intros Hp Hw; [|by simplify_eq/=].
  destruct Hp as (Ht & Hk & _). apply outcome_bind_ret in Hw as (d & Hd & Hw). simplify_eq.
  apply Encode_decode in Hd as (b & -> & Hb). rewrite Hk in Hb.
  unfold datagram_for; simpl. rewrite Ht, Hb. rewrite bool_decide_eq_true_2 by done. by destruct m.
Qed.

Definition quiet (k : Z) (c : chan packet) : Prop := Forall (λ p, packet_for k p = false) (buf c).

(** [k] was given out, is not pending, and is in no channel. *)
Record retired (k : Z) (g : gateway) : Prop := {
  ret_id : k <= ackID (notif (proc g));
  ret_data : data (notif (proc g)) !! k = None;
  ret_queue : quiet k (queue (notif (proc g)));
  ret_chs : Forall (quiet k) (chs (disp g));
}.

Lemma quiet_push k p c : quiet k c → packet_for k p = false → quiet k (chan_push p c).
Proof. intros ??. apply Forall_app; split; [done|]. by constructor. Qed.

Lemma quiet_recv k p c c' : quiet k c → chan_recv c = Some (p, c') → packet_for k p = false ∧ quiet k c'.
Proof.
  unfold quiet, chan_recv. destruct c as [n [|x b]]; intros Hq Hr; [done|].
  simplify_eq/=. by apply Forall_cons in Hq.
Qed.

Lemma send_quiet k p d d' :
  disp_ok d → send p d = Ret d' → packet_for k p = false →
  Forall (quiet k) (chs d) → Forall (quiet k) (chs d').
Proof.
  intros Hd (ch & Hch & _ & ->)%send_Ret Hp Hq; [|done]. simpl.
  apply Forall_insert; [done|]. apply quiet_push; [|done]. by eapply Forall_lookup_1.
Qed.

Lemma pending_packet_for n k k' rp :
  pending_inv n → data n !! k' = Some rp → k' ≠ k → packet_for k (rp_packet rp) = false.
Proof.
  intros Hn Hk Hne. destruct (pending_data n Hn _ _ Hk) as (_ & _ & ? & ? & ? & ->).
  by apply bool_decide_eq_false_2.
Qed.

Lemma retired_proc k g p :
  retired k g → k <= ackID (notif p) → data (notif p) !! k = None →
  quiet k (queue (notif p)) → retired k (with_proc p g).
Proof. intros []. by split. Qed.

Lemma serve_retired k addr now d p p' :
  serve_packet addr now d p = Ret p' →
  ackID (notif p') = ackID (notif p) ∧
  (data (notif p) !! k = None → data (notif p') !! k = None) ∧
  (quiet k (queue (notif p)) → quiet k (queue (notif p'))).
Proof.
  unfold serve_packet, Gateway.serve_packet. intros Hs.
  case_bool_decide; inv_bind; [done|]. destruct x as [p1 e]. inv_bind.
  destruct (cut d) as [|t b]; [done|]. rewrite process_spec in H1.
  destruct (gw_decode proto_error t b) as [v|id|v payload| |err] eqn:E; inv_bind; simplify_eq/=; auto.
  - split_and!; [done| |done]. intros. apply lookup_delete_None. auto.
  - destruct (Peer v (server p)); inv_bind; simplify_eq; [|done].
    unfold relay in *. inv_bind. split_and!; [done..|]. simpl. intros. by apply quiet_push.
Qed.

Lemma http_retired k req s n n' r :
  pending_inv n → ack_room n → http_OpenTunnel req s n = Ret (n', r) →
  k <= ackID n → data n !! k = None →
  k <= ackID n' ∧ data n' !! k = None ∧ queue n' = queue n.
Proof.
  intros Hn Hroom [->|(ps & pd & _ & _ & ->)]%http_cases Hk Hd; [done|]. unfold ack_room in Hroom.
  simpl. rewrite next_id by (done || lia).
  rewrite swrap_small by (unfold in_int; destruct Hn; lia).
  split_and!; [lia| |done]. rewrite !lookup_insert_ne by lia. done.
Qed.

Lemma gstep_retired k l g g' :
  gateway_inv g → gstep l g g' → retired k g →
  retired k g' ∧ filter (λ x, datagram_for k x = true) (sent g')
                 = filter (λ x, datagram_for k x = true) (sent g).
Proof.
  intros Hg Hs Hr. pose proof Hg as [Hp Hd Hc]. pose proof Hr as [Hi Hda Hq Hch].
  inversion Hs; subst; clear Hs; simpl; (split; [|try done]).
  - edestruct serve_retired as (Ha & ? & ?); [done|]. apply retired_proc; auto. by rewrite Ha.
  - edestruct http_retired as (? & ? & Hqq); [apply Hp|done..|]. split; simpl; [done|done| |done].
    by rewrite Hqq.
  - by split.
  - by split.
  - match goal with Ho : retry_one _ _ _ = _ |- _ =>
      destruct (retry_one_inv _ _ _ _ Hg ltac:(done) Ho) as (-> & ? & ?);
      rewrite retry_one_pending in Ho by apply Hp; unfold pending_packets in Ho; simpl in Ho end.
    destruct (data (notif (proc g)) !! k0) as [rp|] eqn:E; simpl in *; inv_bind; simplify_eq.
    + destruct (send (rp_packet rp) (disp g)) eqn:Hse; simplify_eq/=. split; simpl; [done..|].
      eapply send_quiet; [exact Hd|exact Hse| |exact Hch]. eapply pending_packet_for; [apply Hp|done|].
      intros ->. by rewrite Hda in E.
    + by split.
  - by split.
  - edestruct quiet_recv; [exact Hq|done|]. split; simpl; [done..|].
    by eapply send_quiet; [exact Hd| | |].
  - edestruct quiet_recv; [by eapply Forall_lookup_1|done|]. split; simpl; [done..|].
    by apply Forall_insert.
  - edestruct quiet_recv; [by eapply Forall_lookup_1; [exact Hch|]|done|].
    edestruct chan_packets_recv; [by eapply Forall_lookup_1; [exact Hc|]|done|].
    rewrite filter_app. destruct o as [x|]; simpl; [|by rewrite filter_nil, app_nil_r].
    erewrite filter_cons_False; [by rewrite filter_nil, app_nil_r|].
    erewrite worker_datagram by done. congruence.
Qed.

(** *** One round of [retry], drained by the workers *)

Definition idle_chan (c : chan packet) : Prop := buf c = [] ∧ (0 < cap c)%nat.
Definition idle (g : gateway) : Prop := Forall idle_chan (chs (disp g)).

(** How many datagrams for the introduction [k] went out. *)
Definition copies (k : Z) (g : gateway) : nat :=
  length (filter (λ x, datagram_for k x = true) (sent g)).

Definition resolvable (g : gateway) : Prop :=
  map_Forall (λ _ rp, is_Some (ResolveUDPAddr (destination (rp_packet rp))))
    (data (notif (proc g))).

Lemma worker_Some p dest :
  packet_ok p → ResolveUDPAddr (destination p) = Some dest →
  ∃ d, worker ResolveUDPAddr p = Ret (Some (dest, d)).
Proof.
  intros Hp Hd. pose proof (worker_no_panic p Hp) as Hw. unfold worker in *. rewrite Hd in *.
  unfold worker_bytes in *. destruct (pmessage p) as [m|b]; [|by eexists].
  unfold Encode in *. destruct (marshal m); simpl in *; [by eexists|done].
Qed.

Lemma retry_next_drained g k ks rp :
  gateway_inv g → todo (disp g) = Some (k :: ks) → idle g → resolvable g →
  roundTrip (disp g) + 1 < 2 ^ 63 → data (notif (proc g)) !! k = Some rp →
  ∃ g' x, rtc step g g' ∧ proc g' = proc g ∧ todo (disp g') = Some ks ∧ idle g' ∧
    roundTrip (disp g') = roundTrip (disp g) + 1 ∧ sent g' = sent g ++ [x] ∧
    datagram_for k x = true.
Proof.
  intros Hg Ht Hi Hres Hr Hk. pose proof Hg as [Hp Hd Hc].
  destruct (send_spec (rp_packet rp) _ Hd) as (ch & Hch & Hs).
  set (i := (Z.to_nat (roundTrip (disp g)) `mod` length (chs (disp g)))%nat) in *.
  pose proof (Forall_lookup_1 _ _ _ _ Hi Hch) as [Hb Hcap].
  unfold chan_send, chan_full in Hs. rewrite bool_decide_eq_false_2 in Hs by (rewrite Hb; simpl; lia).
  simpl in Hs. rewrite swrap_small in Hs by (unfold in_int; destruct Hd; lia).
  pose proof (pi_packets _ Hp _ _ Hk) as Hpk.
  destruct (Hres _ _ Hk) as [dest Hdest]. destruct (worker_Some _ dest Hpk Hdest) as [b Hw].
  pose proof (lookup_lt_Some _ _ _ Hch) as Hlt.
  set (d1 := {| roundTrip := roundTrip (disp g) + 1;
                chs := <[i:=chan_push (rp_packet rp) ch]> (chs (disp g)); todo := todo (disp g) |}) in Hs.
  assert (retry_one k (notif (proc g)) (disp g) = Ret (notif (proc g), d1)) as Ho.
  { rewrite retry_one_pending by apply Hp. unfold pending_packets; simpl. rewrite Hk; simpl. by rewrite Hs. }
  set (g1 := with_disp (with_todo (Some ks) d1) (with_notif (notif (proc g)) g)).
  assert (gstep (LWorker i) g1
    {| proc := proc g1; disp := with_chs (<[i := Chan (cap ch) []]> (chs (disp g1))) (disp g1);
       sent := sent g1 ++ option_list (Some (dest, b)) |}) as Hst.
  { eapply (g_worker g1 i (chan_push (rp_packet rp) ch) (rp_packet rp)); [| |exact Hw].
    - simpl. by apply list_lookup_insert_eq.
    - unfold chan_recv, chan_push; simpl. by rewrite Hb. }
  eexists _, (dest, b). split.
  { eapply rtc_l; [exists LRetryNext; eapply (g_retry_next g k ks); [exact Ht|exact Hr|exact Ho]|].
    eapply rtc_l; [eexists; exact Hst|]. apply rtc_refl. }
  unfold g1; rewrite with_notif_same; simpl. split_and!; try done.
  - unfold idle; simpl. rewrite list_insert_insert_eq. apply Forall_insert; [exact Hi|]. by split.
  - rewrite (worker_datagram k (rp_packet rp) _ Hpk Hw).
    destruct (pending_data _ (pi_pending _ Hp) _ _ Hk) as (_ & _ & ? & ? & ? & ->).
    by apply bool_decide_eq_true_2.
Qed.

Lemma retry_round_drained ks g :
  gateway_inv g → todo (disp g) = Some ks → idle g → resolvable g →
  roundTrip (disp g) + Z.of_nat (length ks) < 2 ^ 63 →
  Forall (λ k, is_Some (data (notif (proc g)) !! k)) ks →
  ∃ g', rtc step g g' ∧ proc g' = proc g ∧ todo (disp g') = None ∧ idle g' ∧
    roundTrip (disp g') = roundTrip (disp g) + Z.of_nat (length ks) ∧
    ∀ k, (copies k g ≤ copies k g')%nat ∧ (k ∈ ks → (copies k g + 1 ≤ copies k g')%nat).
Proof.
  revert g. induction ks as [|k ks IH]; intros g Hg Ht Hi Hres Hr Hks.
  - eexists. split; [eapply rtc_once; eexists; by apply g_retry_end|]. simpl.
    split_and!; [done|done|done|lia|]. intros k. split; [done|]. set_solver.
  - apply Forall_cons in Hks as [[rp Hk] Hks]. simpl in Hr.
    destruct (retry_next_drained g k ks rp) as (g1 & x & Hst & Hpr & Ht1 & Hi1 & Hr1 & Hse & Hx); try done; [lia|].
    assert (gateway_inv g1) as Hg1.
    { eapply (rtc_invariant step gateway_inv); [|exact Hg|exact Hst]. intros s s' ? [l ?]. by eapply gstep_inv. }
    destruct (IH g1) as (g2 & Hst2 & Hpr2 & Ht2 & Hi2 & Hr2 & Hcp); try done.
    { unfold resolvable. by rewrite Hpr. }
    { lia. }
    { by rewrite Hpr. }
    exists g2. split_and!; [by etrans|congruence|done|done|simpl; lia|].
    assert (∀ j, copies j g1 = copies j g + (if datagram_for j x then 1 else 0))%nat as Hcx.
    { intros j. unfold copies. rewrite Hse, filter_app, length_app. f_equal.
      destruct (datagram_for j x) eqn:E; [by rewrite filter_cons_True by done|].
      rewrite filter_cons_False by congruence. done. }
    intros j. specialize (Hcp j) as [? Hin]. rewrite Hcx in *. split; [lia|].
    intros [->|?]%elem_of_cons; [rewrite Hx in *; lia|]. specialize (Hin ltac:(done)). lia.
Qed.

Lemma retry_rounds m g k :
  gateway_inv g → mu_free g → idle g → resolvable g →
  roundTrip (disp g) + Z.of_nat (m * size (data (notif (proc g)))) < 2 ^ 63 →
  is_Some (data (notif (proc g)) !! k) →
  ∃ g', rtc step g g' ∧ proc g' = proc g ∧ (copies k g + m ≤ copies k g')%nat.
Proof.
  revert g. induction m as [|m IH]; intros g Hg Hmu Hi Hres Hr Hk.
  - exists g. split_and!; [apply rtc_refl|done|lia].
  - set (ks := (map_to_list (data (notif (proc g)))).*1).
    assert (length ks = size (data (notif (proc g)))) as Hl.
    { unfold ks. by rewrite length_fmap, length_map_to_list. }
    set (g1 := with_disp (with_todo (Some ks) (disp g)) g).
    assert (gstep LTick g g1) as Hst1.
    { apply g_tick; [exact Hmu|]. unfold range_order. reflexivity. }
    destruct (retry_round_drained ks g1) as (g2 & Hst2 & Hpr2 & Ht2 & Hi2 & Hr2 & Hcp); try done.
    { by eapply gstep_inv. }
    { simpl. lia. }
    { apply Forall_forall. intros j Hj. unfold ks in Hj. apply list_elem_of_fmap in Hj as ([j' rp] & -> & Hj).
      apply elem_of_map_to_list in Hj. simpl. eauto. }
    destruct (IH g2) as (g3 & Hst3 & Hpr3 & Hc3); try done.
    { eapply (rtc_invariant step gateway_inv); [|by eapply gstep_inv; [exact Hg|exact Hst1]|exact Hst2].
      intros s s' ? [l ?]. by eapply gstep_inv. }
    { unfold resolvable. by rewrite Hpr2. }
    { rewrite Hr2, Hpr2; simpl. lia. }
    { by rewrite Hpr2. }
    exists g3. split_and!; [|by rewrite Hpr3, Hpr2|].
    + eapply rtc_l; [exists LTick; exact Hst1|]. by etrans.
    + destruct (Hcp k) as [_ Hin]. destruct Hk as [rp Hk].
      assert (k ∈ ks).
      { unfold ks. apply list_elem_of_fmap. exists (k, rp). split; [done|]. by apply elem_of_map_to_list. }
      specialize (Hin ltac:(done)). change (copies k g1) with (copies k g) in Hin. lia.
Qed.

(** ** What the gateway promises *)

(** C6: A gateway that was started with a positive concurrency never panics: whatever
    datagram, HTTP request or pending packet comes next in a reachable state, the handler
    that runs on it does not panic (every message it has to marshal can be marshalled,
    because each address in it came out of a successful unmarshal). *)
Theorem gateway_never_panics key c g0 g :
  gateway_init key c g0 → rtc step g0 g →
  (∀ addr now d, is_panic (serve_packet addr now d (proc g)) = false) ∧
  (∀ req, is_panic (http_OpenTunnel req (server (proc g)) (notif (proc g))) = false) ∧
  (∀ k, is_panic (retry_one k (notif (proc g)) (disp g)) = false) ∧
  (∀ p, is_panic (send p (disp g)) = false) ∧
  (∀ ch p ch', ch ∈ chs (disp g) → chan_recv ch = Some (p, ch') →
     is_panic (worker ResolveUDPAddr p) = false).
Proof.
  intros H0 Hr. destruct (gateway_reachable_inv _ _ _ _ H0 Hr) as [Hp Hd Hc]. split_and!; intros.
  - by apply serve_packet_no_panic.
  - by apply http_no_panic.
  - by apply retry_one_no_panic.
  - by apply send_no_panic.
  - edestruct chan_packets_recv; [|done|by apply worker_no_panic].
    by eapply Forall_forall in Hc.
Qed.

(** C9: A pending introduction leaves the table only when a datagram arrives that, as it is read
    into the buffer, decodes to the acknowledgement of its number; no other step of the gateway changes it. *)
Theorem pending_until_acknowledged key c g0 g l g' k rp :
  gateway_init key c g0 → rtc step g0 g → gstep l g g' →
  data (notif (proc g)) !! k = Some rp →
  data (notif (proc g')) !! k = Some rp ∨
  ∃ addr now d t b, l = LRecv addr now d ∧ cut d = t :: b ∧ gw_decode proto_error t b = GwAck k.
Proof. intros H0 Hr. eapply gstep_pending, gateway_reachable_inv; done. Qed.

(** C10: Once a number was given out, is not pending, and no channel holds a packet for it,
    it never comes back: in every later state it is still not pending (numbers are not
    reused) and not one more datagram for it was written. *)
Theorem acknowledged_not_resent key c g0 g g' k :
  gateway_init key c g0 → rtc step g0 g → retired k g → rtc step g g' →
  data (notif (proc g')) !! k = None ∧ copies k g' = copies k g.
Proof.
  intros H0 Hr Hret Hst. pose proof (gateway_reachable_inv _ _ _ _ H0 Hr) as Hg.
  assert (retired k g' ∧ gateway_inv g' ∧ copies k g' = copies k g) as (? & _ & ?).
  { revert Hst. apply (rtc_invariant step (λ g', retired k g' ∧ gateway_inv g' ∧ copies k g' = copies k g)).
    - intros s s' (? & ? & Hc) [l Hl]. edestruct gstep_retired as [? Hf]; [done..|].
      split_and!; [done|by eapply gstep_inv|]. unfold copies in *. by rewrite Hf.
    - done. }
  split; [by apply ret_data|done].
Qed.

(** C29: There is no limit to the retries: from any reachable idle state with a pending
    introduction [k], for every [m] (well beyond [MaxRetrySend]) there is an execution in
    which [m] more datagrams for [k] go out while it stays pending, within the number of
    sends that an [int64] counts. *)
Theorem retry_has_no_limit key c g0 g k m :
  gateway_init key c g0 → rtc step g0 g →
  mu_free g → idle g → resolvable g →
  roundTrip (disp g) + Z.of_nat (m * size (data (notif (proc g)))) < 2 ^ 63 →
  is_Some (data (notif (proc g)) !! k) →
  ∃ g', rtc step g g' ∧ (copies k g + m ≤ copies k g')%nat ∧
    data (notif (proc g')) !! k = data (notif (proc g)) !! k.
Proof.
  intros H0 Hr Hmu Hi Hres Hroom Hk. pose proof (gateway_reachable_inv _ _ _ _ H0 Hr) as Hg.
  destruct (retry_rounds m g k Hg Hmu Hi Hres Hroom Hk) as (g' & ? & Hp & ?).
  exists g'. split_and!; [done..|]. by rewrite Hp.
Qed.

(** C22: What [process] does with a datagram in a state of the invariant, on every branch: a
    heartbeat updates the directory, an acknowledgement removes its number, relayed data
    goes into the queue towards the current UDP address of the destination (blocking when
    the queue is full) or is refused when the peer is unknown, and everything else leaves
    the state alone. *)
Theorem process_correct addr now t b p :
  proc_inv p →
  match gw_decode proto_error t b with
  | GwHeartbeat v =>
      ∃ s, process proto_error addr now (t :: b) p = Ret ({| server := s; notif := notif p |}, None) ∧
        server_ok s ∧
        directory s = <[v := {| VirtAddress := v; UDPAddress := addr; LastHeartbeat := now |}]>
                        (directory (server p))
  | GwAck k =>
      ∃ n, process proto_error addr now (t :: b) p = Ret ({| server := server p; notif := n |}, None) ∧
        data n = delete k (data (notif p)) ∧ queue n = queue (notif p) ∧ ackID n = ackID (notif p)
  | GwRelay v d =>
      match directory (server p) !! v with
      | None => process proto_error addr now (t :: b) p = Ret (p, Some (peer_not_found v))
      | Some q =>
          if chan_full (queue (notif p)) then process proto_error addr now (t :: b) p = Block
          else process proto_error addr now (t :: b) p =
               Ret ({| server := server p;
                       notif := with_queue (chan_push {| destination := UDPAddress q;
                                  typ := PacketType.Data; pmessage := PBytes d |}
                                  (queue (notif p))) (notif p) |}, None)
      end
  | GwIgnored => process proto_error addr now (t :: b) p = Ret (p, None)
  | GwBad e => process proto_error addr now (t :: b) p = Ret (p, Some e)
  end.
Proof.
  intros Hp. rewrite process_spec. pose proof (pi_server p Hp) as Hs.
  destruct (gw_decode proto_error t b) as [v|k|v d| |e]; try done.
  - destruct (Heartbeat_directory addr now {| hb_VirtAddress := v |} (server p) Hs)
      as (s & -> & ? & _ & ?). simpl. eauto.
  - eexists. split; [done|]. done.
  - destruct (directory (server p) !! v) as [q|] eqn:E.
    + apply directory_Peer in E as (l & -> & Hl). rewrite Hl; simpl.
      unfold relay, chan_send. by destruct (chan_full (queue (notif p))).
    + by rewrite (directory_Peer_None _ _ Hs E).
Qed.

End steps.

(** ** A concrete run

    Two heartbeats and one HTTP request, on the wire format of [WireFormat]. *)
Module Demo.

Definition semver (v : string) : result Z :=
  if bool_decide (v = "0.1.0"%string) then Ok 0 else Err (ErrNew "invalid version").
Definition resolve (a : string) : option string := Some a.
Definition perr (b : bytes) : error := ErrNew "proto: cannot parse".

Definition hb (v : string) : bytes :=
  match Encode PacketType.Heartbeat (MHeartbeat {| hb_VirtAddress := v |}) with Ret d => d | _ => [] end.
Definition ack (k : Z) : bytes :=
  match Encode PacketType.OpenTunnelAck (MOpenTunnelAck {| ota_AckId := k |}) with Ret d => d | _ => [] end.
Definition rly (v : string) (d : bytes) : bytes :=
  match Encode PacketType.Relay (MRelay {| rl_VirtAddress := v; rl_Data := d |}) with Ret d => d | _ => [] end.

Definition g0 : gateway :=
  {| proc := newProcessor (NewServer "k") newNotifier;
     disp := match start 2 with Ret d => d | _ => {| roundTrip := 0; chs := []; todo := None |} end;
     sent := [] |}.

Definition recv (addr : string) (d : bytes) (g : gateway) : gateway :=
  with_proc (match serve_packet perr addr 0 d (proc g) with Ret p => p | _ => proc g end) g.
Definition http (src dst : string) (g : gateway) : gateway :=
  with_notif (match Api.OpenTunnel semver "go1.14" (client_request "go1.14" src dst)
                      (server (proc g)) (notif (proc g)) with
              | Ret (n, _) => n | _ => notif (proc g) end) g.

Definition g1 : gateway := recv "1.1.1.1:1" (hb "10.0.0.1") g0.
Definition g2 : gateway := recv "2.2.2.2:2" (hb "10.0.0.2") g1.
Definition g3 : gateway := http "10.0.0.1" "10.0.0.2" g2.
Definition g4 : gateway := recv "1.1.1.1:1" (ack 1) g3.

Abbreviation demo_step := (step perr semver "go1.14" resolve).

Lemma init0 : gateway_init "k" 2 g0.
Proof. split; [lia|]. eexists; split; [vm_compute; reflexivity|reflexivity]. Qed.

Lemma recv_step addr d g p :
  valid_string addr = true → serve_packet perr addr 0 d (proc g) = Ret p → mu_free g →
  recv addr d g = with_proc p g ∧
  gstep perr semver "go1.14" resolve (LRecv addr 0 d) g (recv addr d g).
Proof.
  intros Ha Hp Hm. assert (recv addr d g = with_proc p g) as E by (unfold recv; by rewrite Hp).
  split; [done|]. rewrite E. apply g_recv; auto.
Qed.

Lemma step1 : demo_step g0 g1.
Proof. eexists. eapply recv_step; [by vm_compute|vm_compute; reflexivity|reflexivity]. Qed.

Lemma step2 : demo_step g1 g2.
Proof. eexists. eapply recv_step; [by vm_compute|vm_compute; reflexivity|reflexivity]. Qed.

Lemma step3 : demo_step g2 g3.
Proof.
  exists (LHttp (client_request "go1.14" "10.0.0.1" "10.0.0.2")).
  apply (g_http perr semver "go1.14" resolve _ g2 (notif (proc g3)) (Ok {| res_Encrypt := "" |}));
    [by vm_compute|by vm_compute|by right].
Qed.

Lemma step4 : gstep perr semver "go1.14" resolve (LRecv "1.1.1.1:1" 0 (ack 1)) g3 g4.
Proof. eapply recv_step; [by vm_compute|vm_compute; reflexivity|reflexivity]. Qed.

Lemma reach3 : rtc demo_step g0 g3.
Proof. eauto using rtc_l, rtc_refl, step1, step2, step3. Qed.

Lemma reach4 : rtc demo_step g0 g4.
Proof. eapply rtc_r; [apply reach3|]. eexists; apply step4. Qed.

Lemma gateway_never_panics_witness :
  is_panic (serve_packet perr "3.3.3.3:3" 7 (rly "10.0.0.2" [Byte.x45]) (proc g3)) = false.
Proof. apply (gateway_never_panics perr semver "go1.14" resolve _ _ _ _ init0 reach3). Defined.

Lemma pending_until_acknowledged_witness :
  is_Some (data (notif (proc g3)) !! 1) ∧ data (notif (proc g4)) !! 1 = None ∧
  (data (notif (proc g4)) !! 1 = data (notif (proc g3)) !! 1 ∨
   ∃ addr now d t b, LRecv "1.1.1.1:1" 0 (ack 1) = LRecv addr now d ∧ cut d = t :: b ∧
     gw_decode perr t b = GwAck 1).
Proof.
  split; [by eexists; vm_compute|]. split; [by vm_compute|].
  destruct (data (notif (proc g3)) !! 1) as [rp|] eqn:E; [|by vm_compute in E].
  exact (pending_until_acknowledged perr semver "go1.14" resolve _ _ _ _ _ _ 1 rp init0 reach3 step4 E).
Defined.

Lemma acknowledged_not_resent_witness :
  data (notif (proc g4)) !! 1 = None ∧ copies 1 g4 = O.
Proof.
  refine (acknowledged_not_resent perr semver "go1.14" resolve _ _ _ g4 g4 1 init0 reach4 _ (rtc_refl _ _)).
  split; [by vm_compute|by vm_compute|constructor|repeat constructor].
Defined.

Lemma retry_has_no_limit_witness :
  ∃ g', rtc demo_step g3 g' ∧ (1000 ≤ copies 2 g')%nat ∧ is_Some (data (notif (proc g')) !! 2).
Proof.
  destruct (retry_has_no_limit perr semver "go1.14" resolve _ _ _ g3 2 1000 init0 reach3)
    as (g' & Hr & Hc & Hd).
  - reflexivity.
  - repeat constructor.
  - intros k rp _. by eexists.
  - vm_compute. done.
  - by eexists; vm_compute.
  - exists g'. split; [exact Hr|]. split; [lia|]. rewrite Hd. by eexists; vm_compute.
Defined.

Lemma process_correct_witness :
  process perr "1.1.1.1:1" 0 (rly "10.0.0.2" [Byte.x45]) (proc g3) =
  Ret ({| server := server (proc g3);
          notif := with_queue (Chan 16 [{| destination := "2.2.2.2:2"; typ := 6;
                                           pmessage := PBytes [Byte.x45] |}]) (notif (proc g3)) |}, None).
Proof.
  exact (process_correct perr "1.1.1.1:1" 0 (to_byte 1) (tail (rly "10.0.0.2" [Byte.x45])) (proc g3)
    (gi_proc _ (gateway_reachable_inv perr semver "go1.14" resolve _ _ _ _ init0 reach3))).
Defined.

End Demo.
