(* ===== verification/Connection.v ===== *)
(** * A connection between two peers

    [node/connection.go] and [node/rand_string.go]: the record of a connection, the select
    loop that owns its socket, and [close].  [Node.v] has the handlers that share it. *)

From S2P Require Import Prelude Message WireFormat Constant.

Local Open Scope Z_scope.

(** ** rand_string.go *)

Definition letters : bytes :=
  string_bytes "abcdefghijklmnopqrstuvwxyzABCDEFGHIJKLMNOPQRSTUVWXYZ".

(** [randseq(n)]; [rnd] is what the [n] calls of [rand.Intn(len(letters))] return. *)
Definition randseq (rnd : list nat) : outcome string :=
  b ← mapM (λ i, match letters !! i with
                 | Some r => Ret r
                 | None => Panic "index out of range"
                 end) rnd;
  Ret (bytes_string b).

(** The contract of [rand.Intn]. *)
Definition Intn_ok (rnd : list nat) : Prop := Forall (λ i, (i < length letters)%nat) rnd.

(** ** State *)

Definition StateConnecting : Z := 1.
Definition StateEstablished : Z := 2.

Definition connectionState_String (s : Z) : string :=
  if bool_decide (s = StateConnecting) then "StateConnecting"
  else if bool_decide (s = StateEstablished) then "StateEstablished"
  else "UnknowState(" +:+ pretty s +:+ ")".

(** The goroutine that runs [loop]: not scheduled yet, in its [for] loop with the local
    variables [connecting] ([None]: its timer was received) and [keepalive] (the next
    tick), there but inside [c.close()], between the [select] and [close(c.die)], or
    returned. *)
Inductive loop_pc :=
| Spawned
| Running (connecting : option Z) (ticker : Z)
| Closing (connecting : option Z) (ticker : Z)
| Exited.

#[global] Instance loop_pc_eq_dec : EqDecision loop_pc.
Proof. solve_decision. Defined.

(** [peer] is [c.peer.RemoteAddr().String()]; [peer_closed] and [written] record what was
    done to the socket; [die] is whether the channel is closed. *)
Record connection := {
  selfVirtAddr : string;
  peerVirtAddr : string;
  once : bool;
  state : Z;
  peer : string;
  pipeline : chan bytes;
  keepalive : Z;
  die : bool;
  pc : loop_pc;
  peer_closed : bool;
  written : list bytes;
}.

Definition with_once b c := {| selfVirtAddr := selfVirtAddr c; peerVirtAddr := peerVirtAddr c;
  once := b; state := state c; peer := peer c; pipeline := pipeline c; keepalive := keepalive c;
  die := die c; pc := pc c; peer_closed := peer_closed c; written := written c |}.
Definition with_state s c := {| selfVirtAddr := selfVirtAddr c; peerVirtAddr := peerVirtAddr c;
  once := once c; state := s; peer := peer c; pipeline := pipeline c; keepalive := keepalive c;
  die := die c; pc := pc c; peer_closed := peer_closed c; written := written c |}.
Definition with_pipeline p c := {| selfVirtAddr := selfVirtAddr c; peerVirtAddr := peerVirtAddr c;
  once := once c; state := state c; peer := peer c; pipeline := p; keepalive := keepalive c;
  die := die c; pc := pc c; peer_closed := peer_closed c; written := written c |}.
Definition with_keepalive k c := {| selfVirtAddr := selfVirtAddr c; peerVirtAddr := peerVirtAddr c;
  once := once c; state := state c; peer := peer c; pipeline := pipeline c; keepalive := k;
  die := die c; pc := pc c; peer_closed := peer_closed c; written := written c |}.
Definition with_die b c := {| selfVirtAddr := selfVirtAddr c; peerVirtAddr := peerVirtAddr c;
  once := once c; state := state c; peer := peer c; pipeline := pipeline c; keepalive := keepalive c;
  die := b; pc := pc c; peer_closed := peer_closed c; written := written c |}.
Definition with_pc p c := {| selfVirtAddr := selfVirtAddr c; peerVirtAddr := peerVirtAddr c;
  once := once c; state := state c; peer := peer c; pipeline := pipeline c; keepalive := keepalive c;
  die := die c; pc := p; peer_closed := peer_closed c; written := written c |}.
Definition with_peer_closed b c := {| selfVirtAddr := selfVirtAddr c; peerVirtAddr := peerVirtAddr c;
  once := once c; state := state c; peer := peer c; pipeline := pipeline c; keepalive := keepalive c;
  die := die c; pc := pc c; peer_closed := b; written := written c |}.
Definition with_written w c := {| selfVirtAddr := selfVirtAddr c; peerVirtAddr := peerVirtAddr c;
  once := once c; state := state c; peer := peer c; pipeline := pipeline c; keepalive := keepalive c;
  die := die c; pc := pc c; peer_closed := peer_closed c; written := w |}.

(** What [onOpenTunnel] builds, with its goroutine [go conn.loop()] spawned. *)
Definition new_connection (self peerVirt remote : string) (now : Z) : connection := {|
  selfVirtAddr := self;
  peerVirtAddr := peerVirt;
  once := false;
  state := StateConnecting;
  peer := remote;
  pipeline := make_chan bytes 128;
  keepalive := now;
  die := false;
  pc := Spawned;
  peer_closed := false;
  written := [];
|}.

(** ** close *)

(** [close] is two steps, between which other goroutines run: the [select], which takes its
    default branch while [die] is open, and [close(c.die)] there, which panics when [die] was
    closed in between. *)
Definition close_select (c : connection) : bool := negb (die c).

Definition close_default (c : connection) : outcome connection :=
  if die c then Panic "close of closed channel" else Ret (with_die true c).

(** The two without another goroutine in between. *)
Definition close (c : connection) : outcome connection :=
  if close_select c then close_default c else Ret c.

(** ** loop *)

Section loop.
Context `{Proto}.

Definition send (data : bytes) (c : connection) : connection := with_written (written c ++ [data]) c.

Definition ping_message (self nonce : string) : message :=
  MPing {| ping_VirtAddress := self; ping_Nonce := nonce |}.

Definition ping (nonce : string) (c : connection) : outcome connection :=
  data ← Encode PacketType.Ping (ping_message (selfVirtAddr c) nonce);
  Ret (send data c).

(** The entry of [loop]: the goroutine returns when [once] was set already. *)
Definition loop_start (now : Z) (c : connection) : connection :=
  if once c then with_pc Exited c
  else with_pc (Running (Some now) (now + PeerKeepaliveDuration)) (with_once true c).

(** The cases of the [select], and the second step of [c.close()]. *)
Inductive loop_event := EvConnecting | EvKeepalive | EvPipeline | EvDie | EvClose.

#[global] Instance loop_event_eq_dec : EqDecision loop_event.
Proof. solve_decision. Defined.

(** A [time.Ticker] drops the ticks nobody received: the next one after [now]. *)
Definition next_tick (now ticker : Z) : Z :=
  ticker + ((now - ticker) / PeerKeepaliveDuration + 1) * PeerKeepaliveDuration.

(** Whether a case of the [select] is ready, or the goroutine is in [close]. *)
Definition ready (now : Z) (ev : loop_event) (c : connection) : bool :=
  match pc c, ev with
  | Running connecting _, EvConnecting =>
      match connecting with Some t => bool_decide (t <= now) | None => false end
  | Running _ ticker, EvKeepalive => bool_decide (ticker <= now)
  | Running _ _, EvPipeline => bool_decide (buf (pipeline c) ≠ [])
  | Running _ _, EvDie => die c
  | Closing _ _, EvClose => true
  | _, _ => false
  end.

(** One turn of the [for] loop that takes the case [ev]; [EvDie] returns from [loop].  A
    keepalive timeout that finds [die] open ends inside [close], and [EvClose] is the rest of
    that turn. *)
Definition loop_step (now : Z) (nonce : string) (ev : loop_event) (c : connection)
    : outcome connection :=
  match pc c with
  | Running connecting ticker =>
      match ev with
      | EvConnecting =>
          let c := with_pc (Running None ticker) c in
          if bool_decide (state c ≠ StateConnecting) then Ret c
          else
            let c := with_pc (Running (Some (now + ConnectingRetryDuration)) ticker) c in
            ping nonce c
      | EvKeepalive =>
          let c := with_pc (Running connecting (next_tick now ticker)) c in
          if bool_decide (keepalive c + PeerKeepaliveDuration * 2 < now) then
            if close_select c then Ret (with_pc (Closing connecting (next_tick now ticker)) c) else Ret c
          else if bool_decide (state c ≠ StateEstablished) then Ret c
          else ping nonce c
      | EvPipeline =>
          match chan_recv (pipeline c) with
          | Some (data, p) => Ret (send data (with_pipeline p c))
          | None => Block
          end
      | EvDie =>
          if die c then Ret (with_pc Exited (with_peer_closed true c)) else Block
      | EvClose => Block
      end
  | Closing connecting ticker =>
      match ev with
      | EvClose => c ← close_default c; Ret (with_pc (Running connecting ticker) c)
      | _ => Block
      end
  | _ => Block
  end.

End loop.

(** ** Two goroutines in [close]

    The two steps of [close] on their own, for any number of goroutines: it
    runs in the loop's goroutine (keepalive timeout) and in the goroutines that run
    [onOpenTunnel] (reconnect). *)
Module CloseRace.

Inductive closer := AtSelect | AtClose | Returned.

#[global] Instance closer_eq_dec : EqDecision closer.
Proof. solve_decision. Defined.

(** [die_closed] and the goroutines that called [close]. *)
Record cstate := { die_closed : bool; closers : list closer }.

Definition closer_step (i : nat) (s : cstate) : outcome cstate :=
  match closers s !! i with
  | Some AtSelect =>
      Ret {| die_closed := die_closed s;
             closers := <[i := if die_closed s then Returned else AtClose]> (closers s) |}
  | Some AtClose =>
      if die_closed s then Panic "close of closed channel"
      else Ret {| die_closed := true; closers := <[i := Returned]> (closers s) |}
  | _ => Block
  end.

Definition cstep (s s' : cstate) : Prop := ∃ i, closer_step i s = Ret s'.

Definition cinit (d : bool) (n : nat) : cstate :=
  {| die_closed := d; closers := replicate n AtSelect |}.

End CloseRace.

(** ** Lemmas *)

Lemma letters_ascii : Forall (λ b, byte_val b < 128) letters.
Proof. repeat constructor. Qed.

Lemma utf8_valid_letters b : Forall (λ x, x ∈ letters) b → utf8_valid b = true.
Proof.
  intros Hb. apply utf8_valid_ascii. eapply Forall_impl; [exact Hb|].
  intros x Hx. pose proof letters_ascii as Hl. rewrite Forall_forall in Hl. by apply Hl.
Qed.

Lemma randseq_letters rnd :
  Intn_ok rnd →
  ∃ b, randseq rnd = Ret (bytes_string b) ∧ length b = length rnd ∧ Forall (λ x, x ∈ letters) b.
Proof.
  intros Hr. unfold randseq. induction Hr as [|i rnd Hi _ IH].
  - exists []. done.
  - destruct IH as (b & Hb & Hl & Ha). destruct (lookup_lt_is_Some_2 letters i Hi) as [x Hx].
    apply outcome_bind_ret in Hb as (b' & Hb' & [= Hbb]).
    exists (x :: b'). simpl. rewrite Hx; simpl. rewrite Hb'; simpl.
    assert (b' = b) as ->.
    { rewrite <- (bytes_string_bytes b'), Hbb. apply bytes_string_bytes. }
    split_and!; [done|by f_equal|]. constructor; [|done]. by eapply list_elem_of_lookup_2.
Qed.

Section loop_lemmas.
Context `{Proto}.

Lemma loop_start_pc now c :
  pc (loop_start now c) = if once c then Exited else Running (Some now) (now + PeerKeepaliveDuration).
Proof. unfold loop_start. by destruct (once c). Qed.

Lemma with_die_id c : die c = true → with_die true c = c.
Proof. destruct c; simpl. by intros ->. Qed.

Lemma close_uninterrupted c : close c = Ret (with_die true c).
Proof.
  unfold close, close_select, close_default. destruct (die c) eqn:E; simpl; [|done]. by rewrite with_die_id.
Qed.

Lemma ping_Ret nonce c c' :
  ping nonce c = Ret c' ↔
  ∃ data, Encode PacketType.Ping (ping_message (selfVirtAddr c) nonce) = Ret data ∧ c' = send data c.
Proof. unfold ping. rewrite outcome_bind_ret. naive_solver. Qed.

Lemma next_tick_bounds now ticker :
  ticker <= now →
  now < next_tick now ticker <= now + PeerKeepaliveDuration ∧
  ticker + PeerKeepaliveDuration <= next_tick now ticker.
Proof.
  intros Hle. unfold next_tick, PeerKeepaliveDuration, Second, Millisecond.
  set (p := 5 * (1000 * 1000000)).
  pose proof (Z.div_mod (now - ticker) p ltac:(done)).
  pose proof (Z.mod_pos_bound (now - ticker) p ltac:(done)).
  assert (0 <= (now - ticker) / p) by (apply Z.div_pos; lia). nia.
Qed.

(** The fields a turn of the loop leaves alone. *)
Lemma loop_step_fields now nonce ev c c' :
  loop_step now nonce ev c = Ret c' →
  selfVirtAddr c' = selfVirtAddr c ∧ peerVirtAddr c' = peerVirtAddr c ∧ state c' = state c ∧
  peer c' = peer c ∧ keepalive c' = keepalive c ∧ once c' = once c ∧ pc c ≠ Exited ∧
  (pc c' = Exited ↔ ev = EvDie) ∧ (chan_ok (pipeline c) → chan_ok (pipeline c')) ∧ pc c' ≠ Spawned.
Proof.
  unfold loop_step, close_select, close_default.
  destruct (pc c) as [|conn tick|conn tick|] eqn:Epc; [done| | |done].
  - destruct ev; intros Hs; simpl in Hs; [| | | |done].
    + case_bool_decide; [by simplify_eq|]. apply ping_Ret in Hs as (d & _ & ->). done.
    + case_bool_decide; [by destruct (die c); simplify_eq/=|].
      case_bool_decide; [by simplify_eq|]. apply ping_Ret in Hs as (d & _ & ->). done.
    + destruct (chan_recv (pipeline c)) as [[d p]|] eqn:Er; simplify_eq/=.
      rewrite Epc. split_and!; try done. intros Hok. by eapply chan_recv_ok.
    + destruct (die c); by simplify_eq/=.
  - destruct ev; try done. destruct (die c); intros; by simplify_eq/=.
Qed.

Context `{!ProtoLaws _}.

(** The one panic of the loop. *)
Lemma loop_step_panics now nonce ev c m :
  valid_string (selfVirtAddr c) = true → valid_string nonce = true →
  loop_step now nonce ev c = Panic m ↔
  ev = EvClose ∧ (∃ connecting ticker, pc c = Closing connecting ticker) ∧ die c = true ∧
  m = "close of closed channel"%string.
Proof.
  intros Hs Hn.
  assert (∀ c', selfVirtAddr c' = selfVirtAddr c → ping nonce c' ≠ Panic m) as Hp.
  { intros c' Hc Hm. assert (is_panic (ping nonce c') = false) as Hf; [|by rewrite Hm in Hf].
    unfold ping. apply outcome_bind_no_panic; [|done].
    apply Encode_valid_no_panic. simpl. by rewrite Hc, Hs, Hn. }
  unfold loop_step, close_select, close_default. destruct (pc c) as [|cg tk|cg tk|]; [naive_solver| | |naive_solver].
  - split; [|naive_solver]. destruct ev; simpl; [| | | |done].
    + case_bool_decide; [done|]. intros Hx. by apply Hp in Hx.
    + case_bool_decide; [by destruct (die c)|]. case_bool_decide; [done|]. intros Hx. by apply Hp in Hx.
    + by repeat case_match.
    + by case_match.
  - split.
    + destruct ev; try done. destruct (die c); [|done]. simpl. naive_solver.
    + by intros (-> & _ & -> & ->).
Qed.

(** *** Runs of one loop

    From [loop_start] at time [t0]; between two turns the other goroutines may change any
    field except the loop's own variables. *)
Inductive lrun (t0 : Z) : list (Z * loop_event) → connection → Prop :=
| lrun_start c : once c = false → lrun t0 [] (loop_start t0 c)
| lrun_env tr c c' : lrun t0 tr c → pc c' = pc c → lrun t0 tr c'
| lrun_turn tr c now nonce ev c' :
    lrun t0 tr c → ready now ev c = true → loop_step now nonce ev c = Ret c' →
    lrun t0 (tr ++ [(now, ev)]) c'.

(** How many turns of the case [ev] a trace has. *)
Fixpoint turns (ev : loop_event) (tr : list (Z * loop_event)) : Z :=
  match tr with
  | [] => 0
  | (_, e) :: tr' => (if decide (e = ev) then 1 else 0) + turns ev tr'
  end.

Lemma turns_snoc ev tr now e :
  turns ev (tr ++ [(now, e)]) = turns ev tr + (if decide (e = ev) then 1 else 0).
Proof. induction tr as [|[? ?] tr IH]; simpl; lia. Qed.

(** The timers run no earlier than the number of turns they took. *)
Definition timers_late (t0 : Z) (tr : list (Z * loop_event)) (c : connection) : Prop :=
  match pc c with
  | Running connecting ticker | Closing connecting ticker =>
      match connecting with
      | Some t => t0 + ConnectingRetryDuration * turns EvConnecting tr <= t
      | None => True
      end ∧
      t0 + PeerKeepaliveDuration * (turns EvKeepalive tr + 1) <= ticker
  | Spawned => False
  | Exited => True
  end.

(** The loop's two timers. *)
Definition timers (p : loop_pc) : option (option Z * Z) :=
  match p with
  | Running connecting ticker | Closing connecting ticker => Some (connecting, ticker)
  | _ => None
  end.

Lemma loop_step_timers now nonce ev c c' :
  loop_step now nonce ev c = Ret c' →
  ∃ connecting ticker, timers (pc c) = Some (connecting, ticker) ∧
  timers (pc c') =
    match ev with
    | EvConnecting => Some (if bool_decide (state c ≠ StateConnecting) then None
                            else Some (now + ConnectingRetryDuration), ticker)
    | EvKeepalive => Some (connecting, next_tick now ticker)
    | EvPipeline | EvClose => Some (connecting, ticker)
    | EvDie => None
    end.
Proof.
  unfold loop_step, close_select, close_default. intros Hs.
  destruct (pc c) as [|connecting ticker|connecting ticker|] eqn:Epc; [done| | |done];
    exists connecting, ticker; (split; [done|]).
  - destruct ev; simpl in Hs; [| | | |done].
    + case_bool_decide; [by simplify_eq|]. by apply ping_Ret in Hs as (d & _ & ->).
    + case_bool_decide; [by destruct (die c); simplify_eq/=|].
      case_bool_decide; [by simplify_eq|]. by apply ping_Ret in Hs as (d & _ & ->).
    + destruct (chan_recv (pipeline c)) as [[d p]|]; simplify_eq/=. by rewrite Epc.
    + by destruct (die c); simplify_eq/=.
  - destruct ev; try done. by destruct (die c); simplify_eq/=.
Qed.

Lemma timers_late_spec t0 tr c :
  timers_late t0 tr c ↔ pc c ≠ Spawned ∧ ∀ connecting ticker, timers (pc c) = Some (connecting, ticker) →
    (∀ t, connecting = Some t → t0 + ConnectingRetryDuration * turns EvConnecting tr <= t) ∧
    t0 + PeerKeepaliveDuration * (turns EvKeepalive tr + 1) <= ticker.
Proof.
  unfold timers_late, timers. destruct (pc c) as [|connecting ticker|connecting ticker|]; [naive_solver| | |naive_solver];
    (split; [|destruct connecting; naive_solver]); intros [Hc Hk]; (split; [done|]); intros cg tk [= <- <-];
    split; try done; intros t ->; done.
Qed.

Lemma lrun_timers t0 tr c : lrun t0 tr c → timers_late t0 tr c.
Proof.
  induction 1 as [c Ho|tr c c' _ IH Hp|tr c now nonce ev c' _ IH Hr Hs].
  - unfold timers_late. rewrite loop_start_pc, Ho. simpl. lia.
  - unfold timers_late in *. by rewrite Hp.
  - rewrite timers_late_spec in *. destruct IH as [_ IH].
    destruct (loop_step_timers _ _ _ _ _ Hs) as (conn & tick & Et & Et'). specialize (IH _ _ Et) as [IHc IHk].
    split; [by apply (loop_step_fields _ _ _ _ _ Hs)|]. intros cg tk Htk. rewrite Et' in Htk. rewrite !turns_snoc.
    unfold ready in Hr. destruct (pc c) as [|conn' tick'|conn' tick'|]; [done| | |done];
      injection Et as [= -> ->]; destruct ev; simplify_eq/=; (split; [|try lia]); try (intros t ->; specialize (IHc t eq_refl); lia).
    + destruct conn as [t'|]; [|done]. apply bool_decide_eq_true in Hr. specialize (IHc t' eq_refl).
      unfold ConnectingRetryDuration, Millisecond in *. case_bool_decide; [done|]. intros ? [= <-]. lia.
    + apply bool_decide_eq_true in Hr. destruct (next_tick_bounds now tick Hr) as [_ Hnt]. lia.
Qed.

End loop_lemmas.

(** ** What a connection promises *)

Section promises.
Context `{Proto} `{!ProtoLaws _}.

(** C27: The loop never outpaces its timers: however the turns interleave with the other
    goroutines, the [n+1]-st turn of the connecting timer is taken at least [n] times
    100 ms after the start, and the [n+1]-st keepalive tick at least [n+1] times 5 s after
    it, so a silent peer costs a bounded number of datagrams. *)
Theorem loop_turns_rate_limited t0 tr c now ev :
  lrun t0 tr c → ready now ev c = true →
  (ev = EvConnecting → t0 + ConnectingRetryDuration * turns EvConnecting tr <= now) ∧
  (ev = EvKeepalive → t0 + PeerKeepaliveDuration * (turns EvKeepalive tr + 1) <= now).
Proof.
  intros Hr%lrun_timers Hready. unfold timers_late, ready in *.
  destruct (pc c) as [|conn tick|conn tick|]; [done| |by destruct ev|done]. destruct Hr as [Hc Hk].
  split; intros ->; [destruct conn; [|done]|]; apply bool_decide_eq_true in Hready; lia.
Qed.

(** What a timer turn does to the connection, given what it wrote. *)
Definition pings (c c' : connection) : Prop :=
  ∃ b nonce, written c' = written c ++ [to_byte PacketType.Ping :: b] ∧
    unmarshal KPing b = (true, ping_message (selfVirtAddr c) nonce).

(** C35: What the loop's timers do.  A keepalive turn closes the connection (and writes
    nothing) exactly when the last Pong is more than two keepalive periods old: if the channel
    [die] is not closed already, the goroutine goes on to close it and, unless another goroutine
    does so first, is back in its loop with [die] closed.  Otherwise an established connection
    sends one Ping that decodes to its own virtual address, and a connecting one nothing; the
    next tick comes within one period.  A connecting turn sends such a Ping and re-arms its
    timer for 100 ms later, or disarms it for good once the connection is established. *)
Theorem timer_turns_correct now nonce ev c c' connecting ticker :
  pc c = Running connecting ticker → ready now ev c = true →
  loop_step now nonce ev c = Ret c' →
  match ev with
  | EvKeepalive =>
      ∃ next, now < next <= now + PeerKeepaliveDuration ∧
      if bool_decide (keepalive c + 2 * PeerKeepaliveDuration < now)
      then written c' = written c ∧
        if die c then die c' = true ∧ pc c' = Running connecting next
        else ∀ now' nonce', ∃ c'', loop_step now' nonce' EvClose c' = Ret c'' ∧
          die c'' = true ∧ pc c'' = Running connecting next ∧ written c'' = written c
      else die c' = die c ∧ pc c' = Running connecting next ∧
        if bool_decide (state c = StateEstablished) then pings c c' else written c' = written c
  | EvConnecting =>
      die c' = die c ∧
      if bool_decide (state c = StateConnecting)
      then pings c c' ∧ pc c' = Running (Some (now + ConnectingRetryDuration)) ticker
      else written c' = written c ∧ pc c' = Running None ticker
  | _ => True
  end.
Proof.
  intros Hpc Hr Hs. unfold loop_step, close_select, ready in *. rewrite Hpc in *.
  assert (∀ c1, ping nonce c1 = Ret c' → selfVirtAddr c1 = selfVirtAddr c →
    written c1 = written c → pings c c' ∧ die c' = die c1 ∧ pc c' = pc c1) as Hping.
  { intros c1 (d & Hd & ->)%ping_Ret Hself Hw. split; [|done].
    apply Encode_decode in Hd as (b & -> & Hb). exists b, nonce. rewrite <- Hself. split; [|done].
    simpl. by rewrite Hw. }
  destruct ev; [| |done..].
  - simpl in Hs. case_bool_decide as Hst.
    + rewrite bool_decide_eq_false_2 by done. by simplify_eq/=.
    + rewrite bool_decide_eq_true_2 by done.
      apply Hping in Hs as (? & ? & ?); [|done..]. done.
  - apply bool_decide_eq_true in Hr. destruct (next_tick_bounds now ticker Hr) as [Hb _].
    exists (next_tick now ticker). split; [done|]. simpl in Hs. rewrite Z.mul_comm. case_bool_decide.
    + destruct (die c) eqn:Ed; simplify_eq/=; [done|]. split; [done|]. intros _ _. unfold close_default. simpl. rewrite Ed. simpl. eauto.
    + case_bool_decide as Hst.
      * rewrite bool_decide_eq_false_2 by done. by simplify_eq/=.
      * rewrite bool_decide_eq_true_2 by done.
        apply Hping in Hs as (? & ? & ?); done.
Qed.

End promises.

Module CloseRaceFacts.
Import CloseRace.

Lemma one_closer_inv d s :
  rtc cstep (cinit d 1) s →
  closers s = [AtSelect] ∨ (closers s = [AtClose] ∧ die_closed s = false) ∨ closers s = [Returned].
Proof.
  apply (rtc_invariant cstep (λ s, closers s = [AtSelect] ∨
    (closers s = [AtClose] ∧ die_closed s = false) ∨ closers s = [Returned])); [|by left].
  intros [b cl] s' Hs [i Hi]. unfold closer_step in Hi. simpl in *.
  destruct Hs as [ -> |[[ -> -> ]| -> ]]; destruct i as [|i]; simpl in Hi; simplify_eq/=; auto.
  destruct b; auto.
Qed.

(** C28: [close] is safe when one goroutine calls it, and not when two do: a single caller
    can never panic, whatever the state of [die], but two callers (the keepalive timeout
    and a reconnect) can both pass the [select] before either closes the channel, and then
    the second one panics with a close of a closed channel. *)
Theorem close_needs_one_caller :
  (∀ d s i, rtc cstep (cinit d 1) s → is_panic (closer_step i s) = false) ∧
  (∃ s i, rtc cstep (cinit false 2) s ∧ closer_step i s = Panic "close of closed channel").
Proof.
  split.
  - intros d s i Hs%one_closer_inv. unfold closer_step.
    destruct Hs as [ -> |[[ -> -> ]| -> ]]; destruct i as [|i]; simpl; done.
  - exists {| die_closed := true; closers := [Returned; AtClose] |}, 1%nat. split; [|done].
    apply rtc_l with {| die_closed := false; closers := [AtClose; AtSelect] |}; [by exists 0%nat|].
    apply rtc_l with {| die_closed := false; closers := [AtClose; AtClose] |}; [by exists 1%nat|].
    apply rtc_once. by exists 0%nat.
Qed.

End CloseRaceFacts.

Definition demo_conn : connection := loop_start 0 (new_connection "10.0.0.1" "10.0.0.2" "2.2.2.2:2" 0).

Lemma loop_turns_rate_limited_witness : ready 5000000000 EvKeepalive demo_conn = true ∧
  0 + PeerKeepaliveDuration * (turns EvKeepalive [] + 1) <= 5000000000.
Proof.
  split; [by vm_compute|].
  apply (loop_turns_rate_limited 0 [] demo_conn 5000000000 EvKeepalive); [by constructor|by vm_compute|done].
Defined.

Lemma timer_turns_correct_witness :
  ∃ c', loop_step 100 "n" EvConnecting demo_conn = Ret c' ∧ pings demo_conn c'.
Proof.
  destruct (loop_step 100 "n" EvConnecting demo_conn) as [c'| |] eqn:E; [|by vm_compute in E..].
  exists c'. split; [done|].
  exact (proj1 (proj2 (timer_turns_correct 100 "n" EvConnecting demo_conn c' (Some 0) 5000000000
    eq_refl eq_refl E))).
Defined.
