(* ===== verification/Tun.v ===== *)
(** * The virtual network devices

    [node/tun/tun_darwin.go] (the framing of [tunReadCloser]) and [node/tun/tun_windows.go]
    with [node/tun/wintun/session_windows.go] ([windowsDevice] on the rings of a wintun
    session, and its rate meter).  Files, sessions and clocks are arguments. *)

From S2P Require Import Prelude Constant.

Local Open Scope Z_scope.

(** [b[:n]] of a slice with capacity [length b], and [copy(dst, src)]. *)
Definition slice_to (b : bytes) (n : Z) : outcome bytes :=
  if bool_decide (0 <= n <= Z.of_nat (length b)) then Ret (take (Z.to_nat n) b)
  else Panic "slice bounds out of range".

Definition copy (dst src : bytes) : bytes :=
  take (length dst) src ++ drop (length src) dst.

Lemma length_copy dst src : length (copy dst src) = length dst.
Proof. unfold copy. rewrite length_app, length_take, length_drop. lia. Qed.

(** ** tun_darwin.go *)

Module Darwin.

Definition AF_INET : Z := 2.
Definition AF_INET6 : Z := 30.

Inductive write_error := EIO | UnknownIPVersion.

#[global] Instance write_error_eq_dec : EqDecision write_error.
Proof. solve_decision. Defined.

(** The two scratch buffers, as their backing arrays: a capacity is a length here. *)
Record tunReadCloser := { rBuf : bytes; wBuf : bytes }.

Definition newTun : tunReadCloser := {| rBuf := []; wBuf := [] |}.

(** [if cap(b) < n { b = make([]byte, n) }]. *)
Definition grow (b : bytes) (n : nat) : bytes :=
  if bool_decide (length b < n)%nat then replicate n Byte.x00 else b.

(** [Read(to)]: [frame] is what [t.f.Read] puts into the buffer it is given, at most the
    buffer's length, and [err] its error.  The result is the new [to], the count and the
    error; a read that failed with nothing read has the count -4. *)
Definition Read (to frame : bytes) (err : option Z) (t : tunReadCloser)
    : bytes * (Z * option Z) * tunReadCloser :=
  let n := (length to + 4)%nat in
  let b := grow (rBuf t) n in
  let b := copy b (take n frame) in
  (copy to (drop 4 (take n b)), (Z.of_nat (length (take n frame)) - 4, err), {| rBuf := b; wBuf := wBuf t |}).

(** [Write(from)] up to [t.f.Write]: the bytes handed to the file, or the error. *)
Definition Write (from : bytes) (t : tunReadCloser) : (bytes + write_error) * tunReadCloser :=
  match from with
  | [] => (inr EIO, t)
  | b0 :: _ =>
      let n := (length from + 4)%nat in
      let b := grow (wBuf t) n in
      let ipVer := Z.shiftr (byte_val b0) 4 in
      let send af :=
        let b := <[3%nat := to_byte af]> b in
        let b := take 4 b ++ copy (drop 4 (take n b)) from ++ drop n b in
        (inl (take n b), {| rBuf := rBuf t; wBuf := b |}) in
      if bool_decide (ipVer = 4) then send AF_INET
      else if bool_decide (ipVer = 6) then send AF_INET6
      else (inr UnknownIPVersion, {| rBuf := rBuf t; wBuf := b |})
  end.

(** A sequence of writes: what the file receives for each. *)
Fixpoint writes (packets : list bytes) (t : tunReadCloser) : list (bytes + write_error) :=
  match packets with
  | [] => []
  | p :: packets => let '(r, t) := Write p t in r :: writes packets t
  end.

(** The read loop of [serveDev] on what the reads of the file give: one buffer for all reads,
    and the slice [buffer[:c]] of each that does not fail. *)
Fixpoint reads (buffer : bytes) (evs : list (bytes * option Z)) (t : tunReadCloser) : list (outcome bytes) :=
  match evs with
  | [] => []
  | (f, err) :: evs =>
      let '(buffer, (c, err), t) := Read buffer f err t in
      match err with
      | Some _ => reads buffer evs t
      | None => slice_to buffer c :: reads buffer evs t
      end
  end.

(** The frames of the reads that do not fail. *)
Definition read_frames (evs : list (bytes * option Z)) : list bytes :=
  omap (λ e, match e.2 with None => Some e.1 | Some _ => None end) evs.

End Darwin.

(** ** tun_windows.go *)

Module Windows.

Definition rateMeasurementGranularity : Z := 500000000.
Definition spinloopRateThreshold : Z := 800000000 / 8.
Definition spinloopDuration : Z := 1000000 / 80.

Record rateJuggler := {
  current : Z;
  nextByteCount : Z;
  nextStartTime : Z;
  changing : Z;
}.

(** [uint64(a - b)] of two [int64]. *)
Definition elapsed (a b : Z) : Z := uwrap 64 (swrap 64 (a - b)).

(** [update(packetLen)]; [now] is [nanotime()]. *)
Definition update (packetLen now : Z) (rate : rateJuggler) : rateJuggler :=
  let total := uwrap 64 (nextByteCount rate + packetLen) in
  let period := elapsed now (nextStartTime rate) in
  if bool_decide (period >= rateMeasurementGranularity) then
    if bool_decide (changing rate = 0) then
      {| current := uwrap 64 (total * 1000000000) / period;
         nextByteCount := 0; nextStartTime := now; changing := 0 |}
    else {| current := current rate; nextByteCount := total;
            nextStartTime := nextStartTime rate; changing := changing rate |}
  else {| current := current rate; nextByteCount := total;
          nextStartTime := nextStartTime rate; changing := changing rate |}.

Inductive io_error := ErrClosed | RingCorrupt | Failed (code : Z).

#[global] Instance io_error_eq_dec : EqDecision io_error.
Proof. solve_decision. Defined.

Record windowsDevice := { closed : bool; rate : rateJuggler }.

Definition with_rate (r : rateJuggler) (d : windowsDevice) : windowsDevice :=
  {| closed := closed d; rate := r |}.

(** What [session.ReceivePacket] returns. *)
Inductive received :=
| Packet (packet : bytes)
| NoMoreItems
| HandleEOF
| InvalidData
| Other (code : Z).

(** [&packet[0]] in [ReleaseReceivePacket] and [SendPacket]. *)
Definition first_byte (packet : bytes) : outcome byte :=
  match packet with [] => Panic "index out of range" | b :: _ => Ret b end.

(** [shouldSpin] at the top of [Read]. *)
Definition shouldSpin (start : Z) (d : windowsDevice) : bool :=
  bool_decide (current (rate d) >= spinloopRateThreshold)
  && bool_decide (elapsed start (nextStartTime (rate d)) <= rateMeasurementGranularity * 2).

(** One turn of the [for] loop of [Read]: return, spin, or wait for the event and go back
    to [retry]. *)
Inductive turn := Return (buff : bytes) (r : Z + io_error) | Spin | Wait.

Definition read_turn (buff : bytes) (start : Z) (spin : bool) (packet : received) (now : Z)
    (d : windowsDevice) : outcome (turn * windowsDevice) :=
  if closed d then Ret (Return buff (inr ErrClosed), d)
  else match packet with
  | Packet packet =>
      _ ← first_byte packet;
      Ret (Return (copy buff packet) (inl (Z.of_nat (length packet))),
           with_rate (update (Z.of_nat (length packet)) now (rate d)) d)
  | NoMoreItems =>
      if negb spin || bool_decide (elapsed now start >= spinloopDuration) then Ret (Wait, d)
      else Ret (Spin, d)
  | HandleEOF => Ret (Return buff (inr ErrClosed), d)
  | InvalidData => Ret (Return buff (inr RingCorrupt), d)
  | Other code => Ret (Return buff (inr (Failed code)), d)
  end.

(** [Read]: each event is what one turn receives, the clock it reads, and the clock of the
    [retry] that follows a wait.  [Block] is a read that is still waiting. *)
Fixpoint read_loop (buff : bytes) (start : Z) (spin : bool) (evs : list (received * Z * Z))
    (d : windowsDevice) : outcome (bytes * (Z + io_error) * windowsDevice) :=
  match evs with
  | [] => Block
  | (packet, now, restart) :: evs =>
      '(t, d) ← read_turn buff start spin packet now d;
      match t with
      | Return buff r => Ret (buff, r, d)
      | Spin => read_loop buff start spin evs d
      | Wait => read_loop buff restart (shouldSpin restart d) evs d
      end
  end.

Definition Read (buff : bytes) (start : Z) (evs : list (received * Z * Z)) (d : windowsDevice)
    : outcome (bytes * (Z + io_error) * windowsDevice) :=
  read_loop buff start (shouldSpin start d) evs d.

(** What [session.AllocateSendPacket] returns: memory for the packet, or an error. *)
Inductive allocated := Room | AllocEOF | BufferOverflow | AllocFailed (code : Z).

(** [Write(buff)]: the packet handed to the driver, if any, and the result. *)
Definition Write (buff : bytes) (now : Z) (a : allocated) (d : windowsDevice)
    : outcome (option bytes * (Z + io_error) * windowsDevice) :=
  if closed d then Ret (None, inr ErrClosed, d)
  else
    let d := with_rate (update (Z.of_nat (length buff)) now (rate d)) d in
    match a with
    | Room =>
        let packet := copy (replicate (length buff) Byte.x00) buff in
        _ ← first_byte packet; Ret (Some packet, inl (Z.of_nat (length buff)), d)
    | AllocEOF => Ret (None, inr ErrClosed, d)
    | BufferOverflow => Ret (None, inl 0, d)
    | AllocFailed code => Ret (None, inr (Failed code), d)
    end.

End Windows.

(** ** Lemmas *)

Lemma copy_short dst src : (length src <= length dst)%nat → copy dst src = src ++ drop (length src) dst.
Proof. intros H. unfold copy. by rewrite take_ge. Qed.

Lemma copy_exact dst src : length src = length dst → copy dst src = src.
Proof. intros H. rewrite copy_short by lia. rewrite H, drop_all. by rewrite app_nil_r. Qed.

Lemma copy_long dst src : (length dst <= length src)%nat → copy dst src = take (length dst) src.
Proof. intros H. unfold copy. rewrite drop_ge by done. by rewrite app_nil_r. Qed.

Lemma slice_to_length b n : (n <= length b)%nat → slice_to b (Z.of_nat n) = Ret (take n b).
Proof. intros H. unfold slice_to. rewrite bool_decide_eq_true_2 by lia. by rewrite Nat2Z.id. Qed.

Module DarwinFacts.
Import Darwin.

Lemma length_grow b n : (n <= length (grow b n))%nat.
Proof. unfold grow. case_bool_decide; [rewrite length_replicate; lia|lia]. Qed.

(** The first three bytes of the write buffer, which [Write] never sets, stay zero. *)
Definition zeroed (t : tunReadCloser) : Prop := take 3 (wBuf t) = replicate (length (take 3 (wBuf t))) Byte.x00.

Lemma zeroed_grow t n : zeroed t → (4 <= n)%nat → take 3 (grow (wBuf t) n) = replicate 3 Byte.x00.
Proof.
  unfold zeroed, grow. intros Hz Hn. case_bool_decide as Hb.
  - rewrite take_replicate. by replace (3 `min` n)%nat with 3%nat by lia.
  - rewrite Hz, length_take. by replace (3 `min` length (wBuf t))%nat with 3%nat by lia.
Qed.

(** The frame of a packet: four bytes that say which family it is, then the packet. *)
Definition frame (p : bytes) : bytes + write_error :=
  match p with
  | [] => inr EIO
  | b0 :: _ =>
      let ipVer := Z.shiftr (byte_val b0) 4 in
      if bool_decide (ipVer = 4) then inl ([Byte.x00; Byte.x00; Byte.x00; Byte.x02] ++ p)
      else if bool_decide (ipVer = 6) then inl ([Byte.x00; Byte.x00; Byte.x00; Byte.x1e] ++ p)
      else inr UnknownIPVersion
  end.

Lemma zeroed_header b af :
  take 3 b = replicate 3 Byte.x00 → (4 <= length b)%nat →
  take 4 (<[3%nat := af]> b) = [Byte.x00; Byte.x00; Byte.x00; af].
Proof.
  intros Hz Hl. destruct b as [|b0 [|b1 [|b2 [|b3 b]]]]; simpl in *; try lia. by injection Hz as -> -> ->.
Qed.

Lemma framed b p af :
  take 3 b = replicate 3 Byte.x00 → (length p + 4 <= length b)%nat →
  let b' := <[3%nat := af]> b in
  let b'' := take 4 b' ++ copy (drop 4 (take (length p + 4) b')) p ++ drop (length p + 4) b' in
  take (length p + 4) b'' = [Byte.x00; Byte.x00; Byte.x00; af] ++ p ∧
  take 3 b'' = replicate 3 Byte.x00.
Proof.
  intros Hz Hl b' b''. subst b''.
  assert (length b' = length b) as Hb' by apply length_insert.
  assert (take 4 b' = [Byte.x00; Byte.x00; Byte.x00; af]) as Hh by (apply zeroed_header; [done|lia]).
  rewrite Hh, copy_exact by (rewrite length_drop, length_take, Hb'; lia). split; [|done].
  rewrite app_assoc. rewrite take_app_le by (simpl; lia). rewrite take_ge by (simpl; lia). done.
Qed.

Lemma Write_frame p t :
  zeroed t → (Write p t).1 = frame p ∧ zeroed (Write p t).2.
Proof.
  intros Hz. destruct p as [|b0 p]; [done|].
  unfold Write, frame. set (ipVer := Z.shiftr (byte_val b0) 4). set (q := b0 :: p).
  pose proof (zeroed_grow t (length q + 4) Hz ltac:(lia)) as Hg.
  pose proof (length_grow (wBuf t) (length q + 4)) as Hl.
  pose proof (framed (grow (wBuf t) (length q + 4)) q) as Hf.
  cbv zeta in *. repeat case_bool_decide; cbn [fst snd].
  - destruct (Hf (to_byte AF_INET) Hg Hl) as [H1 H2]. split; [by f_equal|].
    unfold zeroed; cbn [wBuf]. by rewrite H2.
  - destruct (Hf (to_byte AF_INET6) Hg Hl) as [H1 H2]. split; [by f_equal|].
    unfold zeroed; cbn [wBuf]. by rewrite H2.
  - split; [done|]. unfold zeroed; cbn [wBuf]. by rewrite Hg.
Qed.

Lemma writes_frames packets : writes packets newTun = map frame packets.
Proof.
  assert (zeroed newTun) as Hz by done. revert Hz. generalize newTun.
  induction packets as [|p packets IH]; intros t Hz; simpl; [done|].
  destruct (Write_frame p t Hz) as [H1 H2]. destruct (Write p t) as [r t']; simpl in *.
  by rewrite H1, IH.
Qed.

(** Whatever was written before, the reused write buffer never leaks: a sequence of
    writes on a new device hands the file, for each packet, exactly three zero bytes, the
    address family of its IP version and the packet, and refuses the empty packet and the
    packets that are neither IPv4 nor IPv6. *)
Theorem writes_frame_packets packets : writes packets newTun = map frame packets.
Proof. apply writes_frames. Qed.

(** [Read] strips a header of four bytes, whatever the scratch buffer held before; a frame
    that is too long is cut to the caller's buffer. *)
Lemma read_unframes to hdr p t :
  length hdr = 4%nat →
  ∃ to' t', Read to (hdr ++ p) None t =
      (to', (Z.of_nat (length (take (length to) p)), None), t') ∧
    length to' = length to ∧
    slice_to to' (Z.of_nat (length (take (length to) p))) = Ret (take (length to) p).
Proof.
  intros Hh. unfold Read. set (n := (length to + 4)%nat).
  pose proof (length_grow (rBuf t) n) as Hg. set (b := grow (rBuf t) n) in *.
  assert (take n (hdr ++ p) = hdr ++ take (length to) p) as Hn.
  { rewrite take_app, (take_ge hdr) by lia. do 2 f_equal. lia. }
  rewrite Hn. eexists _, _. split; [|split; [apply length_copy|]].
  - do 3 f_equal. rewrite length_app. lia.
  - rewrite slice_to_length by (rewrite length_copy, length_take; lia). f_equal.
    rewrite (copy_short b) by (rewrite length_app, length_take; lia).
    set (m := length (take (length to) p)). assert (m <= length to)%nat by (unfold m; rewrite length_take; lia).
    set (rest := drop _ b).
    assert (drop 4 (take n ((hdr ++ take (length to) p) ++ rest)) = take (length to) (take (length to) p ++ rest)) as Hd.
    { rewrite <- app_assoc, take_app, (take_ge hdr) by lia.
      rewrite drop_app, (drop_ge hdr) by lia. rewrite Hh.
      by replace (n - 4)%nat with (length to) by lia. }
    rewrite Hd, copy_exact, take_take.
    + replace (m `min` length to)%nat with m by lia. by rewrite take_app_length'.
    + rewrite length_take, length_app. unfold rest. rewrite length_drop, length_app. fold m. lia.
Qed.

Lemma frame_header p f : frame p = inl f → ∃ hdr, length hdr = 4%nat ∧ f = hdr ++ p.
Proof.
  destruct p as [|b p]; simpl; [done|]. repeat case_bool_decide; intros; simplify_eq;
    eexists [_; _; _; _]; done.
Qed.

Lemma length_Read to f err t : length (Read to f err t).1.1 = length to.
Proof. apply length_copy. Qed.

Lemma reads_frames packets evs to t :
  map frame packets = inl <$> read_frames evs → Forall (λ p, length p <= length to)%nat packets →
  reads to evs t = Ret <$> packets.
Proof.
  unfold read_frames. revert packets to t.
  induction evs as [|[f [err|]] evs IH]; intros packets to t; cbn [omap list_omap fst snd reads].
  - by destruct packets.
  - intros Hf Hp. pose proof (length_Read to f (Some err) t) as Hl.
    destruct (Read to f (Some err) t) as [[to' [c e]] t'] eqn:E. simpl in Hl.
    assert (e = Some err) as -> by (unfold Read in E; congruence). apply IH; [done|]. by rewrite Hl.
  - destruct packets as [|p packets]; cbn [map fmap list_fmap]; [done|].
    intros [= Hf Hfs] [Hp Hps]%Forall_cons. apply frame_header in Hf as (hdr & Hh & ->).
    destruct (read_unframes to hdr p t Hh) as (to' & t' & -> & Hl & Hs). rewrite (take_ge p) in * by done.
    rewrite Hs. f_equal. apply IH; [done|]. by rewrite Hl.
Qed.

(** C40: What one device writes another reads: any sequence of packets that a new device
    accepts and frames comes out of the read loop as it was, packet for packet, whatever
    the reading device and the caller's buffer held before and whichever reads fail in between,
    when each packet fits the buffer. *)
Theorem frames_round_trip packets evs to t :
  writes packets newTun = inl <$> read_frames evs → Forall (λ p, length p <= length to)%nat packets →
  reads to evs t = Ret <$> packets.
Proof. rewrite writes_frames. apply reads_frames. Qed.

End DarwinFacts.

Module WindowsFacts.
Import Windows.

(** [update] never loses a byte and its rate is exact.  Every update either adds the
    packet to the running count, or closes a window of at least half a second: then the
    rate is the window's bytes per second, rounded down, and counting starts afresh at the
    current time; the 64-bit multiplication does not overflow for fewer than 18 GB. *)
Theorem update_measures_rate packetLen now r :
  0 <= nextStartTime r <= now → now < 2 ^ 63 → changing r = 0 →
  0 <= nextByteCount r → 0 <= packetLen →
  nextByteCount r + packetLen <= (2 ^ 64 - 1) / 1000000000 →
  let r' := update packetLen now r in
  let total := nextByteCount r + packetLen in
  let period := now - nextStartTime r in
  changing r' = 0 ∧
  if bool_decide (period < rateMeasurementGranularity)
  then current r' = current r ∧ nextByteCount r' = total ∧ nextStartTime r' = nextStartTime r
  else current r' * period <= total * 1000000000 < (current r' + 1) * period ∧
       current r' <= 2 * total ∧ nextByteCount r' = 0 ∧ nextStartTime r' = now.
Proof.
  intros Hs Hn Hc Hb Hp Ht r' total period.
  assert ((2 ^ 64 - 1) / 1000000000 = 18446744073) as Hq by done. rewrite Hq in Ht.
  assert (uwrap 64 (nextByteCount r + packetLen) = total) as Ht'.
  { apply uwrap_small. unfold in_uint. lia. }
  assert (elapsed now (nextStartTime r) = period) as Hel.
  { unfold elapsed. rewrite swrap_small, uwrap_small; unfold in_int, in_uint; lia. }
  assert (uwrap 64 (total * 1000000000) = total * 1000000000) as Hm.
  { apply uwrap_small. unfold in_uint. lia. }
  unfold r', update. rewrite Ht', Hel, Hc, Hm. unfold rateMeasurementGranularity.
  case_bool_decide as Hg.
  - rewrite (bool_decide_eq_false_2 (period < _)) by lia. simpl.
    assert (0 < period) as Hpos by lia.
    pose proof (Z.mul_div_le (total * 1000000000) period Hpos).
    pose proof (Z.mul_succ_div_gt (total * 1000000000) period Hpos).
    split; [done|]. split; [lia|]. split; [|done].
    apply Z.lt_succ_r, Z.div_lt_upper_bound; [done|]. nia.
  - rewrite (bool_decide_eq_true_2 (period < _)) by lia. done.
Qed.

(** A prefix of events on which the ring is empty. *)
Definition empties (evs : list (received * Z * Z)) : Prop := Forall (λ e, e.1.1 = NoMoreItems) evs.

Lemma read_loop_empties buff start spin evs evs' d :
  closed d = false → empties evs →
  ∃ start' spin', read_loop buff start spin (evs ++ evs') d = read_loop buff start' spin' evs' d.
Proof.
  intros Hc He. revert start spin. induction He as [|[[r now] restart] evs Hr _ IH]; intros start spin; simpl.
  - eauto.
  - simpl in Hr. subst r. unfold read_turn. rewrite Hc. case_match; simpl; apply IH.
Qed.

Lemma Read_packet buff start evs p now restart rest d :
  closed d = false → empties evs → p ≠ [] →
  Read buff start (evs ++ (Packet p, now, restart) :: rest) d =
    Ret (copy buff p, inl (Z.of_nat (length p)), with_rate (update (Z.of_nat (length p)) now (rate d)) d).
Proof.
  intros Hc He Hp. unfold Read.
  destruct (read_loop_empties buff start (shouldSpin start d) evs ((Packet p, now, restart) :: rest) d Hc He)
    as (start' & spin' & ->).
  simpl. unfold read_turn. rewrite Hc. by destruct p.
Qed.

(** The slice [buffer[:c]] of what was copied. *)
Lemma slice_to_copy buff p :
  slice_to (copy buff p) (Z.of_nat (length p)) =
    if bool_decide (length p <= length buff)%nat then Ret p else Panic "slice bounds out of range".
Proof.
  case_bool_decide.
  - rewrite slice_to_length by (by rewrite length_copy). rewrite copy_short by done.
    by rewrite take_app_length.
  - unfold slice_to. rewrite bool_decide_eq_false_2; [done|]. rewrite length_copy. lia.
Qed.

(** C32: [Read] returns the first packet of the ring, however often the ring was empty
    before and whether it was spinning or waiting then; but the count it returns is the
    packet's length, not what was copied: when the packet is longer than the caller's
    buffer, the slice [buffer[:c]] that the node takes panics, and only a shorter one comes
    out as it was sent. *)
Theorem read_count_may_exceed_buffer buff start evs p now restart rest d :
  closed d = false → empties evs → p ≠ [] →
  ∃ d', Read buff start (evs ++ (Packet p, now, restart) :: rest) d =
      Ret (copy buff p, inl (Z.of_nat (length p)), d') ∧
    rate d' = update (Z.of_nat (length p)) now (rate d) ∧
    slice_to (copy buff p) (Z.of_nat (length p)) =
      if bool_decide (length p <= length buff)%nat then Ret p else Panic "slice bounds out of range".
Proof.
  intros Hc He Hp. exists (with_rate (update (Z.of_nat (length p)) now (rate d)) d).
  split_and!; [by apply Read_packet|done|apply slice_to_copy].
Qed.

(** [Write] on every branch: nothing is written to a closed device; a packet that the
    ring has room for is handed over whole (an empty one panics, because the session takes
    the address of its first byte); a full ring drops the packet without an error, and a
    ring at its end reports that the device is closed. *)
Lemma windows_Write_spec buff now a d :
  Write buff now a d =
  if closed d then Ret (None, inr ErrClosed, d)
  else
    let d' := with_rate (update (Z.of_nat (length buff)) now (rate d)) d in
    match a, buff with
    | Room, [] => Panic "index out of range"
    | Room, _ => Ret (Some buff, inl (Z.of_nat (length buff)), d')
    | AllocEOF, _ => Ret (None, inr ErrClosed, d')
    | BufferOverflow, _ => Ret (None, inl 0, d')
    | AllocFailed code, _ => Ret (None, inr (Failed code), d')
    end.
Proof.
  unfold Write. destruct (closed d); [done|]. destruct a; try done.
  rewrite copy_exact by (by rewrite length_replicate). by destruct buff.
Qed.

End WindowsFacts.

Module TunDemo.
Import Darwin Windows.

Definition hdr : bytes := [Byte.x00; Byte.x00; Byte.x00; Byte.x02].
Definition packet : bytes := [Byte.x45; Byte.x2a].
Definition buffer : bytes := replicate 4 Byte.x00.
Definition meter : rateJuggler :=
  {| current := 0; nextByteCount := 900; nextStartTime := 0; changing := 0 |}.
Definition dev : windowsDevice := {| closed := false; rate := meter |}.

Lemma frames_round_trip_witness :
  reads buffer [(hdr ++ packet, None); ([], Some 4); (hdr ++ [Byte.x45], None)] newTun = [Ret packet; Ret [Byte.x45]].
Proof.
  exact (DarwinFacts.frames_round_trip [packet; [Byte.x45]]
    [(hdr ++ packet, None); ([], Some 4); (hdr ++ [Byte.x45], None)] buffer newTun
    ltac:(vm_compute; reflexivity) ltac:(repeat constructor; simpl; lia)).
Defined.

Lemma update_measures_rate_witness :
  current (update 100 500000000 meter) * 500000000 <= 1000 * 1000000000.
Proof.
  exact (proj1 (proj1 (proj2 (WindowsFacts.update_measures_rate 100 500000000 meter
    ltac:(simpl; lia) ltac:(lia) eq_refl ltac:(simpl; lia) ltac:(lia) ltac:(by vm_compute))))).
Defined.

(** A packet of five bytes for a buffer of four. *)
Lemma read_count_may_exceed_buffer_witness :
  ∃ d', Read buffer 0 [(NoMoreItems, 1, 2); (Packet (replicate 5 Byte.x45), 3, 4)] dev =
      Ret (replicate 4 Byte.x45, inl 5, d') ∧
    slice_to (replicate 4 Byte.x45) 5 = Panic "slice bounds out of range".
Proof.
  destruct (WindowsFacts.read_count_may_exceed_buffer buffer 0 [(NoMoreItems, 1, 2)]
    (replicate 5 Byte.x45) 3 4 [] dev eq_refl ltac:(by repeat constructor) ltac:(done)) as (d' & H1 & _ & H3).
  exact (ex_intro _ d' (conj H1 H3)).
Defined.

End TunDemo.
