(* ===== verification/Device.v ===== *)
(** * The virtual device, as a node sees it

    The interface [Device] of [node/tun/tun.go], by which [serveDev] of [node/node.go] reads and
    writes packets, as a class, and its three implementations.  [Node.v] is proved against the
    class; what its instances promise are the definitions of [Tun.v]. *)

From S2P Require Import Prelude Constant Tun.

Local Open Scope Z_scope.

(** [dev_count p] is the count that [Read] returns for the packet [p], with a buffer of
    [MaxBufferSize] bytes.  [dev_write e p] is [Write(p)], when the device and its surroundings
    are [e]: what it hands to the system, if anything; its error is only logged. *)
Class Device := {
  dev_env : Type;
  dev_count : bytes → nat;
  dev_write : dev_env → bytes → outcome (option bytes);
}.

(** Nothing is returned that was not there, and a packet that fits the buffer is whole. *)
Class DeviceLaws (D : Device) : Prop := {
  dev_count_le p : (dev_count p <= length p)%nat;
  dev_count_fits p : (length p <= MaxBufferSize)%nat → dev_count p = length p;
}.

(** [dev.Read(buffer)] and the slice [buffer[:c]]. *)
Definition dev_read `{Device} (p : bytes) : outcome bytes :=
  if bool_decide (dev_count p <= MaxBufferSize)%nat then Ret (take (dev_count p) p)
  else Panic "slice bounds out of range".

Lemma dev_read_fits `{DeviceLaws} p : (length p <= MaxBufferSize)%nat → dev_read p = Ret p.
Proof.
  intros Hp. unfold dev_read. rewrite (dev_count_fits p Hp), bool_decide_eq_true_2 by done. by rewrite firstn_all.
Qed.

(** ** Linux

    [os.File]: a read is cut at the buffer, and a write hands over the packet as it is, unless
    the system refuses it. *)
Definition linux_device : Device := {|
  dev_env := bool;
  dev_count p := min (length p) MaxBufferSize;
  dev_write taken p := Ret (if taken then Some p else None);
|}.

#[global] Instance linux_laws : DeviceLaws linux_device.
Proof. split; simpl; intros p; lia. Qed.

(** ** macOS

    [tunReadCloser], with whatever its scratch buffers hold after some writes. *)
Record darwin_env := {
  scratch : Darwin.tunReadCloser;
  scratch_ok : DarwinFacts.zeroed scratch;
  taken : bool;
}.

Definition darwin_device : Device := {|
  dev_env := darwin_env;
  dev_count p := min (length p) MaxBufferSize;
  dev_write e p :=
    Ret match (Darwin.Write p (scratch e)).1 with
        | inl f => if taken e then Some f else None
        | inr _ => None
        end;
|}.

#[global] Instance darwin_laws : DeviceLaws darwin_device.
Proof. split; simpl; intros p; lia. Qed.

(** What the system gets of the packet [p]. *)
Definition framed (p : bytes) : option bytes :=
  match DarwinFacts.frame p with inl f => Some f | inr _ => None end.

Lemma darwin_write e p :
  @dev_write darwin_device e p = Ret (if taken e then framed p else None).
Proof.
  simpl. rewrite (proj1 (DarwinFacts.Write_frame p (scratch e) (scratch_ok e))). unfold framed.
  by destruct (DarwinFacts.frame p), (taken e).
Qed.

Lemma framed_frames packets frames :
  map DarwinFacts.frame packets = inl <$> frames → omap framed packets = frames.
Proof.
  revert frames. induction packets as [|p packets IH]; intros [|f frames]; try done.
  cbn [map fmap list_fmap]. intros [= Hp Hps]. cbn [omap list_omap]. unfold framed at 1. rewrite Hp.
  f_equal. by apply IH.
Qed.

(** The count and the slice are those of [Darwin.Read]. *)
Lemma darwin_read to hdr p t :
  length hdr = 4%nat → length to = MaxBufferSize →
  ∃ to' t', Darwin.Read to (hdr ++ p) None t = (to', (Z.of_nat (@dev_count darwin_device p), None), t') ∧
    slice_to to' (Z.of_nat (@dev_count darwin_device p)) = @dev_read darwin_device p.
Proof.
  intros Hh Hto. destruct (DarwinFacts.read_unframes to hdr p t Hh) as (to' & t' & E & _ & Hs).
  rewrite Hto, length_take in *. exists to', t'. rewrite E. cbn [dev_count darwin_device]. rewrite (Nat.min_comm (length p)).
  split; [done|]. rewrite Hs. unfold dev_read. cbn [dev_count darwin_device].
  rewrite bool_decide_eq_true_2 by lia. f_equal. destruct (decide (length p <= MaxBufferSize)%nat).
  - rewrite Nat.min_l by done. by rewrite firstn_all, take_ge.
  - rewrite Nat.min_r by lia. done.
Qed.

(** ** Windows

    [windowsDevice], at some time and with some answer of [AllocateSendPacket]; the count of a
    read is the length of the packet, whatever was copied. *)
Record windows_env := {
  win_now : Z;
  win_allocated : Windows.allocated;
  win_device : Windows.windowsDevice;
}.

Definition windows_device : Device := {|
  dev_env := windows_env;
  dev_count p := length p;
  dev_write e p :=
    '(packet, _, _) ← Windows.Write p (win_now e) (win_allocated e) (win_device e); Ret packet;
|}.

#[global] Instance windows_laws : DeviceLaws windows_device.
Proof. by split. Qed.

Lemma windows_read buff start evs p now restart rest d :
  Windows.closed d = false → WindowsFacts.empties evs → p ≠ [] → length buff = MaxBufferSize →
  ∃ buff' d', Windows.Read buff start (evs ++ (Windows.Packet p, now, restart) :: rest) d =
      Ret (buff', inl (Z.of_nat (@dev_count windows_device p)), d') ∧
    slice_to buff' (Z.of_nat (@dev_count windows_device p)) = @dev_read windows_device p.
Proof.
  intros Hc He Hp Hb. eexists _, _. split; [by apply WindowsFacts.Read_packet|].
  cbn [dev_count windows_device]. rewrite WindowsFacts.slice_to_copy, Hb. unfold dev_read. cbn [dev_count windows_device].
  by rewrite firstn_all.
Qed.

(** The one packet whose write panics, on an open device with room in its ring. *)
Lemma windows_write_panics e p m :
  @dev_write windows_device e p = Panic m ↔
  p = [] ∧ Windows.closed (win_device e) = false ∧ win_allocated e = Windows.Room ∧
  m = "index out of range"%string.
Proof.
  cbn [dev_write windows_device]. rewrite WindowsFacts.windows_Write_spec.
  destruct (Windows.closed (win_device e)); [naive_solver|]. destruct (win_allocated e), p; naive_solver.
Qed.
