(* ===== verification/Node.v ===== *)
(** * The peer node

    [node/node.go] and [node/handler.go]: the node's state, the packets it receives, the
    packets its virtual device hands it, the requests for tunnels it starts, and all of
    its goroutines as one transition system. *)

From S2P Require Import Prelude Message WireFormat Net Constant Connection Tun Device.

Local Open Scope Z_scope.

(** ** State *)

Record Options := { Gateway : string; Key : string; Address : string; TLS : bool }.

(** A pointer to a [connection]. *)
Abbreviation loc := nat.

(** [connections] is the [sync.Map] from virtual addresses to pointers, [conns] the objects
    they point to; a replaced or closed connection stays in [conns] while its goroutines
    hold it.  [protos] is the package variable of that name, whose messages every
    goroutine that runs [handlePacket] decodes into.  [to_gateway] and [to_device] record
    the datagrams written to the gateway socket and what the virtual device hands to the
    system; [requests] holds the destinations of the [OpenTunnel] goroutines in flight. *)
Record Node := {
  opt : Options;
  mask : IP;
  pending : gmap string Z;
  connections : gmap string loc;
  conns : gmap loc connection;
  next_conn : loc;
  device : chan bytes;
  protos : list (option message);
  to_gateway : list bytes;
  to_device : list bytes;
  requests : list string;
}.

Definition with_pending p n := {| opt := opt n; mask := mask n; pending := p;
  connections := connections n; conns := conns n; next_conn := next_conn n; device := device n;
  protos := protos n; to_gateway := to_gateway n; to_device := to_device n; requests := requests n |}.
Definition with_connections c n := {| opt := opt n; mask := mask n; pending := pending n;
  connections := c; conns := conns n; next_conn := next_conn n; device := device n;
  protos := protos n; to_gateway := to_gateway n; to_device := to_device n; requests := requests n |}.
Definition with_conns c n := {| opt := opt n; mask := mask n; pending := pending n;
  connections := connections n; conns := c; next_conn := next_conn n; device := device n;
  protos := protos n; to_gateway := to_gateway n; to_device := to_device n; requests := requests n |}.
Definition with_next_conn x n := {| opt := opt n; mask := mask n; pending := pending n;
  connections := connections n; conns := conns n; next_conn := x; device := device n;
  protos := protos n; to_gateway := to_gateway n; to_device := to_device n; requests := requests n |}.
Definition with_device d n := {| opt := opt n; mask := mask n; pending := pending n;
  connections := connections n; conns := conns n; next_conn := next_conn n; device := d;
  protos := protos n; to_gateway := to_gateway n; to_device := to_device n; requests := requests n |}.
Definition with_protos p n := {| opt := opt n; mask := mask n; pending := pending n;
  connections := connections n; conns := conns n; next_conn := next_conn n; device := device n;
  protos := p; to_gateway := to_gateway n; to_device := to_device n; requests := requests n |}.
Definition with_to_gateway g n := {| opt := opt n; mask := mask n; pending := pending n;
  connections := connections n; conns := conns n; next_conn := next_conn n; device := device n;
  protos := protos n; to_gateway := g; to_device := to_device n; requests := requests n |}.
Definition with_to_device d n := {| opt := opt n; mask := mask n; pending := pending n;
  connections := connections n; conns := conns n; next_conn := next_conn n; device := device n;
  protos := protos n; to_gateway := to_gateway n; to_device := d; requests := requests n |}.
Definition with_requests r n := {| opt := opt n; mask := mask n; pending := pending n;
  connections := connections n; conns := conns n; next_conn := next_conn n; device := device n;
  protos := protos n; to_gateway := to_gateway n; to_device := to_device n; requests := r |}.

(** The initial [protos]: [nil] where the slice literal has no element. *)
Definition protos_init : list (option message) :=
  [None; None; Some (Reset KOpenTunnel); None; Some (Reset KPing); Some (Reset KPong)].

(** The two subnet masks of the code, in [serveDev] and in [Serve]. *)
Definition subnetMask : bytes := [Byte.xff; Byte.xff; Byte.x00; Byte.x00].

Definition New (o : Options) : Node := {|
  opt := o; mask := []; pending := ∅; connections := ∅; conns := ∅; next_conn := O;
  device := make_chan bytes 512; protos := protos_init; to_gateway := []; to_device := [];
  requests := [] |}.

Section node.
Context `{Proto} `{Device}.
(** [n.dialer.Dial("udp", addr)]: the remote address of the socket, as a string. *)
Variable Dial : string → option string.
(** The IPv4 decoder of gopacket: the destination of a packet it recognizes. *)
Variable decodeIPv4 : bytes → option IP.
Variable string6 : IP → string.
Variable parse6 : string → IP.

Abbreviation IP_String := (IP_String string6).

(** The part of [Serve] that sets the node's own fields. *)
Definition Serve_init (n : Node) : Node :=
  {| opt := opt n; mask := Mask (ParseIP parse6 (Address (opt n))) subnetMask;
     pending := pending n; connections := connections n; conns := conns n;
     next_conn := next_conn n; device := device n; protos := protos n;
     to_gateway := to_gateway n; to_device := to_device n; requests := requests n |}.

Definition gateway_write (d : bytes) (n : Node) : Node := with_to_gateway (to_gateway n ++ [d]) n.

Definition deref (n : Node) (l : loc) : outcome connection :=
  match conns n !! l with Some c => Ret c | None => Panic "nil pointer" end.

Definition store (l : loc) (c : connection) (n : Node) : Node := with_conns (<[l := c]> (conns n)) n.

(** ** handler.go *)

Definition onPing (ping : CtrlPing) (nonce : string) (n : Node) : outcome Node :=
  match connections n !! ping_VirtAddress ping with
  | None => Ret n
  | Some l =>
      data ← Encode PacketType.Pong
        (MPong {| pong_VirtAddress := Address (opt n); pong_Nonce := nonce |});
      conn ← deref n l;
      p ← chan_send data (pipeline conn);
      Ret (store l (with_pipeline p conn) n)
  end.

Definition onPong (pong : CtrlPong) (now : Z) (n : Node) : outcome Node :=
  match connections n !! pong_VirtAddress pong with
  | None => Ret n
  | Some l =>
      c ← deref n l;
      let conn := with_keepalive now c in
      let conn := if bool_decide (state conn ≠ StateEstablished)
                  then with_state StateEstablished conn else conn in
      Ret (store l conn n)
  end.

Definition openTunnelAck (openTunnel : CtrlOpenTunnel) (n : Node) : outcome Node :=
  ack ← Encode PacketType.OpenTunnelAck (MOpenTunnelAck {| ota_AckId := ot_AckId openTunnel |});
  Ret (gateway_write ack n).

(** The last part of [onOpenTunnel]: dial the peer, start the connection, acknowledge. *)
Definition openConnection (openTunnel : CtrlOpenTunnel) (now : Z) (n : Node) : outcome Node :=
  match Dial (ot_UdpAddress openTunnel) with
  | None => Ret n
  | Some remote =>
      let conn := new_connection (Address (opt n)) (ot_VirtAddress openTunnel) remote now in
      let n := store (next_conn n) conn
                 (with_connections (<[ot_VirtAddress openTunnel := next_conn n]> (connections n)) n) in
      openTunnelAck openTunnel (with_next_conn (S (next_conn n)) n)
  end.

(** Where a goroutine is inside [handlePacket]: before its [switch]; or in [onOpenTunnel], between
    the two steps of [close] on the connection [l], or before the dial. *)
Inductive handling := AtSwitch (packetType : Z) | AtClose (l : loc) | AtDial.

#[global] Instance handling_eq_dec : EqDecision handling.
Proof. solve_decision. Defined.

(** [onOpenTunnel] up to the [select] of the [close] that it calls on the previous connection:
    it ran to its end, or it goes on from there. *)
Definition onOpenTunnel_select (openTunnel : CtrlOpenTunnel) (n : Node) : outcome (Node * option handling) :=
  match connections n !! ot_VirtAddress openTunnel with
  | Some l =>
      conn ← deref n l;
      if bool_decide (peer conn = ot_UdpAddress openTunnel)
      then n ← openTunnelAck openTunnel n; Ret (n, None)
      else Ret (n, Some (if close_select conn then AtClose l else AtDial))
  | None => Ret (n, Some AtDial)
  end.

(** [close(c.die)] of the previous connection. *)
Definition onOpenTunnel_close (l : loc) (n : Node) : outcome Node :=
  conn ← deref n l;
  conn ← close_default conn;
  Ret (store l conn n).

(** The whole, without another goroutine in between. *)
Definition onOpenTunnel (openTunnel : CtrlOpenTunnel) (now : Z) (n : Node) : outcome Node :=
  '(n, next) ← onOpenTunnel_select openTunnel n;
  match next with
  | None => Ret n
  | Some (AtClose l) => n ← onOpenTunnel_close l n; openConnection openTunnel now n
  | Some _ => openConnection openTunnel now n
  end.

Definition handleClosed (c : connection) (n : Node) : Node :=
  with_connections (delete (peerVirtAddr c) (connections n)) n.

(** [handlePacket] up to its last [switch]: the packet is done with, or the message of its
    type was decoded into [protos]. *)
Inductive decoded := Finished | Dispatch (packetType : Z).

Definition handle_decode (data : bytes) (n : Node) : outcome (Node * decoded) :=
  match data with
  | [] => Ret (n, Finished)
  | t :: payload =>
      let packetType := byte_val t in
      if bool_decide (packetType = PacketType.Data)
      then d ← chan_send payload (device n); Ret (with_device d n, Finished)
      else if bool_decide (packetType >= Z.of_nat (length (protos n))) then Ret (n, Finished)
      else
        match mjoin (protos n !! Z.to_nat packetType) with
        | None => Ret (n, Dispatch packetType)
        | Some msg =>
            let '(ok, m) := unmarshal (kind_of msg) payload in
            let n := with_protos (<[Z.to_nat packetType := Some m]> (protos n)) n in
            Ret (n, if ok then Dispatch packetType else Finished)
        end
  end.

(** The [switch] of [handlePacket]: the handlers read the shared message. *)
Definition dispatch (packetType now : Z) (nonce : string) (n : Node) : outcome (Node * option handling) :=
  let msg := mjoin (protos n !! Z.to_nat packetType) in
  if bool_decide (packetType = PacketType.Ping) then
    match msg with Some (MPing m) => n ← onPing m nonce n; Ret (n, None) | _ => Panic "interface conversion" end
  else if bool_decide (packetType = PacketType.Pong) then
    match msg with Some (MPong m) => n ← onPong m now n; Ret (n, None) | _ => Panic "interface conversion" end
  else if bool_decide (packetType = PacketType.OpenTunnel) then
    match msg with Some (MOpenTunnel m) => onOpenTunnel_select m n | _ => Panic "interface conversion" end
  else Ret (n, None).

(** The last part of [onOpenTunnel], whose [openTunnel] is the pointer to the shared message. *)
Definition reopen (now : Z) (n : Node) : outcome Node :=
  match mjoin (protos n !! Z.to_nat PacketType.OpenTunnel) with
  | Some (MOpenTunnel m) => openConnection m now n
  | _ => Panic "nil pointer"
  end.

(** The whole, without another goroutine in between. *)
Definition handle_dispatch (packetType now : Z) (nonce : string) (n : Node) : outcome Node :=
  '(n, next) ← dispatch packetType now nonce n;
  match next with
  | None => Ret n
  | Some (AtClose l) => n ← onOpenTunnel_close l n; reopen now n
  | Some _ => reopen now n
  end.

Definition handlePacket (data : bytes) (now : Z) (nonce : string) (n : Node) : outcome Node :=
  '(n, d) ← handle_decode data n;
  match d with
  | Finished => Ret n
  | Dispatch packetType => handle_dispatch packetType now nonce n
  end.

(** ** node.go *)

Definition forward (virtAddress : string) (data : bytes) (now : Z) (n : Node) : outcome Node :=
  match connections n !! virtAddress with
  | Some l =>
      conn ← deref n l;
      if bool_decide (state conn = StateEstablished)
      then Ret (store l (with_pipeline (chan_try_send (EncodeRaw data) (pipeline conn)).1 conn) n)
      else
        d ← Encode PacketType.Relay (MRelay {| rl_VirtAddress := virtAddress; rl_Data := data |});
        Ret (gateway_write d n)
  | None =>
      if match pending n !! virtAddress with
         | Some t => bool_decide (t + Second > now)
         | None => false
         end
      then Ret n
      else Ret (with_requests (requests n ++ [virtAddress])
                  (with_pending (<[virtAddress := now]> (pending n)) n))
  end.

(** A turn of [read] in [serveDev] after [dev.Read]: [data] is [buffer[:c]]. *)
Definition device_packet (data : bytes) (now : Z) (n : Node) : outcome Node :=
  match decodeIPv4 data with
  | None => Ret n
  | Some DstIP =>
      if negb (Equal (Mask DstIP subnetMask) (mask n)) then Ret n
      else
        let destination := IP_String DstIP in
        if bool_decide (destination = Address (opt n))
        then d ← chan_send data (device n); Ret (with_device d n)
        else forward destination data now n
  end.

(** The turn in which the virtual device has the packet [p]. *)
Definition device_read (p : bytes) (now : Z) (n : Node) : outcome Node :=
  data ← dev_read p; device_packet data now n.

(** One turn of [write] in [serveDev]; an error of [dev.Write] is logged. *)
Definition device_write (e : dev_env) (n : Node) : outcome Node :=
  match chan_recv (device n) with
  | Some (data, d) =>
      out ← dev_write e data;
      Ret (with_to_device (to_device n ++ option_list out) (with_device d n))
  | None => Block
  end.

(** The end of the goroutine that [forward] started for the [i]-th request in flight. *)
Definition request_done (i : nat) (n : Node) : outcome Node :=
  match requests n !! i with
  | Some virtAddress =>
      Ret (with_requests (delete i (requests n)) (with_pending (delete virtAddress (pending n)) n))
  | None => Block
  end.

(** The datagram [heartbeat] builds once and sends on every timer. *)
Definition heartbeat_data (n : Node) : outcome bytes :=
  Encode PacketType.Heartbeat (MHeartbeat {| hb_VirtAddress := Address (opt n) |}).

Definition heartbeat (n : Node) : outcome Node :=
  data ← heartbeat_data n; Ret (gateway_write data n).

(** A turn of the loop of connection [l]; on its return the deferred [handleClosed] runs. *)
Definition conn_turn (l : loc) (now : Z) (nonce : string) (ev : loop_event) (n : Node) : outcome Node :=
  conn ← deref n l;
  conn' ← loop_step now nonce ev conn;
  let n := store l conn' n in
  Ret (if decide (pc conn' = Exited) then handleClosed conn' n else n).

Definition conn_start (l : loc) (now : Z) (n : Node) : outcome Node :=
  conn ← deref n l; Ret (store l (loop_start now conn) n).

(** ** All goroutines together *)

(** [dispatching] holds the goroutines that are inside [handlePacket]: number 0 is [schedule], number [S l] the [read] of
    connection [l]. *)
Record world := { node : Node; dispatching : gmap nat handling }.

Inductive label :=
| LDecode (t : nat) (data : bytes)
| LDispatch (t : nat) (packetType now : Z) (nonce : string)
| LClose (t : nat)
| LDial (t : nat) (now : Z)
| LDevRead (p : bytes) (now : Z)
| LDevWrite (e : dev_env)
| LRequestDone (i : nat)
| LHeartbeat
| LConnStart (l : loc) (now : Z)
| LConnTurn (l : loc) (now : Z) (nonce : string) (ev : loop_event).

Definition set_handling (t : nat) (h : option handling) (m : gmap nat handling) : gmap nat handling :=
  match h with Some h => <[t := h]> m | None => delete t m end.

Definition handling_of (d : decoded) : option handling :=
  match d with Finished => None | Dispatch pt => Some (AtSwitch pt) end.

Definition on_node (f : Node → outcome Node) (w : world) : outcome world :=
  n ← f (node w); Ret {| node := n; dispatching := dispatching w |}.

(** What the step does: [schedule] and [read] both read into a buffer of 4096 bytes; [Block] when its goroutine is not there or not ready. *)
Definition exec (lbl : label) (w : world) : outcome world :=
  match lbl with
  | LDecode t data =>
      match dispatching w !! t with
      | Some _ => Block
      | None =>
          '(n, d) ← handle_decode (cut data) (node w);
          Ret {| node := n; dispatching := set_handling t (handling_of d) (dispatching w) |}
      end
  | LDispatch t packetType now nonce =>
      if decide (dispatching w !! t = Some (AtSwitch packetType)) then
        '(n, next) ← dispatch packetType now nonce (node w);
        Ret {| node := n; dispatching := set_handling t next (dispatching w) |}
      else Block
  | LClose t =>
      match dispatching w !! t with
      | Some (AtClose l) =>
          n ← onOpenTunnel_close l (node w);
          Ret {| node := n; dispatching := <[t := AtDial]> (dispatching w) |}
      | _ => Block
      end
  | LDial t now =>
      match dispatching w !! t with
      | Some AtDial =>
          n ← reopen now (node w);
          Ret {| node := n; dispatching := delete t (dispatching w) |}
      | _ => Block
      end
  | LDevRead p now => on_node (device_read p now) w
  | LDevWrite e => on_node (device_write e) w
  | LRequestDone i => on_node (request_done i) w
  | LHeartbeat => on_node heartbeat w
  | LConnStart l now =>
      match conns (node w) !! l with
      | Some c => if decide (pc c = Spawned) then on_node (conn_start l now) w else Block
      | None => Block
      end
  | LConnTurn l now nonce ev =>
      match conns (node w) !! l with
      | Some c => if ready now ev c then on_node (conn_turn l now nonce ev) w else Block
      | None => Block
      end
  end.

(** The nonces are what [randseq] returns, letters. *)
Definition label_ok (lbl : label) : bool :=
  match lbl with
  | LDispatch _ _ _ nonce | LConnTurn _ _ nonce _ => valid_string nonce
  | _ => true
  end.

Definition step (w w' : world) : Prop := ∃ lbl, label_ok lbl = true ∧ exec lbl w = Ret w'.

Fixpoint run (lbls : list label) (w : world) : outcome world :=
  match lbls with
  | [] => Ret w
  | lbl :: lbls => w ← exec lbl w; run lbls w
  end.

Definition world_init (o : Options) : world :=
  {| node := Serve_init (New o); dispatching := ∅ |}.

(** ** The invariant *)

Definition protos_ok (ps : list (option message)) : Prop :=
  ∃ o pi po, ps = [None; None; Some (MOpenTunnel o); None; Some (MPing pi); Some (MPong po)] ∧
    well_typed (MOpenTunnel o) = true.

(** One connection object of a node with address [self]: its goroutine starts once. *)
Definition conn_ok (self : string) (c : connection) : Prop :=
  selfVirtAddr c = self ∧ (state c = StateConnecting ∨ state c = StateEstablished) ∧
  chan_ok (pipeline c) ∧ (pc c = Spawned → once c = false).

Record node_inv (n : Node) : Prop := {
  inv_address : valid_string (Address (opt n)) = true;
  inv_protos : protos_ok (protos n);
  inv_conns l c : conns n !! l = Some c → conn_ok (Address (opt n)) c ∧ (l < next_conn n)%nat;
  inv_table v l : connections n !! v = Some l →
    ∃ c, conns n !! l = Some c ∧ peerVirtAddr c = v ∧ pc c ≠ Exited;
  inv_device : chan_ok (device n);
  inv_mask : mask n = Mask (ParseIP parse6 (Address (opt n))) subnetMask;
}.

(** What a handler may do to one connection object: its identity stays. *)
Definition same_conn (c c' : connection) : Prop :=
  selfVirtAddr c' = selfVirtAddr c ∧ peerVirtAddr c' = peerVirtAddr c ∧ peer c' = peer c.

Lemma with_ok_store n l c c' :
  node_inv n → conns n !! l = Some c → same_conn c c' → conn_ok (Address (opt n)) c' →
  pc c' ≠ Exited ∨ pc c = Exited → node_inv (store l c' n).
Proof.
  intros Hn Hl (Hs & Hp & _) Hok Hpc. destruct Hn as [Ha Hps Hc Ht Hd Hm]. split; simpl; try done.
  - intros l' c1 [[<- <-]|[Hne H1]]%lookup_insert_Some; [|by apply Hc].
    split; [done|]. by apply (Hc l c).
  - intros v l' Hv. destruct (Ht v l' Hv) as (c1 & H1 & Hv1 & Hpc1).
    destruct (decide (l = l')) as [->|Hne].
    + rewrite lookup_insert_eq. simplify_eq. exists c'. split_and!; [done..|]. by destruct Hpc.
    + rewrite lookup_insert_ne by done. eauto.
Qed.

Lemma deref_Ret n l c : deref n l = Ret c ↔ conns n !! l = Some c.
Proof. unfold deref. destruct (conns n !! l); naive_solver. Qed.

Lemma table_deref n v l :
  node_inv n → connections n !! v = Some l →
  ∃ c, deref n l = Ret c ∧ conns n !! l = Some c ∧ peerVirtAddr c = v ∧ pc c ≠ Exited ∧
    conn_ok (Address (opt n)) c.
Proof.
  intros Hn Hv. destruct (inv_table n Hn v l Hv) as (c & Hc & Hp & Hx).
  exists c. rewrite deref_Ret. split_and!; try done. by apply (inv_conns n Hn l c).
Qed.

Lemma protos_lookup ps k m :
  protos_ok ps → mjoin (ps !! k) = Some m →
  (k = 2%nat ∧ kind_of m = KOpenTunnel) ∨ (k = 4%nat ∧ kind_of m = KPing) ∨
  (k = 5%nat ∧ kind_of m = KPong).
Proof.
  intros (o & pi & po & -> & _) Hk.
  do 6 (destruct k as [|k]; [simpl in Hk; simplify_eq/=; auto|]). done.
Qed.

Lemma protos_at ps :
  protos_ok ps →
  (∃ o, mjoin (ps !! 2%nat) = Some (MOpenTunnel o) ∧ valid_int64 (ot_AckId o) = true) ∧
  (∃ pi, mjoin (ps !! 4%nat) = Some (MPing pi)) ∧ (∃ po, mjoin (ps !! 5%nat) = Some (MPong po)).
Proof. intros (o & pi & po & -> & Ho). split_and!; simpl; eauto. Qed.

Lemma protos_insert ps k m m' :
  protos_ok ps → mjoin (ps !! k) = Some m → kind_of m' = kind_of m → well_typed m' = true →
  protos_ok (<[k := Some m']> ps).
Proof.
  intros Hps Hk Hm Hw. pose proof (protos_lookup _ _ _ Hps Hk) as Hc.
  destruct Hps as (o & pi & po & -> & Ho). destruct Hc as [[-> H1]|[[-> H1]|[-> H1]]];
    rewrite H1 in Hm; destruct m'; try done; simpl; eexists _, _, _; eauto.
Qed.

Context `{!ProtoLaws _}.

Lemma handle_decode_inv data n n' d :
  node_inv n → handle_decode data n = Ret (n', d) →
  node_inv n' ∧ connections n' = connections n ∧ conns n' = conns n ∧ opt n' = opt n.
Proof.
  intros Hn. unfold handle_decode. destruct data as [|t payload]; [by intros [= <- <-]|].
  case_bool_decide.
  { intros Hd. inv_bind. simplify_eq. split; [|done]. destruct Hn. split; try done. by apply chan_push_ok. }
  case_bool_decide; [by intros [= <- <-]|].
  destruct (mjoin _) as [msg|] eqn:Em; [|by intros [= <- <-]].
  pose proof (unmarshal_kind (kind_of msg) payload) as Hk.
  pose proof (unmarshal_typed (kind_of msg) payload) as Hw.
  destruct (unmarshal _ _) as [ok m] eqn:Eu. intros [= <- <-].
  split; [|done]. destruct Hn. split; try done. simpl. by eapply protos_insert.
Qed.

Lemma onPing_inv pi nonce n n' :
  node_inv n → onPing pi nonce n = Ret n' → node_inv n'.
Proof.
  intros Hn. unfold onPing. destruct (connections n !! _) as [l|] eqn:Ev; [|by intros [= <-]].
  destruct (table_deref n _ l Hn Ev) as (c & Hd & Hc & _ & Hx & (? & ? & ? & ?)).
  intros (data & _ & Hs)%outcome_bind_ret. rewrite Hd in Hs; simpl in Hs. inv_bind. simplify_eq.
  apply (with_ok_store n l c); try done; [|by left].
  split_and!; try done. by apply chan_push_ok.
Qed.

Lemma onPong_inv po now n n' :
  node_inv n → onPong po now n = Ret n' → node_inv n'.
Proof.
  intros Hn. unfold onPong. destruct (connections n !! _) as [l|] eqn:Ev; [|by intros [= <-]].
  destruct (table_deref n _ l Hn Ev) as (c & Hd & Hc & _ & Hx & (? & Hst & ? & ?)).
  rewrite Hd; simpl. intros [= <-].
  apply (with_ok_store n l c); try done; case_bool_decide; try done; try (by left).
  split_and!; try done. by right.
Qed.

Lemma openTunnelAck_inv o n n' :
  node_inv n → openTunnelAck o n = Ret n' → node_inv n'.
Proof.
  intros Hn. unfold openTunnelAck. intros (d & _ & [= <-])%outcome_bind_ret.
  destruct Hn. by split.
Qed.

Lemma openConnection_inv o now n n' :
  node_inv n → openConnection o now n = Ret n' → node_inv n'.
Proof.
  intros Hn. unfold openConnection. destruct (Dial _) as [remote|]; [|by intros [= <-]].
  apply openTunnelAck_inv. destruct Hn as [Ha Hps Hc Ht Hd Hm]. split; simpl; try done.
  - intros l c [[<- <-]|[Hne H1]]%lookup_insert_Some; simpl.
    + split; [|lia]. split_and!; simpl; auto. unfold chan_ok; simpl; lia.
    + destruct (Hc l c H1). split; [done|lia].
  - intros v l [[<- <-]|[Hne H1]]%lookup_insert_Some.
    + eexists. rewrite lookup_insert_eq. by split_and!.
    + destruct (Ht v l H1) as (c & Hl & ? & ?). exists c.
      destruct (Hc l c Hl). rewrite lookup_insert_ne by lia. done.
Qed.

Lemma close_store_inv n l c :
  node_inv n → conns n !! l = Some c → node_inv (store l (with_die true c) n).
Proof.
  intros Hn Hc. destruct (inv_conns n Hn l c Hc) as [Hok _].
  apply (with_ok_store n l c); try done. simpl. destruct (decide (pc c = Exited)); auto.
Qed.

Lemma onOpenTunnel_close_Ret l n n' :
  onOpenTunnel_close l n = Ret n' ↔ ∃ c, conns n !! l = Some c ∧ die c = false ∧ n' = store l (with_die true c) n.
Proof.
  clear Dial decodeIPv4 string6 parse6. unfold onOpenTunnel_close, close_default. split.
  - intros (c & Hc%deref_Ret & (c' & Hd & Ho)%outcome_bind_ret)%outcome_bind_ret. exists c.
    destruct (die c); by simplify_eq.
  - intros (c & Hc & Hd & ->). unfold deref. rewrite Hc; simpl. by rewrite Hd.
Qed.

Lemma onOpenTunnel_close_inv l n n' : node_inv n → onOpenTunnel_close l n = Ret n' → node_inv n'.
Proof. intros Hn (c & Hc & _ & ->)%onOpenTunnel_close_Ret. by apply close_store_inv. Qed.

(** Before the dial nothing happens but an acknowledgement. *)
Lemma onOpenTunnel_select_Ret o n n' r :
  onOpenTunnel_select o n = Ret (n', r) → openTunnelAck o n = Ret n' ∧ r = None ∨ n' = n ∧ is_Some r.
Proof.
  unfold onOpenTunnel_select. destruct (connections n !! _) as [l|]; [|intros [= <- <-]; eauto].
  intros (c & _ & Hs)%outcome_bind_ret. case_bool_decide; [inv_bind; simplify_eq; auto|simplify_eq; eauto].
Qed.

Lemma onOpenTunnel_select_inv o n n' r :
  node_inv n → onOpenTunnel_select o n = Ret (n', r) → node_inv n'.
Proof. intros Hn [[? _]|[-> _]]%onOpenTunnel_select_Ret; [by eapply openTunnelAck_inv|done]. Qed.

Lemma reopen_Ret now n n' :
  reopen now n = Ret n' ↔
  ∃ o, mjoin (protos n !! 2%nat) = Some (MOpenTunnel o) ∧ openConnection o now n = Ret n'.
Proof.
  unfold reopen. change (Z.to_nat PacketType.OpenTunnel) with 2%nat.
  destruct (mjoin _) as [[]|]; naive_solver.
Qed.

Lemma reopen_inv now n n' : node_inv n → reopen now n = Ret n' → node_inv n'.
Proof. intros Hn (o & _ & Ho)%reopen_Ret. by eapply openConnection_inv. Qed.

Lemma dispatch_inv pt now nonce n n' r :
  node_inv n → dispatch pt now nonce n = Ret (n', r) → node_inv n'.
Proof.
  intros Hn. unfold dispatch.
  repeat case_bool_decide; [| | |by intros [= <- _]]; repeat case_match; intros Hs; try done;
    [inv_bind; simplify_eq..|]; eauto using onPing_inv, onPong_inv, onOpenTunnel_select_inv.
Qed.

Lemma forward_inv v data now n n' :
  node_inv n → forward v data now n = Ret n' → node_inv n'.
Proof.
  intros Hn. unfold forward. destruct (connections n !! v) as [l|] eqn:Ev.
  - destruct (table_deref n v l Hn Ev) as (c & Hd & Hc & Hv & Hx & (? & ? & Hp & ?)).
    rewrite Hd; simpl. case_bool_decide.
    + intros [= <-]. apply (with_ok_store n l c); try done; [|by left].
      split_and!; try done. simpl. unfold chan_try_send.
      destruct (chan_full (pipeline c)) eqn:Ef; [done|]. by apply chan_push_ok, chan_full_false.
    + intros (d & _ & [= <-])%outcome_bind_ret. destruct Hn. by split.
  - case_match; intros [= <-]; [done|]. destruct Hn. by split.
Qed.

Lemma device_packet_inv data now n n' :
  node_inv n → device_packet data now n = Ret n' → node_inv n'.
Proof.
  intros Hn. unfold device_packet. destruct (decodeIPv4 data) as [ip|]; [|by intros [= <-]].
  case_match; [by intros [= <-]|]. case_bool_decide; [|by apply forward_inv].
  intros Hd. inv_bind. destruct Hn. split; try done. by apply chan_push_ok.
Qed.

Lemma device_write_Ret e n n' :
  device_write e n = Ret n' ↔ ∃ p q out, chan_recv (device n) = Some (p, q) ∧ dev_write e p = Ret out ∧
    n' = with_to_device (to_device n ++ option_list out) (with_device q n).
Proof.
  clear Dial decodeIPv4 string6 parse6. unfold device_write. destruct (chan_recv _) as [[p q]|]; [|naive_solver].
  rewrite outcome_bind_ret. naive_solver.
Qed.

Lemma device_write_inv e n n' : node_inv n → device_write e n = Ret n' → node_inv n'.
Proof.
  intros Hn (p & q & out & E & _ & ->)%device_write_Ret. destruct Hn. split; try done. by eapply chan_recv_ok.
Qed.

Lemma request_done_inv i n n' : node_inv n → request_done i n = Ret n' → node_inv n'.
Proof.
  intros Hn. unfold request_done. destruct (requests n !! i); [|done].
  intros [= <-]. destruct Hn. by split.
Qed.

Lemma heartbeat_inv n n' : node_inv n → heartbeat n = Ret n' → node_inv n'.
Proof.
  intros Hn. unfold heartbeat. intros (d & _ & [= <-])%outcome_bind_ret. destruct Hn. by split.
Qed.

(** A connection that returns from its loop takes its entry of the table with it. *)
Lemma handleClosed_store_inv n l c c' :
  node_inv n → conns n !! l = Some c → same_conn c c' → conn_ok (Address (opt n)) c' →
  node_inv (handleClosed c' (store l c' n)).
Proof.
  intros Hn Hl (Hs & Hp & _) Hok. destruct Hn as [Ha Hps Hc Ht Hd Hm]. split; simpl; try done.
  - intros l' c1 [[<- <-]|[Hne H1]]%lookup_insert_Some; [|by apply Hc].
    split; [done|]. by apply (Hc l c).
  - intros v l' [Hne Hv]%lookup_delete_Some. destruct (Ht v l' Hv) as (c1 & H1 & Hv1 & Hpc1).
    exists c1. rewrite lookup_insert_ne; [done|]. intros <-. congruence.
Qed.

Lemma conn_turn_inv l now nonce ev n n' :
  node_inv n → conn_turn l now nonce ev n = Ret n' → node_inv n'.
Proof.
  intros Hn. unfold conn_turn.
  intros (c & Hc%deref_Ret & (c' & Hs & [= <-])%outcome_bind_ret)%outcome_bind_ret.
  destruct (inv_conns n Hn l c Hc) as [(? & ? & ? & Hsp) _].
  pose proof (loop_step_fields _ _ _ _ _ Hs) as (F1 & F2 & F3 & F4 & F5 & F6 & F7 & F8 & F9 & F10).
  assert (conn_ok (Address (opt n)) c') by (split_and!; [congruence|by rewrite F3|by apply F9|done]).
  case_decide.
  - by apply (handleClosed_store_inv n l c).
  - apply (with_ok_store n l c); try done. by left.
Qed.

Lemma conn_start_inv l now n n' c :
  node_inv n → conns n !! l = Some c → pc c = Spawned → conn_start l now n = Ret n' → node_inv n'.
Proof.
  intros Hn Hc Hpc. unfold conn_start. intros (c1 & Hc1%deref_Ret & [= <-])%outcome_bind_ret.
  simplify_eq. destruct (inv_conns n Hn l _ Hc) as [(? & ? & ? & Hsp) _].
  apply (with_ok_store n l _ _ Hn Hc); unfold loop_start; rewrite (Hsp Hpc); simpl; try done.
  by left.
Qed.

Lemma exec_inv lbl w w' : node_inv (node w) → exec lbl w = Ret w' → node_inv (node w').
Proof.
  intros Hn. destruct lbl; simpl; unfold on_node; intros Hs.
  - destruct (_ !! t); [done|]. apply outcome_bind_ret in Hs as ([n d] & Hd & [= <-]).
    by apply (handle_decode_inv (cut data) (node w) n d).
  - case_decide; [|done]. apply outcome_bind_ret in Hs as ([n r] & Hd & [= <-]).
    by eapply dispatch_inv.
  - destruct (_ !! t) as [[|l|]|]; [done| |done..]. apply outcome_bind_ret in Hs as (n & Hd & [= <-]).
    by eapply onOpenTunnel_close_inv.
  - destruct (_ !! t) as [[|l|]|]; [done..| |done]. apply outcome_bind_ret in Hs as (n & Hd & [= <-]).
    by eapply reopen_inv.
  - apply outcome_bind_ret in Hs as (n & Hd & [= <-]). unfold device_read in Hd.
    apply outcome_bind_ret in Hd as (data & _ & Hd). by eapply device_packet_inv.
  - apply outcome_bind_ret in Hs as (n & Hd & [= <-]). by eapply device_write_inv.
  - apply outcome_bind_ret in Hs as (n & Hd & [= <-]). by eapply request_done_inv.
  - apply outcome_bind_ret in Hs as (n & Hd & [= <-]). by eapply heartbeat_inv.
  - destruct (_ !! l) as [c|] eqn:Ec; [|done]. case_decide; [|done].
    apply outcome_bind_ret in Hs as (n & Hd & [= <-]). by eapply conn_start_inv.
  - destruct (_ !! l) as [c|]; [|done]. case_match; [|done].
    apply outcome_bind_ret in Hs as (n & Hd & [= <-]). by eapply conn_turn_inv.
Qed.

Lemma world_init_inv o : valid_string (Address o) = true → node_inv (node (world_init o)).
Proof.
  intros Ho. split; simpl; try done.
  - by eexists _, _, _.
  - unfold chan_ok; simpl; lia.
Qed.

Lemma reachable_inv o w :
  valid_string (Address o) = true → rtc step (world_init o) w → node_inv (node w).
Proof.
  intros Ho. apply (rtc_invariant step (λ w, node_inv (node w))); [|by apply world_init_inv].
  intros w1 w2 Hw (lbl & _ & Hl). by eapply exec_inv.
Qed.

(** *** No handler panics *)

(** gopacket's IPv4 layer has four-byte addresses. *)
Definition decodes_IPv4 : Prop := ∀ data ip, decodeIPv4 data = Some ip → length ip = IPv4len.

Lemma IP_String_valid ip : length ip = IPv4len → valid_string (IP_String ip) = true.
Proof.
  destruct ip as [|a [|b [|c [|d [|? ?]]]]]; try done. intros _.
  rewrite IP_String_4. apply utf8_valid_ascii, dotted_ascii.
Qed.

Lemma openTunnelAck_total o n : valid_int64 (ot_AckId o) = true → ∃ d, openTunnelAck o n = Ret (gateway_write d n).
Proof.
  intros Ho. unfold openTunnelAck.
  destruct (Encode_valid PacketType.OpenTunnelAck (MOpenTunnelAck {| ota_AckId := ot_AckId o |}) Ho) as [d Hd].
  rewrite Hd. by exists d.
Qed.

Lemma openConnection_total o now n :
  valid_int64 (ot_AckId o) = true → ∃ n', openConnection o now n = Ret n'.
Proof.
  intros Ho. unfold openConnection. destruct (Dial _); [|eauto].
  edestruct (openTunnelAck_total o) as [d Hd]; [done|]. rewrite Hd. eauto.
Qed.

Lemma dispatch_no_panic pt now nonce n :
  node_inv n → valid_string nonce = true → is_panic (dispatch pt now nonce n) = false.
Proof.
  intros Hn Hnc. destruct (protos_at _ (inv_protos n Hn)) as ((o & Ho & Hao) & (pi & Hpi) & (po & Hpo)).
  unfold dispatch. repeat case_bool_decide; subst; try done.
  - change (Z.to_nat PacketType.Ping) with 4%nat. rewrite Hpi. unfold onPing.
    apply outcome_bind_no_panic; [|done].
    destruct (connections n !! _) as [l|] eqn:Ev; [|done].
    destruct (table_deref n _ l Hn Ev) as (c & Hd & _).
    apply outcome_bind_no_panic; [apply Encode_valid_no_panic; simpl; by rewrite (inv_address n Hn), Hnc|].
    intros data _. rewrite Hd; simpl. apply outcome_bind_no_panic; [apply chan_send_no_panic|done].
  - change (Z.to_nat PacketType.Pong) with 5%nat. rewrite Hpo. unfold onPong.
    destruct (connections n !! _) as [l|] eqn:Ev; [|done].
    destruct (table_deref n _ l Hn Ev) as (c & Hd & _). by rewrite Hd.
  - change (Z.to_nat PacketType.OpenTunnel) with 2%nat. rewrite Ho. unfold onOpenTunnel_select.
    destruct (connections n !! _) as [l|] eqn:Ev; [|done].
    destruct (table_deref n _ l Hn Ev) as (c & Hd & _). rewrite Hd; simpl.
    case_bool_decide; [|done]. edestruct (openTunnelAck_total o) as [d Hd']; [done|]. by rewrite Hd'.
Qed.

Lemma onOpenTunnel_close_panics l n c m :
  conns n !! l = Some c →
  onOpenTunnel_close l n = Panic m ↔ die c = true ∧ m = "close of closed channel"%string.
Proof.
  clear Dial decodeIPv4 string6 parse6. intros Hc. unfold onOpenTunnel_close, deref, close_default.
  rewrite Hc; simpl. destruct (die c); naive_solver.
Qed.

Lemma reopen_no_panic now n : node_inv n → is_panic (reopen now n) = false.
Proof.
  intros Hn. destruct (protos_at _ (inv_protos n Hn)) as ((o & Ho & Hao) & _).
  unfold reopen. change (Z.to_nat PacketType.OpenTunnel) with 2%nat. rewrite Ho.
  by edestruct (openConnection_total o) as [n' ->].
Qed.

Lemma handle_decode_no_panic data n : is_panic (handle_decode data n) = false.
Proof.
  unfold handle_decode. destruct data as [|t payload]; [done|]. case_bool_decide.
  - apply outcome_bind_no_panic; [apply chan_send_no_panic|done].
  - case_bool_decide; [done|]. destruct (mjoin _); [|done]. by destruct (unmarshal _ _).
Qed.

Lemma forward_no_panic v data now n :
  node_inv n → valid_string v = true → is_panic (forward v data now n) = false.
Proof.
  intros Hn Hv. unfold forward. destruct (connections n !! v) as [l|] eqn:Ev.
  - destruct (table_deref n v l Hn Ev) as (c & Hd & _). rewrite Hd; simpl.
    case_bool_decide; [done|]. apply outcome_bind_no_panic; [|done].
    by apply Encode_valid_no_panic.
  - by case_match.
Qed.

(** C7: The table of connections only holds live tunnels: in every reachable state an entry
    for a virtual address points to a connection to that very address, from the node's own
    address, that is connecting or established, whose goroutine has not returned and whose
    queue is within its capacity. *)
Theorem connection_table_sound o w v l :
  valid_string (Address o) = true → rtc step (world_init o) w →
  connections (node w) !! v = Some l →
  ∃ c, conns (node w) !! l = Some c ∧ peerVirtAddr c = v ∧
    selfVirtAddr c = Address (opt (node w)) ∧
    (state c = StateConnecting ∨ state c = StateEstablished) ∧
    (length (buf (pipeline c)) <= cap (pipeline c))%nat ∧ pc c ≠ Exited.
Proof.
  intros Ho Hr Hv. pose proof (reachable_inv o w Ho Hr) as Hn.
  destruct (table_deref _ v l Hn Hv) as (c & _ & Hc & Hp & Hx & (? & ? & ? & ?)). eauto 10.
Qed.

(** *** How connection objects evolve *)

(** Every object of [n] is still there in [n'], to the same peer and in the same state. *)
Definition evolves (n n' : Node) : Prop := ∀ l c, conns n !! l = Some c →
  ∃ c', conns n' !! l = Some c' ∧ same_conn c c' ∧ state c' = state c.

Lemma evolves_same n n' : conns n' = conns n → evolves n n'.
Proof. intros He l c Hc. exists c. by rewrite He. Qed.

Lemma evolves_trans n1 n2 n3 : evolves n1 n2 → evolves n2 n3 → evolves n1 n3.
Proof.
  intros H12 H23 l c Hc. destruct (H12 l c Hc) as (c2 & Hc2 & (? & ? & ?) & ?).
  destruct (H23 l c2 Hc2) as (c3 & Hc3 & (? & ? & ?) & ?).
  exists c3. unfold same_conn. split_and!; congruence.
Qed.

Lemma evolves_store n l c c' :
  conns n !! l = Some c → same_conn c c' → state c' = state c → evolves n (store l c' n).
Proof.
  intros Hl Hs Hst l' c1 Hc1. simpl. destruct (decide (l = l')) as [->|].
  - simplify_eq. exists c'. by rewrite lookup_insert_eq.
  - exists c1. by rewrite lookup_insert_ne.
Qed.

Lemma evolves_onPing pi nonce n n' : onPing pi nonce n = Ret n' → evolves n n'.
Proof.
  unfold onPing. destruct (connections n !! _) as [l|]; [|by intros [= <-]; apply evolves_same].
  intros (d & _ & (c & Hc%deref_Ret & Hs)%outcome_bind_ret)%outcome_bind_ret. inv_bind.
  by apply (evolves_store n l c).
Qed.

Lemma evolves_openConnection o now n n' :
  node_inv n → openConnection o now n = Ret n' → evolves n n'.
Proof.
  intros Hn. unfold openConnection. destruct (Dial _); [|by intros [= <-]; apply evolves_same].
  unfold openTunnelAck. intros (d & _ & [= <-])%outcome_bind_ret. intros l c Hc. exists c. simpl.
  destruct (inv_conns n Hn l c Hc). rewrite lookup_insert_ne by lia. done.
Qed.

Lemma evolves_openTunnelAck o n n' : openTunnelAck o n = Ret n' → evolves n n'.
Proof. unfold openTunnelAck. intros (? & _ & [= <-])%outcome_bind_ret. by apply evolves_same. Qed.

Lemma evolves_onOpenTunnel_select o n n' r : onOpenTunnel_select o n = Ret (n', r) → evolves n n'.
Proof.
  intros [[? _]|[-> _]]%onOpenTunnel_select_Ret; [by eapply evolves_openTunnelAck|by apply evolves_same].
Qed.

Lemma evolves_onOpenTunnel_close l n n' : onOpenTunnel_close l n = Ret n' → evolves n n'.
Proof. intros (c & Hc & _ & ->)%onOpenTunnel_close_Ret. by apply (evolves_store n l c). Qed.

Lemma evolves_reopen now n n' : node_inv n → reopen now n = Ret n' → evolves n n'.
Proof. intros Hn (o & _ & Ho)%reopen_Ret. by eapply evolves_openConnection. Qed.

Lemma evolves_forward v data now n n' : forward v data now n = Ret n' → evolves n n'.
Proof.
  unfold forward. destruct (connections n !! v) as [l|].
  - intros (c & Hc%deref_Ret & Hs)%outcome_bind_ret. case_bool_decide.
    + simplify_eq. by apply (evolves_store n l c).
    + apply outcome_bind_ret in Hs as (? & _ & [= <-]). by apply evolves_same.
  - case_match; intros [= <-]; by apply evolves_same.
Qed.

Lemma evolves_conn_turn l now nonce ev n n' : conn_turn l now nonce ev n = Ret n' → evolves n n'.
Proof.
  unfold conn_turn.
  intros (c & Hc%deref_Ret & (c' & Hs & [= <-])%outcome_bind_ret)%outcome_bind_ret.
  pose proof (loop_step_fields _ _ _ _ _ Hs) as (F1 & F2 & F3 & F4 & _).
  apply (evolves_trans _ (store l c' n)); [by apply (evolves_store n l c)|].
  apply evolves_same. by case_decide.
Qed.

Lemma evolves_conn_start l now n n' : conn_start l now n = Ret n' → evolves n n'.
Proof.
  unfold conn_start. intros (c & Hc%deref_Ret & [= <-])%outcome_bind_ret.
  apply (evolves_store n l c); unfold loop_start; by destruct (once c).
Qed.

(** The one step that does not keep the states: a Pong that is dispatched. *)
Definition pong_for (lbl : label) (w : world) (l : loc) (c : connection) : Prop :=
  ∃ t now nonce po, lbl = LDispatch t PacketType.Pong now nonce ∧
    mjoin (protos (node w) !! 5%nat) = Some (MPong po) ∧
    pong_VirtAddress po = peerVirtAddr c ∧ connections (node w) !! peerVirtAddr c = Some l.

Lemma dispatch_evolves pt now nonce n n' r :
  node_inv n → pt ≠ PacketType.Pong → dispatch pt now nonce n = Ret (n', r) → evolves n n'.
Proof.
  intros Hn Hpt. unfold dispatch. rewrite (bool_decide_eq_false_2 (pt = PacketType.Pong)) by done.
  repeat case_bool_decide; [| |by intros [= <- _]; apply evolves_same];
    repeat case_match; intros Hs; try done; [inv_bind; simplify_eq|]; eauto using evolves_onPing, evolves_onOpenTunnel_select.
Qed.

Lemma pong_dispatch_evolves now nonce n n' r l c :
  node_inv n → dispatch PacketType.Pong now nonce n = Ret (n', r) → conns n !! l = Some c →
  ∃ c' po, conns n' !! l = Some c' ∧ same_conn c c' ∧
    mjoin (protos n !! 5%nat) = Some (MPong po) ∧
    if decide (connections n !! pong_VirtAddress po = Some l)
    then state c' = StateEstablished ∧ peerVirtAddr c = pong_VirtAddress po else c' = c.
Proof.
  intros Hn Hs Hc. destruct (protos_at _ (inv_protos n Hn)) as (_ & _ & (po & Hpo)).
  unfold dispatch in Hs. rewrite bool_decide_eq_false_2, bool_decide_eq_true_2 in Hs by done.
  change (Z.to_nat PacketType.Pong) with 5%nat in Hs. rewrite Hpo in Hs.
  apply outcome_bind_ret in Hs as (n1 & Hs & [= <- <-]).
  unfold onPong in Hs. destruct (connections n !! _) as [l'|] eqn:Ev.
  - destruct (table_deref n _ l' Hn Ev) as (c1 & Hd & Hc1 & Hp1 & _).
    rewrite Hd in Hs; simpl in Hs. injection Hs as <-. simpl.
    destruct (decide (l' = l)) as [->|Hne].
    + simplify_eq. eexists _, po. rewrite lookup_insert_eq. split; [done|].
      rewrite decide_True by done. split; [by case_bool_decide|].
      split_and!; [done| |done]. by case_bool_decide.
    + exists c, po. rewrite lookup_insert_ne by done. rewrite decide_False; [done|]. congruence.
  - simplify_eq. exists c, po. split_and!; try done. by rewrite Ev.
Qed.

Lemma exec_evolves lbl w w' :
  node_inv (node w) → exec lbl w = Ret w' →
  (∀ t now nonce, lbl ≠ LDispatch t PacketType.Pong now nonce) → evolves (node w) (node w').
Proof.
  intros Hn Hs Hnp. destruct lbl; simpl in Hs; unfold on_node in Hs.
  - destruct (_ !! t); [done|]. apply outcome_bind_ret in Hs as ([n d] & Hd & [= <-]).
    apply evolves_same. by destruct (handle_decode_inv _ (node w) n d Hn Hd) as (_ & _ & ? & _).
  - case_decide; [|done]. apply outcome_bind_ret in Hs as ([n r] & Hd & [= <-]).
    apply (dispatch_evolves packetType now nonce _ _ r); [done| |done]. intros ->. by eapply Hnp.
  - destruct (_ !! t) as [[|l|]|]; [done| |done..]. apply outcome_bind_ret in Hs as (n & Hd & [= <-]).
    by eapply evolves_onOpenTunnel_close.
  - destruct (_ !! t) as [[|l|]|]; [done..| |done]. apply outcome_bind_ret in Hs as (n & Hd & [= <-]).
    by eapply evolves_reopen.
  - apply outcome_bind_ret in Hs as (n & Hd & [= <-]). unfold device_read in Hd.
    apply outcome_bind_ret in Hd as (data & _ & Hd). unfold device_packet in Hd.
    destruct (decodeIPv4 data) as [ip|]; [|simplify_eq; by apply evolves_same].
    case_match; [simplify_eq; by apply evolves_same|]. case_bool_decide; [|by eapply evolves_forward].
    inv_bind. by apply evolves_same.
  - apply outcome_bind_ret in Hs as (n & (? & ? & ? & _ & _ & ->)%device_write_Ret & [= <-]). by apply evolves_same.
  - apply outcome_bind_ret in Hs as (n & Hd & [= <-]). unfold request_done in Hd.
    destruct (requests _ !! i); simplify_eq. by apply evolves_same.
  - apply outcome_bind_ret in Hs as (n & Hd & [= <-]). unfold heartbeat in Hd. inv_bind.
    by apply evolves_same.
  - destruct (_ !! l); [|done]. case_decide; [|done].
    apply outcome_bind_ret in Hs as (n & Hd & [= <-]). by eapply evolves_conn_start.
  - destruct (_ !! l); [|done]. case_match; [|done].
    apply outcome_bind_ret in Hs as (n & Hd & [= <-]). by eapply evolves_conn_turn.
Qed.

Lemma pong_label lbl :
  (∀ t now nonce, lbl ≠ LDispatch t PacketType.Pong now nonce) ∨
  ∃ t now nonce, lbl = LDispatch t PacketType.Pong now nonce.
Proof.
  destruct lbl as [|t pt now nonce| | | | | | | |]; try (by left).
  destruct (decide (pt = PacketType.Pong)) as [->|]; [right; eauto|left; congruence].
Qed.

(** No step takes a connection object away. *)
Lemma exec_keeps lbl w w' l :
  node_inv (node w) → exec lbl w = Ret w' → is_Some (conns (node w) !! l) → is_Some (conns (node w') !! l).
Proof.
  intros Hn Hs [c Hc]. destruct (pong_label lbl) as [Hnp|(t & now & nonce & ->)].
  - destruct (exec_evolves lbl w w' Hn Hs Hnp l c Hc) as (c' & Hc' & _). eauto.
  - simpl in Hs. case_decide; [|done]. apply outcome_bind_ret in Hs as ([n r] & Hd & [= <-]).
    destruct (pong_dispatch_evolves _ _ _ _ _ _ _ Hn Hd Hc) as (c' & _ & Hc' & _). eauto.
Qed.

(** *** Which steps panic *)

(** A goroutine that is about to close a connection's channel has the connection. *)
Record world_inv (w : world) : Prop := {
  wi_node : node_inv (node w);
  wi_closing t l : dispatching w !! t = Some (AtClose l) → is_Some (conns (node w) !! l);
}.

Lemma set_handling_Some t h m t' h' :
  set_handling t h m !! t' = Some h' → (t = t' ∧ h = Some h') ∨ m !! t' = Some h'.
Proof.
  destruct h; simpl; [intros [[-> ->]|[_ ?]]%lookup_insert_Some|intros [_ ?]%lookup_delete_Some]; auto.
Qed.

Lemma dispatch_closing pt now nonce n n' l :
  node_inv n → dispatch pt now nonce n = Ret (n', Some (AtClose l)) → n' = n ∧ is_Some (conns n !! l).
Proof.
  intros Hn. unfold dispatch. repeat case_bool_decide; [| | |done]; repeat case_match; intros Hs; try done;
    [inv_bind; by simplify_eq..|]. unfold onOpenTunnel_select in Hs.
  destruct (connections n !! _) as [l'|] eqn:Ev; [|done].
  destruct (table_deref n _ l' Hn Ev) as (c & Hd & Hc & _). rewrite Hd in Hs; simpl in Hs.
  case_bool_decide; [by inv_bind|]. destruct (close_select c); [|done]. simplify_eq. eauto.
Qed.

Lemma exec_world_inv lbl w w' : world_inv w → exec lbl w = Ret w' → world_inv w'.
Proof.
  intros [Hn Hcl] Hs. split; [by eapply exec_inv|]. intros t l Ht.
  assert (dispatching w !! t = Some (AtClose l) → is_Some (conns (node w') !! l)) as Hold.
  { intros Ho. by eapply exec_keeps, Hcl. }
  destruct lbl; simpl in Hs; unfold on_node in Hs.
  - destruct (_ !! t0); [done|]. apply outcome_bind_ret in Hs as ([n d] & Hd & [= <-]). simpl in *.
    apply set_handling_Some in Ht as [[_ Ht]|Ht]; [by destruct d|auto].
  - case_decide; [|done]. apply outcome_bind_ret in Hs as ([n r] & Hd & [= <-]). simpl in *.
    apply set_handling_Some in Ht as [[_ Ht]|Ht]; [|auto]. subst r.
    by apply dispatch_closing in Hd as [-> ?].
  - destruct (_ !! t0) as [[|l'|]|]; [done| |done..]. apply outcome_bind_ret in Hs as (n & Hd & [= <-]). simpl in *.
    apply lookup_insert_Some in Ht as [[_ ?]|[_ Ht]]; [done|auto].
  - destruct (_ !! t0) as [[|l'|]|]; [done..| |done]. apply outcome_bind_ret in Hs as (n & Hd & [= <-]). simpl in *.
    apply lookup_delete_Some in Ht as [_ Ht]. auto.
  - apply outcome_bind_ret in Hs as (n & Hd & [= <-]). auto.
  - apply outcome_bind_ret in Hs as (n & Hd & [= <-]). auto.
  - apply outcome_bind_ret in Hs as (n & Hd & [= <-]). auto.
  - apply outcome_bind_ret in Hs as (n & Hd & [= <-]). auto.
  - destruct (_ !! l0); [|done]. case_decide; [|done]. apply outcome_bind_ret in Hs as (n & Hd & [= <-]). auto.
  - destruct (_ !! l0); [|done]. case_match; [|done]. apply outcome_bind_ret in Hs as (n & Hd & [= <-]). auto.
Qed.

Lemma reachable_world_inv o w :
  valid_string (Address o) = true → rtc step (world_init o) w → world_inv w.
Proof.
  intros Ho. apply (rtc_invariant step world_inv); [|by split; [apply world_init_inv|]].
  intros w1 w2 Hw (lbl & _ & Hl). by eapply exec_world_inv.
Qed.

(** The steps that panic: [close(c.die)] when another goroutine closed the channel after this
    one's [select], in [onOpenTunnel] or after a keepalive timeout; the slice of a read whose
    count is above the buffer's length; and a [Write] of the device that panics on the oldest
    packet of the queue. *)
Inductive crash (w : world) : label → string → Prop :=
| crash_reconnect t l c :
    dispatching w !! t = Some (AtClose l) → conns (node w) !! l = Some c → die c = true →
    crash w (LClose t) "close of closed channel"
| crash_keepalive l now nonce c connecting ticker :
    conns (node w) !! l = Some c → pc c = Closing connecting ticker → die c = true →
    crash w (LConnTurn l now nonce EvClose) "close of closed channel"
| crash_read p now :
    (MaxBufferSize < dev_count p)%nat → crash w (LDevRead p now) "slice bounds out of range"
| crash_write e p q m :
    chan_recv (device (node w)) = Some (p, q) → dev_write e p = Panic m → crash w (LDevWrite e) m.

Lemma device_packet_no_panic data now n :
  decodes_IPv4 → node_inv n → is_panic (device_packet data now n) = false.
Proof.
  intros Hdec Hn. unfold device_packet. destruct (decodeIPv4 data) as [ip|] eqn:Ed; [|done].
  case_match; [done|]. case_bool_decide; [apply outcome_bind_no_panic; [apply chan_send_no_panic|done]|].
  apply forward_no_panic; [done|]. by eapply IP_String_valid, Hdec.
Qed.

Lemma device_read_panics p now n m :
  decodes_IPv4 → node_inv n →
  device_read p now n = Panic m ↔ (MaxBufferSize < dev_count p)%nat ∧ m = "slice bounds out of range"%string.
Proof.
  intros Hdec Hn. unfold device_read, dev_read. rewrite outcome_bind_panic. case_bool_decide.
  - split; [|lia]. intros [?|(data & _ & Hp)]; [done|]. exfalso. revert Hp.
    by apply no_panic, device_packet_no_panic.
  - split; [intros [[= ->]|(? & ? & ?)]; [split; [lia|done]|done]|]. intros [_ ->]. by left.
Qed.

Lemma conn_turn_panics l now nonce ev n c m :
  node_inv n → conns n !! l = Some c → valid_string nonce = true →
  conn_turn l now nonce ev n = Panic m ↔
  ev = EvClose ∧ (∃ connecting ticker, pc c = Closing connecting ticker) ∧ die c = true ∧
  m = "close of closed channel"%string.
Proof.
  intros Hn Hc Hnc. unfold conn_turn, deref. rewrite Hc; simpl.
  destruct (inv_conns n Hn l c Hc) as [(Hs & _) _].
  rewrite outcome_bind_panic. rewrite (loop_step_panics now nonce ev c m); [|by rewrite Hs; apply inv_address|done].
  split; [|by left]. by intros [?|(? & ? & ?)].
Qed.

Lemma on_node_panics f w m : on_node f w = Panic m ↔ f (node w) = Panic m.
Proof. unfold on_node. rewrite outcome_bind_panic. naive_solver. Qed.

Lemma device_write_panics e n m :
  device_write e n = Panic m ↔ ∃ p q, chan_recv (device n) = Some (p, q) ∧ dev_write e p = Panic m.
Proof.
  clear Dial decodeIPv4 string6 parse6. unfold device_write. destruct (chan_recv _) as [[p q]|]; [|naive_solver].
  rewrite outcome_bind_panic. naive_solver.
Qed.

Lemma exec_panics lbl w m :
  decodes_IPv4 → world_inv w → label_ok lbl = true → exec lbl w = Panic m ↔ crash w lbl m.
Proof.
  intros Hdec [Hn Hcl] Hl. destruct lbl; simpl in *.
  - split; [|by inversion 1]. destruct (_ !! t); [done|].
    intros [Hp|([? ?] & _ & ?)]%outcome_bind_panic; [|done]. exfalso. revert Hp. by apply no_panic, handle_decode_no_panic.
  - split; [|by inversion 1]. case_decide; [|done].
    intros [Hp|([? ?] & _ & ?)]%outcome_bind_panic; [|done]. exfalso. revert Hp. by apply no_panic, dispatch_no_panic.
  - destruct (_ !! t) as [[|l|]|] eqn:Et; [split; [done|inversion 1; congruence]| |split; [done|inversion 1; congruence]..].
    destruct (Hcl t l Et) as [c Hc]. rewrite outcome_bind_panic, (onOpenTunnel_close_panics l _ c m Hc). split.
    + intros [[Hd ->]|(? & _ & ?)]; [by eapply crash_reconnect|done].
    + inversion 1. left. by simplify_eq.
  - split; [|by inversion 1]. destruct (_ !! t) as [[|l|]|]; [done..| |done].
    intros [Hp|(? & _ & ?)]%outcome_bind_panic; [|done]. exfalso. revert Hp. by apply no_panic, reopen_no_panic.
  - rewrite on_node_panics, device_read_panics by done. split; [intros [? ->]; by constructor|by inversion 1].
  - rewrite on_node_panics, device_write_panics. split.
    + intros (? & ? & ? & ?). by eapply crash_write.
    + inversion 1. eauto.
  - rewrite on_node_panics. split; [|by inversion 1]. unfold request_done. by destruct (requests _ !! i).
  - rewrite on_node_panics. split; [|by inversion 1]. intros Hp. exfalso. revert Hp. apply no_panic.
    apply outcome_bind_no_panic; [|done]. apply Encode_valid_no_panic. by apply inv_address.
  - split; [|by inversion 1]. destruct (_ !! l) as [c|] eqn:Ec; [|done]. case_decide; [|done].
    rewrite on_node_panics. unfold conn_start, deref. by rewrite Ec.
  - destruct (_ !! l) as [c|] eqn:Ec; [|split; [done|inversion 1; congruence]]. split.
    + case_match; [|done]. rewrite on_node_panics, (conn_turn_panics l now nonce ev _ c m) by done.
      intros (-> & (cg & tk & Hpc) & Hd & ->). by eapply crash_keepalive.
    + inversion 1; simplify_eq. unfold ready. rewrite H8. rewrite on_node_panics, conn_turn_panics by done. eauto 10.
Qed.


(** C8: The life of a connection: no step of any goroutine changes whom a connection
    object connects or sends to, an established connection never goes back to connecting,
    and the only step that establishes one is the dispatch of a Pong that names its peer
    while the table still points to this object. *)
Theorem established_only_by_pong o w w' lbl l c :
  valid_string (Address o) = true → rtc step (world_init o) w →
  exec lbl w = Ret w' → conns (node w) !! l = Some c →
  ∃ c', conns (node w') !! l = Some c' ∧ same_conn c c' ∧
    (state c = StateEstablished → state c' = StateEstablished) ∧
    (state c ≠ StateEstablished → state c' = StateEstablished → pong_for lbl w l c).
Proof.
  intros Ho Hr Hs Hc. pose proof (reachable_inv o w Ho Hr) as Hn.
  assert ((∀ t now nonce, lbl ≠ LDispatch t PacketType.Pong now nonce) ∨
    ∃ t now nonce, lbl = LDispatch t PacketType.Pong now nonce) as [Hnp|(t & now & nonce & ->)].
  { apply pong_label. }
  - destruct (exec_evolves lbl w w' Hn Hs Hnp l c Hc) as (c' & Hc' & Hsame & Hst).
    exists c'. rewrite Hst. by split_and!.
  - simpl in Hs. case_decide; [|done]. apply outcome_bind_ret in Hs as ([n r] & Hd & [= <-]).
    destruct (pong_dispatch_evolves now nonce _ n r l c Hn Hd Hc) as (c' & po & Hc' & Hsame & Hpo & Hcase).
    exists c'. case_decide as Ht; [|by subst; split_and!].
    destruct Hcase as [He Hv]. split_and!; [done..|]. intros _ _.
    exists t, now, nonce, po. rewrite <- Hv in Ht. by split_and!.
Qed.

(** *** What each handler does *)

(** The datagram of type [typ] that carries [m]. *)
Definition carries (typ : Z) (m : message) (d : bytes) : Prop :=
  ∃ b, d = to_byte typ :: b ∧ unmarshal (kind_of m) b = (true, m).

Definition acks (o : CtrlOpenTunnel) (d : bytes) : Prop :=
  carries PacketType.OpenTunnelAck (MOpenTunnelAck {| ota_AckId := ot_AckId o |}) d ∧ cut d = d.

(** What [Encode] built of a message that is not too long is not cut. *)
Lemma Encode_carries typ m d :
  Encode typ m = Ret d → (wire_size m < MaxBufferSize)%nat → carries typ m d ∧ cut d = d.
Proof.
  intros Hd Hm. split; [by apply Encode_decode|]. apply cut_short.
  assert (Z.of_nat MaxBufferSize = 4096) as HM by done.
  pose proof (Encode_length typ m d Hd ltac:(lia)). lia.
Qed.

Lemma openTunnelAck_acks o n :
  valid_int64 (ot_AckId o) = true → ∃ d, openTunnelAck o n = Ret (gateway_write d n) ∧ acks o d.
Proof.
  intros Ho. unfold openTunnelAck.
  destruct (Encode_valid PacketType.OpenTunnelAck (MOpenTunnelAck {| ota_AckId := ot_AckId o |}) Ho) as [d Hd].
  rewrite Hd. exists d. split; [done|]. apply (Encode_carries _ _ _ Hd). by apply Nat.ltb_lt.
Qed.

(** C23: [forward] on every branch.  A packet for a peer with an established connection is
    queued on that connection, behind the type byte, unless its queue is full; one for a
    peer whose connection is not ready is relayed through the gateway in a datagram that
    decodes to the peer's address and exactly these bytes; one for an unknown peer is
    dropped, and a request for a tunnel starts unless one started within the last second. *)
Theorem forward_correct v data now n :
  node_inv n → valid_string v = true →
  ∃ n', forward v data now n = Ret n' ∧
    match connections n !! v with
    | Some l =>
        ∃ c, conns n !! l = Some c ∧
        if bool_decide (state c = StateEstablished) then
          n' = store l (with_pipeline (Chan (cap (pipeline c))
                 (if bool_decide (length (buf (pipeline c)) < cap (pipeline c))%nat
                  then buf (pipeline c) ++ [to_byte PacketType.Data :: data]
                  else buf (pipeline c))) c) n
        else ∃ d, n' = gateway_write d n ∧
          carries PacketType.Relay (MRelay {| rl_VirtAddress := v; rl_Data := data |}) d
    | None =>
        if match pending n !! v with Some t => bool_decide (now < t + Second) | None => false end
        then n' = n
        else n' = with_requests (requests n ++ [v]) (with_pending (<[v := now]> (pending n)) n)
    end.
Proof.
  intros Hn Hv. unfold forward. destruct (connections n !! v) as [l|] eqn:Ev.
  - destruct (table_deref n v l Hn Ev) as (c & Hd & Hc & _). rewrite Hd; simpl.
    case_bool_decide as Hst.
    + eexists. split; [done|]. exists c. rewrite bool_decide_eq_true_2 by done. split; [done|].
      do 2 f_equal. unfold chan_try_send, EncodeRaw. destruct (chan_full (pipeline c)) eqn:Ef.
      * apply bool_decide_eq_true in Ef. rewrite bool_decide_eq_false_2 by lia. by destruct (pipeline c).
      * apply chan_full_false in Ef. by rewrite bool_decide_eq_true_2.
    + destruct (Encode_valid PacketType.Relay (MRelay {| rl_VirtAddress := v; rl_Data := data |}) Hv)
        as [d Hd']. rewrite Hd'; simpl. eexists. split; [done|]. exists c. split; [done|].
      rewrite bool_decide_eq_false_2 by done. exists d. split; [done|]. by apply Encode_decode.
  - replace (match pending n !! v with Some t => bool_decide (t + Second > now) | None => false end)
      with (match pending n !! v with Some t => bool_decide (now < t + Second) | None => false end).
    { case_match; eexists; by split. }
    destruct (pending n !! v); [|done]. apply bool_decide_ext. lia.
Qed.

(** What happens to a packet of the virtual device is decided by the numbers of its
    destination, although the code compares masked addresses and printed strings: with the
    node at [a.b.c.d], a packet for [a'.b'.c'.d'] is dropped unless [a' = a] and [b' = b],
    comes back to the device when all four agree, and is forwarded to that address
    otherwise. *)
Theorem device_read_classifies n a b c d a' b' c' d' p data now :
  node_inv n → Address (opt n) = dotted a b c d →
  dev_read p = Ret data → decodeIPv4 data = Some [a'; b'; c'; d'] →
  device_read p now n =
    if bool_decide ([a'; b'] = [a; b]) then
      if bool_decide ([c'; d'] = [c; d])
      then dev ← chan_send data (device n); Ret (with_device dev n)
      else forward (dotted a' b' c' d') data now n
    else Ret n.
Proof.
  intros Hn Ha Hr Hd. unfold device_read. rewrite Hr; simpl. unfold device_packet. rewrite Hd, (inv_mask n Hn), Ha, ParseIP_dotted.
  unfold subnetMask. rewrite Mask16_IPv4, Mask16_4, Equal_same_length, IP_String_4 by done.
  rewrite (bool_decide_ext _ ([a'; b'] = [a; b])) by naive_solver.
  case_bool_decide as He; [|done]. injection He as -> ->. simpl.
  rewrite (bool_decide_ext _ ([c'; d'] = [c; d])); [done|].
  split; [by intros [= -> ->]%dotted_inj|by intros [= -> ->]].
Qed.

Lemma store_same n l c : conns n !! l = Some c → store l c n = n.
Proof. intros Hc. unfold store, with_conns. rewrite insert_id by done. by destruct n. Qed.

(** The steps of [onOpenTunnel] one after the other. *)
Lemma onOpenTunnel_uninterrupted o now n :
  node_inv n →
  onOpenTunnel o now n =
  match l ← connections n !! ot_VirtAddress o; c ← conns n !! l; Some (l, c) with
  | Some (l, c) =>
      if bool_decide (peer c = ot_UdpAddress o) then openTunnelAck o n
      else openConnection o now (store l (with_die true c) n)
  | None => openConnection o now n
  end.
Proof.
  intros Hn. unfold onOpenTunnel, onOpenTunnel_select.
  destruct (connections n !! _) as [l|] eqn:Ev; simpl; [|done].
  destruct (table_deref n _ l Hn Ev) as (c & Hd & Hc & _). rewrite Hd, Hc; simpl.
  case_bool_decide; [by destruct (openTunnelAck o n)|]. unfold close_select. destruct (die c) eqn:Ed; simpl.
  - by rewrite with_die_id, (store_same n l c Hc).
  - unfold onOpenTunnel_close, close_default. rewrite Hd; simpl. by rewrite Ed.
Qed.

(** C24: [onOpenTunnel] on every branch.  If the peer is already connected at the announced
    UDP address, only the acknowledgement is sent.  Otherwise an existing connection to the
    peer is closed; if the announced address cannot be dialled nothing is acknowledged (the
    gateway will retry) and the table is left as it is; if it can, the table points to a
    fresh connection to the peer, connecting, and the acknowledgement goes out. *)
Theorem onOpenTunnel_correct o now n :
  node_inv n → valid_int64 (ot_AckId o) = true →
  ∃ n', onOpenTunnel o now n = Ret n' ∧
    let old := l ← connections n !! ot_VirtAddress o; c ← conns n !! l; Some (l, c) in
    match old with
    | Some (_, c) => peer c = ot_UdpAddress o
    | None => False
    end ∧ (∃ d, n' = gateway_write d n ∧ acks o d) ∨
    match old with
    | Some (_, c) => peer c ≠ ot_UdpAddress o
    | None => True
    end ∧
    let n0 := match old with Some (l, c) => store l (with_die true c) n | None => n end in
    match Dial (ot_UdpAddress o) with
    | None => n' = n0
    | Some remote =>
        connections n' = <[ot_VirtAddress o := next_conn n]> (connections n) ∧
        conns n' = <[next_conn n := new_connection (Address (opt n)) (ot_VirtAddress o) remote now]> (conns n0) ∧
        conns n !! next_conn n = None ∧
        (∃ d, to_gateway n' = to_gateway n ++ [d] ∧ acks o d) ∧ pending n' = pending n
    end.
Proof.
  intros Hn Ho. rewrite (onOpenTunnel_uninterrupted o now n Hn).
  assert (conns n !! next_conn n = None) as Hfresh.
  { destruct (conns n !! next_conn n) as [c|] eqn:E; [|done]. apply (inv_conns n Hn) in E. lia. }
  destruct (connections n !! _) as [l|] eqn:Ev; simpl.
  - destruct (table_deref n _ l Hn Ev) as (c & Hd & Hc & _). rewrite Hc; simpl.
    case_bool_decide as Hp.
    + destruct (openTunnelAck_acks o n Ho) as (d & -> & Hack). eexists. split; [done|]. left. eauto.
    + unfold openConnection. destruct (Dial _) as [remote|]; [|eexists; split; [done|by right]].
      edestruct (openTunnelAck_acks o) as (d & -> & Hack); [done|].
      eexists. split; [done|]. right. simpl. split_and!; eauto.
  - unfold openConnection. destruct (Dial _) as [remote|]; [|eexists; split; [done|by right]].
    edestruct (openTunnelAck_acks o) as (d & -> & Hack); [done|].
    eexists. split; [done|]. right. simpl. split_and!; eauto.
Qed.

Definition at_protos (k : nat) (m : message) (n : Node) : Node :=
  with_protos (<[k := Some m]> (protos n)) n.

(** Decoding a well-formed datagram, and the dispatch that follows. *)
Lemma handle_decode_control n k m m' d :
  protos_ok (protos n) → mjoin (protos n !! k) = Some m' → kind_of m' = kind_of m →
  carries (Z.of_nat k) m d →
  handle_decode d n = Ret (at_protos k m n, Dispatch (Z.of_nat k)).
Proof.
  intros Hps Hk Hm (b & -> & Hb). unfold handle_decode.
  assert (k < 6)%nat by (destruct (protos_lookup _ _ _ Hps Hk) as [[-> _]|[[-> _]|[-> _]]]; lia).
  rewrite byte_val_to_byte, Z.mod_small by lia.
  rewrite bool_decide_eq_false_2 by (unfold PacketType.Data; lia).
  assert (length (protos n) = 6%nat) as Hlen by (by destruct Hps as (? & ? & ? & -> & _)).
  rewrite Hlen, bool_decide_eq_false_2 by lia. rewrite Nat2Z.id, Hk, Hm, Hb. done.
Qed.

Lemma at_protos_lookup n k m :
  protos_ok (protos n) → (k < 6)%nat → mjoin (protos (at_protos k m n) !! k) = Some m.
Proof.
  intros (? & ? & ? & Hps & _) Hk. simpl. rewrite list_lookup_insert_eq; [done|].
  rewrite Hps. simpl. lia.
Qed.

Lemma at_protos_inv n k m m' :
  node_inv n → mjoin (protos n !! k) = Some m' → kind_of m = kind_of m' → well_typed m = true →
  node_inv (at_protos k m n).
Proof. intros [] Hk Hm Hw. split; try done. simpl. by eapply protos_insert. Qed.

Lemma onOpenTunnel_select_protos o n n' r : onOpenTunnel_select o n = Ret (n', r) → protos n' = protos n.
Proof.
  intros [[Hs _]|[-> _]]%onOpenTunnel_select_Ret; [|done]. unfold openTunnelAck in Hs. by inv_bind.
Qed.

Lemma onOpenTunnel_close_protos l n n' : onOpenTunnel_close l n = Ret n' → protos n' = protos n.
Proof. by intros (c & _ & _ & ->)%onOpenTunnel_close_Ret. Qed.

Lemma handlePacket_Ping n now nonce d m :
  node_inv n → carries PacketType.Ping (MPing m) d →
  handlePacket d now nonce n = onPing m nonce (at_protos 4 (MPing m) n) ∧
  node_inv (at_protos 4 (MPing m) n).
Proof.
  intros Hn Hc. pose proof (inv_protos n Hn) as Hps.
  destruct (protos_at _ Hps) as (_ & (pi & Hpi) & _). split; [|by apply (at_protos_inv n 4 _ (MPing pi))].
  unfold handlePacket. rewrite (handle_decode_control n 4 (MPing m) (MPing pi)) by done; simpl.
  unfold handle_dispatch, dispatch. rewrite bool_decide_eq_true_2 by done.
  change (Z.to_nat 4) with 4%nat. rewrite at_protos_lookup by (done || lia).
  by destruct (onPing m nonce _).
Qed.

Lemma handlePacket_Pong n now nonce d m :
  node_inv n → carries PacketType.Pong (MPong m) d →
  handlePacket d now nonce n = onPong m now (at_protos 5 (MPong m) n) ∧
  node_inv (at_protos 5 (MPong m) n).
Proof.
  intros Hn Hc. pose proof (inv_protos n Hn) as Hps.
  destruct (protos_at _ Hps) as (_ & _ & (po & Hpo)). split; [|by apply (at_protos_inv n 5 _ (MPong po))].
  unfold handlePacket. rewrite (handle_decode_control n 5 (MPong m) (MPong po)) by done; simpl.
  unfold handle_dispatch, dispatch. rewrite bool_decide_eq_false_2, bool_decide_eq_true_2 by done.
  change (Z.to_nat 5) with 5%nat. rewrite at_protos_lookup by (done || lia).
  by destruct (onPong m now _).
Qed.

Lemma handlePacket_OpenTunnel n now nonce d m :
  node_inv n → carries PacketType.OpenTunnel (MOpenTunnel m) d →
  handlePacket d now nonce n = onOpenTunnel m now (at_protos 2 (MOpenTunnel m) n) ∧
  (valid_int64 (ot_AckId m) = true → node_inv (at_protos 2 (MOpenTunnel m) n)).
Proof.
  intros Hn Hc. pose proof (inv_protos n Hn) as Hps.
  destruct (protos_at _ Hps) as ((o & Ho & _) & _ & _).
  split; [|intros; by apply (at_protos_inv n 2 _ (MOpenTunnel o))].
  unfold handlePacket. rewrite (handle_decode_control n 2 (MOpenTunnel m) (MOpenTunnel o)) by done; simpl.
  unfold handle_dispatch, dispatch. do 2 rewrite bool_decide_eq_false_2 by done.
  rewrite bool_decide_eq_true_2 by done.
  change (Z.to_nat 2) with 2%nat. rewrite at_protos_lookup by (done || lia). unfold onOpenTunnel.
  assert (∀ n1, protos n1 = protos (at_protos 2 (MOpenTunnel m) n) → reopen now n1 = openConnection m now n1) as Hre.
  { intros n1 E. unfold reopen. rewrite E. change (Z.to_nat PacketType.OpenTunnel) with 2%nat.
    by rewrite at_protos_lookup by (done || lia). }
  destruct (onOpenTunnel_select m _) as [[n1 [[|l|]|]]| |] eqn:Es; try done; simpl;
    apply onOpenTunnel_select_protos in Es; try (by apply Hre).
  destruct (onOpenTunnel_close l n1) as [n2| |] eqn:Ec; try done. simpl. apply Hre.
  by rewrite (onOpenTunnel_close_protos _ _ _ Ec).
Qed.

(** [handlePacket] hands each datagram to the right handler.  Data goes to the virtual
    device without its type byte; a datagram that carries a Ping, a Pong or an OpenTunnel
    runs its handler on that very message; anything else (an empty datagram, another type,
    bytes that do not decode) changes nothing but, at most, the decoding buffers. *)
Theorem handlePacket_correct n now nonce :
  node_inv n →
  (∀ payload, handlePacket (EncodeRaw payload) now nonce n =
     dev ← chan_send payload (device n); Ret (with_device dev n)) ∧
  (∀ d m, carries PacketType.Ping (MPing m) d →
     handlePacket d now nonce n = onPing m nonce (at_protos 4 (MPing m) n)) ∧
  (∀ d m, carries PacketType.Pong (MPong m) d →
     handlePacket d now nonce n = onPong m now (at_protos 5 (MPong m) n)) ∧
  (∀ d m, carries PacketType.OpenTunnel (MOpenTunnel m) d →
     handlePacket d now nonce n = onOpenTunnel m now (at_protos 2 (MOpenTunnel m) n)) ∧
  handlePacket [] now nonce n = Ret n ∧
  (∀ t payload,
     t = PacketType.Heartbeat ∨ t = PacketType.Relay ∨ t = PacketType.OpenTunnelAck ∨ 7 <= t < 256 →
     handlePacket (to_byte t :: payload) now nonce n = Ret n) ∧
  (∀ k m payload, mjoin (protos n !! k) = Some m → (unmarshal (kind_of m) payload).1 = false →
     ∃ m', handlePacket (to_byte (Z.of_nat k) :: payload) now nonce n = Ret (at_protos k m' n)).
Proof.
  intros Hn. pose proof (inv_protos n Hn) as Hps. split_and!.
  - intros payload. unfold handlePacket, handle_decode, EncodeRaw. rewrite byte_val_to_byte.
    rewrite bool_decide_eq_true_2 by done. by destruct (chan_send payload (device n)).
  - intros d m Hc. by apply handlePacket_Ping.
  - intros d m Hc. by apply handlePacket_Pong.
  - intros d m Hc. by apply handlePacket_OpenTunnel.
  - done.
  - intros t payload Ht. destruct Hps as (? & ? & ? & Hps & _).
    unfold handlePacket, handle_decode. rewrite byte_val_to_byte, Hps.
    destruct Ht as [->|[->|[->|Ht]]]; [done..|]. rewrite Z.mod_small by lia.
    rewrite bool_decide_eq_false_2 by (unfold PacketType.Data; lia).
    by rewrite bool_decide_eq_true_2 by (simpl; lia).
  - intros k m payload Hk Hu. unfold handlePacket, handle_decode.
    assert (k < 6)%nat by (destruct (protos_lookup _ _ _ Hps Hk) as [[-> _]|[[-> _]|[-> _]]]; lia).
    rewrite byte_val_to_byte, Z.mod_small by lia.
    rewrite bool_decide_eq_false_2 by (unfold PacketType.Data; lia).
    assert (length (protos n) = 6%nat) as Hlen by (by destruct Hps as (? & ? & ? & -> & _)).
    rewrite Hlen, bool_decide_eq_false_2 by lia. rewrite Nat2Z.id, Hk.
    destruct (unmarshal (kind_of m) payload) as [ok m'] eqn:E. simpl in Hu. subst ok.
    by exists m'.
Qed.

(** *** Two goroutines in [handlePacket] *)

Definition ponged (now : Z) (c : connection) : connection :=
  with_state StateEstablished (with_keepalive now c).

Lemma onPong_hit n po now l c :
  connections n !! pong_VirtAddress po = Some l → conns n !! l = Some c →
  onPong po now n = Ret (store l (ponged now c) n).
Proof.
  intros Hv Hc. unfold onPong, deref, ponged. rewrite Hv, Hc; simpl. case_bool_decide as Hb; [done|].
  do 2 f_equal. destruct c; simpl in *. by rewrite Hb.
Qed.

Lemma exec_decode_pong t n ds po d :
  protos_ok (protos n) → ds !! t = None → carries PacketType.Pong (MPong po) (cut d) →
  exec (LDecode t d) {| node := n; dispatching := ds |} =
    Ret {| node := at_protos 5 (MPong po) n; dispatching := <[t := AtSwitch PacketType.Pong]> ds |}.
Proof.
  intros Hps Hds Hd. destruct (protos_at _ Hps) as (_ & _ & (po' & Hpo')). simpl. rewrite Hds.
  by rewrite (handle_decode_control n 5 (MPong po) (MPong po')).
Qed.

Lemma exec_dispatch_pong t n ds now nonce po l c :
  ds !! t = Some (AtSwitch PacketType.Pong) → mjoin (protos n !! 5%nat) = Some (MPong po) →
  connections n !! pong_VirtAddress po = Some l → conns n !! l = Some c →
  exec (LDispatch t PacketType.Pong now nonce) {| node := n; dispatching := ds |} =
    Ret {| node := store l (ponged now c) n; dispatching := delete t ds |}.
Proof.
  intros Hds Hpo Hv Hc. simpl. rewrite decide_True by done. unfold dispatch.
  rewrite bool_decide_eq_false_2, bool_decide_eq_true_2 by done.
  change (Z.to_nat PacketType.Pong) with 5%nat. rewrite Hpo. by rewrite (onPong_hit n po now l c).
Qed.

Lemma protos_ok_at_pong n po : protos_ok (protos n) → protos_ok (protos (at_protos 5 (MPong po) n)).
Proof.
  intros Hps. destruct (protos_at _ Hps) as (_ & _ & (po' & Hpo')).
  by apply (protos_insert _ 5 (MPong po')).
Qed.

Lemma run_cons lbl lbls w w1 r : exec lbl w = Ret w1 → run lbls w1 = r → run (lbl :: lbls) w = r.
Proof. intros He <-. simpl. by rewrite He. Qed.

Definition established (w : world) (l : loc) : Prop :=
  ∃ c, conns (node w) !! l = Some c ∧ state c = StateEstablished.

(** C26: The decoding buffers are shared by all the goroutines that run [handlePacket], and
    that loses messages.  When two peers' Pongs are handled one after the other both
    connections become established; when the second is decoded before the first is
    dispatched, the first goroutine handles the second peer's Pong and the first peer's
    connection is left exactly as it was. *)
Theorem concurrent_pongs_lose_one n t u px py lx ly cx cy dx dy now nonce :
  node_inv n → t ≠ u → pong_VirtAddress px ≠ pong_VirtAddress py →
  connections n !! pong_VirtAddress px = Some lx → conns n !! lx = Some cx →
  connections n !! pong_VirtAddress py = Some ly → conns n !! ly = Some cy →
  carries PacketType.Pong (MPong px) (cut dx) → carries PacketType.Pong (MPong py) (cut dy) →
  let dispatch t := LDispatch t PacketType.Pong now nonce in
  let w := {| node := n; dispatching := ∅ |} in
  (∃ w', run [LDecode t dx; dispatch t; LDecode u dy; dispatch u] w = Ret w' ∧
     established w' lx ∧ established w' ly) ∧
  (∃ w', run [LDecode t dx; LDecode u dy; dispatch t; dispatch u] w = Ret w' ∧
     conns (node w') !! lx = Some cx ∧ established w' ly).
Proof.
  intros Hn Htu Hxy Hvx Hcx Hvy Hcy Hdx Hdy dispatch w.
  pose proof (inv_protos n Hn) as Hps.
  assert (lx ≠ ly) as Hl.
  { intros <-. destruct (inv_table n Hn _ _ Hvx) as (? & ? & ? & _).
    destruct (inv_table n Hn _ _ Hvy) as (? & ? & ? & _). congruence. }
  pose proof (protos_ok_at_pong n px Hps) as Hpx.
  assert ((5 < 6)%nat) as H5 by lia.
  split; eexists; split.
  - eapply run_cons; [by apply (exec_decode_pong t n ∅ px dx)|].
    eapply run_cons; [apply (exec_dispatch_pong t _ _ now nonce px lx cx);
      first [by rewrite lookup_insert_eq|by apply at_protos_lookup|done]|].
    eapply run_cons; [apply (exec_decode_pong u _ _ py dy); first [by rewrite delete_insert_eq|done]|].
    eapply run_cons; [apply (exec_dispatch_pong u _ _ now nonce py ly cy);
      first [by rewrite lookup_insert_eq|by apply at_protos_lookup|by (simpl; rewrite lookup_insert_ne)|done]|].
    done.
  - split; [exists (ponged now cx)|exists (ponged now cy)]; simpl;
      by rewrite ?lookup_insert_ne, lookup_insert_eq by done.
  - eapply run_cons; [by apply (exec_decode_pong t n ∅ px dx)|].
    eapply run_cons; [apply (exec_decode_pong u _ _ py dy); first [by rewrite lookup_insert_ne|done]|].
    eapply run_cons; [apply (exec_dispatch_pong t _ _ now nonce py ly cy);
      first [by rewrite lookup_insert_ne, lookup_insert_eq|by apply at_protos_lookup|done]|].
    eapply run_cons; [apply (exec_dispatch_pong u _ _ now nonce py ly (ponged now cy));
      first [by rewrite lookup_delete_ne, lookup_insert_eq
            |by apply (at_protos_lookup (at_protos 5 (MPong px) n))|by (simpl; rewrite lookup_insert_eq)|done]|].
    done.
  - split; [|exists (ponged now (ponged now cy))]; simpl;
      by rewrite ?lookup_insert_ne, ?lookup_insert_eq by done.
Qed.

(** *** The table and replaced connections *)

(** The entries of the table that are new point to objects that are new. *)
Definition table_fresh (n n' : Node) : Prop :=
  (next_conn n <= next_conn n')%nat ∧
  ∀ v l, connections n' !! v = Some l → connections n !! v = Some l ∨ (next_conn n <= l)%nat.

Lemma table_same n n' :
  connections n' = connections n → next_conn n' = next_conn n → table_fresh n n'.
Proof. intros Hc Hn. split; [lia|]. rewrite Hc. auto. Qed.

Lemma table_openConnection o now n n' : openConnection o now n = Ret n' → table_fresh n n'.
Proof.
  unfold openConnection. destruct (Dial _); [|by intros [= <-]; apply table_same].
  unfold openTunnelAck. intros (d & _ & [= <-])%outcome_bind_ret. split; simpl; [lia|].
  intros v l [[_ <-]|[_ Hv]]%lookup_insert_Some; auto.
Qed.

Lemma table_openTunnelAck o n n' : openTunnelAck o n = Ret n' → table_fresh n n'.
Proof. unfold openTunnelAck. intros (? & _ & [= <-])%outcome_bind_ret. by apply table_same. Qed.

Lemma table_onOpenTunnel_select o n n' r : onOpenTunnel_select o n = Ret (n', r) → table_fresh n n'.
Proof.
  intros [[? _]|[-> _]]%onOpenTunnel_select_Ret; [by eapply table_openTunnelAck|by apply table_same].
Qed.

Lemma table_onOpenTunnel_close l n n' : onOpenTunnel_close l n = Ret n' → table_fresh n n'.
Proof. intros (c & _ & _ & ->)%onOpenTunnel_close_Ret. by apply table_same. Qed.

Lemma table_reopen now n n' : reopen now n = Ret n' → table_fresh n n'.
Proof. intros (o & _ & Ho)%reopen_Ret. by eapply table_openConnection. Qed.

Lemma table_dispatch pt now nonce n n' r :
  dispatch pt now nonce n = Ret (n', r) → table_fresh n n'.
Proof.
  unfold dispatch. repeat case_bool_decide; [| | |by intros [= <- _]; apply table_same];
    repeat case_match; try done; [| |apply table_onOpenTunnel_select]; intros (n1 & Hs & [= <- _])%outcome_bind_ret.
  - unfold onPing in Hs. case_match; [|by simplify_eq; apply table_same]. inv_bind. by apply table_same.
  - unfold onPong in Hs. case_match; [|by simplify_eq; apply table_same].
    apply outcome_bind_ret in Hs as (c & _ & [= <-]). by apply table_same.
Qed.

Lemma table_forward v data now n n' : forward v data now n = Ret n' → table_fresh n n'.
Proof.
  unfold forward. case_match; [|case_match; intros [= <-]; by apply table_same].
  intros (c & _ & Hs)%outcome_bind_ret. case_bool_decide; inv_bind; by apply table_same.
Qed.

Lemma exec_table lbl w w' : exec lbl w = Ret w' → table_fresh (node w) (node w').
Proof.
  destruct lbl; simpl; unfold on_node; intros Hs.
  - destruct (_ !! t); [done|]. apply outcome_bind_ret in Hs as ([n d] & Hd & [= <-]).
    unfold handle_decode in Hd. destruct (cut data); [simplify_eq; by apply table_same|].
    case_bool_decide; [inv_bind; simplify_eq; by apply table_same|].
    case_bool_decide; [simplify_eq; by apply table_same|].
    destruct (mjoin _); [destruct (unmarshal _ _)|]; simplify_eq; by apply table_same.
  - case_decide; [|done]. apply outcome_bind_ret in Hs as ([n r] & Hd & [= <-]).
    by eapply table_dispatch.
  - destruct (_ !! t) as [[|l|]|]; [done| |done..]. apply outcome_bind_ret in Hs as (n & Hd & [= <-]).
    by eapply table_onOpenTunnel_close.
  - destruct (_ !! t) as [[|l|]|]; [done..| |done]. apply outcome_bind_ret in Hs as (n & Hd & [= <-]).
    by eapply table_reopen.
  - apply outcome_bind_ret in Hs as (n & Hd & [= <-]). unfold device_read in Hd.
    apply outcome_bind_ret in Hd as (data & _ & Hd). unfold device_packet in Hd.
    destruct (decodeIPv4 data) as [ip|]; [|simplify_eq; by apply table_same].
    case_match; [simplify_eq; by apply table_same|]. case_bool_decide; [|by eapply table_forward].
    inv_bind. by apply table_same.
  - apply outcome_bind_ret in Hs as (n & (? & ? & ? & _ & _ & ->)%device_write_Ret & [= <-]). by apply table_same.
  - apply outcome_bind_ret in Hs as (n & Hd & [= <-]). unfold request_done in Hd.
    destruct (requests _ !! i); simplify_eq. by apply table_same.
  - apply outcome_bind_ret in Hs as (n & Hd & [= <-]). unfold heartbeat in Hd. inv_bind.
    by apply table_same.
  - destruct (_ !! l); [|done]. case_decide; [|done].
    apply outcome_bind_ret in Hs as (n & Hd & [= <-]). unfold conn_start in Hd. inv_bind.
    by apply table_same.
  - destruct (_ !! l); [|done]. case_match; [|done].
    apply outcome_bind_ret in Hs as (n & Hd & [= <-]). unfold conn_turn in Hd. inv_bind.
    case_decide; [|by apply table_same]. split; simpl; [lia|].
    intros v l' [_ Hv]%lookup_delete_Some. auto.
Qed.

(** A connection that the table does not point to, and that is still connecting. *)
Definition orphan (l : loc) (w : world) : Prop :=
  (l < next_conn (node w))%nat ∧ (∀ v, connections (node w) !! v ≠ Some l) ∧
  ∃ c, conns (node w) !! l = Some c ∧ state c = StateConnecting.

Lemma orphan_step l w w' : node_inv (node w) → orphan l w → step w w' → orphan l w'.
Proof.
  intros Hn (Hlt & Ht & c & Hc & Hst) (lbl & _ & Hs).
  destruct (exec_table lbl w w' Hs) as [Hle Htab]. split_and!; [lia| |].
  - intros v Hv. destruct (Htab v l Hv); [by eapply Ht|lia].
  - destruct lbl as [|t pt now nonce| | | | | | | |];
      try (destruct (exec_evolves _ _ _ Hn Hs ltac:(done) l c Hc) as (c' & ? & _ & ?);
           exists c'; split; [done|congruence]).
    destruct (decide (pt = PacketType.Pong)) as [->|Hpt].
    + simpl in Hs. case_decide; [|done]. apply outcome_bind_ret in Hs as ([n r] & Hd & [= <-]).
      destruct (pong_dispatch_evolves now nonce _ n r l c Hn Hd Hc) as (c' & po & Hc' & _ & _ & Hcase).
      rewrite decide_False in Hcase by apply Ht. subst c'. by exists c.
    + destruct (exec_evolves _ _ _ Hn Hs ltac:(congruence) l c Hc) as (c' & ? & _ & ?).
      exists c'. split; [done|congruence].
Qed.

(** C25: A reconnect strands the connection it creates.  Take any reachable state in which
    connection [l] was closed because its peer moved, and the table already points to its
    replacement [l'], still connecting.  When the goroutine of [l] returns, its deferred
    [handleClosed] removes the peer's entry, which is now the replacement's: from then on
    no entry ever points to [l'] again, and whatever happens [l'] is never established. *)
Theorem reconnect_orphans_replacement o w l l' c c' v now nonce :
  valid_string (Address o) = true → rtc step (world_init o) w →
  conns (node w) !! l = Some c → peerVirtAddr c = v → ready now EvDie c = true →
  connections (node w) !! v = Some l' → conns (node w) !! l' = Some c' →
  l ≠ l' → state c' = StateConnecting →
  ∃ w', exec (LConnTurn l now nonce EvDie) w = Ret w' ∧ connections (node w') !! v = None ∧
    ∀ w'', rtc step w' w'' → (∀ u, connections (node w'') !! u ≠ Some l') ∧
      ∃ c'', conns (node w'') !! l' = Some c'' ∧ state c'' = StateConnecting.
Proof.
  intros Ho Hr Hc Hv Hready Ht Hc' Hne Hst. pose proof (reachable_inv o w Ho Hr) as Hn.
  assert (∃ w', exec (LConnTurn l now nonce EvDie) w = Ret w' ∧ connections (node w') !! v = None ∧
    orphan l' w') as (w' & Hw' & Hnone & Horph).
  { simpl. rewrite Hc, Hready. unfold on_node, conn_turn, deref. rewrite Hc; simpl.
    unfold ready in Hready. unfold loop_step. destruct (pc c); [done| |done..]. rewrite Hready; simpl.
    eexists. split; [done|]. subst v.
    split; [apply lookup_delete_eq|].
    destruct (inv_conns _ Hn l' c' Hc') as [_ ?]. split_and!; simpl; [done| |].
    - intros u [Hu Hu']%lookup_delete_Some.
      destruct (inv_table _ Hn _ _ Hu') as (? & ? & ? & _). destruct (inv_table _ Hn _ _ Ht) as (? & ? & ? & _).
      congruence.
    - exists c'. by rewrite lookup_insert_ne. }
  exists w'. split_and!; [done|done|]. intros w'' Hw''.
  assert (node_inv (node w'')  ∧ orphan l' w'') as [_ (_ & ? & ?)]; [|done].
  assert (node_inv (node w')) as Hn' by (by eapply exec_inv).
  revert Hw''. apply (rtc_invariant step (λ w, node_inv (node w) ∧ orphan l' w)); [|done].
  intros w1 w2 [H1 H2] Hs. split; [|by eapply orphan_step].
  destruct Hs as (lbl & _ & Hs). by eapply exec_inv.
Qed.

Lemma run_rtc lbls w w' : forallb label_ok lbls = true → run lbls w = Ret w' → rtc step w w'.
Proof.
  revert w. induction lbls as [|lbl lbls IH]; intros w; simpl; [by intros _ [= <-]|].
  intros [H1 H2]%andb_true_iff (w1 & Hw1 & Hw)%outcome_bind_ret.
  apply rtc_l with w1; [by exists lbl|by apply IH].
Qed.

End node.

(** On Linux and macOS the device never panics. *)
Lemma linux_crash w lbl m : crash (H0 := linux_device) w lbl m → m = "close of closed channel"%string.
Proof. inversion 1 as [| |? ? Hc|]; [done|done|cbn [dev_count linux_device] in Hc; lia|by simplify_eq/=]. Qed.

Lemma darwin_crash w lbl m : crash (H0 := darwin_device) w lbl m → m = "close of closed channel"%string.
Proof. inversion 1 as [| |? ? Hc|]; [done|done|cbn [dev_count darwin_device] in Hc; lia|by simplify_eq/=]. Qed.

(** ** A run

    Node 10.0.0.1 with tunnels to 10.0.0.2 and 10.0.0.3, the gateway's announcements and
    the loops' first turns included. *)
Module Demo.

#[export] Existing Instance darwin_device.

(** A device that has written nothing, and a system that takes what it writes. *)
Definition mac : @dev_env darwin_device := {| scratch := Darwin.newTun; scratch_ok := eq_refl; taken := true |}.

Definition o : Options := {| Gateway := "9.9.9.9:2823"; Key := ""; Address := "10.0.0.1"; TLS := false |}.
Definition dial (a : string) : option string := Some a.
(** The destination field of an IPv4 header. *)
Definition decode (data : bytes) : option IP :=
  match drop 16 data with a :: b :: c :: d :: _ => Some [a; b; c; d] | _ => None end.
Definition string6 (_ : IP) : string := "?".
Definition parse6 (_ : string) : IP := [].

Definition enc (typ : Z) (m : message) : bytes :=
  match Encode typ m with Ret d => d | _ => [] end.
Definition ot (id : Z) (v u : string) : CtrlOpenTunnel :=
  {| ot_AckId := id; ot_VirtAddress := v; ot_UdpAddress := u |}.
Definition pong (v : string) : CtrlPong := {| pong_VirtAddress := v; pong_Nonce := "" |}.

Abbreviation run := (run dial decode string6).
Abbreviation exec := (exec dial decode string6).
Abbreviation init := (world_init parse6 o).
Abbreviation step := (step dial decode string6).

Definition opens : list label :=
  [LDecode 0 (enc 2 (MOpenTunnel (ot 1 "10.0.0.2" "2.2.2.2:2"))); LDispatch 0 2 0 ""; LDial 0 0;
   LDecode 0 (enc 2 (MOpenTunnel (ot 2 "10.0.0.3" "3.3.3.3:3"))); LDispatch 0 2 0 ""; LDial 0 0;
   LConnStart 0 1; LConnTurn 0 2 "n" EvConnecting].
Definition w1 : world := match run opens init with Ret w => w | _ => init end.

(** 10.0.0.2 moves to another UDP address. *)
Definition moves : list label :=
  [LDecode 0 (enc 2 (MOpenTunnel (ot 3 "10.0.0.2" "8.8.8.8:8"))); LDispatch 0 2 5 ""; LClose 0; LDial 0 5].
Definition w2 : world := match run moves w1 with Ret w => w | _ => init end.

(** 10.0.0.2 moves just when its connection times out. *)
Definition races : list label :=
  [LConnTurn 0 10000000002 "" EvKeepalive;
   LDecode 0 (enc 2 (MOpenTunnel (ot 3 "10.0.0.2" "8.8.8.8:8"))); LDispatch 0 2 5 ""; LClose 0].
Definition w3 : world := match run races w1 with Ret w => w | _ => init end.

(** An IPv4 packet for 10.0.0.2. *)
Definition packet : bytes :=
  replicate 16 Byte.x45 ++ [Byte.x0a; Byte.x00; Byte.x00; Byte.x02; Byte.x2a].

Lemma init_inv : node_inv parse6 (node init).
Proof. by apply world_init_inv. Qed.

Lemma w1_reachable : rtc step init w1.
Proof. apply (run_rtc dial decode string6 opens); by vm_compute. Qed.

Lemma w2_reachable : rtc step init w2.
Proof.
  transitivity w1; [apply w1_reachable|].
  apply (run_rtc dial decode string6 moves); by vm_compute.
Qed.

Lemma w3_reachable : rtc step init w3.
Proof.
  transitivity w1; [apply w1_reachable|].
  apply (run_rtc dial decode string6 races); by vm_compute.
Qed.

Lemma w1_inv : node_inv parse6 (node w1).
Proof. apply (reachable_inv dial decode string6 parse6 o); [done|apply w1_reachable]. Qed.

Lemma decode_IPv4 : decodes_IPv4 decode.
Proof.
  intros data ip. unfold decode. destruct (drop 16 data) as [|a [|b [|c [|d r]]]]; naive_solver.
Qed.

Lemma carries_enc k m : mjoin (Some (match Encode k m with Ret d => Some d | _ => None end)) = Some (enc k m) →
  carries k m (enc k m).
Proof.
  unfold enc. destruct (Encode k m) as [d| |] eqn:E; try done. intros _.
  by apply (Encode_decode _ _ _ E).
Qed.

Lemma carries_cut k m :
  mjoin (Some (match Encode k m with Ret d => Some d | _ => None end)) = Some (enc k m) →
  (length (enc k m) <= MaxBufferSize)%nat → carries k m (cut (enc k m)).
Proof. intros Hc Hl. rewrite cut_short by done. by apply carries_enc. Qed.


Lemma connection_table_sound_witness :
  ∃ c, conns (node w1) !! 0%nat = Some c ∧ peerVirtAddr c = "10.0.0.2"%string.
Proof.
  destruct (connection_table_sound dial decode string6 parse6 o w1 "10.0.0.2" 0%nat
    eq_refl w1_reachable ltac:(by vm_compute)) as (c & Hc & Hv & _).
  by exists c.
Defined.

Definition w1_pong : world :=
  {| node := at_protos 5 (MPong (pong "10.0.0.2")) (node w1); dispatching := {[ 1%nat := AtSwitch 5 ]} |}.
Definition w1_established : world :=
  match exec (LDispatch 1 5 9 "") w1_pong with Ret w => w | _ => init end.

Lemma established_only_by_pong_witness :
  ∃ c c', conns (node w1_pong) !! 0%nat = Some c ∧ state c ≠ StateEstablished ∧
    conns (node w1_established) !! 0%nat = Some c' ∧ same_conn c c' ∧ state c' = StateEstablished.
Proof.
  assert (rtc step init w1_pong) as Hr.
  { transitivity w1; [apply w1_reachable|].
    apply (run_rtc dial decode string6 [LDecode 1 (enc 5 (MPong (pong "10.0.0.2")))]); by vm_compute. }
  destruct (conns (node w1_pong) !! 0%nat) as [c|] eqn:E; [|by vm_compute in E].
  destruct (established_only_by_pong dial decode string6 parse6 o w1_pong w1_established
    (LDispatch 1 5 9 "") 0%nat c eq_refl Hr ltac:(by vm_compute) E) as (c' & Hc' & Hs & _).
  exists c, c'. split_and!; [done| |done|done|].
  - vm_compute in E. injection E as <-. done.
  - vm_compute in Hc'. injection Hc' as <-. done.
Defined.

Lemma forward_correct_witness :
  ∃ n', forward "10.0.0.2" packet 7 (node w1) = Ret n' ∧ length (to_gateway n') = 3%nat.
Proof.
  destruct (forward_correct parse6 "10.0.0.2" packet 7 (node w1) w1_inv eq_refl) as (n' & Hn' & _).
  exists n'. split; [done|]. vm_compute in Hn'. injection Hn' as <-. done.
Defined.

Lemma device_read_classifies_witness :
  device_read decode string6 packet 7 (node w1) = forward "10.0.0.2" packet 7 (node w1).
Proof.
  exact (device_read_classifies dial decode string6 parse6 (node w1) Byte.x0a Byte.x00 Byte.x00 Byte.x01
    Byte.x0a Byte.x00 Byte.x00 Byte.x02 packet packet 7 w1_inv ltac:(by vm_compute) ltac:(by vm_compute)
    ltac:(by vm_compute)).
Defined.

Lemma onOpenTunnel_correct_witness :
  ∃ n', onOpenTunnel dial (ot 3 "10.0.0.2" "8.8.8.8:8") 5 (node w1) = Ret n' ∧
    connections n' !! "10.0.0.2"%string = Some 2%nat.
Proof.
  destruct (onOpenTunnel_correct dial parse6 (ot 3 "10.0.0.2" "8.8.8.8:8") 5 (node w1) w1_inv eq_refl)
    as (n' & Hn' & _).
  exists n'. split; [done|]. vm_compute in Hn'. injection Hn' as <-. done.
Defined.

Lemma handlePacket_correct_witness :
  handlePacket dial (enc 5 (MPong (pong "10.0.0.2"))) 9 "" (node w1) =
    onPong (pong "10.0.0.2") 9 (at_protos 5 (MPong (pong "10.0.0.2")) (node w1)).
Proof.
  destruct (handlePacket_correct dial parse6 (node w1) 9 "" w1_inv) as (_ & _ & Hp & _).
  apply Hp. by apply carries_enc.
Defined.

Lemma concurrent_pongs_lose_one_witness :
  ∃ c w', conns (node w1) !! 0%nat = Some c ∧
    run [LDecode 1 (enc 5 (MPong (pong "10.0.0.2"))); LDecode 2 (enc 5 (MPong (pong "10.0.0.3")));
         LDispatch 1 5 9 ""; LDispatch 2 5 9 ""] {| node := node w1; dispatching := ∅ |} = Ret w' ∧
    conns (node w') !! 0%nat = Some c ∧ established w' 1%nat.
Proof.
  destruct (conns (node w1) !! 0%nat) as [cx|] eqn:Ex; [|by vm_compute in Ex].
  destruct (conns (node w1) !! 1%nat) as [cy|] eqn:Ey; [|by vm_compute in Ey].
  destruct (concurrent_pongs_lose_one dial decode string6 parse6 (node w1) 1%nat 2%nat
    (pong "10.0.0.2") (pong "10.0.0.3") 0%nat 1%nat cx cy
    (enc 5 (MPong (pong "10.0.0.2"))) (enc 5 (MPong (pong "10.0.0.3"))) 9 ""
    w1_inv ltac:(done) ltac:(done) ltac:(by vm_compute) Ex ltac:(by vm_compute) Ey
    (carries_cut 5 (MPong (pong "10.0.0.2")) ltac:(by vm_compute) ltac:(vm_compute; lia))
    (carries_cut 5 (MPong (pong "10.0.0.3")) ltac:(by vm_compute) ltac:(vm_compute; lia))) as [_ (w' & Hw' & H1 & H2)].
  exists cx, w'. exact (conj eq_refl (conj Hw' (conj H1 H2))).
Defined.

Lemma reconnect_orphans_replacement_witness :
  ∃ w', exec (LConnTurn 0 6 "" EvDie) w2 = Ret w' ∧
    connections (node w') !! "10.0.0.2"%string = None.
Proof.
  destruct (conns (node w2) !! 0%nat) as [c|] eqn:E; [|by vm_compute in E].
  destruct (conns (node w2) !! 2%nat) as [c'|] eqn:E'; [|by vm_compute in E'].
  assert (peerVirtAddr c = "10.0.0.2"%string) as Hv by (vm_compute in E; by injection E as <-).
  assert (ready 6 EvDie c = true) as Hd by (vm_compute in E; by injection E as <-).
  assert (state c' = StateConnecting) as Hs by (vm_compute in E'; by injection E' as <-).
  destruct (reconnect_orphans_replacement dial decode string6 parse6 o w2 0%nat 2%nat c c'
    "10.0.0.2" 6 "" eq_refl w2_reachable E Hv Hd ltac:(by vm_compute) E' ltac:(done) Hs)
    as (w' & Hw' & Hn & _).
  exact (ex_intro _ w' (conj Hw' Hn)).
Defined.

End Demo.
