(* ===== verification/Buffers.v ===== *)
(** * The buffers that the goroutines of a node read into

    [Node.v] hands a packet from goroutine to goroutine as a value.  In the code it is a slice:
    [schedule], the [read] of every connection and the [read] of [serveDev] each have one
    buffer, which the next read overwrites, and the channels carry slices.  Here the arrays
    are a memory, and the operations that keep a packet beyond their turn are written with
    their [make], [copy] and [append]; [buffers_refine_values] shows that the node of
    [Node.v] is what they implement. *)

From S2P Require Import Prelude Message WireFormat Net Constant Connection Device Node.

Local Open Scope nat_scope.

(** ** Slices *)

(** The arrays that were allocated, and a part of one of them. *)
Abbreviation memory := (list bytes).
Record slice := { arr : nat; off : nat; len : nat }.

Definition contents (m : memory) (s : slice) : bytes := take (len s) (drop (off s) (default [] (m !! arr s))).

(** [make([]byte, n)]. *)
Definition make (n : nat) (m : memory) : memory * slice :=
  (m ++ [replicate n Byte.x00], {| arr := length m; off := 0; len := n |}).

(** [copy(dst, src)], where [src] has these bytes; and what a read does to its buffer. *)
Definition copy (dst : slice) (src : bytes) (m : memory) : memory :=
  let d := take (len dst) src in
  alter (λ a, take (off dst) a ++ d ++ drop (off dst + length d) a) (arr dst) m.

(** A slice that [append] or [Encode] builds. *)
Definition append (d : bytes) (m : memory) : memory * slice :=
  (m ++ [d], {| arr := length m; off := 0; len := length d |}).

(** [s[:n]], where it cannot panic too, and [s[1:]]. *)
Definition slice_to (n : nat) (s : slice) : outcome slice :=
  if bool_decide (n <= len s) then Ret {| arr := arr s; off := off s; len := n |}
  else Panic "slice bounds out of range".
Definition prefix (n : nat) (s : slice) : slice := {| arr := arr s; off := off s; len := n |}.
Definition rest (s : slice) : slice := {| arr := arr s; off := S (off s); len := pred (len s) |}.

(** ** State

    [base] has the node's fields but for its queues: those are [queue], the node's
    [pipeline], and [pipes], the [pipeline] of each connection that something was sent to.
    [readers] has the buffer of [schedule] (goroutine 0) and of the [read] of each connection
    (goroutine [S l]), [dev_buffer] that of [serveDev]. *)
Record bworld := {
  base : Node;
  dispatching : gmap nat handling;
  mem : memory;
  readers : gmap nat slice;
  dev_buffer : slice;
  queue : chan slice;
  pipes : gmap loc (chan slice);
}.

Definition with_base n b := {| base := n; dispatching := dispatching b; mem := mem b; readers := readers b;
  dev_buffer := dev_buffer b; queue := queue b; pipes := pipes b |}.
Definition with_dispatching d b := {| base := base b; dispatching := d; mem := mem b; readers := readers b;
  dev_buffer := dev_buffer b; queue := queue b; pipes := pipes b |}.
Definition with_mem m b := {| base := base b; dispatching := dispatching b; mem := m; readers := readers b;
  dev_buffer := dev_buffer b; queue := queue b; pipes := pipes b |}.
Definition with_readers r b := {| base := base b; dispatching := dispatching b; mem := mem b; readers := r;
  dev_buffer := dev_buffer b; queue := queue b; pipes := pipes b |}.
Definition with_queue q b := {| base := base b; dispatching := dispatching b; mem := mem b; readers := readers b;
  dev_buffer := dev_buffer b; queue := q; pipes := pipes b |}.
Definition with_pipe l p b := {| base := base b; dispatching := dispatching b; mem := mem b; readers := readers b;
  dev_buffer := dev_buffer b; queue := queue b; pipes := <[l := p]> (pipes b) |}.

(** The [pipeline] of a connection is empty until something is sent to it. *)
Definition pipe (b : bworld) (l : loc) : chan slice := default (make_chan slice 128) (pipes b !! l).

(** [Serve] starts [schedule] and [serveDev], which make their buffers. *)
Definition bworld_init (n : Node) : bworld :=
  let '(m, buffer) := make MaxBufferSize [] in
  let '(m, dev) := make MaxBufferSize m in
  {| base := n; dispatching := ∅; mem := m; readers := {[ 0 := buffer ]}; dev_buffer := dev;
     queue := make_chan slice 512; pipes := ∅ |}.

Section buffers.
Context `{Proto} `{Device} `{!DeviceLaws _}.
Variable Dial : string → option string.
Variable decodeIPv4 : bytes → option IP.
Variable string6 : IP → string.
Variable parse6 : string → IP.

Abbreviation IP_String := (IP_String string6).

(** ** Operations *)

(** What keeps no slice is an operation of [Node.v]. *)
Definition on_base (f : Node → outcome Node) (b : bworld) : outcome bworld :=
  n ← f (base b); Ret (with_base n b).

Definition read (buffer : slice) (d : bytes) (b : bworld) : bworld * slice :=
  (with_mem (copy buffer d (mem b)) b, prefix (min (len buffer) (length d)) buffer).

(** [dataCopy := make([]byte, len(data)); copy(dataCopy, data)]. *)
Definition make_copy (data : slice) (b : bworld) : bworld * slice :=
  let '(m, dataCopy) := make (len data) (mem b) in
  (with_mem (copy dataCopy (contents m data) m) b, dataCopy).

Definition fresh (d : bytes) (b : bworld) : bworld * slice :=
  let '(m, s) := append d (mem b) in (with_mem m b, s).

Definition handle_decode (data : slice) (b : bworld) : outcome (bworld * decoded) :=
  match contents (mem b) data with
  | [] => Ret (b, Finished)
  | packetType :: _ =>
      if bool_decide (byte_val packetType = PacketType.Data)
      then
        let '(b, dataCopy) := make_copy (rest data) b in
        q ← chan_send dataCopy (queue b); Ret (with_queue q b, Finished)
      else '(n, d) ← Node.handle_decode (contents (mem b) data) (base b); Ret (with_base n b, d)
  end.

Definition onPing (ping : CtrlPing) (nonce : string) (b : bworld) : outcome bworld :=
  match connections (base b) !! ping_VirtAddress ping with
  | None => Ret b
  | Some l =>
      data ← Encode PacketType.Pong
        (MPong {| pong_VirtAddress := Address (opt (base b)); pong_Nonce := nonce |});
      _ ← deref (base b) l;
      let '(b, s) := fresh data b in
      p ← chan_send s (pipe b l);
      Ret (with_pipe l p b)
  end.

Definition dispatch (packetType now : Z) (nonce : string) (b : bworld) : outcome (bworld * option handling) :=
  if bool_decide (packetType = PacketType.Ping) then
    match mjoin (protos (base b) !! Z.to_nat packetType) with
    | Some (MPing m) => b ← onPing m nonce b; Ret (b, None)
    | _ => Panic "interface conversion"
    end
  else '(n, next) ← Node.dispatch packetType now nonce (base b); Ret (with_base n b, next).

Definition forward (virtAddress : string) (data : slice) (now : Z) (b : bworld) : outcome bworld :=
  match connections (base b) !! virtAddress with
  | Some l =>
      conn ← deref (base b) l;
      if bool_decide (state conn = StateEstablished)
      then
        let '(b, dataCopy) := make_copy data b in
        let '(b, raw) := fresh (EncodeRaw (contents (mem b) dataCopy)) b in
        Ret (with_pipe l (chan_try_send raw (pipe b l)).1 b)
      else on_base (Node.forward virtAddress (contents (mem b) data) now) b
  | None => on_base (Node.forward virtAddress (contents (mem b) data) now) b
  end.

Definition device_packet (data : slice) (now : Z) (b : bworld) : outcome bworld :=
  match decodeIPv4 (contents (mem b) data) with
  | None => Ret b
  | Some DstIP =>
      if negb (Equal (Mask DstIP subnetMask) (mask (base b))) then Ret b
      else
        let destination := IP_String DstIP in
        if bool_decide (destination = Address (opt (base b)))
        then
          let '(b, dataCopy) := make_copy data b in
          q ← chan_send dataCopy (queue b); Ret (with_queue q b)
        else forward destination data now b
  end.

(** [dev.Read(buffer)], and [buffer[:c]]. *)
Definition device_read (p : bytes) (now : Z) (b : bworld) : outcome bworld :=
  let '(b, _) := read (dev_buffer b) p b in
  data ← slice_to (dev_count p) (dev_buffer b);
  device_packet data now b.

Definition device_write (e : dev_env) (b : bworld) : outcome bworld :=
  match chan_recv (queue b) with
  | Some (data, q) =>
      out ← dev_write e (contents (mem b) data);
      Ret (with_base (with_to_device (to_device (base b) ++ option_list out) (base b)) (with_queue q b))
  | None => Block
  end.

(** [go c.read()], which makes its buffer. *)
Definition start_read (l : loc) (b : bworld) : bworld :=
  let '(m, buffer) := make 4096 (mem b) in with_readers (<[S l := buffer]> (readers b)) (with_mem m b).

Definition conn_start (l : loc) (now : Z) (b : bworld) : outcome bworld :=
  conn ← deref (base b) l;
  on_base (Node.conn_start l now) (if once conn then b else start_read l b).

(** The case [data := <-c.pipeline] of the connection's loop. *)
Definition pipeline_turn (l : loc) (b : bworld) : outcome bworld :=
  conn ← deref (base b) l;
  match chan_recv (pipe b l) with
  | Some (data, p) => Ret (with_base (store l (send (contents (mem b) data) conn) (base b)) (with_pipe l p b))
  | None => Block
  end.

(** A turn of the loop of [read], or of [schedule], up to the [switch] of [handlePacket]. *)
Definition read_turn (t : nat) (d : bytes) (b : bworld) : outcome bworld :=
  match readers b !! t, dispatching b !! t with
  | Some buffer, None =>
      let '(b, data) := read buffer d b in
      '(b, r) ← handle_decode data b;
      Ret (with_dispatching (set_handling t (handling_of r) (dispatching b)) b)
  | _, _ => Block
  end.

(** A read that fails: [schedule] goes on, the [read] of a connection returns. *)
Definition read_fails (t : nat) (b : bworld) : outcome bworld :=
  match readers b !! t, dispatching b !! t with
  | Some _, None => Ret (with_readers (if decide (t = 0) then readers b else delete t (readers b)) b)
  | _, _ => Block
  end.

(** ** Steps

    Those of [Node.v], in which a packet is first read into the buffer of its goroutine, and
    the reads that fail. *)
Inductive blabel := Step (lbl : label) | ReadFails (t : nat).

Definition bexec (lbl : blabel) (b : bworld) : outcome bworld :=
  match lbl with
  | Step (LDecode t d) => read_turn t d b
  | Step (LDispatch t packetType now nonce) =>
      if decide (dispatching b !! t = Some (AtSwitch packetType)) then
        '(b, next) ← dispatch packetType now nonce b;
        Ret (with_dispatching (set_handling t next (dispatching b)) b)
      else Block
  | Step (LClose t) =>
      match dispatching b !! t with
      | Some (AtClose l) =>
          b ← on_base (onOpenTunnel_close l) b;
          Ret (with_dispatching (<[t := AtDial]> (dispatching b)) b)
      | _ => Block
      end
  | Step (LDial t now) =>
      match dispatching b !! t with
      | Some AtDial =>
          b ← on_base (reopen Dial now) b;
          Ret (with_dispatching (delete t (dispatching b)) b)
      | _ => Block
      end
  | Step (LDevRead p now) => device_read p now b
  | Step (LDevWrite e) => device_write e b
  | Step (LRequestDone i) => on_base (request_done i) b
  | Step LHeartbeat => on_base heartbeat b
  | Step (LConnStart l now) =>
      match conns (base b) !! l with
      | Some c => if decide (pc c = Spawned) then conn_start l now b else Block
      | None => Block
      end
  | Step (LConnTurn l now nonce ev) =>
      match conns (base b) !! l with
      | Some c =>
          if decide (ev = EvPipeline) then
            match pc c with Running _ _ => pipeline_turn l b | _ => Block end
          else if ready now ev c then on_base (conn_turn l now nonce ev) b else Block
      | None => Block
      end
  | ReadFails t => read_fails t b
  end.

Definition blabel_ok (lbl : blabel) : bool := match lbl with Step lbl => label_ok lbl | ReadFails _ => true end.

Definition bstep (b b' : bworld) : Prop := ∃ lbl, blabel_ok lbl = true ∧ bexec lbl b = Ret b'.

(** ** What a node with slices is a node of

    The queues of [Node.v] hold the bytes that the slices have now. *)
Definition values (m : memory) (c : chan slice) : chan bytes := Chan (cap c) (contents m <$> buf c).

Definition fill_conn (b : bworld) (l : loc) (c : connection) : connection :=
  with_pipeline (values (mem b) (pipe b l)) c.

Definition fill (b : bworld) (n : Node) : Node :=
  with_device (values (mem b) (queue b)) (with_conns (map_imap (λ l c, Some (fill_conn b l c)) (conns n)) n).

Definition abs (b : bworld) : world :=
  {| Node.node := fill b (base b); Node.dispatching := dispatching b |}.

(** The goroutine that takes a step of [Node.v] is there: a connection's [read] is, once its
    loop has started and until a read fails. *)
Definition reading (lbl : label) (b : bworld) : Prop :=
  match lbl with LDecode t _ => is_Some (readers b !! t) | _ => True end.


(** ** The memory *)

Definition in_bounds (m : memory) (s : slice) : Prop := off s + len s <= length (default [] (m !! arr s)).

Lemma contents_app m d s : arr s < length m → contents (m ++ [d]) s = contents m s.
Proof. intros Hs. unfold contents. by rewrite lookup_app_l. Qed.

Lemma contents_last m d : contents (m ++ [d]) {| arr := length m; off := 0; len := length d |} = d.
Proof. unfold contents. simpl. rewrite list_lookup_middle by done. simpl. by rewrite take_ge. Qed.

Lemma contents_rest m s x d : in_bounds m s → contents m s = x :: d → contents m (rest s) = d ∧ in_bounds m (rest s).
Proof.
  unfold contents, in_bounds, rest. destruct s as [a o n]; simpl. set (bs := default [] (m !! a)). intros Hb Hc.
  destruct (drop o bs) as [|y ys] eqn:E; destruct n as [|n]; try done. simpl in *. simplify_eq.
  replace (S o) with (o + 1) by lia. rewrite <- drop_drop, E. simpl. split; [done|lia].
Qed.

(** Copying what a slice holds into a new array. *)
Lemma make_copy_fresh data b : in_bounds (mem b) data → arr data < length (mem b) →
  make_copy data b = fresh (contents (mem b) data) b.
Proof.
  intros Hb Ha. unfold make_copy, fresh, make, append. rewrite contents_app by done.
  assert (length (contents (mem b) data) = len data) as El.
  { unfold contents. rewrite length_take, length_drop. unfold in_bounds in Hb. lia. }
  unfold copy. simpl. rewrite take_ge, El by lia. do 2 f_equal.
  rewrite alter_app_r_alt, Nat.sub_diag by lia. simpl. by rewrite drop_replicate, Nat.sub_diag, app_nil_r.
Qed.

(** ** The invariant

    A slice that a channel holds is of an array of its own, that no goroutine reads into. *)

Definition reads_into (b : bworld) (a : nat) : Prop := a = arr (dev_buffer b) ∨ ∃ t s, readers b !! t = Some s ∧ arr s = a.

Definition private (b : bworld) (s : slice) : Prop := arr s < length (mem b) ∧ ¬ reads_into b (arr s).

Definition buffer_ok (b : bworld) (s : slice) : Prop :=
  off s = 0 ∧ len s = MaxBufferSize ∧ ∃ a, mem b !! arr s = Some a ∧ length a = MaxBufferSize.

Record binv (b : bworld) : Prop := {
  binv_queue : Forall (private b) (buf (queue b));
  binv_pipes l p : pipes b !! l = Some p → Forall (private b) (buf p);
  binv_readers t s : readers b !! t = Some s → buffer_ok b s;
  binv_dev : buffer_ok b (dev_buffer b);
}.

Lemma binv_pipe b l : binv b → Forall (private b) (buf (pipe b l)).
Proof. intros Hb. unfold pipe. destruct (pipes b !! l) eqn:E; [by eapply binv_pipes|constructor]. Qed.

(** The memory changes, but no array that a channel's slice is of. *)
Record mem_frame (b b' : bworld) : Prop := {
  frame_private s : private b s → private b' s ∧ contents (mem b') s = contents (mem b) s;
  frame_buffers s : buffer_ok b s → buffer_ok b' s;
  frame_queue : queue b' = queue b;
  frame_pipes : pipes b' = pipes b;
  frame_base : base b' = base b;
  frame_dev : dev_buffer b' = dev_buffer b;
}.

Lemma frame_values b b' (c : chan slice) : mem_frame b b' → Forall (private b) (buf c) → values (mem b') c = values (mem b) c.
Proof.
  intros Hf Hc. unfold values. f_equal. apply Forall_fmap_ext_1. eapply Forall_impl; [exact Hc|].
  intros s Hs. by apply (frame_private _ _ Hf s Hs).
Qed.

Lemma frame_fill b b' n : mem_frame b b' → binv b → fill b' n = fill b n.
Proof.
  intros Hf Hb. unfold fill. rewrite (frame_queue _ _ Hf), (frame_values b b') by (done || by apply Hb). do 2 f_equal.
  apply map_imap_ext. intros l. destruct (conns n !! l) as [c|]; simpl; [|done].
  assert (pipe b' l = pipe b l) as Hp by (unfold pipe; by rewrite (frame_pipes _ _ Hf)).
  unfold fill_conn. by rewrite Hp, (frame_values b b') by (done || by apply binv_pipe).
Qed.

Lemma frame_inv b b' : mem_frame b b' → binv b → (∀ t s, readers b' !! t = Some s → readers b !! t = Some s ∨ buffer_ok b' s) → binv b'.
Proof.
  intros Hf [Hq Hp Hr Hd] Hnew. split.
  - rewrite (frame_queue _ _ Hf). eapply Forall_impl; [exact Hq|]. intros s Hs. by apply (frame_private _ _ Hf).
  - intros l p. rewrite (frame_pipes _ _ Hf). intros Hl. eapply Forall_impl; [by eapply Hp|].
    intros s Hs. by apply (frame_private _ _ Hf).
  - intros t s [Ht|Ht]%Hnew; [|done]. apply (frame_buffers _ _ Hf). by eapply Hr.
  - rewrite (frame_dev _ _ Hf). by apply (frame_buffers _ _ Hf).
Qed.

Lemma buffer_bound b s : buffer_ok b s → arr s < length (mem b).
Proof. intros (_ & _ & a & Ha & _). by eapply lookup_lt_Some. Qed.

Lemma reads_into_bound b a : binv b → reads_into b a → a < length (mem b).
Proof.
  intros Hb [->|(t & s & Ht & <-)]; apply buffer_bound; [by apply binv_dev|by eapply binv_readers].
Qed.

Lemma alloc_frame b d : mem_frame b (with_mem (mem b ++ [d]) b).
Proof.
  split; try done.
  - intros s [Hs Hr]. split; [|by apply contents_app]. split; [simpl; rewrite length_app; simpl; lia|done].
  - intros s (Ho & Hl & a & Ha & Hla). split_and!; [done..|]. exists a. split; [by apply lookup_app_l_Some|done].
Qed.

Lemma fresh_spec b d : binv b →
  let '(b', s) := fresh d b in
  mem_frame b b' ∧ binv b' ∧ private b' s ∧ contents (mem b') s = d ∧
  dispatching b' = dispatching b ∧ readers b' = readers b.
Proof.
  intros Hb. simpl. pose proof (alloc_frame b d) as Hf. split_and!; try done.
  - apply (frame_inv b); [done|done|]. intros t s Ht. by left.
  - split; simpl; [rewrite length_app; simpl; lia|]. intros Hr. apply (reads_into_bound b) in Hr; [lia|done].
  - apply contents_last.
Qed.

#[local] Opaque MaxBufferSize.

(** What a goroutine reads is in its buffer, and in no slice of a channel. *)
Lemma read_spec b buffer d : binv b → buffer_ok b buffer → reads_into b (arr buffer) →
  let '(b', data) := read buffer d b in
  mem_frame b b' ∧ binv b' ∧ in_bounds (mem b') data ∧ arr data < length (mem b') ∧
  contents (mem b') data = take MaxBufferSize d ∧ dispatching b' = dispatching b ∧ readers b' = readers b.
Proof.
  intros Hb Hbuf Hr. pose proof (buffer_bound _ _ Hbuf) as Hlt. destruct (Hbuf) as (Ho & Hl & a & Ha & Hla).
  unfold read. set (m := copy buffer d (mem b)).
  assert (∃ a', m !! arr buffer = Some a' ∧ length a' = MaxBufferSize ∧
    take (min MaxBufferSize (length d)) a' = take MaxBufferSize d) as (a' & Ha' & Hla' & Hd).
  { unfold m, copy. rewrite list_lookup_alter_eq, Ha, Ho, Hl. simpl. eexists. split_and!; [done| |].
    - rewrite length_app, length_drop, length_take, Hla. lia.
    - rewrite take_app_le by (rewrite length_take; lia). apply take_ge. rewrite length_take. lia. }
  assert (∀ i, i ≠ arr buffer → m !! i = mem b !! i) as Hm.
  { intros i Hi. unfold m, copy. by rewrite list_lookup_alter_ne. }
  assert (length m = length (mem b)) as Hlen by apply length_alter.
  assert (mem_frame b (with_mem m b)) as Hf.
  { split; try done.
    - intros s [Hs Hns]. assert (arr s ≠ arr buffer) by (intros E; by rewrite E in Hns).
      split; [split; [simpl; lia|done]|]. unfold contents. simpl. by rewrite Hm.
    - intros s (Hos & Hls & x & Hx & Hlx). split_and!; [done..|]. simpl.
      destruct (decide (arr s = arr buffer)) as [->|]; [eauto|]. rewrite Hm by done. eauto. }
  split_and!; try done.
  - apply (frame_inv b); [done|done|]. intros t s Ht. by left.
  - unfold in_bounds. simpl. rewrite Ha'. simpl. rewrite Ho, Hla', Hl. lia.
  - simpl. lia.
  - unfold contents. simpl. rewrite Ha', Ho, Hl. simpl. done.
Qed.

#[local] Transparent MaxBufferSize.

Lemma start_read_spec l b : binv b → mem_frame b (start_read l b) ∧ binv (start_read l b).
Proof.
  intros Hb. set (a := replicate MaxBufferSize Byte.x00). pose proof (alloc_frame b a) as Ha.
  assert (∀ t s, readers (start_read l b) !! t = Some s →
    readers b !! t = Some s ∨ (s = {| arr := length (mem b); off := 0; len := MaxBufferSize |})) as Hr.
  { intros t s Ht. change (<[S l := {| arr := length (mem b); off := 0; len := MaxBufferSize |}]> (readers b) !! t = Some s) in Ht.
    apply lookup_insert_Some in Ht as [[<- <-]|[_ Ht]]; [by right|by left]. }
  assert (mem_frame b (start_read l b)) as Hf.
  { split; try done; [|by apply (frame_buffers _ _ Ha)]. intros s Hs.
    destruct (frame_private _ _ Ha s Hs) as [[Hl Hn] Hc]. split; [|done]. split; [done|].
    intros [Hd|(t & s' & [Ht| ->]%Hr & He)]; [by apply Hn; left|apply Hn; right; eauto|].
    simpl in He. destruct Hs as [Hs _]. lia. }
  split; [done|]. apply (frame_inv b); [done|done|].
  intros t s [Ht| ->]%Hr; [by left|]. right. split_and!; [done..|].
  exists a. split; [|apply length_replicate]. by apply list_lookup_middle.
Qed.

(** ** Sending *)

Lemma values_push m s c : values m (chan_push s c) = chan_push (contents m s) (values m c).
Proof. unfold values, chan_push. simpl. by rewrite fmap_app. Qed.

Lemma values_full m c : chan_full (values m c) = chan_full c.
Proof. unfold chan_full, values. simpl. by rewrite length_fmap. Qed.

Lemma private_push b s (c : chan slice) : Forall (private b) (buf c) → private b s → Forall (private b) (buf (chan_push s c)).
Proof. intros Hc Hs. simpl. apply Forall_app. by split; [|constructor]. Qed.

Lemma binv_with_queue b q : binv b → Forall (private b) (buf q) → binv (with_queue q b).
Proof. intros [] Hq. by split. Qed.

Lemma binv_with_base b n : binv b → binv (with_base n b).
Proof. intros []. by split. Qed.

Lemma binv_with_pipe b l p : binv b → Forall (private b) (buf p) → binv (with_pipe l p b).
Proof.
  intros [] Hp. split; try done. simpl. intros l' p' [[<- <-]|[_ Hl]]%lookup_insert_Some; [done|]. by eapply binv_pipes0.
Qed.

Lemma fill_with_pipe b l p n c : conns n !! l = Some c →
  fill (with_pipe l p b) n = store l (with_pipeline (values (mem b) p) c) (fill b n).
Proof.
  intros Hc. unfold fill, store. simpl. unfold with_device, with_conns. simpl. f_equal.
  apply map_eq. intros l'. rewrite map_lookup_imap. destruct (decide (l = l')) as [<-|Hne].
  - rewrite Hc, lookup_insert_eq. unfold fill_conn, pipe. simpl. by rewrite lookup_insert_eq.
  - rewrite lookup_insert_ne, map_lookup_imap by done. destruct (conns n !! l') as [c'|]; [|done]. simpl.
    unfold fill_conn, pipe. simpl. by rewrite lookup_insert_ne.
Qed.


(** ** Operations that leave the queues alone

    They do to the node with its queues filled in what they do to [base]. *)

Definition commutes (b : bworld) (f : Node → outcome Node) (n : Node) : Prop :=
  f (fill b n) = n' ← f n; Ret (fill b n').

Lemma conns_fill b n l : conns (fill b n) !! l = fill_conn b l <$> conns n !! l.
Proof. simpl. rewrite map_lookup_imap. by destruct (conns n !! l). Qed.

Lemma deref_fill b n l : deref (fill b n) l = c ← deref n l; Ret (fill_conn b l c).
Proof. unfold deref. rewrite conns_fill. by destruct (conns n !! l). Qed.

Lemma store_fill b n l c : store l (fill_conn b l c) (fill b n) = fill b (store l c n).
Proof. unfold fill, store, with_conns, with_device. simpl. f_equal. symmetry. by apply map_imap_insert_Some. Qed.

Lemma onPong_commutes b po now n : commutes b (onPong po now) n.
Proof.
  unfold commutes, onPong. simpl. destruct (connections n !! _) as [l|]; [|done].
  rewrite deref_fill. destruct (deref n l) as [c| |]; simpl; [|done..].
  rewrite <- store_fill. do 2 f_equal. by case_bool_decide.
Qed.

Lemma openTunnelAck_commutes b o n : commutes b (openTunnelAck o) n.
Proof. unfold commutes, openTunnelAck. by destruct (Encode _ _). Qed.

Lemma openConnection_commutes b o now n :
  pipes b !! next_conn n = None → commutes b (openConnection Dial o now) n.
Proof.
  intros Hp. unfold commutes, openConnection. destruct (Dial _) as [remote|]; [|done].
  rewrite <- openTunnelAck_commutes. f_equal. simpl. unfold fill, store, with_next_conn, with_conns, with_device. simpl. f_equal.
  symmetry. apply map_imap_insert_Some. unfold fill_conn, pipe. by rewrite Hp.
Qed.

(** The same, for what returns a value besides. *)
Definition commutes_pair {A} (b : bworld) (f : Node → outcome (Node * A)) (n : Node) : Prop :=
  f (fill b n) = '(n', r) ← f n; Ret (fill b n', r).

Lemma commutes_with {A} b (f : Node → outcome Node) n (r : A) :
  commutes b f n → commutes_pair b (λ n, n ← f n; Ret (n, r)) n.
Proof. unfold commutes, commutes_pair. intros ->. by destruct (f n). Qed.

Lemma onOpenTunnel_select_commutes b o n : commutes_pair b (onOpenTunnel_select o) n.
Proof.
  unfold commutes_pair, onOpenTunnel_select. simpl. destruct (connections n !! _) as [l|]; [|done].
  rewrite deref_fill. destruct (deref n l) as [c| |]; simpl; [|done..].
  case_bool_decide; [by apply commutes_with, openTunnelAck_commutes|done].
Qed.

Lemma onOpenTunnel_close_commutes b l n : commutes b (onOpenTunnel_close l) n.
Proof.
  unfold commutes, onOpenTunnel_close. simpl. rewrite deref_fill. destruct (deref n l) as [c| |]; simpl; [|done..].
  unfold close_default. simpl. destruct (die c); simpl; [done|]. by rewrite <- store_fill.
Qed.

Lemma reopen_commutes b now n : pipes b !! next_conn n = None → commutes b (reopen Dial now) n.
Proof.
  intros Hp. unfold commutes, reopen. simpl. destruct (mjoin _) as [[]|]; try done.
  by apply openConnection_commutes.
Qed.

Lemma dispatch_commutes b pt now nonce n :
  pt ≠ PacketType.Ping → pipes b !! next_conn n = None → commutes_pair b (Node.dispatch pt now nonce) n.
Proof.
  intros Hpt Hp. unfold commutes_pair, Node.dispatch. rewrite (bool_decide_eq_false_2 (pt = _)) by done. simpl.
  repeat case_bool_decide; [| |done]; repeat case_match; try done;
    [by apply commutes_with, onPong_commutes|by apply onOpenTunnel_select_commutes].
Qed.

Lemma handle_decode_commutes b x d n : byte_val x ≠ PacketType.Data →
  Node.handle_decode (x :: d) (fill b n) = '(n', r) ← Node.handle_decode (x :: d) n; Ret (fill b n', r).
Proof.
  intros Hx. unfold Node.handle_decode. rewrite (bool_decide_eq_false_2 (_ = PacketType.Data)) by done. simpl.
  case_bool_decide; [done|]. destruct (mjoin _) as [m|]; [|done]. by destruct (unmarshal _ _).
Qed.

(** [forward] but for its established connections. *)
Lemma forward_commutes b v d now n :
  (∀ l c, connections n !! v = Some l → conns n !! l = Some c → state c ≠ StateEstablished) →
  commutes b (Node.forward v d now) n.
Proof.
  intros Hst. unfold commutes, Node.forward. simpl. destruct (connections n !! v) as [l|] eqn:E; [|by repeat case_match].
  rewrite deref_fill. unfold deref. destruct (conns n !! l) as [c|] eqn:Ec; simpl; [|done].
  rewrite !bool_decide_eq_false_2 by eauto. by destruct (Encode _ _).
Qed.

Lemma request_done_commutes b i n : commutes b (request_done i) n.
Proof. unfold commutes, request_done. simpl. by destruct (requests n !! i). Qed.

Lemma heartbeat_commutes b n : commutes b heartbeat n.
Proof. unfold commutes, heartbeat, heartbeat_data. simpl. by destruct (Encode _ _). Qed.

Lemma conn_start_commutes b l now n : commutes b (Node.conn_start l now) n.
Proof.
  unfold commutes, Node.conn_start. rewrite deref_fill. destruct (deref n l) as [c| |]; simpl; [|done..].
  rewrite <- store_fill. do 2 f_equal. unfold loop_start. simpl. by destruct (once c).
Qed.

Lemma loop_step_pipeline now nonce ev q c : ev ≠ EvPipeline →
  loop_step now nonce ev (with_pipeline q c) = c' ← loop_step now nonce ev c; Ret (with_pipeline q c').
Proof.
  intros Hev. unfold loop_step, ping, close_select, close_default. simpl. destruct (pc c); [done| | |done].
  - destruct ev; [| |done| |done].
    + case_bool_decide; [done|]. simpl. by destruct (Encode _ _).
    + repeat case_bool_decide; [by destruct (die c)|done|]. simpl. by destruct (Encode _ _).
    + simpl. by destruct (die c).
  - destruct ev; try done. by destruct (die c).
Qed.

Lemma conn_turn_commutes b l now nonce ev n : ev ≠ EvPipeline → commutes b (conn_turn l now nonce ev) n.
Proof.
  intros Hev. unfold commutes, conn_turn. rewrite deref_fill. destruct (deref n l) as [c| |]; simpl; [|done..].
  unfold fill_conn. rewrite loop_step_pipeline by done. destruct (loop_step now nonce ev c) as [c'| |]; simpl; [|done..].
  change (with_pipeline _ c') with (fill_conn b l c'). rewrite store_fill. by case_decide.
Qed.


(** ** The simulation *)

Lemma read_slice buffer d b : (read buffer d b).2 = prefix (min (len buffer) (length d)) buffer.
Proof. done. Qed.

#[local] Opaque make_copy fresh read.

(** Two pieces of code end in the same way, with related values. *)
Definition outcome_rel {A B} (R : A → B → Prop) (x : outcome A) (y : outcome B) : Prop :=
  match x, y with
  | Ret a, Ret b => R a b
  | Panic m, Panic m' => m = m'
  | Block, Block => True
  | _, _ => False
  end.

Lemma outcome_rel_bind {A B A' B'} (R : A → B → Prop) (S : A' → B' → Prop) x y f g :
  outcome_rel R x y → (∀ a b, R a b → outcome_rel S (f a) (g b)) → outcome_rel S (x ≫= f) (y ≫= g).
Proof. destruct x, y; simpl; try done. intros HR Hf. by apply Hf. Qed.

Lemma outcome_rel_mono {A B} (R S : A → B → Prop) x y :
  (∀ a b, R a b → S a b) → outcome_rel R x y → outcome_rel S x y.
Proof. destruct x, y; simpl; auto. Qed.

(** After an operation on [b]: [b'] is a state of the value-passing node [n'], and a
    connection that got its first packet is one that the node has. *)
Record shows (b b' : bworld) (n' : Node) : Prop := {
  shows_fill : n' = fill b' (base b');
  shows_inv : binv b';
  shows_dispatching : dispatching b' = dispatching b;
  shows_pipes l : is_Some (pipes b' !! l) → is_Some (pipes b !! l) ∨ is_Some (conns (base b) !! l);
}.

Definition shows_pair {A} (b : bworld) (x : bworld * A) (y : Node * A) : Prop := shows b x.1 y.1 ∧ x.2 = y.2.

Lemma shows_same b : binv b → shows b b (fill b (base b)).
Proof. split; auto. Qed.

Lemma frame_sim b0 b x y : mem_frame b0 b → dispatching b = dispatching b0 →
  outcome_rel (shows b) x y → outcome_rel (shows b0) x y.
Proof.
  intros Hf Hd. apply outcome_rel_mono. intros b' n' []. split; try done; [congruence|].
  rewrite <- (frame_pipes _ _ Hf), <- (frame_base _ _ Hf). done.
Qed.

Lemma on_base_sim b f : binv b → commutes b f (base b) →
  outcome_rel (shows b) (on_base f b) (f (fill b (base b))).
Proof.
  intros Hb Hc. unfold on_base. rewrite Hc. destruct (f (base b)) as [n| |]; simpl; [|done..].
  split; [done|by apply binv_with_base|done|auto].
Qed.

Lemma send_queue_sim b s d : binv b → private b s → contents (mem b) s = d →
  outcome_rel (shows b) (q ← chan_send s (queue b); Ret (with_queue q b))
    (q ← chan_send d (values (mem b) (queue b)); Ret (with_device q (fill b (base b)))).
Proof.
  intros Hb Hs Hd. unfold chan_send. rewrite values_full. destruct (chan_full _); simpl; [done|].
  split; [|apply binv_with_queue; [done|apply private_push; [by apply Hb|done]]|done|auto].
  rewrite <- Hd, <- values_push. done.
Qed.

Lemma pipe_sim b l p c : binv b → Forall (private b) (buf p) → conns (base b) !! l = Some c →
  shows b (with_pipe l p b) (store l (with_pipeline (values (mem b) p) c) (fill b (base b))).
Proof.
  intros Hb Hp Hc. split; [|by apply binv_with_pipe|done|].
  - simpl. by rewrite (fill_with_pipe b l p (base b) c).
  - simpl. intros l' [<-|[_ Hl]]%lookup_insert_is_Some; [right; by rewrite Hc|by left].
Qed.

Lemma handle_decode_sim b data : binv b → in_bounds (mem b) data → arr data < length (mem b) →
  outcome_rel (shows_pair b) (handle_decode data b)
    (Node.handle_decode (contents (mem b) data) (fill b (base b))).
Proof.
  intros Hb Hin Ha. unfold handle_decode. destruct (contents (mem b) data) as [|x d] eqn:E.
  - simpl. split; [by apply shows_same|done].
  - case_bool_decide as Hx.
    + destruct (contents_rest _ _ _ _ Hin E) as [Hd Hin']. rewrite make_copy_fresh, Hd by done.
      unfold Node.handle_decode. rewrite bool_decide_eq_true_2 by done.
      pose proof (fresh_spec b d Hb) as Hf. destruct (fresh d b) as [b' s]. destruct Hf as (Hf & Hb' & Hs & Hc & Hdisp & _).
      change (device (fill b (base b))) with (values (mem b) (queue b)).
      rewrite <- (frame_values b b'), <- (frame_queue _ _ Hf), <- (frame_fill b b'), <- (frame_base _ _ Hf) by (done || by apply Hb).
      pose proof (frame_sim _ _ _ _ Hf Hdisp (send_queue_sim b' s d Hb' Hs Hc)) as Hq.
      destruct (chan_send s (queue b')), (chan_send d (values (mem b') (queue b'))); done.
    + rewrite handle_decode_commutes by done. destruct (Node.handle_decode (x :: d) (base b)) as [[n r]| |]; simpl; [|done..].
      split; [|done]. split; [done|by apply binv_with_base|done|auto].
Qed.


(** A slice [s] of a new array in memory [b'] is sent to the connection [l]. *)
Lemma send_pipe_sim b l c d : binv b → conns (base b) !! l = Some c →
  outcome_rel (shows b) (let '(b', s) := fresh d b in p ← chan_send s (pipe b' l); Ret (with_pipe l p b'))
    (p ← chan_send d (pipeline (fill_conn b l c)); Ret (store l (with_pipeline p (fill_conn b l c)) (fill b (base b)))).
Proof.
  intros Hb Hl. pose proof (fresh_spec b d Hb) as Hf. destruct (fresh d b) as [b' s].
  destruct Hf as (Hf & Hb' & Hs & Hc & Hd & _). apply (frame_sim b b'); [done..|]. simpl.
  assert (pipe b' l = pipe b l) as Hp by (unfold pipe; by rewrite (frame_pipes _ _ Hf)).
  rewrite <- Hp, <- (frame_values b b') by (done || rewrite Hp; by apply binv_pipe).
  unfold chan_send. rewrite values_full. destruct (chan_full _); simpl; [done|].
  rewrite <- Hc, <- values_push, <- (frame_fill b b'), <- (frame_base _ _ Hf) by done.
  apply (pipe_sim b' l _ c); [done| |by rewrite (frame_base _ _ Hf)]. apply private_push; [by apply binv_pipe|done].
Qed.

Lemma try_send_pipe_sim b l c d : binv b → conns (base b) !! l = Some c →
  let '(b', s) := fresh d b in
  shows b (with_pipe l (chan_try_send s (pipe b' l)).1 b')
    (store l (with_pipeline (chan_try_send d (pipeline (fill_conn b l c))).1 (fill_conn b l c)) (fill b (base b))).
Proof.
  intros Hb Hl. pose proof (send_pipe_sim b l c d Hb Hl) as Hs. pose proof (fresh_spec b d Hb) as Hf.
  destruct (fresh d b) as [b' s]. destruct Hf as (Hf & Hb' & _ & _ & Hd & _).
  assert (pipe b' l = pipe b l) as Hp by (unfold pipe; by rewrite (frame_pipes _ _ Hf)).
  unfold chan_send, chan_try_send in *. simpl in Hs |- *. rewrite Hp, values_full in *.
  destruct (chan_full (pipe b l)); simpl in *; [|done].
  assert (shows b' (with_pipe l (pipe b l) b') (store l (with_pipeline (values (mem b') (pipe b l)) c) (fill b' (base b')))) as Hw.
  { apply (pipe_sim b' l _ c); [done|rewrite <- Hp; by apply binv_pipe|by rewrite (frame_base _ _ Hf)]. }
  pose proof (frame_sim b b' (Ret _) (Ret _) Hf Hd Hw) as Hw'. simpl in Hw'.
  rewrite (frame_values b b') in Hw' by (done || by apply binv_pipe).
  by rewrite (frame_fill b b'), (frame_base _ _ Hf) in Hw'.
Qed.

Lemma onPing_sim b pi nonce : binv b → outcome_rel (shows b) (onPing pi nonce b) (Node.onPing pi nonce (fill b (base b))).
Proof.
  intros Hb. unfold onPing, Node.onPing. change (connections (fill b (base b))) with (connections (base b)).
  destruct (connections (base b) !! _) as [l|]; [|by apply shows_same]. simpl.
  destruct (Encode _ _) as [d| |]; simpl; [|done..]. rewrite deref_fill. unfold deref.
  destruct (conns (base b) !! l) as [c|] eqn:Ec; simpl; [|done]. by apply send_pipe_sim.
Qed.

Lemma sim_with {A} b x y (r : A) :
  outcome_rel (shows b) x y → outcome_rel (shows_pair b) (b ← x; Ret (b, r)) (n ← y; Ret (n, r)).
Proof. intros Hs. eapply outcome_rel_bind; [exact Hs|]. by split. Qed.

Lemma on_base_pair_sim {A} b (f : Node → outcome (Node * A)) : binv b → commutes_pair b f (base b) →
  outcome_rel (shows_pair b) ('(n, r) ← f (base b); Ret (with_base n b, r)) (f (fill b (base b))).
Proof.
  intros Hb Hc. rewrite Hc. destruct (f (base b)) as [[n r]| |]; simpl; [|done..].
  split; [|done]. split; [done|by apply binv_with_base|done|auto].
Qed.

Lemma dispatch_sim b pt now nonce : binv b → pipes b !! next_conn (base b) = None →
  outcome_rel (shows_pair b) (dispatch pt now nonce b) (Node.dispatch pt now nonce (fill b (base b))).
Proof.
  intros Hb Hn. unfold dispatch. case_bool_decide as Hpt.
  - unfold Node.dispatch. rewrite bool_decide_eq_true_2 by done. change (protos (fill b (base b))) with (protos (base b)).
    destruct (mjoin _) as [[]|]; try done. by apply sim_with, onPing_sim.
  - by apply on_base_pair_sim, dispatch_commutes.
Qed.

Lemma forward_sim b v data now : binv b → in_bounds (mem b) data → arr data < length (mem b) →
  outcome_rel (shows b) (forward v data now b) (Node.forward v (contents (mem b) data) now (fill b (base b))).
Proof.
  intros Hb Hin Ha. unfold forward. destruct (connections (base b) !! v) as [l|] eqn:El.
  2:{ apply on_base_sim; [done|]. apply forward_commutes. congruence. }
  unfold deref. destruct (conns (base b) !! l) as [c|] eqn:Ec; simpl.
  2:{ unfold Node.forward. simpl. by rewrite El, deref_fill; unfold deref; rewrite Ec. }
  case_bool_decide as Hst.
  2:{ apply on_base_sim; [done|]. apply forward_commutes. congruence. }
  unfold Node.forward. change (connections (fill b (base b))) with (connections (base b)).
  rewrite El, deref_fill. unfold deref. rewrite Ec. simpl. rewrite bool_decide_eq_true_2 by done.
  rewrite make_copy_fresh by done. pose proof (fresh_spec b (contents (mem b) data) Hb) as Hf.
  destruct (fresh (contents (mem b) data) b) as [b1 s]. destruct Hf as (Hf & Hb1 & Hs & Hc & Hd & _). rewrite Hc.
  pose proof (try_send_pipe_sim b1 l c (EncodeRaw (contents (mem b) data)) Hb1) as Ht.
  destruct (fresh (EncodeRaw (contents (mem b) data)) b1) as [b2 s2]. cbn beta iota in Ht.
  rewrite (frame_base _ _ Hf), (frame_fill b b1) in Ht by done. specialize (Ht Ec).
  assert (fill_conn b1 l c = fill_conn b l c) as Hfc.
  { unfold fill_conn, pipe. rewrite (frame_pipes _ _ Hf). by rewrite (frame_values b b1) by (done || by apply binv_pipe). }
  rewrite Hfc in Ht. exact (frame_sim b b1 (Ret _) (Ret _) Hf Hd Ht).
Qed.

Lemma device_packet_sim b data now : binv b → in_bounds (mem b) data → arr data < length (mem b) →
  outcome_rel (shows b) (device_packet data now b)
    (Node.device_packet decodeIPv4 string6 (contents (mem b) data) now (fill b (base b))).
Proof.
  intros Hb Hin Ha. unfold device_packet, Node.device_packet. destruct (decodeIPv4 _) as [ip|]; [|by apply shows_same]. simpl.
  destruct (negb _); [by apply shows_same|]. case_bool_decide; [|by apply forward_sim].
  rewrite make_copy_fresh by done. pose proof (fresh_spec b (contents (mem b) data) Hb) as Hf.
  destruct (fresh (contents (mem b) data) b) as [b' s]. destruct Hf as (Hf & Hb' & Hs & Hc & Hd & _).
  rewrite <- (frame_values b b'), <- (frame_queue _ _ Hf), <- (frame_fill b b'), <- (frame_base _ _ Hf) by (done || by apply Hb).
  apply (frame_sim b b'); [done..|]. by apply send_queue_sim.
Qed.

(** A shorter slice of the same buffer. *)
Lemma contents_shorter m s k n : n <= k → in_bounds m (prefix k s) →
  contents m (prefix n s) = take n (contents m (prefix k s)) ∧ in_bounds m (prefix n s).
Proof.
  intros Hn Hk. unfold contents, in_bounds in *. simpl in *. rewrite take_take, Nat.min_l by done. split; [done|lia].
Qed.

#[local] Opaque MaxBufferSize.

Lemma device_read_sim b p now : binv b →
  outcome_rel (shows b) (device_read p now b) (Node.device_read decodeIPv4 string6 p now (fill b (base b))).
Proof.
  intros Hb. unfold device_read, Node.device_read. destruct (binv_dev b Hb) as (_ & Hlen & _).
  pose proof (read_spec b (dev_buffer b) p Hb (binv_dev b Hb)) as Hs.
  pose proof (read_slice (dev_buffer b) p b) as Hsl. destruct (read (dev_buffer b) p b) as [b' data].
  destruct Hs as (Hf & Hb' & Hin & Ha & Hc & Hd & _); [by left|]. simpl in Hsl. subst data.
  unfold slice_to, dev_read. rewrite (frame_dev _ _ Hf), Hlen in *. case_bool_decide as Hle; simpl; [|done].
  pose proof (dev_count_le p) as Hcount.
  destruct (contents_shorter (mem b') (dev_buffer b) (min MaxBufferSize (length p)) (dev_count p)) as [Hc' Hin']; [lia|done|].
  rewrite Hc, take_take, Nat.min_l in Hc' by done. rewrite <- Hc', <- (frame_fill b b'), <- (frame_base _ _ Hf) by done.
  apply (frame_sim b b'); [done..|]. by apply device_packet_sim.
Qed.

#[local] Transparent MaxBufferSize.

Lemma device_write_sim e b : binv b → outcome_rel (shows b) (device_write e b) (Node.device_write e (fill b (base b))).
Proof.
  intros Hb. unfold device_write, Node.device_write, chan_recv. simpl. destruct (queue b) as [k [|s ss]] eqn:Eq; [done|].
  simpl. destruct (dev_write e _) as [out| |]; simpl; [|done..].
  pose proof (binv_queue b Hb) as Hq. rewrite Eq in Hq. apply Forall_cons in Hq as [_ Hq].
  split; [done|by apply binv_with_base, binv_with_queue|done|auto].
Qed.

Lemma conn_start_sim b l now : binv b → outcome_rel (shows b) (conn_start l now b) (Node.conn_start l now (fill b (base b))).
Proof.
  intros Hb. unfold conn_start. destruct (deref (base b) l) as [c| |] eqn:Ed; simpl.
  2-3: unfold Node.conn_start; by rewrite deref_fill, Ed.
  destruct (once c); [by apply on_base_sim, conn_start_commutes|].
  destruct (start_read_spec l b Hb) as [Hf Hb']. apply (frame_sim b (start_read l b)); [done..|].
  rewrite <- (frame_fill b (start_read l b)) by done. by apply (on_base_sim (start_read l b)), conn_start_commutes.
Qed.

Lemma pipeline_turn_sim b l c now nonce connecting ticker :
  binv b → conns (base b) !! l = Some c → pc c = Running connecting ticker →
  outcome_rel (shows b) (pipeline_turn l b)
    (if ready now EvPipeline (fill_conn b l c) then conn_turn l now nonce EvPipeline (fill b (base b)) else Block).
Proof.
  intros Hb Hl Hpc. unfold pipeline_turn, deref. rewrite Hl. unfold ready, conn_turn. simpl. rewrite Hpc.
  rewrite deref_fill. unfold deref, chan_recv. rewrite Hl. simpl.
  pose proof (binv_pipe b l Hb) as Hp. destruct (pipe b l) as [k [|s ss]] eqn:Ep; simpl; [done|].
  unfold loop_step, chan_recv. simpl. rewrite Hpc, Ep. simpl. rewrite decide_False by congruence.
  apply Forall_cons in Hp as [_ Hp]. set (c' := send (contents (mem b) s) c).
  pose proof (pipe_sim (with_base (store l c' (base b)) b) l (Chan k ss) c') as Hs.
  destruct Hs as [Hfill Hinv _ Hpipes]; [by apply binv_with_base|done|simpl; by rewrite lookup_insert_eq|].
  split; [|done|done|].
  - etrans; [|exact Hfill]. change (fill (with_base _ b) _) with (fill b (store l c' (base b))).
    rewrite <- store_fill. unfold store, with_conns, with_device. simpl. f_equal. by rewrite insert_insert_eq.
  - intros l' Hl'. destruct (Hpipes l' Hl') as [?|Hc]; [by left|]. simpl in Hc. apply lookup_insert_is_Some in Hc as [<-|[_ ?]]; [right; by rewrite Hl|by right].
Qed.

(** The value-passing step of a connection's loop, on a connection that is not in it. *)
Lemma ready_not_running now c : (∀ x y, pc c ≠ Running x y) → ready now EvPipeline c = false.
Proof. unfold ready. destruct (pc c); naive_solver. Qed.

Lemma ready_fill b l now ev c : ev ≠ EvPipeline → ready now ev (fill_conn b l c) = ready now ev c.
Proof. intros Hev. unfold ready. simpl. by destruct (pc c), ev. Qed.

Definition simulates (b : bworld) : bworld → world → Prop :=
  λ b' w', w' = abs b' ∧ binv b' ∧ ∀ l, is_Some (pipes b' !! l) → is_Some (pipes b !! l) ∨ is_Some (conns (base b) !! l).

(** A step of a goroutine that does not touch [dispatching]. *)
Lemma on_node_sim b b' x f : binv b → mem_frame b b' → dispatching b' = dispatching b →
  outcome_rel (shows b') x (f (fill b (base b))) → outcome_rel (simulates b) x (on_node f (abs b)).
Proof.
  intros Hb Hf Hd Hs. apply (frame_sim b b') in Hs; [|done..]. unfold on_node. simpl.
  destruct x as [b''| |], (f (fill b (base b))) as [n| |]; simpl in *; try done.
  destruct Hs as [-> Hi Hdd Hp]. split_and!; [|done..]. unfold abs. by rewrite Hdd.
Qed.

Lemma mem_frame_refl b : mem_frame b b.
Proof. done. Qed.

#[local] Hint Resolve mem_frame_refl : core.

Lemma shows_abs b b' (d : gmap nat handling) n : shows b b' n →
  simulates b (with_dispatching d b') {| Node.node := n; Node.dispatching := d |}.
Proof. intros [-> Hi Hd Hp]. split_and!; [done|by destruct Hi|done]. Qed.

Lemma decode_step_sim b t d : binv b → is_Some (readers b !! t) →
  outcome_rel (simulates b) (bexec (Step (LDecode t d)) b) (Node.exec Dial decodeIPv4 string6 (LDecode t d) (abs b)).
Proof.
  intros Hb [buffer Hbuf]. unfold bexec, read_turn, Node.exec. rewrite Hbuf. simpl. destruct (dispatching b !! t); [done|].
  pose proof (read_spec b buffer d Hb) as Hr. destruct (read buffer d b) as [b' data].
  destruct Hr as (Hf & Hb' & Hin & Ha & Hc & Hd & _); [by eapply binv_readers|right; eauto|].
  pose proof (handle_decode_sim b' data Hb' Hin Ha) as Hs. rewrite Hc, (frame_fill b b'), (frame_base _ _ Hf) in Hs by done.
  eapply outcome_rel_bind; [exact Hs|]. clear -Hf Hd. intros [b'' r] [n r'] [Hsh Hr]. simpl in *. subst r'.
  destruct Hsh as [-> Hi Hd' Hp]. rewrite (frame_pipes _ _ Hf), (frame_base _ _ Hf) in Hp.
  split_and!; [|by destruct Hi|done]. unfold abs. simpl. by rewrite Hd', Hd.
Qed.

Lemma exec_sim lbl b : binv b → pipes b !! next_conn (base b) = None → reading lbl b →
  outcome_rel (simulates b) (bexec (Step lbl) b) (Node.exec Dial decodeIPv4 string6 lbl (abs b)).
Proof.
  intros Hb Hn Hr. destruct lbl as [t d|t pt now nonce|t|t now|d now|e|i| |l now|l now nonce ev]; [by apply decode_step_sim|..]; simpl.
  - case_decide; [|done]. eapply outcome_rel_bind; [by apply dispatch_sim|].
    intros [b' r] [n r'] [Hs Hrr]. simpl in *. subst r'. rewrite (shows_dispatching _ _ _ Hs). by apply shows_abs.
  - destruct (dispatching b !! t) as [[|l|]|]; [done| |done..].
    eapply outcome_rel_bind; [by apply on_base_sim, onOpenTunnel_close_commutes|].
    intros b' n Hs. rewrite (shows_dispatching _ _ _ Hs). by apply shows_abs.
  - destruct (dispatching b !! t) as [[|l|]|]; [done..| |done].
    eapply outcome_rel_bind; [by apply on_base_sim, reopen_commutes|].
    intros b' n Hs. rewrite (shows_dispatching _ _ _ Hs). by apply shows_abs.
  - apply (on_node_sim b b); [done..|]. by apply device_read_sim.
  - apply (on_node_sim b b); [done..|]. by apply device_write_sim.
  - apply (on_node_sim b b); [done..|]. by apply on_base_sim, request_done_commutes.
  - apply (on_node_sim b b); [done..|]. by apply on_base_sim, heartbeat_commutes.
  - rewrite map_lookup_imap. destruct (conns (base b) !! l) as [c|]; simpl; [|done]. case_decide; [|done].
    apply (on_node_sim b b); [done..|]. by apply conn_start_sim.
  - rewrite map_lookup_imap. destruct (conns (base b) !! l) as [c|] eqn:Ec; simpl; [|done]. case_decide as Hev.
    + subst ev. destruct (pc c) as [|x y|x y|] eqn:Epc.
      1,3,4: by rewrite ready_not_running by (simpl; congruence).
      pose proof (pipeline_turn_sim b l c now nonce x y Hb Ec Epc) as Hs. destruct (ready _ _ _); [by apply (on_node_sim b b)|].
      by destruct (pipeline_turn l b).
    + rewrite ready_fill by done. destruct (ready now ev c); [|done].
      apply (on_node_sim b b); [done..|]. by apply on_base_sim, conn_turn_commutes.
Qed.


(** ** Runs *)

Context `{!ProtoLaws _}.

Abbreviation world_init := (Node.world_init parse6).
Abbreviation step := (Node.step Dial decodeIPv4 string6).
Abbreviation exec := (Node.exec Dial decodeIPv4 string6).
Abbreviation node_inv := (Node.node_inv parse6).

(** What holds of every state with slices. *)
Record sound (o : Options) (b : bworld) : Prop := {
  sound_inv : binv b;
  sound_pipes l : is_Some (pipes b !! l) → is_Some (conns (base b) !! l);
  sound_abs : rtc step (world_init o) (abs b);
}.

Lemma sound_next o b : valid_string (Address o) = true → sound o b → pipes b !! next_conn (base b) = None.
Proof.
  intros Ho [_ Hp Ha]. apply eq_None_not_Some. intros [c Hc]%Hp. pose proof (reachable_inv _ _ _ _ _ _ Ho Ha) as Hn.
  assert (conns (Node.node (abs b)) !! next_conn (base b) = Some (fill_conn b (next_conn (base b)) c)) as E.
  { simpl. by rewrite map_lookup_imap, Hc. }
  destruct (inv_conns _ _ Hn _ _ E) as [_ Hlt]. simpl in Hlt. lia.
Qed.

Lemma read_fails_sound o b b' t : sound o b → bexec (ReadFails t) b = Ret b' → abs b' = abs b ∧ sound o b'.
Proof.
  intros [Hi Hp Ha]. simpl. unfold read_fails. destruct (readers b !! t) as [?|]; [|done]. destruct (dispatching b !! t); [done|]. intros [= <-].
  set (r := if decide (t = 0) then _ else _). assert (∀ u x, r !! u = Some x → readers b !! u = Some x) as Hr.
  { intros u x. unfold r. case_decide; [done|]. by intros [_ ?]%lookup_delete_Some. }
  split; [done|]. split; [|done|done]. apply (frame_inv b); [|done|intros u x Hu; left; by apply Hr].
  split; try done. intros x [Hx Hn]. split; [|done]. split; [done|].
  intros [?|(u & s' & Hu & He)]; apply Hn; [by left|right; eauto].
Qed.

Lemma step_sound o b b' lbl : valid_string (Address o) = true → sound o b → blabel_ok lbl = true →
  bexec lbl b = Ret b' → sound o b'.
Proof.
  intros Ho Hb Hok Hs. destruct lbl as [lbl|t]; [|by eapply read_fails_sound].
  assert (reading lbl b) as Hr.
  { destruct lbl; try done. simpl in Hs |- *. unfold read_turn in Hs. destruct (readers b !! t); [eauto|done]. }
  pose proof (exec_sim lbl b (sound_inv _ _ Hb) (sound_next _ _ Ho Hb) Hr) as Hsim. rewrite Hs in Hsim.
  destruct (exec lbl (abs b)) as [w'| |] eqn:E; try done. destruct Hsim as (-> & Hi & Hp).
  destruct Hb as [_ Hpb Ha]. split; [done| |].
  - intros l Hl. assert (is_Some (conns (base b) !! l)) as Hc by (destruct (Hp l Hl); auto).
    assert (is_Some (conns (fill b (base b)) !! l)) as Hc' by (rewrite conns_fill; by apply fmap_is_Some).
    apply (exec_keeps _ _ _ _ _ (abs b) (abs b') l (reachable_inv _ _ _ _ _ _ Ho Ha) E) in Hc'.
    change (is_Some (conns (fill b' (base b')) !! l)) in Hc'. by rewrite conns_fill, fmap_is_Some in Hc'.
  - eapply rtc_r; [exact Ha|]. by exists lbl.
Qed.

Lemma init_sound o : sound o (bworld_init (Serve_init parse6 (New o))).
Proof.
  set (b := bworld_init _). set (buffer := λ k, {| arr := k; off := 0; len := MaxBufferSize |}).
  assert (readers b = {[ 0 := buffer 0 ]} ∧ pipes b = ∅ ∧ buf (queue b) = []) as (Hr & Hp & Hq) by done.
  assert (∀ k, k < 2 → buffer_ok b (buffer k)) as Hk.
  { intros k Hlt. split_and!; [done..|]. exists (replicate MaxBufferSize Byte.x00). split; [|apply length_replicate].
    by destruct k as [|[|k]]; [..|lia]. }
  split; [split| |].
  - by rewrite Hq.
  - intros l p. by rewrite Hp.
  - intros t s. rewrite Hr. intros [<- <-]%lookup_singleton_Some. apply Hk. lia.
  - apply (Hk 1). lia.
  - intros l. rewrite Hp. by intros [? ?].
  - replace (abs b) with (world_init o); [apply rtc_refl|].
    unfold abs, fill, Node.world_init, with_conns. simpl. by rewrite map_imap_empty.
Qed.

(** C4: The buffers that goroutines read into, and the slices that channels carry, cannot be
    told from values.  Whatever a node with buffers has done, its state shows one that the
    node of [Node.v] can reach, where each queue holds the bytes that its slices hold now;
    every step it can take does what that node's step does, and waits or panics where it does; and a read that fails shows nothing.  So no
    read, while packets wait, changes one of them: what [handlePacket], [device_read] and
    [forward] send is a copy, and a datagram is cut at the end of the buffer. *)
Theorem buffers_refine_values o b :
  valid_string (Address o) = true → rtc bstep (bworld_init (Serve_init parse6 (New o))) b →
  rtc step (world_init o) (abs b) ∧
  (∀ lbl, reading lbl b → outcome_rel (λ b' w', w' = abs b') (bexec (Step lbl) b) (exec lbl (abs b))) ∧
  (∀ t b', bexec (ReadFails t) b = Ret b' → abs b' = abs b).
Proof.
  intros Ho Hb.
  assert (sound o b) as Hs.
  { revert Hb. apply (rtc_invariant bstep (sound o)); [|apply init_sound]. intros b1 b2 H1 (lbl & Hok & Hl). by eapply step_sound. }
  split_and!; [by apply Hs| |].
  - intros lbl Hr. eapply outcome_rel_mono; [|apply exec_sim; [by apply Hs|by eapply sound_next|done]]. by intros b' w' [? _].
  - intros t b' Hf. by apply (read_fails_sound o b b' t).
Qed.

End buffers.

(** ** Two packets through one buffer

    A tunnel to 10.0.0.2 is opened and its [read] started; two packets for the device arrive
    at it, one after the other, before the device takes the first. *)
Module BuffersDemo.
Import Node.Demo.

Abbreviation bexec := (bexec dial decode string6).
Abbreviation binit := (bworld_init (Serve_init parse6 (New o))).

Fixpoint brun (lbls : list blabel) (b : bworld) : outcome bworld :=
  match lbls with [] => Ret b | lbl :: lbls => b ← bexec lbl b; brun lbls b end.

Lemma brun_rtc lbls b b' : forallb blabel_ok lbls = true → brun lbls b = Ret b' →
  rtc (bstep dial decode string6) b b'.
Proof.
  revert b. induction lbls as [|lbl lbls IH]; intros b; simpl; [by intros _ [= <-]|].
  intros [H1 H2]%andb_true_iff (b1 & Hb1 & Hb)%outcome_bind_ret.
  apply rtc_l with b1; [by exists lbl|by apply IH].
Qed.

Definition data (x : byte) : bytes := EncodeRaw [x; x].

Definition arrivals : list blabel :=
  (Step <$> opens) ++ [Step (LDecode 1 (data Byte.x01)); Step (LDecode 1 (data Byte.x02)); ReadFails 1].

Definition b1 : bworld := match brun arrivals binit with Ret b => b | _ => binit end.

Lemma b1_reachable : rtc (bstep dial decode string6) binit b1.
Proof. apply (brun_rtc arrivals); by vm_compute. Qed.

Lemma buffers_refine_values_witness :
  rtc Node.Demo.step init (abs b1) ∧
  buf (device (Node.node (abs b1))) = [[Byte.x01; Byte.x01]; [Byte.x02; Byte.x02]] ∧
  take 3 (default [] (mem b1 !! 2)) = data Byte.x02 ∧
  outcome_rel (λ b' w', w' = abs b') (bexec (Step (LDevWrite mac)) b1) (Node.Demo.exec (LDevWrite mac) (abs b1)).
Proof.
  destruct (buffers_refine_values dial decode string6 parse6 o b1) as (H1 & H2 & _); [by vm_compute|exact b1_reachable|].
  split; [exact H1|]. split; [by vm_compute|]. split; [by vm_compute|]. by apply (H2 (LDevWrite mac)).
Defined.

End BuffersDemo.
