(* ===== verification/Mesh.v ===== *)
(** * The mesh: nodes and gateway together

    The paths of a packet and of a tunnel through two nodes ([Node.v]), their connections
    ([Connection.v]) and the gateway ([Gateway.v], [Notifier.v], [Api.v]): each theorem
    composes the operations in the order in which the datagrams travel.  The network hands
    over exactly the bytes that were written; loss is a step that does not happen. *)

From S2P Require Import Prelude Message WireFormat Net Constant Api Notifier Gateway Connection Tun Device Node.

Local Open Scope Z_scope.

Section mesh.
Context `{Proto} `{!ProtoLaws _}.
Variable proto_error : bytes → error.
Variable semver_NewVersion : string → result Z.
Variable runtime_Version : string.
Variable ResolveUDPAddr : string → option string.
Variable Dial : string → option string.
Variable parse6 : string → IP.

Abbreviation serve_packet := (Gateway.serve_packet proto_error).
Abbreviation http_OpenTunnel := (Api.OpenTunnel semver_NewVersion runtime_Version).
Abbreviation worker := (Notifier.worker ResolveUDPAddr).
Abbreviation handlePacket := (Node.handlePacket Dial).
Abbreviation node_inv := (Node.node_inv parse6).

(** ** Lemmas *)

Lemma chan_send_room {A} (v : A) (c : chan A) :
  (length (buf c) < cap c)%nat → chan_send v c = Ret (chan_push v c).
Proof. intros Hc. unfold chan_send. by rewrite (proj2 (chan_full_false c)). Qed.

Lemma data_packet_handled payload now nonce n :
  handlePacket (EncodeRaw payload) now nonce n =
    dev ← chan_send payload (device n); Ret (Node.with_device dev n).
Proof.
  unfold Node.handlePacket, handle_decode, EncodeRaw. rewrite byte_val_to_byte.
  rewrite bool_decide_eq_true_2 by done. by destruct (chan_send payload (device n)).
Qed.

(** The gateway's side of a control datagram. *)
Lemma gw_decode_relay r b :
  unmarshal KRelay b = (true, MRelay r) →
  gw_decode proto_error (to_byte PacketType.Relay) b = GwRelay (rl_VirtAddress r) (rl_Data r).
Proof.
  intros Hb. unfold gw_decode. rewrite Hb, byte_val_to_byte.
  destruct (unmarshal_cases KHeartbeat b) as (? & ? & -> & _).
  by destruct (unmarshal_cases KOpenTunnelAck b) as (? & ? & -> & _).
Qed.

Lemma gw_decode_ack a b :
  unmarshal KOpenTunnelAck b = (true, MOpenTunnelAck a) →
  gw_decode proto_error (to_byte PacketType.OpenTunnelAck) b = GwAck (ota_AckId a).
Proof.
  intros Hb. unfold gw_decode. rewrite Hb, byte_val_to_byte.
  destruct (unmarshal_cases KHeartbeat b) as (? & ? & -> & _).
  by destruct (unmarshal_cases KRelay b) as (? & ? & -> & _).
Qed.

Lemma serve_packet_cons addr now d t b p :
  cut d = t :: b → serve_packet addr now d p = '(p', _) ← process proto_error addr now (t :: b) p; Ret p'.
Proof. unfold Gateway.serve_packet. intros ->. by rewrite bool_decide_eq_false_2 by (simpl; lia). Qed.

Lemma serve_ack addr now o d p :
  acks o d →
  serve_packet addr now d p =
    Ret {| server := server p; notif := Notifier.openTunnelAck (ot_AckId o) (notif p) |}.
Proof.
  intros [(b & -> & Hb) Hc]. rewrite (serve_packet_cons _ _ _ _ _ _ Hc), process_spec. by rewrite (gw_decode_ack _ _ Hb).
Qed.

Lemma serve_relay addr now v data q d p :
  server_ok (server p) → directory (server p) !! v = Some q →
  (length (buf (queue (notif p))) < cap (queue (notif p)))%nat →
  carries PacketType.Relay (MRelay {| rl_VirtAddress := v; rl_Data := data |}) (cut d) →
  serve_packet addr now d p =
    Ret {| server := server p;
           notif := with_queue (chan_push {| destination := UDPAddress q; typ := PacketType.Data;
                                 pmessage := PBytes data |} (queue (notif p))) (notif p) |}.
Proof.
  intros Hs Hq Hroom (b & Hc & Hb). rewrite (serve_packet_cons _ _ _ _ _ _ Hc), process_spec, (gw_decode_relay _ _ Hb).
  simpl. apply directory_Peer in Hq as (l & -> & Hl). rewrite Hl; simpl.
  unfold relay. by rewrite chan_send_room.
Qed.

(** ** Data paths *)

(** [k] turns of a loop that take the pipeline case. *)
Fixpoint pipeline_turns (k : nat) (now : Z) (c : connection) : outcome connection :=
  match k with
  | O => Ret c
  | S k => c' ← loop_step now "" EvPipeline c; pipeline_turns k now c'
  end.

Lemma pipeline_drain q now c connecting ticker :
  pc c = Running connecting ticker → buf (pipeline c) = q →
  ∃ c', pipeline_turns (length q) now c = Ret c' ∧ buf (pipeline c') = [] ∧ written c' = written c ++ q.
Proof.
  revert c. induction q as [|d q IH]; intros c Hpc Hq; simpl.
  - exists c. by rewrite app_nil_r.
  - unfold loop_step, chan_recv. rewrite Hpc, Hq; simpl.
    edestruct IH as (c' & Hc' & Hb & Hw);
      [|shelve|exists c'; split_and!; [exact Hc'|done|]]; [done|simpl in Hw].
    by rewrite Hw, <- app_assoc.
    Unshelve. all: done.
Qed.

(** Over an established tunnel packets travel directly, in order and unchanged: with
    [q] already queued, [forward] queues the packet, the loop's next turns write the
    queue's datagrams oldest first and then this one, the gateway sees nothing, and the
    peer that receives the datagram puts exactly the packet on its virtual device. *)
Theorem direct_data_is_delivered nA nB v l c data t1 t2 t3 nonce connecting ticker :
  connections nA !! v = Some l → conns nA !! l = Some c → state c = StateEstablished →
  pc c = Running connecting ticker →
  (length (buf (pipeline c)) < cap (pipeline c))%nat →
  (length (buf (device nB)) < cap (device nB))%nat →
  ∃ nA' c1 c2 out nB',
    forward v data t1 nA = Ret nA' ∧ to_gateway nA' = to_gateway nA ∧ conns nA' !! l = Some c1 ∧
    pipeline_turns (S (length (buf (pipeline c)))) t2 c1 = Ret c2 ∧
    buf (pipeline c2) = [] ∧ written c2 = written c ++ buf (pipeline c) ++ [out] ∧
    handlePacket out t3 nonce nB = Ret nB' ∧ device nB' = chan_push data (device nB).
Proof.
  intros Hl Hc Hst Hpc Hroom Hdev.
  set (c1 := with_pipeline (chan_push (EncodeRaw data) (pipeline c)) c).
  destruct (pipeline_drain (buf (pipeline c) ++ [EncodeRaw data]) t2 c1 connecting ticker Hpc eq_refl)
    as (c2 & Hc2 & Hb & Hw).
  exists (store l c1 nA), c1, c2, (EncodeRaw data), (Node.with_device (chan_push data (device nB)) nB).
  rewrite length_app, Nat.add_1_r in Hc2. split_and!; try done.
  - unfold forward, Node.deref. rewrite Hl, Hc; simpl. rewrite bool_decide_eq_true_2 by done.
    unfold chan_try_send. by rewrite (proj2 (chan_full_false _)).
  - simpl. by rewrite lookup_insert_eq.
  - by rewrite data_packet_handled, chan_send_room.
Qed.

(** ** Setting up a tunnel *)

(** What a node does with the introduction of a peer it has no connection to. *)
Lemma introduced n o now nonce d remote :
  node_inv n → carries PacketType.OpenTunnel (MOpenTunnel o) d → valid_int64 (ot_AckId o) = true →
  connections n !! ot_VirtAddress o = None → Dial (ot_UdpAddress o) = Some remote →
  ∃ n' ack l, handlePacket d now nonce n = Ret n' ∧ to_gateway n' = to_gateway n ++ [ack] ∧
    acks o ack ∧ connections n' !! ot_VirtAddress o = Some l ∧
    conns n' !! l = Some (new_connection (Address (opt n)) (ot_VirtAddress o) remote now).
Proof.
  intros Hn Hd Hid Hnone Hdial.
  destruct (handlePacket_OpenTunnel Dial parse6 n now nonce d o Hn Hd) as [-> Hn'].
  unfold onOpenTunnel, onOpenTunnel_select. simpl. rewrite Hnone; simpl. unfold openConnection. rewrite Hdial.
  edestruct (openTunnelAck_acks o) as (ack & -> & Hack); [done|].
  eexists _, ack, _. split_and!; [done|done|done|simpl; apply lookup_insert_eq|simpl; apply lookup_insert_eq].
Qed.

(** The datagram of a pending introduction. *)
Lemma intro_datagram id dest virt udp :
  valid_int64 id = true → valid_string virt = true → valid_string udp = true →
  let intro := MOpenTunnel {| ot_AckId := id; ot_VirtAddress := virt; ot_UdpAddress := udp |} in
  ∃ d, worker_bytes (intro_packet id dest virt udp) = Ret d ∧ carries PacketType.OpenTunnel intro d ∧
    ((wire_size intro < MaxBufferSize)%nat → cut d = d).
Proof.
  intros Hi Hv Hu intro. unfold worker_bytes; simpl.
  destruct (Encode_valid PacketType.OpenTunnel (MOpenTunnel {| ot_AckId := id; ot_VirtAddress := virt;
    ot_UdpAddress := udp |})) as [d Hd]; [simpl; by rewrite Hi, Hv, Hu|].
  exists d. split_and!; [done|by apply Encode_decode|]. intros Hw. by apply (Encode_carries _ _ _ Hd).
Qed.

Lemma OpenTunnel_data pa pb n :
  pending_inv n → ack_room n →
  data (Notifier.OpenTunnel pa pb n) =
  <[ackID n + 2 := {| rp_packet := intro_packet (ackID n + 2) (UDPAddress pb) (VirtAddress pa) (UDPAddress pa);
                      counter := 0 |}]>
  (<[ackID n + 1 := {| rp_packet := intro_packet (ackID n + 1) (UDPAddress pa) (VirtAddress pb) (UDPAddress pb);
                       counter := 0 |}]> (data n)).
Proof.
  unfold ack_room. intros Hn Hr. unfold Notifier.OpenTunnel. simpl. rewrite !(next_id n) by (done || lia).
  replace (swrap 64 (ackID n + 1 + 1)) with (ackID n + 2); [done|].
  pose proof (pending_ackID n Hn). rewrite swrap_small; [lia|lia|]. unfold in_int. lia.
Qed.

(** The two acknowledgements of a request, in either order, leave nothing pending that was not
    before. *)
Lemma acks_clear p n1 k oA oB rA rB ackA ackB addr addr' t first second :
  pending_inv (notif p) → ackID (notif p) = k → ot_AckId oA = k + 1 → ot_AckId oB = k + 2 →
  data n1 = <[k + 2 := rB]> (<[k + 1 := rA]> (data (notif p))) →
  acks oA ackA → acks oB ackB → (first, second) = (ackA, ackB) ∨ (first, second) = (ackB, ackA) →
  ∃ p1 p2, serve_packet addr t first {| server := server p; notif := n1 |} = Ret p1 ∧
    serve_packet addr' t second p1 = Ret p2 ∧ server p2 = server p ∧ data (notif p2) = data (notif p).
Proof.
  intros Hpi Hk HoA HoB Hdata KA KB Ho.
  assert (data (notif p) !! (k + 1) = None) as Hf1 by (rewrite <- Hk; by apply next_id_fresh).
  assert (data (notif p) !! (k + 2) = None) as Hf2.
  { destruct (data (notif p) !! (k + 2)) as [rp|] eqn:E; [|done].
    destruct (pending_data _ Hpi _ _ E) as ([_ ?] & _). lia. }
  destruct Ho as [[= -> ->]|[= -> ->]].
  - rewrite (serve_ack addr t _ ackA _ KA). eexists _, _. split; [done|].
    rewrite (serve_ack addr' t _ ackB _ KB). split; [done|]. split; [done|]. simpl. rewrite HoA, HoB, Hdata.
    rewrite delete_insert_ne by lia. rewrite !delete_insert_eq.
    by rewrite !delete_id by by rewrite ?lookup_delete_ne by lia.
  - rewrite (serve_ack addr t _ ackB _ KB). eexists _, _. split; [done|].
    rewrite (serve_ack addr' t _ ackA _ KA). split; [done|]. split; [done|]. simpl. rewrite HoA, HoB, Hdata.
    rewrite delete_insert_eq, delete_insert_ne by lia. rewrite delete_insert_eq, (delete_id (data (notif p))) by done.
    by apply delete_id.
Qed.

(** What the gateway makes of the request of [a] for [b]: two pending introductions, which
    the two acknowledgements remove, in either order. *)
Lemma tunnel_requested a b p pa pb major :
  proc_inv p → ack_room (notif p) →
  semver_NewVersion (req_Version (client_request runtime_Version a b)) = Api.Ok major →
  Version.MajorVersion <= major →
  directory (server p) !! a = Some pa → directory (server p) !! b = Some pb →
  let introA := {| ot_AckId := ackID (notif p) + 1; ot_VirtAddress := b; ot_UdpAddress := UDPAddress pb |} in
  let introB := {| ot_AckId := ackID (notif p) + 2; ot_VirtAddress := a; ot_UdpAddress := UDPAddress pa |} in
  ∃ n1 rpA rpB dA dB,
    http_OpenTunnel (client_request runtime_Version a b) (server p) (notif p) =
      Ret (n1, Api.Ok {| res_Encrypt := "" |}) ∧
    data n1 !! ot_AckId introA = Some rpA ∧ destination (rp_packet rpA) = UDPAddress pa ∧
    data n1 !! ot_AckId introB = Some rpB ∧ destination (rp_packet rpB) = UDPAddress pb ∧
    worker_bytes (rp_packet rpA) = Ret dA ∧ worker_bytes (rp_packet rpB) = Ret dB ∧
    carries PacketType.OpenTunnel (MOpenTunnel introA) dA ∧ valid_int64 (ot_AckId introA) = true ∧
    carries PacketType.OpenTunnel (MOpenTunnel introB) dB ∧ valid_int64 (ot_AckId introB) = true ∧
    ((wire_size (MOpenTunnel introA) < MaxBufferSize)%nat → cut dA = dA) ∧
    ((wire_size (MOpenTunnel introB) < MaxBufferSize)%nat → cut dB = dB) ∧
    ∀ ackA ackB addr addr' t first second, acks introA ackA → acks introB ackB →
    (first, second) = (ackA, ackB) ∨ (first, second) = (ackB, ackA) →
    ∃ p1 p2, serve_packet addr t first {| server := server p; notif := n1 |} = Ret p1 ∧
      serve_packet addr' t second p1 = Ret p2 ∧
      server p2 = server p ∧ data (notif p2) = data (notif p).
Proof.
  intros Hp Hroom Hsem Hmaj Ha Hb introA introB.
  pose proof (pi_pending p Hp) as Hpi. pose proof (pi_peers p Hp) as Hpeers.
  destruct (Hpeers _ _ Ha) as (_ & Hva & Hvalid & Hua). destruct (Hpeers _ _ Hb) as (_ & Hvb & Hvalid' & Hub).
  set (n1 := Notifier.OpenTunnel pa pb (notif p)).
  pose proof (OpenTunnel_data pa pb (notif p) Hpi Hroom) as Hdata. fold n1 in Hdata.
  pose proof (pending_ackID _ Hpi) as Hid. unfold ack_room in Hroom.
  assert (valid_int64 (ackID (notif p) + 1) = true ∧ valid_int64 (ackID (notif p) + 2) = true) as [Hi1 Hi2].
  { unfold valid_int64. rewrite !bool_decide_eq_true. lia. }
  destruct (intro_datagram (ackID (notif p) + 1) (UDPAddress pa) b (UDPAddress pb)) as (dA & HdA & HcA & HlA); [done..|].
  destruct (intro_datagram (ackID (notif p) + 2) (UDPAddress pb) a (UDPAddress pa)) as (dB & HdB & HcB & HlB); [done..|].
  rewrite Hva, Hvb in Hdata.
  exists n1. do 2 eexists. exists dA, dB. split_and!; try done.
  - rewrite OpenTunnel_run by apply Hp. unfold OpenTunnel_spec. rewrite Hsem.
    rewrite bool_decide_eq_false_2 by lia. simpl. by rewrite Ha, Hb.
  - rewrite Hdata. simpl. rewrite lookup_insert_ne by lia. apply lookup_insert_eq.
  - done.
  - rewrite Hdata. apply lookup_insert_eq.
  - done.
  - done.
  - done.
  - intros ackA ackB addr addr' t first second KA KB Ho.
    exact (acks_clear p n1 _ introA introB _ _ ackA ackB addr addr' t first second Hpi eq_refl eq_refl eq_refl Hdata KA KB Ho).
Qed.

(** A tunnel request introduces both nodes to each other.  When the gateway knows both
    peers, the request of [a] for [b] leaves one pending packet addressed to each; each of
    the two datagrams makes its receiver create a connecting tunnel to the other's virtual
    address, dialled at the other's UDP address, and acknowledge; and once the gateway has
    the two acknowledgements, in either order, nothing is pending that was not before. *)
Theorem open_tunnel_handshake nA nB p pa pb ra rb major t tA tB nonce addr addr' :
  let a := Address (opt nA) in let b := Address (opt nB) in
  node_inv nA → node_inv nB → proc_inv p → ack_room (notif p) →
  semver_NewVersion (req_Version (client_request runtime_Version a b)) = Api.Ok major →
  Version.MajorVersion <= major →
  directory (server p) !! a = Some pa → directory (server p) !! b = Some pb →
  connections nA !! b = None → connections nB !! a = None →
  Dial (UDPAddress pb) = Some rb → Dial (UDPAddress pa) = Some ra →
  ∃ n1 rpA rpB dA dB nA' nB' lA lB ackA ackB,
    http_OpenTunnel (client_request runtime_Version a b) (server p) (notif p) =
      Ret (n1, Api.Ok {| res_Encrypt := "" |}) ∧
    data n1 !! (ackID (notif p) + 1) = Some rpA ∧ destination (rp_packet rpA) = UDPAddress pa ∧
    data n1 !! (ackID (notif p) + 2) = Some rpB ∧ destination (rp_packet rpB) = UDPAddress pb ∧
    worker_bytes (rp_packet rpA) = Ret dA ∧ worker_bytes (rp_packet rpB) = Ret dB ∧
    handlePacket dA tA nonce nA = Ret nA' ∧ to_gateway nA' = to_gateway nA ++ [ackA] ∧
    connections nA' !! b = Some lA ∧ conns nA' !! lA = Some (new_connection a b rb tA) ∧
    handlePacket dB tB nonce nB = Ret nB' ∧ to_gateway nB' = to_gateway nB ++ [ackB] ∧
    connections nB' !! a = Some lB ∧ conns nB' !! lB = Some (new_connection b a ra tB) ∧
    ∀ first second, (first, second) = (ackA, ackB) ∨ (first, second) = (ackB, ackA) →
    ∃ p1 p2, serve_packet addr t first {| server := server p; notif := n1 |} = Ret p1 ∧
      serve_packet addr' t second p1 = Ret p2 ∧
      server p2 = server p ∧ data (notif p2) = data (notif p).
Proof.
  intros a b HA HB Hp Hroom Hsem Hmaj Ha Hb HnA HnB Hdb Hda.
  destruct (tunnel_requested a b p pa pb major) as
    (n1 & rpA & rpB & dA & dB & E & DA & TA & DB & TB & WA & WB & CA & IA & CB & IB & _ & _ & Hacks); [done..|].
  destruct (introduced nA _ tA nonce dA rb HA CA IA HnA Hdb) as (nA' & ackA & lA & EA & GA & KA & LA & NA).
  destruct (introduced nB _ tB nonce dB ra HB CB IB HnB Hda) as (nB' & ackB & lB & EB & GB & KB & LB & NB).
  exists n1, rpA, rpB, dA, dB, nA', nB', lA, lB, ackA, ackB. split_and!; try done.
  intros first second. exact (Hacks ackA ackB addr addr' t first second KA KB).
Qed.

(** A connecting tunnel becomes established by one round trip.  When the connecting
    timer of [a]'s connection to [b] fires and [b] has a connection to [a] with room in its
    queue, the Ping that is written makes [b] queue a Pong on that connection, and that
    Pong makes [a]'s connection established, with the time of its arrival as keepalive. *)
Theorem ping_pong_establishes nA nB l lB c cB now1 now2 now3 nonce1 nonce2 nonce3 :
  node_inv nA → node_inv nB →
  connections nA !! Address (opt nB) = Some l → conns nA !! l = Some c →
  connections nB !! Address (opt nA) = Some lB → conns nB !! lB = Some cB →
  state c = StateConnecting → ready now1 EvConnecting c = true →
  (length (buf (pipeline cB)) < cap (pipeline cB))%nat →
  valid_string nonce1 = true → valid_string nonce2 = true →
  ∃ nA1 c1 pi nB1 cB1 po nA2 c2,
    conn_turn l now1 nonce1 EvConnecting nA = Ret nA1 ∧
    conns nA1 !! l = Some c1 ∧ written c1 = written c ++ [pi] ∧
    handlePacket pi now2 nonce2 nB = Ret nB1 ∧
    conns nB1 !! lB = Some cB1 ∧ pipeline cB1 = chan_push po (pipeline cB) ∧
    handlePacket po now3 nonce3 nA1 = Ret nA2 ∧
    conns nA2 !! l = Some c2 ∧ state c2 = StateEstablished ∧ keepalive c2 = now3.
Proof.
  intros HA HB Hl Hc HlB HcB Hst Hready Hroom Hn1 Hn2.
  destruct (inv_conns _ nA HA l c Hc) as [(Hself & _) _].
  destruct (Encode_valid PacketType.Ping (ping_message (selfVirtAddr c) nonce1)) as [pi Hpi].
  { simpl. by rewrite Hself, (inv_address _ nA HA), Hn1. }
  destruct (Encode_valid PacketType.Pong (MPong {| pong_VirtAddress := Address (opt nB);
    pong_Nonce := nonce2 |})) as [po Hpo].
  { simpl. by rewrite (inv_address _ nB HB), Hn2. }
  assert (∃ c1, conn_turn l now1 nonce1 EvConnecting nA = Ret (store l c1 nA) ∧
    written c1 = written c ++ [pi] ∧ state c1 = StateConnecting) as (c1 & Hturn & Hw & Hst1).
  { unfold ready in Hready. unfold conn_turn, Node.deref, loop_step, ping. rewrite Hc; simpl.
    destruct (pc c) as [|cg tk|cg tk|]; [done| |done..]. rewrite bool_decide_eq_false_2 by (simpl; auto).
    simpl. rewrite Hpi; simpl. eexists. split; [done|]. by simpl. }
  destruct (handlePacket_Ping Dial parse6 nB now2 nonce2 pi
    {| ping_VirtAddress := selfVirtAddr c; ping_Nonce := nonce1 |} HB (Encode_decode _ _ _ Hpi)) as [EB _].
  assert (node_inv (store l c1 nA)) as HA1 by exact (conn_turn_inv parse6 _ _ _ _ _ _ HA Hturn).
  destruct (handlePacket_Pong Dial parse6 (store l c1 nA) now3 nonce3 po
    {| pong_VirtAddress := Address (opt nB); pong_Nonce := nonce2 |} HA1 (Encode_decode _ _ _ Hpo)) as [EA _].
  exists (store l c1 nA), c1, pi. do 2 eexists. exists po. do 2 eexists. split_and!.
  - exact Hturn.
  - simpl. by rewrite lookup_insert_eq.
  - exact Hw.
  - rewrite EB. unfold onPing. simpl. rewrite Hself, HlB, Hpo; simpl.
    unfold Node.deref; simpl. rewrite HcB; simpl. by rewrite chan_send_room.
  - simpl. by rewrite lookup_insert_eq.
  - done.
  - rewrite EA. apply (onPong_hit _ _ now3 l c1); simpl; [done|by rewrite lookup_insert_eq].
  - simpl. by rewrite lookup_insert_eq.
  - done.
  - done.
Qed.

(** ** One byte from the network *)

(** C31: A datagram of the single byte 6, which anyone can send to a node, becomes an empty
    packet for the virtual device.  On Windows, if the driver's ring has room, writing it
    panics and takes the node down; on macOS the write is refused with an error. *)
Theorem one_byte_datagram_crashes_windows n now nonce :
  buf (device n) = [] → (0 < cap (device n))%nat →
  ∃ n1, handlePacket [Byte.x06] now nonce n = Ret n1 ∧ chan_recv (device n1) = Some ([], device n) ∧
    (∀ e, Windows.closed (win_device e) = false → win_allocated e = Windows.Room →
       @device_write windows_device e n1 = Panic "index out of range") ∧
    (∀ e, @device_write darwin_device e n1 = Ret (Node.with_device (device n) n1)) ∧
    (∀ t, (Darwin.Write [] t).1 = inr Darwin.EIO).
Proof.
  intros Hb Hc. destruct (device n) as [k b] eqn:Ed. simpl in Hb, Hc. subst b.
  pose proof (data_packet_handled [] now nonce n) as Hp. unfold EncodeRaw in Hp.
  change (to_byte PacketType.Data) with Byte.x06 in Hp. rewrite Ed, chan_send_room in Hp by done.
  exists (Node.with_device (Chan k [[]]) n). split; [exact Hp|]. split; [done|]. split_and!.
  - intros e Ho Hr. apply device_write_panics. exists [], (Chan k []). split; [done|].
    by apply windows_write_panics.
  - intros e. apply device_write_Ret. exists [], (Chan k []), None. split_and!; [done|by rewrite darwin_write; destruct (taken e)|].
    simpl. by rewrite app_nil_r.
  - done.
Qed.

End mesh.

(** ** Concrete runs

    The demo runs of [Gateway.v] and [Node.v] put together. *)
Module MeshDemo.

Import Gateway.Demo Node.Demo.

Abbreviation g := Gateway.Demo.g2.
Abbreviation resolve := Gateway.Demo.resolve.

Definition options (a : string) : Options :=
  {| Node.Gateway := "9.9.9.9:2823"; Key := "k"; Address := a; TLS := false |}.
Definition nA : Node := node (world_init Node.Demo.parse6 (options "10.0.0.1")).
Definition nB : Node := node (world_init Node.Demo.parse6 (options "10.0.0.2")).

Lemma nA_inv : node_inv Node.Demo.parse6 nA.
Proof. by apply world_init_inv. Qed.
Lemma nB_inv : node_inv Node.Demo.parse6 nB.
Proof. by apply world_init_inv. Qed.

Lemma g_inv : proc_inv (proc g).
Proof.
  apply gi_proc, (Gateway.gateway_reachable_inv perr semver "go1.14" resolve "k" 2 g0 g init0).
  eauto using rtc_l, rtc_refl, step1, step2.
Qed.

(** A JSON codec for the witness: the bits of stdpp's [encode]. *)
Fixpoint bits (p : positive) : bytes :=
  match p with xH => [] | xO p => Byte.x00 :: bits p | xI p => Byte.x01 :: bits p end.
Fixpoint unbits (b : bytes) : positive :=
  match b with
  | [] => xH
  | x :: b => if bool_decide (x = Byte.x00) then xO (unbits b) else xI (unbits b)
  end.

Lemma unbits_bits p : unbits (bits p) = p.
Proof. induction p as [p IH|p IH|]; simpl; by rewrite ?IH. Qed.

Definition pack `{Countable A} (a : A) : bytes := bits (countable.encode a).
Definition unpack A `{Countable A} (b : bytes) : option A := countable.decode (unbits b).

Lemma unpack_pack `{Countable A} (a : A) : unpack A (pack a) = Some a.
Proof. unfold unpack, pack. by rewrite unbits_bits, decode_encode. Qed.

#[export] Instance json : Json := {|
  json_encode q := Api.Ok (pack [req_Version q; req_Algorithm q; req_Nonce q; req_Cipher q; req_Source q; req_Destination q]);
  json_decode_request b :=
    match unpack (list string) b with
    | Some [v; a; n; c; s; d] => Api.Ok (Build_OpenTunnelRequest v a n c s d)
    | _ => Err (ErrNew "json")
    end;
  json_encode_result r := pack (r_Code r, r_Error r, res_Encrypt <$> r_Data r);
  json_decode b :=
    match unpack (Z * string * option string) b with
    | Some (c, e, d) => Api.Ok {| r_Code := c; r_Error := e; r_Data := Build_OpenTunnelResponse <$> d |}
    | None => Err (ErrNew "json")
    end;
|}.

#[export] Instance json_laws : JsonLaws.
Proof.
  split.
  - intros [v a n c s d] _. eexists. split; [done|]. cbn [json_decode_request json].
    by rewrite unpack_pack.
  - intros [c e d] _. cbn [json_decode json_encode_result json]. rewrite unpack_pack. by destruct d as [[]|].
Qed.

(** A wrapper that answers a refusal with status 400, and a router of one path. *)
#[export] Instance http : Http := {|
  Wrap N ee re f method path body n :=
    match json_decode_request body with
    | Api.Ok req =>
        '(n', r) ← f req n;
        Ret (n', match r with
                 | Api.Ok p => {| resp_StatusCode := 200; resp_Status := "200 OK"; resp_Body := json_encode_result (re p) |}
                 | Err e => {| resp_StatusCode := 400; resp_Status := "400 Bad Request"; resp_Body := json_encode_result (ee e) |}
                 end)
    | Err _ => Ret (n, {| resp_StatusCode := 400; resp_Status := "400 Bad Request"; resp_Body := [] |})
    end;
  Handle N path h method m p body n :=
    if bool_decide (p = path ∧ m = method) then h m p body n
    else Ret (n, {| resp_StatusCode := 404; resp_Status := "404 Not Found"; resp_Body := [] |});
|}.

#[export] Instance http_laws : HttpLaws.
Proof.
  split.
  - intros N ee re f method path body req n n' r Hb Hf. unfold Wrap, http. rewrite Hb, Hf. simpl.
    eexists. split; [done|]. by destruct r.
  - intros. unfold Handle, http. by rewrite bool_decide_eq_true_2.
Qed.

Lemma OpenTunnel_introduces_both_witness :
  ∃ n' r, Api.OpenTunnel semver "go1.14" (client_request "go1.14" "10.0.0.1" "10.0.0.2")
    (server (proc g)) (notif (proc g)) = Ret (n', r) ∧ pending_inv n'.
Proof.
  destruct (OpenTunnel_introduces_both (H0 := gateway_notifier_laws) semver "go1.14" (client_request "go1.14" "10.0.0.1" "10.0.0.2")
    (server (proc g)) (notif (proc g)) (pi_server _ g_inv) (pi_pending _ g_inv) ltac:(by vm_compute))
    as (n' & r & Hr & Hn & _).
  exact (ex_intro _ n' (ex_intro _ r (conj Hr Hn))).
Defined.

Definition refused : result OpenTunnelResponse :=
  Err (destination_error "10.0.0.9").

(** The gateway of the run, at the end of every request. *)
Definition transport (m url : string) (body : bytes) : result response :=
  match router semver "go1.14" (server (proc g)) m
    (if bool_decide (url = "http://9.9.9.9:2823/api/v1/tunnel") then URIOpenTunnel else "/") body (notif (proc g)) with
  | Ret (_, resp) => Api.Ok resp
  | _ => Err (ErrNew "EOF")
  end.

Lemma client_sees_server_answer_witness :
  ∃ body resp,
    router semver "go1.14" (server (proc g)) "POST" "/api/v1/tunnel" body (notif (proc g))
      = Ret (notif (proc g), resp) ∧
    Client_OpenTunnel (λ _ _, None) transport json_encode json_decode "go1.14"
      (NewClient "9.9.9.9:2823" "k" false) "10.0.0.1" "10.0.0.9"
    = Ret (Err (ErrWithMessage (refusal_seen resp (destination_error "10.0.0.9")) "open tunnel failed")).
Proof.
  edestruct (client_sees_server_answer semver "go1.14" (λ _ _, None) transport "9.9.9.9:2823" "k" false
    "10.0.0.1" "10.0.0.9" (server (proc g)) (notif (proc g)) (notif (proc g)) refused)
    as (body & resp & Hr & _ & Hc); [exact (pi_server _ g_inv)| |by vm_compute..| |by vm_compute|].
  - split; [done|]. intros body n' resp Hr. unfold transport.
    rewrite bool_decide_eq_true_2 by done. unfold URIOpenTunnel. by rewrite Hr.
  - by repeat constructor.
  - exact (ex_intro _ body (ex_intro _ resp (conj Hr Hc))).
Defined.

(** Under the status 400 the code and the text of the refusal are lost. *)
Example refusal_lost :
  Client_OpenTunnel (λ _ _, None) transport json_encode json_decode "go1.14"
    (NewClient "9.9.9.9:2823" "k" false) "10.0.0.1" "10.0.0.9"
  = Ret (Err (ErrWithMessage (ErrNew "400 Bad Request") "open tunnel failed")).
Proof. vm_compute. reflexivity. Qed.

(** Node 10.0.0.1 with a connecting tunnel, and the same with the tunnel established. *)
Abbreviation nC := (node Node.Demo.w1).
Abbreviation nE := (node Node.Demo.w1_established).
(** Node 10.0.0.2 with a connecting tunnel to 10.0.0.1. *)
Definition nD : Node :=
  match Node.handlePacket dial (enc 2 (MOpenTunnel (ot 4 "10.0.0.1" "1.1.1.1:1"))) 0 "" nB with
  | Ret n => n | _ => nB end.

Lemma nD_inv : node_inv Node.Demo.parse6 nD.
Proof.
  apply (exec_inv dial Node.Demo.decode string6 Node.Demo.parse6 (LDial 0 0)
    {| node := at_protos 2 (MOpenTunnel (ot 4 "10.0.0.1" "1.1.1.1:1")) nB; dispatching := {[ 0%nat := AtDial ]} |}
    {| node := nD; dispatching := ∅ |}); [|by vm_compute].
  by apply (at_protos_inv Node.Demo.parse6 nB 2 _ (Reset KOpenTunnel) nB_inv).
Qed.

Lemma direct_data_is_delivered_witness :
  ∃ nA' out nB', forward "10.0.0.2" packet 7 nE = Ret nA' ∧ to_gateway nA' = to_gateway nE ∧
    Node.handlePacket dial out 9 "" nB = Ret nB' ∧ device nB' = chan_push packet (device nB).
Proof.
  destruct (conns nE !! 0%nat) as [c|] eqn:Ec; [|by vm_compute in Ec].
  assert (state c = StateEstablished ∧ pc c = Running (Some 100000002) 5000000001 ∧
    (length (buf (pipeline c)) < cap (pipeline c))%nat) as (Hst & Hpc & Hroom).
  { vm_compute in Ec. injection Ec as <-. split_and!; [done|done|vm_compute; lia]. }
  destruct (direct_data_is_delivered dial nE nB "10.0.0.2" 0%nat c packet 7 8 9 "" _ _
    ltac:(by vm_compute) Ec Hst Hpc Hroom ltac:(vm_compute; lia))
    as (nA' & c1 & c2 & out & nB' & H1 & H2 & _ & _ & _ & _ & H7 & H8).
  exact (ex_intro _ nA' (ex_intro _ out (ex_intro _ nB' (conj H1 (conj H2 (conj H7 H8)))))).
Defined.

Lemma open_tunnel_handshake_witness :
  ∃ n1 r, Api.OpenTunnel semver "go1.14" (client_request "go1.14" "10.0.0.1" "10.0.0.2")
    (server (proc g)) (notif (proc g)) = Ret (n1, Api.Ok r) ∧ is_Some (data n1 !! 2).
Proof.
  destruct (open_tunnel_handshake perr semver "go1.14" dial Node.Demo.parse6 nA nB (proc g)
    {| VirtAddress := "10.0.0.1"; UDPAddress := "1.1.1.1:1"; LastHeartbeat := 0 |}
    {| VirtAddress := "10.0.0.2"; UDPAddress := "2.2.2.2:2"; LastHeartbeat := 0 |}
    "1.1.1.1:1" "2.2.2.2:2" 0 5 6 7 "" "1.1.1.1:1" "2.2.2.2:2" nA_inv nB_inv g_inv
    ltac:(by vm_compute) ltac:(by vm_compute) ltac:(by vm_compute) ltac:(by vm_compute)
    ltac:(by vm_compute) eq_refl eq_refl eq_refl eq_refl)
    as (n1 & rpA & rpB & dA & dB & nA' & nB' & lA & lB & ackA & ackB & H1 & _ & _ & H4 & _).
  exists n1, {| res_Encrypt := "" |}. split; [exact H1|]. exists rpB. exact H4.
Defined.

Lemma ping_pong_establishes_witness :
  ∃ nA1 nA2 po c2, conn_turn 0 200000000 "n" EvConnecting nC = Ret nA1 ∧
    Node.handlePacket dial po 9 "" nA1 = Ret nA2 ∧
    conns nA2 !! 0%nat = Some c2 ∧ state c2 = StateEstablished.
Proof.
  destruct (conns nC !! 0%nat) as [c|] eqn:Ec; [|by vm_compute in Ec].
  destruct (conns nD !! 0%nat) as [cB|] eqn:EB; [|by vm_compute in EB].
  assert (state c = StateConnecting ∧ ready 200000000 EvConnecting c = true) as [Hst Hr].
  { vm_compute in Ec. injection Ec as <-. done. }
  assert (length (buf (pipeline cB)) < cap (pipeline cB))%nat as Hroom.
  { vm_compute in EB. injection EB as <-. vm_compute. lia. }
  destruct (ping_pong_establishes dial Node.Demo.parse6 nC nD 0%nat 0%nat c cB 200000000 8 9 "n" "m" ""
    w1_inv nD_inv ltac:(by vm_compute) Ec ltac:(by vm_compute) EB Hst Hr Hroom eq_refl eq_refl)
    as (nA1 & c1 & pi & nB1 & cB1 & po & nA2 & c2 & H1 & _ & _ & _ & _ & _ & H7 & H8 & H9 & _).
  exists nA1, nA2, po, c2. exact (conj H1 (conj H7 (conj H8 H9))).
Defined.

Definition open_device : windows_env :=
  {| win_now := 0; win_allocated := Windows.Room; win_device := TunDemo.dev |}.

Lemma one_byte_datagram_crashes_windows_witness :
  ∃ n1, Node.handlePacket dial [Byte.x06] 3 "" nA = Ret n1 ∧
    @device_write windows_device open_device n1 = Panic "index out of range".
Proof.
  destruct (one_byte_datagram_crashes_windows dial nA 3 "" eq_refl ltac:(vm_compute; lia))
    as (n1 & H1 & _ & H3 & _).
  exact (ex_intro _ n1 (conj H1 (H3 open_device eq_refl eq_refl))).
Defined.

End MeshDemo.
