(* ===== verification/Delivery.v ===== *)
(** * From device to device

    The two ways of a packet that the virtual device of one node reads to the virtual device of
    the other, on macOS: through [forward], the queue and the loop of a connection, and
    [handlePacket] of the other node; or through [forward], the gateway and its worker, and
    [handlePacket].  [Device.v], [Node.v], [Connection.v] and [Gateway.v] put together, as runs
    of the two nodes' transition systems. *)

From S2P Require Import Prelude Message WireFormat Net Constant Api Notifier Gateway Connection Tun Device Node Mesh.

Local Open Scope Z_scope.

(** The queue after these were sent. *)
Definition pushes {A} (xs : list A) (c : chan A) : chan A := foldl (λ c x, chan_push x c) c xs.

Lemma buf_pushes {A} (xs : list A) (c : chan A) : buf (pushes xs c) = buf c ++ xs.
Proof.
  revert c. induction xs as [|x xs IH]; intros c; simpl; [by rewrite app_nil_r|].
  rewrite IH. unfold chan_push; simpl. by rewrite <- app_assoc.
Qed.

(** The nodes may run on any device. *)
Section delivery.
Context `{Proto} `{!ProtoLaws _} `{D : Device} `{!DeviceLaws D}.
Variable Dial : string → option string.
Variable decodeIPv4 : bytes → option IP.
Variable string6 : IP → string.
Variable parse6 : string → IP.

Abbreviation node_inv := (Node.node_inv parse6).
Abbreviation run := (Node.run Dial decodeIPv4 string6).
Abbreviation exec := (Node.exec Dial decodeIPv4 string6).

#[local] Arguments Node.exec : simpl never.

Lemma run_app l1 l2 w : run (l1 ++ l2) w = w' ← run l1 w; run l2 w'.
Proof.
  revert w. induction l1 as [|x l1 IH]; intros w; simpl; [done|].
  destruct (exec x w) as [w1| |]; simpl; [apply IH|done..].
Qed.

(** ** The sending node *)

(** What the node's run may change on the way of a packet: the queue and what is written of
    the connection [l], from [c] to [c']. *)
Record on_path (l : loc) (c c' : connection) (w w' : world) : Prop := {
  path_conn : conns (node w) !! l = Some c;
  path_conn' : conns (node w') !! l = Some c';
  path_others : connections (node w') = connections (node w);
  path_opt : opt (node w') = opt (node w);
  path_inv : node_inv (node w) → node_inv (node w');
  path_gateway : to_gateway (node w') = to_gateway (node w);
  path_dispatching : dispatching w' = dispatching w;
}.

Lemma on_path_refl l c w : conns (node w) !! l = Some c → on_path l c c w w.
Proof. by split. Qed.

Lemma on_path_trans l c1 c2 c3 w1 w2 w3 : on_path l c1 c2 w1 w2 → on_path l c2 c3 w2 w3 → on_path l c1 c3 w1 w3.
Proof. intros [] []. split; try done; congruence || auto. Qed.

(** A step of the run that leaves nothing else behind. *)
Lemma exec_on_path lbl l c c' w :
  conns (node w) !! l = Some c → exec lbl w = Ret {| node := store l c' (node w); dispatching := dispatching w |} →
  on_path l c c' w {| node := store l c' (node w); dispatching := dispatching w |}.
Proof.
  intros Hc Hs. split; try done; simpl; [by rewrite lookup_insert_eq|].
  intros Hi. exact (exec_inv _ _ _ _ _ _ _ Hi Hs).
Qed.

(** The stream: packets from [a.b.x.y] to [a.b.x'.y'], which has the connection [l]. *)
Variables a b x y x' y' : byte.
Variable l : loc.

Definition destined (p : bytes) : Prop := decodeIPv4 p = Some [a; b; x'; y'].

Record sender (w : world) (c : connection) : Prop := {
  sender_inv : node_inv (node w);
  sender_address : Address (opt (node w)) = dotted a b x y;
  sender_other : [x'; y'] ≠ [x; y];
  sender_entry : connections (node w) !! dotted a b x' y' = Some l;
  sender_conn : conns (node w) !! l = Some c;
}.

Lemma sender_on_path c c' w w' : sender w c → on_path l c c' w w' → sender w' c'.
Proof. intros [] []. split; try done; try congruence. auto. Qed.

Definition queued (ds : list bytes) (c : connection) : connection := with_pipeline (pushes ds (pipeline c)) c.

Lemma read_queues p now w c :
  sender w c → destined p → (length p <= MaxBufferSize)%nat →
  state c = StateEstablished → (length (buf (pipeline c)) < cap (pipeline c))%nat →
  ∃ w', exec (LDevRead p now) w = Ret w' ∧ on_path l c (queued [EncodeRaw p] c) w w'.
Proof.
  intros [Hi Ha Hne Hl Hc] Hp Hlen Hst Hroom.
  assert (exec (LDevRead p now) w =
    Ret {| node := store l (queued [EncodeRaw p] c) (node w); dispatching := dispatching w |}) as E.
  { unfold Node.exec, on_node. rewrite (device_read_classifies Dial decodeIPv4 string6 parse6 (node w) a b x y a b x' y' p p) by (done || by apply dev_read_fits).
    rewrite bool_decide_eq_true_2, bool_decide_eq_false_2 by done.
    unfold forward, Node.deref. rewrite Hl, Hc; simpl. rewrite bool_decide_eq_true_2 by done.
    unfold chan_try_send. by rewrite (proj2 (chan_full_false _)). }
  eexists. split; [exact E|by eapply exec_on_path].
Qed.

Lemma reads_queue packets now w c :
  sender w c → Forall destined packets → Forall (λ p, length p <= MaxBufferSize)%nat packets →
  state c = StateEstablished →
  (length (buf (pipeline c)) + length packets <= cap (pipeline c))%nat →
  ∃ w', run ((λ p, LDevRead p now) <$> packets) w = Ret w' ∧
    on_path l c (queued (EncodeRaw <$> packets) c) w w'.
Proof.
  revert w c. induction packets as [|p packets IH]; intros w c Hs Hps Hls Hst Hroom; simpl in *.
  - exists w. split; [done|]. destruct Hs. destruct c. by apply on_path_refl.
  - apply Forall_cons in Hps as [Hp Hps]. apply Forall_cons in Hls as [Hlp Hls].
    destruct (read_queues p now w c) as (w1 & E1 & P1); [done..|lia|]. rewrite E1; simpl.
    destruct (IH w1 (queued [EncodeRaw p] c)) as (w2 & E2 & P2); [by eapply sender_on_path|done|done|done| |].
    { simpl. rewrite length_app. simpl. lia. }
    exists w2. split; [exact E2|by eapply on_path_trans].
Qed.

(** A turn of the connection's loop writes the oldest datagram. *)
Lemma turn_writes d ds now w c connecting ticker :
  conns (node w) !! l = Some c → pc c = Running connecting ticker → buf (pipeline c) = d :: ds →
  ∃ w', exec (LConnTurn l now "" EvPipeline) w = Ret w' ∧
    on_path l c (send d (with_pipeline (Chan (cap (pipeline c)) ds) c)) w w'.
Proof.
  intros Hc Hpc Hb.
  assert (exec (LConnTurn l now "" EvPipeline) w =
    Ret {| node := store l (send d (with_pipeline (Chan (cap (pipeline c)) ds) c)) (node w);
           dispatching := dispatching w |}) as E.
  { unfold Node.exec. rewrite Hc. unfold ready. rewrite Hpc, bool_decide_eq_true_2 by (by rewrite Hb).
    unfold on_node, conn_turn, Node.deref. rewrite Hc; simpl. unfold loop_step, chan_recv. rewrite Hpc, Hb; simpl.
    by rewrite Hpc. }
  eexists. split; [exact E|by eapply exec_on_path].
Qed.

Lemma turns_write ds now w c connecting ticker :
  sender w c → pc c = Running connecting ticker → buf (pipeline c) = ds →
  ∃ w' c', run (replicate (length ds) (LConnTurn l now "" EvPipeline)) w = Ret w' ∧ on_path l c c' w w' ∧
    buf (pipeline c') = [] ∧ written c' = written c ++ ds.
Proof.
  revert w c. induction ds as [|d ds IH]; intros w c Hs Hpc Hb; simpl.
  - exists w, c. rewrite app_nil_r. split_and!; [done|by destruct Hs; apply on_path_refl|done|done].
  - destruct (turn_writes d ds now w c connecting ticker (sender_conn _ _ Hs) Hpc Hb) as (w1 & E1 & P1). rewrite E1; simpl.
    edestruct IH as (w2 & c2 & E2 & P2 & B2 & W2); [by eapply sender_on_path|exact Hpc|done|].
    exists w2, c2. split_and!; [exact E2|by eapply on_path_trans|exact B2|]. rewrite W2. simpl. by rewrite <- app_assoc.
Qed.

(** ** The receiving node *)

Lemma decodes_push t packets w :
  dispatching w !! t = None → Forall (λ p, S (length p) <= MaxBufferSize)%nat packets →
  (length (buf (device (node w))) + length packets <= cap (device (node w)))%nat →
  run ((λ p, LDecode t (EncodeRaw p)) <$> packets) w =
    Ret {| node := Node.with_device (pushes packets (device (node w))) (node w); dispatching := dispatching w |}.
Proof.
  revert w. induction packets as [|p packets IH]; intros w Ht Hls Hroom; simpl in *.
  - by destruct w as [[] ?].
  - apply Forall_cons in Hls as [Hl Hls].
    unfold Node.exec at 1. rewrite Ht, cut_short by done.
    unfold handle_decode, EncodeRaw. rewrite byte_val_to_byte, bool_decide_eq_true_2 by done.
    rewrite chan_send_room by lia. simpl. rewrite (delete_id _ _ Ht), IH; simpl; [done|done|done|].
    rewrite length_app; simpl. lia.
Qed.

End delivery.

(** ** From a macOS device to another *)
Section macos.
#[local] Existing Instance darwin_device.
Context `{Proto} `{!ProtoLaws _}.
Variable proto_error : bytes → error.
Variable ResolveUDPAddr : string → option string.
Variable Dial : string → option string.
Variable decodeIPv4 : bytes → option IP.
Variable string6 : IP → string.
Variable parse6 : string → IP.

Abbreviation run := (Node.run Dial decodeIPv4 string6).
Abbreviation exec := (Node.exec Dial decodeIPv4 string6).

#[local] Arguments Node.exec : simpl never.

Variables a b x y x' y' : byte.
Variable l : loc.

Abbreviation sender := (sender parse6 a b x y x' y' l).
Abbreviation destined := (destined decodeIPv4 a b x' y').

(** The [write] loop empties the queue; the system gets what the device frames. *)
Lemma writes_drain (e : dev_env) packets w :
  taken e = true → buf (device (node w)) = packets →
  ∃ w', run (replicate (length packets) (LDevWrite e)) w = Ret w' ∧ buf (device (node w')) = [] ∧
    to_device (node w') = to_device (node w) ++ omap framed packets.
Proof.
  intros He. revert w. induction packets as [|p packets IH]; intros w Hb.
  - exists w. by rewrite app_nil_r.
  - cbn [length replicate Node.run]. unfold Node.exec at 1, on_node, device_write, chan_recv. rewrite Hb.
    rewrite darwin_write, He. simpl.
    edestruct IH as (w' & E & Hb' & Hd); [|exists w'; split; [exact E|split; [exact Hb'|]]]; [done|].
    rewrite Hd. simpl. rewrite <- app_assoc. by destruct (framed p).
Qed.


(** C3: Over an established tunnel a stream of packets crosses the mesh from device to device,
    in order and unchanged, and the gateway sees nothing of it, if each packet and its type byte
    fit a buffer.  The frames of the packets, read from the sender's macOS device into its one
    buffer (some reads may fail in between), come out of the read loop as the packets; the
    sender's node, which is at [a.b.x.y], forwards them all to [a.b.x'.y'] and its connection,
    with [q] queued before, writes [q] and then one datagram for each packet; the goroutine of
    the receiver that reads these puts the packets into the queue of its device, whose loop
    writes them after what was in it; and what its macOS device hands to the system, after the
    frames of what waited, are exactly the frames that were read. *)
Theorem packets_cross_the_mesh wA wB c t packets evs to devA now1 now2 (e : dev_env) connecting ticker :
  let q := buf (pipeline c) in let r := buf (device (node wB)) in
  sender wA c → state c = StateEstablished → pc c = Running connecting ticker →
  (length q + length packets <= cap (pipeline c))%nat →
  dispatching wB !! t = None → (length r + length packets <= cap (device (node wB)))%nat →
  Forall destined packets → Forall (λ p, S (length p) <= MaxBufferSize)%nat packets →
  map DarwinFacts.frame packets = inl <$> Darwin.read_frames evs → length to = MaxBufferSize → taken e = true →
  ∃ wA' wB' c' out,
    Darwin.reads to evs devA = Ret <$> packets ∧
    run (((λ p, LDevRead p now1) <$> packets) ++
         replicate (length q + length packets) (LConnTurn l now2 "" EvPipeline)) wA = Ret wA' ∧
    conns (node wA') !! l = Some c' ∧ buf (pipeline c') = [] ∧ written c' = written c ++ q ++ out ∧
    to_gateway (node wA') = to_gateway (node wA) ∧
    run ((LDecode t <$> out) ++ replicate (length r + length packets) (LDevWrite e)) wB = Ret wB' ∧
    buf (device (node wB')) = [] ∧
    to_device (node wB') = to_device (node wB) ++ omap framed r ++ Darwin.read_frames evs.
Proof.
  intros q r Hs Hst Hpc Hq Ht Hr Hd Hlen Hf Hto He.
  assert (Forall (λ p, length p <= MaxBufferSize)%nat packets) as Hlen'.
  { eapply Forall_impl; [exact Hlen|]. simpl. lia. }
  destruct (reads_queue Dial decodeIPv4 string6 parse6 a b x y x' y' l packets now1 wA c Hs Hd Hlen' Hst Hq) as (w1 & E1 & P1).
  destruct (turns_write Dial decodeIPv4 string6 parse6 a b x y x' y' l (q ++ (EncodeRaw <$> packets)) now2 w1 (queued (EncodeRaw <$> packets) c) connecting ticker)
    as (w2 & c2 & E2 & P2 & B2 & W2); [by eapply sender_on_path|done|apply buf_pushes|].
  rewrite length_app, length_fmap in E2.
  set (wB1 := {| node := Node.with_device (pushes packets (device (node wB))) (node wB); dispatching := dispatching wB |}).
  destruct (writes_drain e (r ++ packets) wB1) as (w4 & E4 & B4 & D4); [done|apply buf_pushes|]. rewrite length_app in E4.
  exists w2, w4, c2, (EncodeRaw <$> packets). split_and!.
  - apply DarwinFacts.reads_frames; [done|]. by rewrite Hto.
  - rewrite run_app, E1. exact E2.
  - apply P2.
  - exact B2.
  - exact W2.
  - rewrite (path_gateway _ _ _ _ _ _ P2). apply (path_gateway _ _ _ _ _ _ P1).
  - rewrite run_app, <- list_fmap_compose.
    change (LDecode t ∘ EncodeRaw) with (λ p, LDecode t (EncodeRaw p)). rewrite (decodes_push Dial decodeIPv4 string6 t packets wB Ht Hlen Hr). exact E4.
  - exact B4.
  - rewrite D4, omap_app. do 2 f_equal. by apply framed_frames.
Qed.

End macos.

(** ** Packets from 10.0.0.1 to 10.0.0.2 *)
Module DeliveryDemo.
Import Node.Demo MeshDemo.

Definition packets : list bytes := [packet; packet ++ [Byte.x2b]].
Definition frames : list bytes := ([Byte.x00; Byte.x00; Byte.x00; Byte.x02] ++.) <$> packets.
(** What the reads of the file give; one of them is interrupted. *)
Definition evs : list (bytes * option Z) :=
  match frames with [f; g] => [(f, None); ([], Some 4); (g, None)] | _ => [] end.
Definition receiver : world := world_init parse6
  {| Node.Gateway := "9.9.9.9:2823"; Key := ""; Address := "10.0.0.2"; TLS := false |}.

Lemma established_inv : node_inv parse6 (node w1_established).
Proof.
  apply (exec_inv dial decode string6 parse6 (LDispatch 1 5 9 "") w1_pong); [|by vm_compute].
  by apply (at_protos_inv parse6 _ 5 _ (Reset KPong) w1_inv).
Qed.

Lemma packets_cross_the_mesh_witness :
  ∃ wA' wB' out,
    run [LDevRead packet 10; LDevRead (packet ++ [Byte.x2b]) 10;
         LConnTurn 0 11 "" EvPipeline; LConnTurn 0 11 "" EvPipeline] w1_established = Ret wA' ∧
    run ((LDecode 1 <$> out) ++ [LDevWrite mac; LDevWrite mac]) receiver = Ret wB' ∧
    to_device (node wB') = frames.
Proof.
  destruct (conns (node w1_established) !! 0%nat) as [c|] eqn:Ec; [|by vm_compute in Ec].
  assert (state c = StateEstablished ∧ pc c = Running (Some 100000002) 5000000001 ∧ buf (pipeline c) = [] ∧
    (2 <= cap (pipeline c))%nat) as (Hst & Hpc & Hb & Hroom).
  { vm_compute in Ec. injection Ec as <-. split_and!; [done..|vm_compute; lia]. }
  assert (sender parse6 Byte.x0a Byte.x00 Byte.x00 Byte.x01 Byte.x00 Byte.x02 0 w1_established c) as Hs.
  { split; [exact established_inv|by vm_compute|done|by vm_compute|exact Ec]. }
  destruct (packets_cross_the_mesh dial decode string6 parse6 Byte.x0a Byte.x00 Byte.x00 Byte.x01 Byte.x00 Byte.x02 0
    w1_established receiver c 1 packets evs (replicate MaxBufferSize Byte.x00) Darwin.newTun 10 11 mac _ _
    Hs Hst Hpc ltac:(by rewrite Hb) eq_refl ltac:(vm_compute; lia) ltac:(repeat constructor)
    ltac:(repeat constructor; vm_compute; lia) eq_refl eq_refl eq_refl)
    as (wA' & wB' & c' & out & _ & H2 & _ & _ & _ & _ & H7 & _ & H9).
  rewrite Hb in H2. exists wA', wB', out. exact (conj H2 (conj H7 H9)).
Defined.


End DeliveryDemo.
