(* ===== verification/Establish.v ===== *)
(** * From the first packet to a tunnel

    A packet for a node that is not known yet makes its sender ask the gateway; the gateway
    introduces the two nodes; each dials the other, pings it and answers its ping; and the
    next packet goes over the tunnel.  Every part of a node's run is a run of its transition
    system ([Node.v]), and the gateway's part is that of [Mesh.v]. *)

From S2P Require Import Prelude Message WireFormat Net Constant Api Notifier Gateway Connection Tun Device Node Mesh Delivery.

Local Open Scope Z_scope.

Section establish.
Context `{Proto} `{!ProtoLaws _} `{D : Device} `{!DeviceLaws D}.
Variable proto_error : bytes → error.
Variable semver_NewVersion : string → result Z.
Variable runtime_Version : string.
Variable ResolveUDPAddr : string → option string.
Variable Dial : string → option string.
Variable decodeIPv4 : bytes → option IP.
Variable string6 : IP → string.
Variable parse6 : string → IP.

Abbreviation serve_packet := (Gateway.serve_packet proto_error).
Abbreviation http_OpenTunnel := (Api.OpenTunnel semver_NewVersion runtime_Version).
Abbreviation worker := (Notifier.worker ResolveUDPAddr).
Abbreviation handlePacket := (Node.handlePacket Dial).
Abbreviation node_inv := (Node.node_inv parse6).
Abbreviation run := (Node.run Dial decodeIPv4 string6).
Abbreviation exec := (Node.exec Dial decodeIPv4 string6).
Abbreviation on_path := (Delivery.on_path parse6).

#[local] Arguments Node.exec : simpl never.

(** ** Runs of one node *)

Lemma run_inv lbls w w' : node_inv (node w) → run lbls w = Ret w' → node_inv (node w').
Proof.
  revert w. induction lbls as [|lbl lbls IH]; intros w Hi; simpl; [by intros [= <-]|].
  destruct (exec lbl w) as [w1| |] eqn:E; simpl; try done. apply IH. by eapply exec_inv.
Qed.

(** A run that changes one connection and, at most, the decoding buffers. *)
Lemma run_on_path lbls l c c' n' w :
  conns (node w) !! l = Some c → run lbls w = Ret {| node := n'; dispatching := dispatching w |} →
  conns n' = <[l := c']> (conns (node w)) → connections n' = connections (node w) →
  opt n' = opt (node w) → to_gateway n' = to_gateway (node w) →
  on_path l c c' w {| node := n'; dispatching := dispatching w |}.
Proof.
  intros Hc Hr Hn Ht Ho Hg. split; try done; simpl; [by rewrite Hn, lookup_insert_eq|].
  intros Hi. exact (run_inv _ _ _ Hi Hr).
Qed.

Lemma run_two l1 a b w w1 w2 w3 : run l1 w = Ret w1 → exec a w1 = Ret w2 → exec b w2 = Ret w3 → run (l1 ++ [a; b]) w = Ret w3.
Proof.
  intros E1 E2 E3. rewrite run_app, E1. eapply run_cons; [exact E2|]. by eapply run_cons; [exact E3|].
Qed.

(** A text of at most 128 bytes: [randseq(128)], and the address of a node. *)
Definition small (s : string) : Prop := (length (string_bytes s) <= 128)%nat.

Lemma small_pair s1 s2 : small s1 → small s2 →
  (wire_field (length (string_bytes s1)) + wire_field (length (string_bytes s2)) < MaxBufferSize)%nat.
Proof.
  unfold small, wire_field. assert (Z.of_nat MaxBufferSize = 4096) by done. lia.
Qed.

Lemma small_dotted a b x y : small (dotted a b x y).
Proof. pose proof (length_dotted a b x y). unfold small. lia. Qed.

(** A datagram that carries a message, and is not cut when it is read. *)
Definition arrives (k : Z) (m : message) (d : bytes) : Prop := carries k m d ∧ cut d = d.

Lemma control_decodes n d k m :
  node_inv n → arrives k m d →
  (k, kind_of m) ∈ [(PacketType.OpenTunnel, KOpenTunnel); (PacketType.Ping, KPing); (PacketType.Pong, KPong)] →
  handle_decode (cut d) n = Ret (at_protos (Z.to_nat k) m n, Dispatch k) ∧
  mjoin (protos (at_protos (Z.to_nat k) m n) !! Z.to_nat k) = Some m.
Proof.
  intros Hn [Hc ->] Hk. pose proof (inv_protos _ n Hn) as Hps.
  destruct (protos_at _ Hps) as ((o & Ho & _) & (pi & Hpi) & (po & Hpo)).
  rewrite !elem_of_cons in Hk. destruct Hk as [[= -> Hm]|[[= -> Hm]|[[= -> Hm]|[]%not_elem_of_nil]]].
  - split; [by apply (handle_decode_control n 2 m (MOpenTunnel o))|apply (at_protos_lookup n 2); [done|lia]].
  - split; [by apply (handle_decode_control n 4 m (MPing pi))|apply (at_protos_lookup n 4); [done|lia]].
  - split; [by apply (handle_decode_control n 5 m (MPong po))|apply (at_protos_lookup n 5); [done|lia]].
Qed.

(** The two halves of [handlePacket] in the goroutine [t], one right after the other. *)
Lemma run_dispatch w t d k m now nonce n' r :
  node_inv (node w) → dispatching w !! t = None → arrives k m d →
  (k, kind_of m) ∈ [(PacketType.OpenTunnel, KOpenTunnel); (PacketType.Ping, KPing); (PacketType.Pong, KPong)] →
  (∀ n, n = at_protos (Z.to_nat k) m (node w) → mjoin (protos n !! Z.to_nat k) = Some m →
     Node.dispatch k now nonce n = Ret (n', r)) →
  run [LDecode t d; LDispatch t k now nonce] w = Ret {| node := n'; dispatching := set_handling t r (dispatching w) |}.
Proof.
  intros Hi Ht Hd Hk Hh. destruct (control_decodes (node w) d k m Hi Hd Hk) as [Ed Em].
  eapply run_cons; [unfold Node.exec; rewrite Ht, Ed; reflexivity|]. eapply run_cons; [|reflexivity].
  unfold Node.exec. simpl. rewrite decide_True by apply lookup_insert_eq. rewrite (Hh _ eq_refl Em). simpl.
  do 2 f_equal. destruct r; simpl; [by rewrite insert_insert_eq|by rewrite delete_insert_eq, delete_id].
Qed.

Lemma run_handlePacket w t d k m now nonce n' :
  node_inv (node w) → dispatching w !! t = None → arrives k m d →
  (k, kind_of m) ∈ [(PacketType.OpenTunnel, KOpenTunnel); (PacketType.Ping, KPing); (PacketType.Pong, KPong)] →
  (∀ n, n = at_protos (Z.to_nat k) m (node w) → mjoin (protos n !! Z.to_nat k) = Some m →
     Node.dispatch k now nonce n = Ret (n', None)) →
  run [LDecode t d; LDispatch t k now nonce] w = Ret {| node := n'; dispatching := dispatching w |}.
Proof.
  intros Hi Ht Hd Hk Hh. rewrite (run_dispatch w t d k m now nonce n' None Hi Ht Hd Hk Hh). simpl. by rewrite delete_id.
Qed.

(** *** What the packets of the handshake do *)

Lemma ping_queues_pong w t d pi now nonce l c :
  node_inv (node w) → dispatching w !! t = None → arrives PacketType.Ping (MPing pi) d →
  connections (node w) !! ping_VirtAddress pi = Some l → conns (node w) !! l = Some c →
  (length (buf (pipeline c)) < cap (pipeline c))%nat → valid_string nonce = true →
  small nonce → small (Address (opt (node w))) →
  ∃ w' po, run [LDecode t d; LDispatch t PacketType.Ping now nonce] w = Ret w' ∧
    on_path l c (with_pipeline (chan_push po (pipeline c)) c) w w' ∧
    arrives PacketType.Pong (MPong {| pong_VirtAddress := Address (opt (node w)); pong_Nonce := nonce |}) po.
Proof.
  intros Hi Ht Hd Hl Hc Hroom Hn Hs Hsa.
  destruct (Encode_valid PacketType.Pong (MPong {| pong_VirtAddress := Address (opt (node w)); pong_Nonce := nonce |}))
    as [po Hpo]. { simpl. by rewrite (inv_address _ _ Hi), Hn. }
  assert (run [LDecode t d; LDispatch t PacketType.Ping now nonce] w =
    Ret {| node := store l (with_pipeline (chan_push po (pipeline c)) c) (at_protos 4 (MPing pi) (node w));
           dispatching := dispatching w |}) as E.
  { apply (run_handlePacket w t d _ (MPing pi)); [done..|set_solver|]. intros n Hn1 Em. unfold Node.dispatch. rewrite Em.
    rewrite bool_decide_eq_true_2 by done. subst n. unfold onPing. simpl. rewrite Hl, Hpo; simpl.
    unfold Node.deref; simpl. rewrite Hc; simpl. by rewrite chan_send_room. }
  eexists _, po. split_and!; [exact E|by eapply run_on_path|].
  apply (Encode_carries _ _ _ Hpo). by apply small_pair.
Qed.

Lemma pong_establishes w t d po now nonce l c :
  node_inv (node w) → dispatching w !! t = None → arrives PacketType.Pong (MPong po) d →
  connections (node w) !! pong_VirtAddress po = Some l → conns (node w) !! l = Some c →
  ∃ w', run [LDecode t d; LDispatch t PacketType.Pong now nonce] w = Ret w' ∧ on_path l c (ponged now c) w w'.
Proof.
  intros Hi Ht Hd Hl Hc.
  assert (run [LDecode t d; LDispatch t PacketType.Pong now nonce] w =
    Ret {| node := store l (ponged now c) (at_protos 5 (MPong po) (node w)); dispatching := dispatching w |}) as E.
  { apply (run_handlePacket w t d _ (MPong po)); [done..|set_solver|]. intros n Hn1 Em. unfold Node.dispatch. rewrite Em.
    rewrite bool_decide_eq_false_2, bool_decide_eq_true_2 by done. subst n. by rewrite (onPong_hit _ po now l c). }
  eexists. split; [exact E|by eapply run_on_path].
Qed.

(** The goroutine of a connection starts, and its first timer fires. *)
Lemma start_runs w l c now :
  conns (node w) !! l = Some c → pc c = Spawned →
  ∃ w', exec (LConnStart l now) w = Ret w' ∧ on_path l c (loop_start now c) w w'.
Proof.
  intros Hc Hpc. assert (exec (LConnStart l now) w =
    Ret {| node := store l (loop_start now c) (node w); dispatching := dispatching w |}) as E.
  { unfold Node.exec. rewrite Hc, decide_True by done. unfold on_node, conn_start, Node.deref. by rewrite Hc. }
  eexists. split; [exact E|by eapply exec_on_path].
Qed.

Lemma timer_pings w l c s ticker now nonce :
  node_inv (node w) → conns (node w) !! l = Some c → pc c = Running (Some s) ticker → s <= now →
  state c = StateConnecting → valid_string nonce = true → small nonce → small (Address (opt (node w))) →
  ∃ w' pi, exec (LConnTurn l now nonce EvConnecting) w = Ret w' ∧
    on_path l c (send pi (with_pc (Running (Some (now + ConnectingRetryDuration)) ticker) c)) w w' ∧
    arrives PacketType.Ping (ping_message (Address (opt (node w))) nonce) pi.
Proof.
  intros Hi Hc Hpc Hs Hst Hn Hsm Hsa. destruct (inv_conns _ _ Hi l c Hc) as [(Hself & _) _].
  destruct (Encode_valid PacketType.Ping (ping_message (selfVirtAddr c) nonce)) as [pi Hpi].
  { simpl. by rewrite Hself, (inv_address _ _ Hi), Hn. }
  assert (exec (LConnTurn l now nonce EvConnecting) w =
    Ret {| node := store l (send pi (with_pc (Running (Some (now + ConnectingRetryDuration)) ticker) c)) (node w);
           dispatching := dispatching w |}) as E.
  { unfold Node.exec. rewrite Hc. unfold ready. rewrite Hpc, bool_decide_eq_true_2 by done.
    unfold on_node, conn_turn, Node.deref. rewrite Hc; simpl. unfold loop_step, ping. rewrite Hpc; simpl.
    rewrite bool_decide_eq_false_2 by tauto. simpl. by rewrite Hpi. }
  eexists _, pi. split_and!; [exact E|by eapply exec_on_path|]. rewrite Hself in Hpi. apply (Encode_carries _ _ _ Hpi).
  by apply small_pair.
Qed.

(** ** One side of the handshake

    The times of a node's steps and the nonces of its ping and its pong, of 128 letters. *)
Record pace := {
  at_intro : Z; at_start : Z; at_timer : Z; at_ping : Z; at_turn : Z; at_pong : Z;
  ping_nonce : string; pong_nonce : string;
}.

Definition pace_ok (k : pace) : Prop :=
  at_start k <= at_timer k ∧ valid_string (ping_nonce k) = true ∧ valid_string (pong_nonce k) = true ∧
  small (ping_nonce k) ∧ small (pong_nonce k).

(** The introduction arrives at the socket to the gateway; the new connection [l] starts and
    pings. *)
Definition opening (l : loc) (d : bytes) (k : pace) : list label :=
  [LDecode 0 d; LDispatch 0 PacketType.OpenTunnel (at_intro k) ""; LDial 0 (at_intro k); LConnStart l (at_start k);
   LConnTurn l (at_timer k) (ping_nonce k) EvConnecting].

(** The other node's ping arrives at the socket of [l], and the pong is written. *)
Definition answering (l : loc) (d : bytes) (k : pace) : list label :=
  [LDecode (S l) d; LDispatch (S l) PacketType.Ping (at_ping k) (pong_nonce k); LConnTurn l (at_turn k) "" EvPipeline].

(** The other node's pong arrives. *)
Definition completing (l : loc) (d : bytes) (k : pace) : list label :=
  [LDecode (S l) d; LDispatch (S l) PacketType.Pong (at_pong k) ""].

(** The node, which was [w0], has the connection [l] to [y]: its loop runs and its queue is
    empty. *)
Record tunnel (w0 w : world) (y : string) (l : loc) (c : connection) : Prop := {
  tunnel_inv : node_inv (node w);
  tunnel_opt : opt (node w) = opt (node w0);
  tunnel_dispatching : dispatching w = dispatching w0;
  tunnel_table : connections (node w) !! y = Some l;
  tunnel_conn : conns (node w) !! l = Some c;
  tunnel_running : ∃ connecting ticker, pc c = Running connecting ticker;
  tunnel_queue : pipeline c = make_chan bytes 128;
}.

Lemma tunnel_on_path w0 w w' y l c c' :
  tunnel w0 w y l c → on_path l c c' w w' → pipeline c' = make_chan bytes 128 →
  (∃ connecting ticker, pc c' = Running connecting ticker) → tunnel w0 w' y l c'.
Proof. intros [] [] ? ?. split; try done; try congruence. auto. Qed.

Lemma introduction_opens w d o remote k :
  let l := next_conn (node w) in
  node_inv (node w) → dispatching w !! 0%nat = None → arrives PacketType.OpenTunnel (MOpenTunnel o) d →
  valid_int64 (ot_AckId o) = true → connections (node w) !! ot_VirtAddress o = None →
  Dial (ot_UdpAddress o) = Some remote → pace_ok k → small (Address (opt (node w))) →
  ∃ w' c ack pi, run (opening l d k) w = Ret w' ∧ tunnel w w' (ot_VirtAddress o) l c ∧
    state c = StateConnecting ∧ peer c = remote ∧ written c = [pi] ∧
    arrives PacketType.Ping (ping_message (Address (opt (node w))) (ping_nonce k)) pi ∧
    to_gateway (node w') = to_gateway (node w) ++ [ack] ∧ acks o ack.
Proof.
  intros l Hi Ht Hd Hid Hnone Hdial (Hk & Hn & _ & Hsm & _) Hsa.
  set (c0 := new_connection (Address (opt (node w))) (ot_VirtAddress o) remote (at_intro k)).
  set (n0 := at_protos 2 (MOpenTunnel o) (node w)).
  edestruct (openTunnelAck_acks o) as (ack & Hack & Hacks); [exact Hid|].
  assert (run [LDecode 0 d; LDispatch 0 PacketType.OpenTunnel (at_intro k) ""; LDial 0 (at_intro k)] w =
    Ret {| node := gateway_write ack (with_next_conn (S l)
             (store l c0 (with_connections (<[ot_VirtAddress o := l]> (connections (node w))) n0)));
           dispatching := dispatching w |}) as E1.
  { change (run ([LDecode 0 d; LDispatch 0 PacketType.OpenTunnel (at_intro k) ""] ++ [LDial 0 (at_intro k)]) w = Ret
      {| node := gateway_write ack (with_next_conn (S l)
             (store l c0 (with_connections (<[ot_VirtAddress o := l]> (connections (node w))) n0)));
           dispatching := dispatching w |}).
    rewrite run_app, (run_dispatch w 0 d _ (MOpenTunnel o) (at_intro k) "" n0 (Some AtDial)); [|done..|set_solver|].
    2:{ intros n Hn1 Em.
      unfold Node.dispatch. rewrite Em. do 2 rewrite bool_decide_eq_false_2 by done.
      rewrite bool_decide_eq_true_2 by done. subst n. unfold onOpenTunnel_select. simpl. by rewrite Hnone. }
    destruct (control_decodes (node w) d _ _ Hi Hd) as [_ Em]; [set_solver|].
    eapply run_cons; [|reflexivity]. unfold Node.exec. simpl. rewrite lookup_insert_eq.
    unfold reopen. change (mjoin (protos n0 !! Z.to_nat PacketType.OpenTunnel) = Some (MOpenTunnel o)) in Em.
    rewrite Em. unfold openConnection. rewrite Hdial. fold l. rewrite Hack. simpl.
    by rewrite delete_insert_eq, delete_id. }
  set (w1 := {| node := _ |}) in E1.
  pose proof (run_inv _ _ _ Hi E1) as Hi1.
  destruct (start_runs w1 l _ (at_start k) (lookup_insert_eq _ _ _) eq_refl) as (w2 & E2 & P2).
  destruct (timer_pings w2 l _ (at_start k) _ (at_timer k) (ping_nonce k) (path_inv _ _ _ _ _ _ P2 Hi1)
    (path_conn' _ _ _ _ _ _ P2) eq_refl Hk eq_refl Hn Hsm) as (w3 & pi & E3 & P3 & C3); [by rewrite (path_opt _ _ _ _ _ _ P2)|].
  pose proof (on_path_trans _ _ _ _ _ _ _ _ P2 P3) as P.
  eexists w3, _, ack, pi. split_and!.
  - exact (run_two _ _ _ _ _ _ _ E1 E2 E3).
  - split; [by apply P|by rewrite (path_opt _ _ _ _ _ _ P)|by rewrite (path_dispatching _ _ _ _ _ _ P)| |by apply P|by eauto|done].
    rewrite (path_others _ _ _ _ _ _ P). simpl. by rewrite lookup_insert_eq.
  - done.
  - done.
  - done.
  - by rewrite (path_opt _ _ _ _ _ _ P2) in C3.
  - by rewrite (path_gateway _ _ _ _ _ _ P).
  - done.
Qed.

Lemma tunnel_answers w0 w y l c d nonce k :
  tunnel w0 w y l c → dispatching w0 !! S l = None → arrives PacketType.Ping (ping_message y nonce) d → pace_ok k → small (Address (opt (node w0))) →
  ∃ w' c' po, run (answering l d k) w = Ret w' ∧ tunnel w0 w' y l c' ∧ state c' = state c ∧ peer c' = peer c ∧
    written c' = written c ++ [po] ∧ to_gateway (node w') = to_gateway (node w) ∧
    arrives PacketType.Pong (MPong {| pong_VirtAddress := Address (opt (node w0)); pong_Nonce := pong_nonce k |}) po.
Proof.
  intros Ht Hd0 Hd (_ & _ & Hn & _ & Hsm) Hsa. destruct (Ht) as [Hi Ho Hdisp Hl Hc (cg & tk & Hpc) Hq].
  destruct (ping_queues_pong w (S l) d {| ping_VirtAddress := y; ping_Nonce := nonce |} (at_ping k) (pong_nonce k) l c Hi) as (w1 & po & E1 & P1 & C1);
    [by rewrite Hdisp|exact Hd|exact Hl|exact Hc|rewrite Hq; simpl; lia|exact Hn|exact Hsm|by rewrite Ho|].
  destruct (turn_writes Dial decodeIPv4 string6 parse6 l po [] (at_turn k) w1 _ cg tk (path_conn' _ _ _ _ _ _ P1))
    as (w2 & E2 & P2); [exact Hpc|simpl; by rewrite Hq|].
  pose proof (on_path_trans _ _ _ _ _ _ _ _ P1 P2) as P. eexists w2, _, po. split_and!.
  - change (answering l d k) with ([LDecode (S l) d; LDispatch (S l) PacketType.Ping (at_ping k) (pong_nonce k)] ++
      [LConnTurn l (at_turn k) "" EvPipeline]). rewrite run_app, E1. eapply run_cons; [exact E2|done].
  - eapply tunnel_on_path; [exact Ht|exact P|simpl; by rewrite Hq|by eauto].
  - done.
  - done.
  - done.
  - apply (path_gateway _ _ _ _ _ _ P).
  - by rewrite Ho in C1.
Qed.

Lemma tunnel_completes w0 w y l c d nonce k :
  tunnel w0 w y l c → dispatching w0 !! S l = None →
  arrives PacketType.Pong (MPong {| pong_VirtAddress := y; pong_Nonce := nonce |}) d →
  ∃ w' c', run (completing l d k) w = Ret w' ∧ tunnel w0 w' y l c' ∧ state c' = StateEstablished ∧
    peer c' = peer c ∧ written c' = written c ∧ to_gateway (node w') = to_gateway (node w).
Proof.
  intros Ht Hd0 Hd. destruct (Ht) as [Hi Ho Hdisp Hl Hc Hpc Hq].
  destruct (pong_establishes w (S l) d {| pong_VirtAddress := y; pong_Nonce := nonce |} (at_pong k) "" l c Hi) as (w1 & E1 & P1);
    [by rewrite Hdisp|exact Hd|exact Hl|exact Hc|].
  eexists w1, _. split_and!; [exact E1|by eapply tunnel_on_path|done..|apply (path_gateway _ _ _ _ _ _ P1)].
Qed.

(** ** The two sides

    What a node has at the end: an established connection, over which it wrote its ping and
    its pong; the gateway got its acknowledgement. *)
Definition connected (w0 w : world) (y : string) (l : loc) (remote : string) (out : list bytes) (ack : bytes)
    (c : connection) : Prop :=
  tunnel w0 w y l c ∧ state c = StateEstablished ∧ peer c = remote ∧ written c = out ∧
  to_gateway (node w) = to_gateway (node w0) ++ [ack].

(** A node that the introduction [o] finds without a connection to its peer. *)
Record introducible (w : world) (o : CtrlOpenTunnel) (d : bytes) (remote : string) (k : pace) : Prop := {
  intro_inv : node_inv (node w);
  intro_idle : dispatching w !! 0%nat = None ∧ dispatching w !! S (next_conn (node w)) = None;
  intro_new : connections (node w) !! ot_VirtAddress o = None;
  intro_carried : arrives PacketType.OpenTunnel (MOpenTunnel o) d ∧ valid_int64 (ot_AckId o) = true;
  intro_dials : Dial (ot_UdpAddress o) = Some remote;
  intro_pace : pace_ok k;
  intro_small : small (Address (opt (node w)));
}.

Lemma handshake wA wB oA oB dA dB rA rB kA kB :
  let lA := next_conn (node wA) in let lB := next_conn (node wB) in
  introducible wA oA dA rA kA → introducible wB oB dB rB kB →
  ot_VirtAddress oA = Address (opt (node wB)) → ot_VirtAddress oB = Address (opt (node wA)) →
  ∃ wA1 wB1 wA2 wB2 wA3 wB3 pingA pingB pongA pongB ackA ackB cA cB,
    run (opening lA dA kA) wA = Ret wA1 ∧ run (opening lB dB kB) wB = Ret wB1 ∧
    run (answering lA pingB kA) wA1 = Ret wA2 ∧ run (answering lB pingA kB) wB1 = Ret wB2 ∧
    run (completing lA pongB kA) wA2 = Ret wA3 ∧ run (completing lB pongA kB) wB2 = Ret wB3 ∧
    connected wA wA3 (ot_VirtAddress oA) lA rA [pingA; pongA] ackA cA ∧ acks oA ackA ∧
    connected wB wB3 (ot_VirtAddress oB) lB rB [pingB; pongB] ackB cB ∧ acks oB ackB.
Proof.
  intros lA lB [HiA [HA0 HA1] HnA [HcA HidA] HdA HkA HsA] [HiB [HB0 HB1] HnB [HcB HidB] HdB HkB HsB] HoA HoB.
  destruct (introduction_opens wA dA oA rA kA) as (wA1 & cA1 & ackA & pingA & EA1 & TA1 & SA1 & RA1 & WA1 & CA1 & GA1 & KA1); [done..|].
  destruct (introduction_opens wB dB oB rB kB) as (wB1 & cB1 & ackB & pingB & EB1 & TB1 & SB1 & RB1 & WB1 & CB1 & GB1 & KB1); [done..|].
  rewrite <- HoB in CA1. rewrite <- HoA in CB1.
  destruct (tunnel_answers _ _ _ _ _ _ _ kA TA1 HA1 CB1 HkA HsA) as (wA2 & cA2 & pongA & EA2 & TA2 & SA2 & RA2 & WA2 & GA2 & CA2).
  destruct (tunnel_answers _ _ _ _ _ _ _ kB TB1 HB1 CA1 HkB HsB) as (wB2 & cB2 & pongB & EB2 & TB2 & SB2 & RB2 & WB2 & GB2 & CB2).
  rewrite <- HoB in CA2. rewrite <- HoA in CB2.
  destruct (tunnel_completes _ _ _ _ _ _ _ kA TA2 HA1 CB2) as (wA3 & cA & EA3 & TA3 & SA3 & RA3 & WA3 & GA3).
  destruct (tunnel_completes _ _ _ _ _ _ _ kB TB2 HB1 CA2) as (wB3 & cB & EB3 & TB3 & SB3 & RB3 & WB3 & GB3).
  exists wA1, wB1, wA2, wB2, wA3, wB3, pingA, pingB, pongA, pongB, ackA, ackB, cA, cB.
  split_and!; try done; (split_and!; [done..|congruence|by rewrite ?WA3, ?WA2, ?WA1, ?WB3, ?WB2, ?WB1|congruence]).
Qed.

(** ** The first packet and the gateway *)

Lemma unknown_asks w a b x y x' y' packet now :
  let v := dotted a b x' y' in
  node_inv (node w) → Address (opt (node w)) = dotted a b x y → [x'; y'] ≠ [x; y] →
  (length packet <= MaxBufferSize)%nat → decodeIPv4 packet = Some [a; b; x'; y'] → connections (node w) !! v = None → pending (node w) !! v = None →
  ∃ w', exec (LDevRead packet now) w = Ret w' ∧ requests (node w') = requests (node w) ++ [v] ∧
    exec (LRequestDone (length (requests (node w)))) w' = Ret w.
Proof.
  intros v Hi Ha Hne Hlen Hp Hv Hpend. eexists. split_and!.
  - unfold Node.exec, on_node. rewrite (device_read_classifies Dial decodeIPv4 string6 parse6 (node w) a b x y a b x' y' packet packet)
      by (done || by apply dev_read_fits).
    rewrite bool_decide_eq_true_2, bool_decide_eq_false_2 by done. unfold forward. fold v. by rewrite Hv, Hpend.
  - done.
  - unfold Node.exec, on_node, request_done. simpl. rewrite list_lookup_middle by done.
    rewrite delete_middle, app_nil_r, delete_insert_eq, delete_id by done. by destruct w as [[] ?].
Qed.

Lemma intro_short id a b x y udp : (length (string_bytes udp) <= 4000)%nat →
  (wire_size (MOpenTunnel {| ot_AckId := id; ot_VirtAddress := dotted a b x y; ot_UdpAddress := udp |}) < MaxBufferSize)%nat.
Proof.
  intros Hu. pose proof (length_dotted a b x y). cbn [wire_size ot_VirtAddress ot_UdpAddress]. unfold wire_field.
  assert (Z.of_nat MaxBufferSize = 4096) by done. lia.
Qed.

Lemma worker_sends pk dest d addr :
  destination pk = dest → ResolveUDPAddr dest = Some addr → worker_bytes pk = Ret d → worker pk = Ret (Some (addr, d)).
Proof. intros <- Hr Hd. unfold Notifier.worker. by rewrite Hr, Hd. Qed.

(** C1: A packet for a node without a tunnel leads to one, in a run of all parts without
    loss.  The packet itself is dropped, and starts the request; the request, at a gateway that
    knows both nodes, leaves an introduction for each, that a worker sends to the node's UDP
    address; the node that gets it dials the other, acknowledges, and its connection's first
    timer sends a ping; the ping is answered with a pong over the other's connection; and the
    pong establishes.  At the end both nodes have an established connection to the other's
    UDP address, over which each wrote its ping and its pong and nothing else; the gateway,
    once it has the two acknowledgements in either order, has nothing pending that it had not
    before; and the next packet goes, behind its type byte, into the queue of the tunnel.  The
    packet fits the buffer of the device's reads, the nonces have at most 128 bytes and the UDP addresses
    at most 4000, so that nothing is cut when it is received. *)
Theorem tunnel_is_established wA wB p pa pb sa sb ra rb major a b x y x' y' packet t0 t1 kA kB :
  let lA := next_conn (node wA) in let lB := next_conn (node wB) in
  let vA := dotted a b x y in let vB := dotted a b x' y' in
  let introA := {| ot_AckId := ackID (notif p) + 1; ot_VirtAddress := vB; ot_UdpAddress := UDPAddress pb |} in
  let introB := {| ot_AckId := ackID (notif p) + 2; ot_VirtAddress := vA; ot_UdpAddress := UDPAddress pa |} in
  node_inv (node wA) → node_inv (node wB) → Address (opt (node wA)) = vA → Address (opt (node wB)) = vB →
  [x'; y'] ≠ [x; y] → (length packet <= MaxBufferSize)%nat → decodeIPv4 packet = Some [a; b; x'; y'] →
  dispatching wA !! 0%nat = None ∧ dispatching wA !! S lA = None →
  dispatching wB !! 0%nat = None ∧ dispatching wB !! S lB = None →
  connections (node wA) !! vB = None → pending (node wA) !! vB = None → connections (node wB) !! vA = None →
  pace_ok kA → pace_ok kB →
  proc_inv p → ack_room (notif p) →
  semver_NewVersion (req_Version (client_request runtime_Version vA vB)) = Api.Ok major → Version.MajorVersion <= major →
  directory (server p) !! vA = Some pa → directory (server p) !! vB = Some pb →
  (length (string_bytes (UDPAddress pa)) <= 4000)%nat → (length (string_bytes (UDPAddress pb)) <= 4000)%nat →
  ResolveUDPAddr (UDPAddress pa) = Some sa → ResolveUDPAddr (UDPAddress pb) = Some sb →
  Dial (UDPAddress pb) = Some rb → Dial (UDPAddress pa) = Some ra →
  ∃ wA0 n1 rpA rpB dA dB wA1 wB1 wA2 wB2 wA3 wB3 pingA pingB pongA pongB ackA ackB cA cB wA4,
    (exec (LDevRead packet t0) wA = Ret wA0 ∧ requests (node wA0) = requests (node wA) ++ [vB] ∧
     exec (LRequestDone (length (requests (node wA)))) wA0 = Ret wA) ∧
    (http_OpenTunnel (client_request runtime_Version vA vB) (server p) (notif p) =
       Ret (n1, Api.Ok {| res_Encrypt := "" |}) ∧
     data n1 !! ot_AckId introA = Some rpA ∧ worker (rp_packet rpA) = Ret (Some (sa, dA)) ∧
     data n1 !! ot_AckId introB = Some rpB ∧ worker (rp_packet rpB) = Ret (Some (sb, dB))) ∧
    (run (opening lA dA kA) wA = Ret wA1 ∧ run (opening lB dB kB) wB = Ret wB1 ∧
     run (answering lA pingB kA) wA1 = Ret wA2 ∧ run (answering lB pingA kB) wB1 = Ret wB2 ∧
     run (completing lA pongB kA) wA2 = Ret wA3 ∧ run (completing lB pongA kB) wB2 = Ret wB3) ∧
    connected wA wA3 vB lA rb [pingA; pongA] ackA cA ∧ connected wB wB3 vA lB ra [pingB; pongB] ackB cB ∧
    (∀ addr addr' t first second, (first, second) = (ackA, ackB) ∨ (first, second) = (ackB, ackA) →
     ∃ p1 p2, serve_packet addr t first {| server := server p; notif := n1 |} = Ret p1 ∧
       serve_packet addr' t second p1 = Ret p2 ∧ server p2 = server p ∧ data (notif p2) = data (notif p)) ∧
    exec (LDevRead packet t1) wA3 = Ret wA4 ∧
    conns (node wA4) !! lA = Some (with_pipeline (Chan 128 [EncodeRaw packet]) cA).
Proof.
  intros lA lB vA vB introA introB HiA HiB HaA HaB Hne Hlp Hp HdA HdB HnA HpA HnB HkA HkB Hpi Hroom Hsem Hmaj Hga Hgb Hla Hlb Hsa Hsb Hrb Hra.
  destruct (unknown_asks wA a b x y x' y' packet t0) as (wA0 & E0 & Q0 & D0); [done..|].
  destruct (tunnel_requested proto_error semver_NewVersion runtime_Version vA vB p pa pb major) as
    (n1 & rpA & rpB & dA & dB & E & DA & TA & DB & TB & WA & WB & CA & IA & CB & IB & LA & LB & Hacks); [done..|].
  specialize (LA (intro_short _ _ _ _ _ _ Hlb)). specialize (LB (intro_short _ _ _ _ _ _ Hla)).
  destruct (handshake wA wB introA introB dA dB rb ra kA kB) as
    (wA1 & wB1 & wA2 & wB2 & wA3 & wB3 & pingA & pingB & pongA & pongB & ackA & ackB & cA & cB &
     EA1 & EB1 & EA2 & EB2 & EA3 & EB3 & KA & AA & KB & AB);
    [split; [done..|by rewrite HaA; apply small_dotted]|split; [done..|by rewrite HaB; apply small_dotted]|done|done|].
  destruct KA as (TA3 & SA3 & KA).
  assert (sender parse6 a b x y x' y' lA wA3 cA) as Hs.
  { split; [by apply TA3|by rewrite (tunnel_opt _ _ _ _ _ TA3)|done|by apply TA3|by apply TA3]. }
  destruct (read_queues Dial decodeIPv4 string6 parse6 a b x y x' y' lA packet t1 wA3 cA Hs Hp Hlp SA3) as (wA4 & E4 & P4).
  { rewrite (tunnel_queue _ _ _ _ _ TA3). simpl. lia. }
  exists wA0, n1, rpA, rpB, dA, dB, wA1, wB1, wA2, wB2, wA3, wB3, pingA, pingB, pongA, pongB, ackA, ackB, cA, cB, wA4.
  split_and!; try done.
  - by eapply worker_sends.
  - by eapply worker_sends.
  - intros addr addr' t first second. exact (Hacks ackA ackB addr addr' t first second AA AB).
  - rewrite (path_conn' _ _ _ _ _ _ P4). unfold queued, pushes. simpl. by rewrite (tunnel_queue _ _ _ _ _ TA3).
Qed.

End establish.

(** ** From 10.0.0.1 to 10.0.0.2 *)
Module EstablishDemo.
Import Gateway.Demo Node.Demo MeshDemo.

Definition wA : world := world_init Node.Demo.parse6 (options "10.0.0.1").
Definition wB : world := world_init Node.Demo.parse6 (options "10.0.0.2").

Definition at_peer (v u : string) : PeerInfo := {| VirtAddress := v; UDPAddress := u; LastHeartbeat := 0 |}.

Definition steps (t : Z) (n m : string) : pace := {|
  at_intro := t; at_start := t + 1; at_timer := t + 2; at_ping := t + 3; at_turn := t + 4; at_pong := t + 5;
  ping_nonce := n; pong_nonce := m |}.

Lemma pace_demo : pace_ok (steps 10 "a" "b").
Proof. split_and!; vm_compute; try done; lia. Qed.

Lemma pace_demo' : pace_ok (steps 11 "c" "d").
Proof. split_and!; vm_compute; try done; lia. Qed.

Lemma tunnel_is_established_witness :
  ∃ dA dB pingA pingB pongA pongB wA1 wA2 wA3 wA4 c,
    Node.run dial decode string6 (opening 0 dA (steps 10 "a" "b")) wA = Ret wA1 ∧
    Node.run dial decode string6 (answering 0 pingB (steps 10 "a" "b")) wA1 = Ret wA2 ∧
    Node.run dial decode string6 (completing 0 pongB (steps 10 "a" "b")) wA2 = Ret wA3 ∧
    connected Node.Demo.parse6 wA wA3 "10.0.0.2" 0 "2.2.2.2:2" [pingA; pongA] dB c ∧
    Node.exec dial decode string6 (LDevRead packet 20) wA3 = Ret wA4 ∧
    conns (node wA4) !! 0%nat = Some (with_pipeline (Chan 128 [EncodeRaw packet]) c).
Proof.
  destruct (tunnel_is_established perr semver "go1.14" resolve dial decode string6 Node.Demo.parse6 wA wB (proc g)
    (at_peer "10.0.0.1" "1.1.1.1:1") (at_peer "10.0.0.2" "2.2.2.2:2") "1.1.1.1:1" "2.2.2.2:2" "1.1.1.1:1" "2.2.2.2:2" 0
    Byte.x0a Byte.x00 Byte.x00 Byte.x01 Byte.x00 Byte.x02 packet 5 20 (steps 10 "a" "b") (steps 11 "c" "d")
    nA_inv nB_inv eq_refl eq_refl ltac:(discriminate) ltac:(vm_compute; lia) eq_refl (conj eq_refl eq_refl) (conj eq_refl eq_refl)
    eq_refl eq_refl eq_refl pace_demo pace_demo'
    g_inv ltac:(by vm_compute) ltac:(by vm_compute) ltac:(by vm_compute) ltac:(by vm_compute) ltac:(by vm_compute)
    ltac:(vm_compute; lia) ltac:(vm_compute; lia) eq_refl eq_refl eq_refl eq_refl)
    as (wA0 & n1 & rpA & rpB & dA & dB & wA1 & wB1 & wA2 & wB2 & wA3 & wB3 & pingA & pingB & pongA & pongB & ackA &
        ackB & cA & cB & wA4 & _ & _ & (H1 & _ & H3 & _ & H5 & _) & HA & _ & _ & H7 & H8).
  exists dA, ackA, pingA, pingB, pongA, pongB, wA1, wA2, wA3, wA4, cA.
  exact (conj H1 (conj H3 (conj H5 (conj HA (conj H7 H8))))).
Defined.

End EstablishDemo.
