(* ===== verification/Pe.v ===== *)
(** * Machine words, memory and the PE structures

    The uintptr arithmetic of [memmod_windows.go], and the structures and constants of
    [syscall_windows.go], [syscall_windows_32.go] and [syscall_windows_64.go].  A structure
    is the list of its fields as the source declares them; offsets and sizes follow Go's
    alignment rules, and a field is read from memory at its offset. *)

From S2P Require Import Prelude.

Local Open Scope Z_scope.

(** ** Little-endian integers in a byte-addressed memory *)

(** The addresses of the process that can be read and written. *)
Abbreviation memory := (gmap Z byte).

Fixpoint le_combine (bs : bytes) : Z :=
  match bs with [] => 0 | b :: bs => byte_val b + 256 * le_combine bs end.

Fixpoint le_split (n : nat) (z : Z) : bytes :=
  match n with O => [] | S n => to_byte z :: le_split n (z / 256) end.

Fixpoint load_bytes (n : nat) (a : Z) (m : memory) : option bytes :=
  match n with
  | O => Some []
  | S n => b ← m !! a; bs ← load_bytes n (a + 1) m; Some (b :: bs)
  end.

Fixpoint store_bytes (bs : bytes) (a : Z) (m : memory) : option memory :=
  match bs with
  | [] => Some m
  | b :: bs =>
      match m !! a with
      | Some _ => store_bytes bs (a + 1) (<[a := b]> m)
      | None => None
      end
  end.

Definition load (n : nat) (a : Z) (m : memory) : option Z := le_combine <$> load_bytes n a m.
Definition store (n : nat) (a v : Z) (m : memory) : option memory := store_bytes (le_split n v) a m.

Lemma le_split_length n z : length (le_split n z) = n.
Proof. revert z. induction n as [|n IH]; intros z; simpl; [done|]. by rewrite IH. Qed.

Lemma le_combine_range bs : 0 <= le_combine bs < 256 ^ Z.of_nat (length bs).
Proof.
  induction bs as [|b bs IH]; simpl length; [done|].
  rewrite Nat2Z.inj_succ, Z.pow_succ_r by lia. simpl. pose proof (byte_val_range b). lia.
Qed.

Lemma le_combine_split n z : le_combine (le_split n z) = z mod 256 ^ Z.of_nat n.
Proof.
  revert z. induction n as [|n IH]; intros z.
  - simpl. by rewrite Z.mod_1_r.
  - cbn [le_split le_combine]. rewrite IH, byte_val_to_byte, Nat2Z.inj_succ, Z.pow_succ_r by lia.
    rewrite Z.rem_mul_r by lia. lia.
Qed.

Lemma load_store_bytes bs a m m' :
  store_bytes bs a m = Some m' → load_bytes (length bs) a m' = Some bs ∧
    (∀ x, x < a ∨ a + Z.of_nat (length bs) <= x → m' !! x = m !! x) ∧ dom m' = dom m.
Proof.
  revert a m. induction bs as [|b bs IH]; intros a m; simpl; [by intros [= <-]|].
  destruct (m !! a) as [b0|] eqn:E; [|done]. intros (Hl & Ho & Hd)%IH. split_and!.
  - rewrite (Ho a) by lia. rewrite lookup_insert_eq; simpl. by rewrite Hl.
  - intros x Hx. rewrite Ho by lia. rewrite lookup_insert_ne by lia. done.
  - rewrite Hd, dom_insert_L. apply elem_of_dom_2 in E. set_solver.
Qed.

Lemma load_bytes_ext n a m m' :
  (∀ x, a <= x < a + Z.of_nat n → m' !! x = m !! x) → load_bytes n a m' = load_bytes n a m.
Proof.
  revert a. induction n as [|n IH]; intros a Hx; simpl; [done|].
  rewrite Hx by lia. rewrite IH; [done|]. intros x ?. apply Hx. lia.
Qed.

Lemma store_bytes_mapped bs a m :
  (∀ x, a <= x < a + Z.of_nat (length bs) → x ∈ dom m) → is_Some (store_bytes bs a m).
Proof.
  revert a m. induction bs as [|b bs IH]; intros a m Hm; simpl; [done|].
  destruct (m !! a) as [b0|] eqn:E.
  - apply IH. intros x Hx. rewrite dom_insert_L. apply elem_of_union_r, Hm. simpl. lia.
  - apply not_elem_of_dom in E. destruct E. apply Hm. simpl. lia.
Qed.

(** What a store does: the word reads back as the value cut to its width, every other
    address keeps its byte, and the same addresses stay mapped. *)
Lemma load_store n a v m m' :
  store n a v m = Some m' →
  load n a m' = Some (v mod 256 ^ Z.of_nat n) ∧
  (∀ x, x < a ∨ a + Z.of_nat n <= x → m' !! x = m !! x) ∧ dom m' = dom m.
Proof.
  intros (Hl & Ho & Hd)%load_store_bytes. rewrite le_split_length in *. split_and!; [|done|done].
  unfold load. rewrite Hl. simpl. by rewrite le_combine_split.
Qed.

Lemma load_range n a m v : load n a m = Some v → 0 <= v < 256 ^ Z.of_nat n.
Proof.
  unfold load. destruct (load_bytes n a m) as [bs|] eqn:E; [|done]. intros [= <-].
  assert (length bs = n) as <-; [|apply le_combine_range].
  revert a bs E. induction n as [|n IH]; intros a bs; simpl; [by intros [= <-]|].
  destruct (m !! a); simpl; [|done]. destruct (load_bytes n (a + 1) m) eqn:E; simpl; [|done].
  intros [= <-]. simpl. f_equal. by eapply IH.
Qed.

Lemma load_disjoint n a k b m m' v :
  store n a v m = Some m' → b + Z.of_nat k <= a ∨ a + Z.of_nat n <= b → load k b m' = load k b m.
Proof.
  intros (_ & Ho & _)%load_store Hd. unfold load. f_equal. apply load_bytes_ext.
  intros x Hx. apply Ho. lia.
Qed.

(** A word that can be read can be written. *)
Lemma load_store_ok n a m v v' : load n a m = Some v → is_Some (store n a v' m).
Proof.
  intros Hl. apply store_bytes_mapped. rewrite le_split_length.
  unfold load in Hl. apply fmap_Some in Hl as (bs & Hl & _). revert a bs Hl.
  induction n as [|n IH]; intros a bs; simpl; [lia|].
  destruct (m !! a) as [b|] eqn:E; simpl; [|done].
  destruct (load_bytes n (a + 1) m) as [bs'|] eqn:E'; simpl; [|done]. intros _ x Hx.
  destruct (decide (x = a)) as [->|]; [by eapply elem_of_dom_2|]. apply (IH (a + 1) bs' E'). lia.
Qed.

(** ** Structure layouts *)

Record field := Field { f_name : string; f_size : Z; f_count : Z }.

(** A structure of the source: its fields in order. *)
Abbreviation layout := (list field).

Definition u8 (s : string) : field := Field s 1 1.
Definition u16 (s : string) : field := Field s 2 1.
Definition u32 (s : string) : field := Field s 4 1.
Definition array (s : string) (size count : Z) : field := Field s size count.

Definition align_to (o a : Z) : Z := (o + a - 1) / a * a.

(** The offset of field [f] in the rest [l] of a structure, from offset [o]. *)
Fixpoint offsetof (l : layout) (o : Z) (f : string) : option Z :=
  match l with
  | [] => None
  | Field s size count :: l =>
      let o := align_to o size in
      if bool_decide (s = f) then Some o else offsetof l (o + size * count) f
  end.

Fixpoint end_of (l : layout) (o : Z) : Z :=
  match l with [] => o | Field _ size count :: l => end_of l (align_to o size + size * count) end.

Definition alignof (l : layout) : Z := foldr (λ f a, Z.max (f_size f) a) 1 l.

Definition sizeof (l : layout) : Z := align_to (end_of l 0) (alignof l).

Definition f_width (l : layout) (f : string) : Z :=
  from_option f_size 0 (list_find (λ x, f_name x = f) l ≫= λ p, Some p.2).

(** [p->f] for the structure [l] at address [a]. *)
Definition get (l : layout) (f : string) (a : Z) (m : memory) : option Z :=
  o ← offsetof l 0 f; load (Z.to_nat (f_width l f)) (a + o) m.

Definition set (l : layout) (f : string) (a v : Z) (m : memory) : option memory :=
  o ← offsetof l 0 f; store (Z.to_nat (f_width l f)) (a + o) v m.

(** ** syscall_windows.go *)

Definition IMAGE_DOS_SIGNATURE : Z := 0x5A4D.
Definition IMAGE_NT_SIGNATURE : Z := 0x00004550.

Definition IMAGE_DOS_HEADER : layout :=
  [u16 "E_magic"; u16 "E_cblp"; u16 "E_cp"; u16 "E_crlc"; u16 "E_cparhdr"; u16 "E_minalloc";
   u16 "E_maxalloc"; u16 "E_ss"; u16 "E_sp"; u16 "E_csum"; u16 "E_ip"; u16 "E_cs";
   u16 "E_lfarlc"; u16 "E_ovno"; array "E_res" 2 4; u16 "E_oemid"; u16 "E_oeminfo";
   array "E_res2" 2 10; u32 "E_lfanew"].

Definition IMAGE_FILE_HEADER : layout :=
  [u16 "Machine"; u16 "NumberOfSections"; u32 "TimeDateStamp"; u32 "PointerToSymbolTable";
   u32 "NumberOfSymbols"; u16 "SizeOfOptionalHeader"; u16 "Characteristics"].

Definition IMAGE_FILE_DLL : Z := 0x2000.
Definition IMAGE_FILE_MACHINE_I386 : Z := 0x014c.
Definition IMAGE_FILE_MACHINE_ARMNT : Z := 0x01c4.
Definition IMAGE_FILE_MACHINE_AMD64 : Z := 0x8664.
Definition IMAGE_FILE_MACHINE_ARM64 : Z := 0xAA64.

Definition IMAGE_DATA_DIRECTORY : layout := [u32 "VirtualAddress"; u32 "Size"].
Definition IMAGE_NUMBEROF_DIRECTORY_ENTRIES : Z := 16.

Definition IMAGE_DIRECTORY_ENTRY_EXPORT : Z := 0.
Definition IMAGE_DIRECTORY_ENTRY_IMPORT : Z := 1.
Definition IMAGE_DIRECTORY_ENTRY_BASERELOC : Z := 5.
Definition IMAGE_DIRECTORY_ENTRY_TLS : Z := 9.

Definition IMAGE_SECTION_HEADER : layout :=
  [array "Name" 1 8; u32 "physicalAddressOrVirtualSize"; u32 "VirtualAddress";
   u32 "SizeOfRawData"; u32 "PointerToRawData"; u32 "PointerToRelocations";
   u32 "PointerToLinenumbers"; u16 "NumberOfRelocations"; u16 "NumberOfLinenumbers";
   u32 "Characteristics"].

Definition IMAGE_SCN_CNT_INITIALIZED_DATA : Z := 0x00000040.
Definition IMAGE_SCN_CNT_UNINITIALIZED_DATA : Z := 0x00000080.
Definition IMAGE_SCN_MEM_DISCARDABLE : Z := 0x02000000.
Definition IMAGE_SCN_MEM_NOT_CACHED : Z := 0x04000000.
Definition IMAGE_SCN_MEM_EXECUTE : Z := 0x20000000.
Definition IMAGE_SCN_MEM_READ : Z := 0x40000000.
Definition IMAGE_SCN_MEM_WRITE : Z := 0x80000000.

Definition IMAGE_BASE_RELOCATION : layout := [u32 "VirtualAddress"; u32 "SizeOfBlock"].

Definition IMAGE_REL_BASED_ABSOLUTE : Z := 0.
Definition IMAGE_REL_BASED_HIGH : Z := 1.
Definition IMAGE_REL_BASED_LOW : Z := 2.
Definition IMAGE_REL_BASED_HIGHLOW : Z := 3.
Definition IMAGE_REL_BASED_THUMB_MOV32 : Z := 7.
Definition IMAGE_REL_BASED_DIR64 : Z := 10.

Definition IMAGE_EXPORT_DIRECTORY : layout :=
  [u32 "Characteristics"; u32 "TimeDateStamp"; u16 "MajorVersion"; u16 "MinorVersion";
   u32 "Name"; u32 "Base"; u32 "NumberOfFunctions"; u32 "NumberOfNames";
   u32 "AddressOfFunctions"; u32 "AddressOfNames"; u32 "AddressOfNameOrdinals"].

Definition IMAGE_IMPORT_BY_NAME : layout := [u16 "Hint"; array "Name" 1 1].

Definition IMAGE_IMPORT_DESCRIPTOR : layout :=
  [u32 "characteristicsOrOriginalFirstThunk"; u32 "TimeDateStamp"; u32 "ForwarderChain";
   u32 "Name"; u32 "FirstThunk"].

Definition DLL_PROCESS_ATTACH : Z := 1.
Definition DLL_PROCESS_DETACH : Z := 0.

(** ** What depends on the width of [uintptr] *)

(** The builds of the code: 386 and arm, amd64 and arm64. *)
Class Arch := { w64 : bool; imageFileProcess : Z }.

Section arch.
Context `{Arch}.

Definition wordsize : Z := if w64 then 64 else 32.

(** Results of [uintptr] operations. *)
Definition up (z : Z) : Z := uwrap wordsize z.

Definition uintptr (s : string) : field := Field s (wordsize / 8) 1.

(** Those of [syscall_windows_32.go] and [syscall_windows_64.go]. *)
Definition IMAGE_OPTIONAL_HEADER_32 : layout :=
  [u16 "Magic"; u8 "MajorLinkerVersion"; u8 "MinorLinkerVersion"; u32 "SizeOfCode";
   u32 "SizeOfInitializedData"; u32 "SizeOfUninitializedData"; u32 "AddressOfEntryPoint";
   u32 "BaseOfCode"; u32 "BaseOfData";
   uintptr "ImageBase"; u32 "SectionAlignment"; u32 "FileAlignment";
   u16 "MajorOperatingSystemVersion"; u16 "MinorOperatingSystemVersion"; u16 "MajorImageVersion";
   u16 "MinorImageVersion"; u16 "MajorSubsystemVersion"; u16 "MinorSubsystemVersion";
   u32 "Win32VersionValue"; u32 "SizeOfImage"; u32 "SizeOfHeaders"; u32 "CheckSum";
   u16 "Subsystem"; u16 "DllCharacteristics"; uintptr "SizeOfStackReserve";
   uintptr "SizeOfStackCommit"; uintptr "SizeOfHeapReserve"; uintptr "SizeOfHeapCommit";
   u32 "LoaderFlags"; u32 "NumberOfRvaAndSizes";
   array "DataDirectory" 4 (2 * IMAGE_NUMBEROF_DIRECTORY_ENTRIES)].

Definition IMAGE_OPTIONAL_HEADER_64 : layout :=
  [u16 "Magic"; u8 "MajorLinkerVersion"; u8 "MinorLinkerVersion"; u32 "SizeOfCode";
   u32 "SizeOfInitializedData"; u32 "SizeOfUninitializedData"; u32 "AddressOfEntryPoint";
   u32 "BaseOfCode";
   uintptr "ImageBase"; u32 "SectionAlignment"; u32 "FileAlignment";
   u16 "MajorOperatingSystemVersion"; u16 "MinorOperatingSystemVersion"; u16 "MajorImageVersion";
   u16 "MinorImageVersion"; u16 "MajorSubsystemVersion"; u16 "MinorSubsystemVersion";
   u32 "Win32VersionValue"; u32 "SizeOfImage"; u32 "SizeOfHeaders"; u32 "CheckSum";
   u16 "Subsystem"; u16 "DllCharacteristics"; uintptr "SizeOfStackReserve";
   uintptr "SizeOfStackCommit"; uintptr "SizeOfHeapReserve"; uintptr "SizeOfHeapCommit";
   u32 "LoaderFlags"; u32 "NumberOfRvaAndSizes";
   array "DataDirectory" 4 (2 * IMAGE_NUMBEROF_DIRECTORY_ENTRIES)].

Definition IMAGE_OPTIONAL_HEADER : layout := if w64 then IMAGE_OPTIONAL_HEADER_64 else IMAGE_OPTIONAL_HEADER_32.

(** [IMAGE_NT_HEADERS] nests the two headers above; these are its three offsets. *)
Definition OffsetFileHeader : Z := 4.
Definition OffsetOptionalHeader : Z := OffsetFileHeader + sizeof IMAGE_FILE_HEADER.
Definition sizeof_IMAGE_NT_HEADERS : Z := OffsetOptionalHeader + sizeof IMAGE_OPTIONAL_HEADER.

Definition IMAGE_TLS_DIRECTORY : layout :=
  [uintptr "StartAddressOfRawData"; uintptr "EndAddressOfRawData"; uintptr "AddressOfIndex";
   uintptr "AddressOfCallbacks"; u32 "SizeOfZeroFill"; u32 "Characteristics"].

Definition IMAGE_ORDINAL_FLAG : Z := if w64 then 0x8000000000000000 else 0x80000000.

Definition IMAGE_ORDINAL (ordinal : Z) : Z := Z.land ordinal 0xffff.
Definition IMAGE_SNAP_BY_ORDINAL (ordinal : Z) : bool :=
  bool_decide (Z.land ordinal IMAGE_ORDINAL_FLAG ≠ 0).

(** [^x] and the two roundings of [memmod_windows.go]. *)
Definition up_not (z : Z) : Z := up (Z.lnot z).
Definition alignDown (value alignment : Z) : Z := Z.land value (up_not (up (alignment - 1))).
Definition alignUp (value alignment : Z) : Z :=
  Z.land (up (value + alignment - 1)) (up_not (up (alignment - 1))).

(** *** Rounding *)

Lemma wordsize_pos : 32 <= wordsize.
Proof. unfold wordsize. destruct w64; lia. Qed.

Lemma up_in z : in_uint wordsize (up z).
Proof. apply uwrap_in. pose proof wordsize_pos. lia. Qed.

Lemma up_small z : in_uint wordsize z → up z = z.
Proof. apply uwrap_small. Qed.

Lemma land_up_not a b : in_uint wordsize a → Z.land a (up_not b) = Z.ldiff a b.
Proof.
  intros Ha. pose proof wordsize_pos. unfold up_not, up, uwrap.
  rewrite <- Z.land_ones by lia. rewrite (Z.land_comm (Z.lnot b)), Z.land_assoc, Z.land_ones by lia.
  rewrite Z.mod_small by done. symmetry. apply Z.ldiff_land.
Qed.

Lemma ldiff_pow2 a k : 0 <= k → Z.ldiff a (2 ^ k - 1) = a / 2 ^ k * 2 ^ k.
Proof.
  intros Hk. replace (2 ^ k - 1) with (Z.ones k) by (rewrite Z.ones_equiv; lia).
  rewrite Z.ldiff_ones_r by done. by rewrite Z.shiftr_div_pow2, Z.shiftl_mul_pow2.
Qed.

(** The alignments the rounding is meant for. *)
Definition power_of_two (a : Z) : Prop := ∃ k, 0 <= k < wordsize ∧ a = 2 ^ k.

Lemma power_of_two_mask k : 0 <= k < wordsize → up (2 ^ k - 1) = 2 ^ k - 1.
Proof.
  intros Hk. apply up_small. unfold in_uint.
  pose proof (Z.pow_lt_mono_r 2 k wordsize ltac:(lia) ltac:(lia) ltac:(lia)). lia.
Qed.

Lemma alignDown_div v k :
  in_uint wordsize v → 0 <= k < wordsize → alignDown v (2 ^ k) = v / 2 ^ k * 2 ^ k.
Proof.
  intros Hv Hk. unfold alignDown. rewrite power_of_two_mask by done.
  rewrite land_up_not by done. apply ldiff_pow2. lia.
Qed.

Lemma alignUp_div v k :
  0 <= k < wordsize → alignUp v (2 ^ k) = up (v + 2 ^ k - 1) / 2 ^ k * 2 ^ k.
Proof.
  intros Hk. unfold alignUp. rewrite power_of_two_mask by done.
  rewrite land_up_not by apply up_in. apply ldiff_pow2. lia.
Qed.

(** For a power of two the bit tricks round: [alignDown] gives the largest multiple of
    the alignment that is not above the value, [alignUp] the smallest one not below it, as
    long as that one fits into a word; when it does not fit, [alignUp] wraps around to a
    result below the value. *)
Theorem align_rounds v a :
  in_uint wordsize v → power_of_two a →
  (∃ q, alignDown v a = q * a ∧ q * a <= v < (q + 1) * a) ∧
  if bool_decide (v + a - 1 < 2 ^ wordsize)
  then ∃ q, alignUp v a = q * a ∧ (q - 1) * a < v <= q * a
  else alignUp v a < v.
Proof.
  intros Hv (k & Hk & ->). rewrite alignDown_div, alignUp_div by done. unfold in_uint in Hv.
  assert (0 < 2 ^ k < 2 ^ wordsize) as Hp.
  { split; [by apply Z.pow_pos_nonneg; lia|]. apply Z.pow_lt_mono_r; lia. }
  set (a := 2 ^ k) in *. split.
  - exists (v / a). split; [done|]. pose proof (Z.div_mod v a). pose proof (Z.mod_pos_bound v a). nia.
  - case_bool_decide as Hf.
    + exists ((v + a - 1) / a). rewrite up_small by (unfold in_uint; lia). split; [done|].
      pose proof (Z.div_mod (v + a - 1) a). pose proof (Z.mod_pos_bound (v + a - 1) a). nia.
    + assert (up (v + a - 1) = v + a - 1 - 2 ^ wordsize) as ->.
      { unfold up, uwrap. symmetry. apply (Z.mod_unique_pos _ _ 1); lia. }
      pose proof (Z.mul_div_le (v + a - 1 - 2 ^ wordsize) a ltac:(lia)). lia.
Qed.

End arch.

Definition amd64 : Arch := {| w64 := true; imageFileProcess := IMAGE_FILE_MACHINE_AMD64 |}.
Definition i386 : Arch := {| w64 := false; imageFileProcess := IMAGE_FILE_MACHINE_I386 |}.

Lemma align_rounds_witness :
  alignUp (H := amd64) 5000 4096 < 9000 ∧ ∃ q, alignDown (H := amd64) 5000 4096 = q * 4096.
Proof.
  split; [by vm_compute|].
  destruct (align_rounds (H := amd64) 5000 4096 ltac:(by vm_compute)
    ltac:(exists 12; vm_compute; intuition discriminate)) as [(q & Hq & _) _].
  by exists q.
Defined.
