(* ===== verification/TunUnix.v ===== *)
(** * Opening the virtual device on Linux and macOS

    [node/tun/tun.go], [NewTUN] of [node/tun/tun_linux.go] and of [node/tun/tun_darwin.go]
    (with [setNonBlock] of its two variants), as programs over the kernel and the commands
    that configure an interface.  What the kernel and the commands do is the host's.  The
    theorems say what a call of [NewTUN] leaves open, whatever the host replies. *)

From S2P Require Import Prelude Message Net Sys Tun Pe.

Local Open Scope Z_scope.

(** ** tun.go *)

Definition DefaultMTU : Z := 1420.

(** The [io.ReadWriteCloser] of a device: an [os.File] by its descriptor, bare or behind
    the framing of macOS. *)
Inductive ReadWriteCloser := OsFile (fd : Z) | Framed (fd : Z) (t : Darwin.tunReadCloser).

Record generalDevice := { name : string; rwc : ReadWriteCloser }.

(** [Name()]. *)
Definition Name (d : generalDevice) : string := name d.

(** ** The kernel *)

Inductive syscall :=
| Open (path : string) (flags perm : Z)
| Socket (domain typ proto : Z)
| Ioctl (fd req : Z) (arg : bytes)
| IoctlSetIfreqMTU (fd : Z) (ifr_Name : bytes) (ifr_MTU : Z)
| Connect (fd : Z) (sockaddr : bytes) (len : Z)
| Getsockopt (fd level opt : Z) (val : bytes) (len : Z)
| SetNonblock (fd : Z) (nonblocking : bool)
| Close (fd : Z)
| NewFile (fd : Z) (name : bytes)
| Command (args : list string).

(** [Ioctl] and [Getsockopt] give the error number and what the kernel writes over the
    argument, [Command] the combined output and the error; the error of [Close] is
    dropped. *)
Definition reply (c : syscall) : Type :=
  match c with
  | Open _ _ _ | Socket _ _ _ => Z + error
  | Ioctl _ _ _ => Z * bytes
  | IoctlSetIfreqMTU _ _ _ | SetNonblock _ _ => option error
  | Connect _ _ _ => Z
  | Getsockopt _ _ _ _ _ => Z * bytes * Z
  | Close _ | NewFile _ _ => ()
  | Command _ => string * option error
  end.

Abbreviation prog := (prog reply).
Abbreviation E A := (prog (A + error)).

Definition fail {A} (e : error) : E A := Done (inr e).

(** [if out, err := command.CombinedOutput(); err != nil { return nil,
    errors.WithMessagef(err, "output: %s", string(out)) }]. *)
Definition run_command (args : list string) : E () :=
  r ← do (Command args);
  Done match r.2 with Some e => inr (Wrap ("output: " +:+ r.1) e) | None => inl () end.

(** A store of [n] bytes through a pointer to [b[off]], little-endian. *)
Definition put (n off : nat) (v : Z) (b : bytes) : bytes := take off b ++ le_split n v ++ drop (off + n) b.

(** [Close()] of a device, which is that of its file, also behind the framing. *)
Definition Close_device (d : generalDevice) : prog () :=
  match rwc d with OsFile fd | Framed fd _ => do (Close fd) end.

(** [[n]byte{}]. *)
Definition zeros (n : nat) : bytes := replicate n Byte.x00.

(** [strings.Trim(s, NUL)]. *)
Fixpoint trim_left (b : bytes) : bytes :=
  match b with Byte.x00 :: b => trim_left b | _ => b end.
Definition Trim (b : bytes) : bytes := reverse (trim_left (reverse (trim_left b))).

Definition AF_INET : Z := 2.
Definition SOCK_DGRAM : Z := 2.

(** ** tun_linux.go, with the constants of Linux on amd64 *)
Module LinuxTun.

Definition O_RDWR : Z := 0x2.
Definition O_NONBLOCK : Z := 0x800.
Definition IFNAMSIZ : nat := 16.
Definition IFF_TUN : Z := 0x1.
Definition IFF_NO_PI : Z := 0x1000.
Definition TUNSETIFF : Z := 0x400454ca.
Definition SIOCSIFMTU : Z := 0x8922.

Definition size : nat := IFNAMSIZ + 64.

Definition setiff : bytes := put 2 IFNAMSIZ (Z.lor IFF_TUN IFF_NO_PI) (zeros size).

Definition setmtu_arg (name : bytes) : bytes := put 4 IFNAMSIZ DefaultMTU (copy (zeros size) name).

Definition setmtu (name : bytes) : E () :=
  fd ←? do (Socket AF_INET SOCK_DGRAM 0);
  defer (do (Close fd))
    (r ← do (Ioctl fd SIOCSIFMTU (setmtu_arg name));
     if bool_decide (r.1 ≠ 0) then fail (New "failed to set MTU of TUN device") else Done (inl ())).

Definition NewTUN (addr : string) : E generalDevice :=
  fd ←? do (Open "/dev/net/tun" (Z.lor O_RDWR O_NONBLOCK) 0);
  r ← do (Ioctl fd TUNSETIFF setiff);
  if bool_decide (r.1 ≠ 0) then fail (Errno r.1) else
  let name := Trim (take IFNAMSIZ (copy setiff r.2)) in
  _ ←? setmtu name;
  _ ← do (NewFile fd (string_bytes "tun"));
  let dev := {| name := bytes_string name; rwc := OsFile fd |} in
  _ ←? run_command ["ip"; "addr"; "add"; addr +:+ "/16"; "dev"; bytes_string name];
  _ ←? run_command ["ip"; "link"; "set"; "dev"; bytes_string name; "up"];
  Done (inl dev).

End LinuxTun.

(** ** tun_darwin.go, tun_darwin_go1.11.go, tun_darwin_legacy.go *)
Module DarwinTun.

Definition appleUTUNCtl : string := "com.apple.net.utun_control".

Definition appleCTLIOCGINFO : Z :=
  Z.lor (Z.lor (Z.lor (Z.lor 0x40000000 0x80000000) (Z.shiftl (Z.land 100 0x1fff) 16)) (Z.shiftl 78 8)) 3.

(** [appleTUNSIFMODE], which nothing uses. *)
Definition appleTUNSIFMODE : Z :=
  Z.lor (Z.lor (Z.lor 0x80000000 (Z.shiftl (Z.land 4 0x1fff) 16)) (Z.shiftl 116 8)) 94.

Definition AF_SYSTEM : Z := 32.

Definition sockaddrCtl : layout :=
  [u8 "scLen"; u8 "scFamily"; u16 "ssSysaddr"; u32 "scID"; u32 "scUnit"; array "scReserved" 4 5].

Definition sockaddrCtlSize : Z := 32.

(** [&sockaddrCtl{...}], as the bytes of its fields. *)
Definition addrP (ctlID : Z) : bytes :=
  le_split 1 (uwrap 8 sockaddrCtlSize) ++ le_split 1 AF_SYSTEM ++ le_split 2 2 ++ le_split 4 ctlID
  ++ zeros 4 ++ zeros 20.

(** [ctlInfo]: an identifier of four bytes, and the name. *)
Definition ctlInfo : bytes := zeros 4 ++ copy (zeros 96) (string_bytes appleUTUNCtl).

(** [setNonBlock(fd)], of Go 1.11 or of an older one. *)
Definition setNonBlock (go1_11 : bool) (fd : Z) : prog (option error) :=
  if go1_11 then do (SetNonblock fd true) else Done None.

Definition setmtu (name : bytes) : E () :=
  fd ←? do (Socket AF_INET SOCK_DGRAM 0);
  defer (do (Close fd))
    (err ← do (IoctlSetIfreqMTU fd (copy (zeros 16) name) DefaultMTU);
     match err with
     | Some e => fail (Wrap ("failed to set MTU on " +:+ bytes_string name +:+ ": %w") e)
     | None => Done (inl ())
     end).

Section NewTUN.
Variable go1_11 : bool.
(** Addresses that are not IPv4, as in [Net.v]. *)
Variable string6 : IP → string.
Variable parse6 : string → IP.

(** Up to [name], whose slice panics for a size that the kernel cannot mean. *)
Definition open_utun : E (Z * bytes * bytes) :=
  fd ←? with_error (Wrap "error in syscall.Socket: %v") (do (Socket AF_SYSTEM SOCK_DGRAM 2));
  r ← do (Ioctl fd appleCTLIOCGINFO ctlInfo);
  if bool_decide (r.1 ≠ 0)
  then fail (Wrap "error in syscall.Syscall(syscall.SYS_IOCTL, ...): %v" (Errno r.1)) else
  let ctlID := le_combine (take 4 (copy ctlInfo r.2)) in
  errno ← do (Connect fd (addrP ctlID) sockaddrCtlSize);
  if bool_decide (errno ≠ 0)
  then fail (Wrap "error in syscall.RawSyscall(syscall.SYS_CONNECT, ...): %v" (Errno errno)) else
  '(errno, out, ifNameSize) ← do (Getsockopt fd 2 2 (zeros 16) 16);
  if bool_decide (errno ≠ 0)
  then fail (Wrap "error in syscall.Syscall6(syscall.SYS_GETSOCKOPT, ...): %v" (Errno errno)) else
  let ifName := copy (zeros 16) out in
  err ← setNonBlock go1_11 fd;
  if bool_decide (err ≠ None) then fail (New "setting non-blocking error") else
  match slice_to ifName (uwrap 64 (ifNameSize - 1)) with
  | Ret name => Done (inl (fd, name, ifName))
  | _ => Crash "slice bounds out of range"
  end.

Definition NewTUN (addr : string) : E generalDevice :=
  '(fd, name, ifName) ←? open_utun;
  _ ← do (NewFile fd ifName);
  let dev := {| name := bytes_string name; rwc := Framed fd Darwin.newTun |} in
  _ ←? setmtu name;
  _ ←? run_command ["ifconfig"; bytes_string name; "inet"; addr; addr; "up"; "netmask"; "255.255.0.0"];
  let mask := Mask (ParseIP parse6 addr) [Byte.xff; Byte.xff; Byte.x00; Byte.x00] in
  _ ←? run_command ["route"; "-n"; "add"; "-net"; IP_String string6 mask +:+ "/16"; addr];
  Done (inl dev).

End NewTUN.

End DarwinTun.

(** ** Descriptors

    [unowned] are the descriptors that a trace opened, did not close, and did not hand to
    an [os.File], whose finalizer would close them; [files] are those it did. *)

Abbreviation event := (event reply).

Definition unowned_entry (e : event) : entry Z :=
  match e with
  | existT (Open _ _ _) (inl fd) | existT (Socket _ _ _) (inl fd) => Adds fd
  | existT (Close fd) _ | existT (NewFile fd _) _ => Takes fd
  | _ => Skips
  end.

Definition file_entry (e : event) : entry Z :=
  match e with existT (NewFile fd _) _ => Adds fd | _ => Skips end.

Definition unowned (tr : list event) : list Z := balance unowned_entry tr [].
Definition files (tr : list event) : list Z := balance file_entry tr [].

(** The ledgers of a trace whose events are known. *)
Ltac ledger :=
  cbv [unowned files balance]; cbn [foldl post unowned_entry file_entry]; rewrite ?remove1_head.

Ltac path := path_with ltac:(first
  [ progress cbn [reply]
  | progress unfold fail
  | match goal with
    | |- context [match slice_to ?b ?n with _ => _ end] => destruct (slice_to b n) eqn:?
    end ]).

Module LinuxFacts.
Import LinuxTun.

(** The calls that configure the interface, when all succeed. *)
Definition configures (addr : string) (fd aux : Z) (name : bytes) : list syscall :=
  [Open "/dev/net/tun" (Z.lor O_RDWR O_NONBLOCK) 0; Ioctl fd TUNSETIFF setiff;
   Socket AF_INET SOCK_DGRAM 0; Ioctl aux SIOCSIFMTU (setmtu_arg name); Close aux;
   NewFile fd (string_bytes "tun");
   Command ["ip"; "addr"; "add"; addr +:+ "/16"; "dev"; bytes_string name];
   Command ["ip"; "link"; "set"; "dev"; bytes_string name; "up"]].

(** The errors before there is a file. *)
Definition early (e : error) (tr : list event) : Prop :=
  (∃ fd out, existT (Ioctl fd TUNSETIFF setiff) out ∈ tr ∧ out.1 ≠ 0 ∧ e = Errno out.1) ∨
  e = New "failed to set MTU of TUN device" ∨
  existT (Socket AF_INET SOCK_DGRAM 0) (inr e) ∈ tr.

(** What a call of [NewTUN] leaves open, by how it ended. *)
Definition leaves (addr : string) (tr : list event) (o : outcome (generalDevice + error)) : Prop :=
  match o with
  | Ret (inl dev) => ∃ fd aux name,
      dev = {| name := bytes_string name; rwc := OsFile fd |} ∧
      calls tr = configures addr fd aux name ∧ unowned tr = [] ∧ files tr = [fd]
  | Ret (inr e) =>
      (calls tr = [Open "/dev/net/tun" (Z.lor O_RDWR O_NONBLOCK) 0] ∧ unowned tr = []) ∨
      (∃ fd, unowned tr = [fd] ∧ files tr = [] ∧ early e tr) ∨
      (∃ fd out e', unowned tr = [] ∧ files tr = [fd] ∧ e = Wrap ("output: " +:+ out) e')
  | _ => False
  end.

Lemma linux_NewTUN_every addr : every (NewTUN addr) (leaves addr).
Proof.
  unfold leaves, NewTUN, setmtu, run_command, early. path; ledger.
  all: first [ by repeat eexists | left; done | right; left; repeat eexists; set_solver | right; right; by repeat eexists | idtac ].
Qed.

(** C36: Whatever the kernel and the commands reply, opening the device on Linux returns,
    and what it leaves open follows from how far it came.  It succeeds exactly after the
    eight calls that create the interface, set its MTU to 1420, give it the address with
    the mask /16 and bring it up, with the device's descriptor owned by its file and the
    auxiliary socket closed.  When the device cannot be opened nothing is left; when a
    command fails, the error is the command's with its output, and the descriptor belongs
    to a file that is collected; but when naming the interface or setting its MTU fails, the
    descriptor is left open and nobody owns it. *)
Theorem linux_NewTUN_descriptors {S} (h : host reply S) addr s :
  let '(o, tr, _) := run h (NewTUN addr) s in leaves addr tr o.
Proof. exact (run_every h _ s _ (linux_NewTUN_every addr)). Qed.

End LinuxFacts.

Module DarwinTunFacts.
Import DarwinTun.

Section NewTUN.
Variable go1_11 : bool.
Variable string6 : IP → string.
Variable parse6 : string → IP.

Definition configures (addr net : string) (fd aux ctlID : Z) (ifName name : bytes) : list syscall :=
  [Socket AF_SYSTEM SOCK_DGRAM 2; Ioctl fd appleCTLIOCGINFO ctlInfo;
   Connect fd (addrP ctlID) sockaddrCtlSize; Getsockopt fd 2 2 (zeros 16) 16]
  ++ (if go1_11 then [SetNonblock fd true] else [])
  ++ [NewFile fd ifName; Socket AF_INET SOCK_DGRAM 0;
      IoctlSetIfreqMTU aux (copy (zeros 16) name) DefaultMTU; Close aux;
      Command ["ifconfig"; bytes_string name; "inet"; addr; addr; "up"; "netmask"; "255.255.0.0"];
      Command ["route"; "-n"; "add"; "-net"; net +:+ "/16"; addr]].

(** The errors between the socket and its file. *)
Definition open_error (e : error) : Prop :=
  (∃ n, e = Wrap "error in syscall.Syscall(syscall.SYS_IOCTL, ...): %v" (Errno n)) ∨
  (∃ n, e = Wrap "error in syscall.RawSyscall(syscall.SYS_CONNECT, ...): %v" (Errno n)) ∨
  (∃ n, e = Wrap "error in syscall.Syscall6(syscall.SYS_GETSOCKOPT, ...): %v" (Errno n)) ∨
  e = New "setting non-blocking error".

Lemma network_of_dotted a b c d :
  IP_String string6 (Mask (ParseIP parse6 (dotted a b c d)) [Byte.xff; Byte.xff; Byte.x00; Byte.x00])
  = dotted a b Byte.x00 Byte.x00.
Proof. by rewrite ParseIP_dotted, Mask16_IPv4, IP_String_4. Qed.

(** What a call of [NewTUN] leaves open, by how it ended. *)
Definition leaves (addr : string) (tr : list event) (o : outcome (generalDevice + error)) : Prop :=
  match o with
  | Ret (inl dev) => ∃ fd aux id ifName name net,
      dev = {| name := bytes_string name; rwc := Framed fd Darwin.newTun |} ∧
      calls tr = configures addr net fd aux id ifName name ∧
      (∀ a b c d, addr = dotted a b c d → net = dotted a b Byte.x00 Byte.x00) ∧
      (∃ n, slice_to ifName n = Ret name) ∧
      unowned tr = [] ∧ files tr = [fd]
  | Ret (inr e) =>
      (calls tr = [Socket AF_SYSTEM SOCK_DGRAM 2] ∧ unowned tr = []) ∨
      (∃ fd, unowned tr = [fd] ∧ files tr = [] ∧ open_error e) ∨
      (∃ fd, unowned tr = [] ∧ files tr = [fd])
  | Panic _ => ∃ fd, unowned tr = [fd] ∧ files tr = []
  | Block => False
  end.

Lemma darwin_NewTUN_every addr : every (NewTUN go1_11 string6 parse6 addr) (leaves addr).
Proof.
  unfold leaves, NewTUN, open_utun, setNonBlock, setmtu, run_command, open_error, configures.
  destruct go1_11; path; ledger.
  all: first [ left; done | right; left; by repeat eexists; naive_solver | right; right; by repeat eexists | by repeat eexists
    | eexists _, _, _, _, _, _; split_and!; [done|done|intros ? ? ? ? ->; apply network_of_dotted|by eexists|done|done] ].
Qed.

(** C37: Whatever the kernel and the commands reply, opening the device on macOS ends, and
    success is exactly the calls that connect the kernel's utun control, set the MTU to
    1420, give the interface its address and add the route of the address's /16 network,
    with the descriptor owned by the device's file and the auxiliary socket closed.  A
    failure of any call between the socket and its file leaves the descriptor open with no
    owner, and so does the panic on a name of impossible length; a failure after that
    leaves it to the file. *)
Theorem darwin_NewTUN_descriptors {S} (h : host reply S) addr s :
  let '(o, tr, _) := run h (NewTUN go1_11 string6 parse6 addr) s in leaves addr tr o.
Proof. exact (run_every h _ s _ (darwin_NewTUN_every addr)). Qed.

End NewTUN.
End DarwinTunFacts.

(** ** A kernel that answers *)
Module TunUnixDemo.

(** The interface is [tun0] on Linux and [utun3] on macOS; every descriptor is 5 or 6; the
    MTU cannot be set when [mtu] says so. *)
Definition kernel (mtu : bool) : host reply () := λ c s,
  (match c return reply c with
   | Open _ _ _ => inl 5
   | Socket d _ _ => inl (if bool_decide (d = AF_INET) then 6 else 5)
   | Ioctl _ req _ =>
       if bool_decide (req = LinuxTun.TUNSETIFF) then (0, string_bytes "tun0")
       else if bool_decide (req = LinuxTun.SIOCSIFMTU) then (if mtu then 0 else 1, [])
       else (0, le_split 4 7)
   | IoctlSetIfreqMTU _ _ _ => None
   | SetNonblock _ _ => None
   | Connect _ _ _ => 0
   | Getsockopt _ _ _ _ _ => (0, string_bytes "utun3", 6)
   | Close _ => ()
   | NewFile _ _ => ()
   | Command _ => ("", None)
   end, s).

Example linux_opens :
  (run (kernel true) (LinuxTun.NewTUN "10.1.2.3") ()).1.1 = Ret (inl {| name := "tun0"; rwc := OsFile 5 |}).
Proof. vm_compute. reflexivity. Qed.

(** The descriptor 5 is open and lost. *)
Example linux_loses :
  (run (kernel false) (LinuxTun.NewTUN "10.1.2.3") ()).1.1 = Ret (inr (New "failed to set MTU of TUN device"))
  ∧ unowned (run (kernel false) (LinuxTun.NewTUN "10.1.2.3") ()).1.2 = [5].
Proof. vm_compute. split; reflexivity. Qed.

Example darwin_opens :
  let '(o, tr, _) := run (kernel true) (DarwinTun.NewTUN true (λ _, "") (λ _, []) "10.1.2.3") () in
  o = Ret (inl {| name := "utun3"; rwc := Framed 5 Darwin.newTun |}) ∧
  last (calls tr) = Some (Command ["route"; "-n"; "add"; "-net"; "10.1.0.0/16"; "10.1.2.3"]).
Proof. vm_compute. split; reflexivity. Qed.

(** The numbers and sizes that the code derives from C. *)
Example CTLIOCGINFO_value : DarwinTun.appleCTLIOCGINFO = 0xc0644e03.
Proof. reflexivity. Qed.

Lemma sockaddr_size id :
  sizeof DarwinTun.sockaddrCtl = DarwinTun.sockaddrCtlSize ∧ length (DarwinTun.addrP id) = 32%nat.
Proof. unfold DarwinTun.addrP. split; [done|]. rewrite !length_app, !le_split_length. done. Qed.

End TunUnixDemo.
