(* ===== verification/Memmod.v ===== *)
(** * The in-memory DLL loader

    [node/tun/wintun/memmod/memmod_windows.go] with its 32 and 64-bit variants.  The
    process is a byte-addressed memory and the state of the operating system, which the
    Windows API (a class) may change; reading or writing an address that is not mapped is a
    [Panic] (an access violation).  Every loop that memory controls takes fuel; running out
    of it is [Block]. *)

From Stdlib Require Import Ascii.
From S2P Require Import Prelude Sys Pe.

Local Open Scope Z_scope.

(** ** State *)

(** [headers] is the address of the [IMAGE_NT_HEADERS]; the linked list [blockedMemory] is
    the list of its addresses, the newest first; [None] is [nil]. *)
Record Module_ := {
  headers : Z;
  codeBase : Z;
  modules : option (list Z);
  initialized : bool;
  isDLL : bool;
  isRelocated : bool;
  nameExports : option (gmap string Z);
  entry : Z;
  blockedMemory : list Z;
}.

Definition zeroModule : Module_ := {|
  headers := 0; codeBase := 0; modules := None; initialized := false; isDLL := false;
  isRelocated := false; nameExports := None; entry := 0; blockedMemory := [] |}.

Definition with_headers x m := {| headers := x; codeBase := codeBase m; modules := modules m;
  initialized := initialized m; isDLL := isDLL m; isRelocated := isRelocated m;
  nameExports := nameExports m; entry := entry m; blockedMemory := blockedMemory m |}.
Definition with_codeBase x m := {| headers := headers m; codeBase := x; modules := modules m;
  initialized := initialized m; isDLL := isDLL m; isRelocated := isRelocated m;
  nameExports := nameExports m; entry := entry m; blockedMemory := blockedMemory m |}.
Definition with_modules x m := {| headers := headers m; codeBase := codeBase m; modules := x;
  initialized := initialized m; isDLL := isDLL m; isRelocated := isRelocated m;
  nameExports := nameExports m; entry := entry m; blockedMemory := blockedMemory m |}.
Definition with_initialized x m := {| headers := headers m; codeBase := codeBase m;
  modules := modules m; initialized := x; isDLL := isDLL m; isRelocated := isRelocated m;
  nameExports := nameExports m; entry := entry m; blockedMemory := blockedMemory m |}.
Definition with_isDLL x m := {| headers := headers m; codeBase := codeBase m; modules := modules m;
  initialized := initialized m; isDLL := x; isRelocated := isRelocated m;
  nameExports := nameExports m; entry := entry m; blockedMemory := blockedMemory m |}.
Definition with_isRelocated x m := {| headers := headers m; codeBase := codeBase m;
  modules := modules m; initialized := initialized m; isDLL := isDLL m; isRelocated := x;
  nameExports := nameExports m; entry := entry m; blockedMemory := blockedMemory m |}.
Definition with_nameExports x m := {| headers := headers m; codeBase := codeBase m;
  modules := modules m; initialized := initialized m; isDLL := isDLL m;
  isRelocated := isRelocated m; nameExports := x; entry := entry m;
  blockedMemory := blockedMemory m |}.
Definition with_entry x m := {| headers := headers m; codeBase := codeBase m; modules := modules m;
  initialized := initialized m; isDLL := isDLL m; isRelocated := isRelocated m;
  nameExports := nameExports m; entry := x; blockedMemory := blockedMemory m |}.
Definition with_blockedMemory x m := {| headers := headers m; codeBase := codeBase m;
  modules := modules m; initialized := initialized m; isDLL := isDLL m;
  isRelocated := isRelocated m; nameExports := nameExports m; entry := entry m;
  blockedMemory := x |}.

(** The memory is what the program has mapped: what it passes to the loader and what the loader
    allocates.  Where Windows maps a library that it loads itself, and what it maps there, is
    part of [os]: the loader reaches such a library only through its handle and the addresses
    of its procedures. *)
Record machine (OS : Type) := Machine { mem : memory; os : OS }.
Arguments Machine {OS} mem os.
Arguments mem {OS} m.
Arguments os {OS} m.

Record state (OS : Type) := State { mach : machine OS; module : Module_ }.
Arguments State {OS} mach module.
Arguments mach {OS} s.
Arguments module {OS} s.

(** ** The Windows API

    Each function takes the machine and may change any of it; an error is its number. *)
Class WinAPI (OS : Type) := {
  VirtualAlloc : Z → Z → Z → Z → machine OS → Z * option Z * machine OS;
  VirtualFree : Z → Z → Z → machine OS → machine OS;
  VirtualProtect : Z → Z → Z → machine OS → option Z * machine OS;
  LoadLibraryEx : string → machine OS → Z * option Z * machine OS;
  FreeLibrary : Z → machine OS → machine OS;
  GetProcAddress : Z → string → machine OS → Z * option Z * machine OS;
  GetProcAddressByOrdinal : Z → Z → machine OS → Z * option Z * machine OS;
  isBadReadPtr : Z → Z → machine OS → bool * machine OS;
  Syscall : Z → Z → Z → Z → machine OS → Z * machine OS;
}.

Definition MEM_COMMIT : Z := 0x1000.
Definition MEM_RESERVE : Z := 0x2000.
Definition MEM_DECOMMIT : Z := 0x4000.
Definition MEM_RELEASE : Z := 0x8000.
Definition PAGE_NOACCESS : Z := 0x01.
Definition PAGE_READONLY : Z := 0x02.
Definition PAGE_READWRITE : Z := 0x04.
Definition PAGE_WRITECOPY : Z := 0x08.
Definition PAGE_EXECUTE : Z := 0x10.
Definition PAGE_EXECUTE_READ : Z := 0x20.
Definition PAGE_EXECUTE_READWRITE : Z := 0x40.
Definition PAGE_EXECUTE_WRITECOPY : Z := 0x80.
Definition PAGE_NOCACHE : Z := 0x200.
Definition ERROR_DLL_INIT_FAILED : Z := 1114.

(** ** The monad of the methods: the state, Go's errors, and panics *)

Definition M (OS A : Type) : Type := state OS → outcome ((A + error) * state OS).

#[global] Instance M_ret OS : MRet (M OS) := λ A a s, Ret (inl a, s).
#[global] Instance M_bind OS : MBind (M OS) := λ A B f m s,
  match m s with
  | Ret (inl a, s') => f a s'
  | Ret (inr e, s') => Ret (inr e, s')
  | Panic msg => Panic msg
  | Block => Block
  end.

Section loader.
Context `{Arch} {OS : Type} `{WinAPI OS}.

Abbreviation M := (M OS).

Definition throw {A} (e : error) : M A := λ s, Ret (inr e, s).
Definition panic {A} (msg : string) : M A := λ _, Panic msg.
Definition out_of_fuel {A} : M A := λ _, Block.

(** [return x, fmt.Errorf(text, err)] where the operation may fail. *)
Definition wrap {A} (text : string) (m : M A) : M A := λ s,
  match m s with Ret (inr e, s') => Ret (inr (Wrap text e), s') | o => o end.

Definition self {A} (f : Module_ → A) : M A := λ s, Ret (inl (f (module s)), s).
Definition update (f : Module_ → Module_) : M () := λ s, Ret (inl (), State (mach s) (f (module s))).

(** A call of the API, and one whose error is returned. *)
Definition call {A} (f : machine OS → A * machine OS) : M A := λ s,
  let '(a, m) := f (mach s) in Ret (inl a, State m (module s)).
Definition call_ (f : machine OS → machine OS) : M () := λ s, Ret (inl (), State (f (mach s)) (module s)).
Definition try (r : Z * option Z) : M Z :=
  match r.2 with Some z => throw (Errno z) | None => mret r.1 end.

Definition mem_op {A} (f : memory → option (A * memory)) : M A := λ s,
  match f (mem (mach s)) with
  | Some (a, m) => Ret (inl a, State (Machine m (os (mach s))) (module s))
  | None => Panic "access violation"
  end.

Definition rd (n : nat) (a : Z) : M Z := mem_op (λ m, v ← load n a m; Some (v, m)).
Definition wr (n : nat) (a v : Z) : M () := mem_op (λ m, m' ← store n a v m; Some ((), m')).
Definition rd_bytes (n : nat) (a : Z) : M bytes := mem_op (λ m, b ← load_bytes n a m; Some (b, m)).
Definition wr_bytes (a : Z) (b : bytes) : M () := mem_op (λ m, m' ← store_bytes b a m; Some ((), m')).
Definition field_ (l : layout) (f : string) (a : Z) : M Z := mem_op (λ m, v ← get l f a m; Some (v, m)).
Definition set_field_ (l : layout) (f : string) (a v : Z) : M () :=
  mem_op (λ m, m' ← set l f a v m; Some ((), m')).

Fixpoint for_each {A} (l : list A) (f : A → M ()) : M () :=
  match l with [] => mret () | x :: l => _ ← f x; for_each l f end.

(** [windows.BytePtrToString]. *)
Fixpoint BytePtrToString (fuel : nat) (p : Z) : M string :=
  match fuel with
  | O => out_of_fuel
  | S fuel =>
      c ← rd 1 p;
      if bool_decide (c = 0) then mret EmptyString
      else s ← BytePtrToString fuel (up (p + 1)); mret (String (Ascii.ascii_of_nat (Z.to_nat c)) s)
  end.

(** [memcpy(dst, src, size)]. *)
Definition memcpy (dst src size : Z) : M () := b ← rd_bytes (Z.to_nat size) src; wr_bytes dst b.

(** ** Headers *)

Definition FileHeader (f : string) (hdr : Z) : M Z := field_ IMAGE_FILE_HEADER f (up (hdr + OffsetFileHeader)).
Definition OptionalHeader (f : string) (hdr : Z) : M Z :=
  field_ IMAGE_OPTIONAL_HEADER f (up (hdr + OffsetOptionalHeader)).

Definition Sections (ntheader : Z) : M (list Z) :=
  opt ← FileHeader "SizeOfOptionalHeader" ntheader;
  n ← FileHeader "NumberOfSections" ntheader;
  mret (map (λ i, up (ntheader + OffsetOptionalHeader + opt + sizeof IMAGE_SECTION_HEADER * Z.of_nat i))
            (seq 0 (Z.to_nat n))).

Definition headerDirectory (idx : Z) : M Z :=
  hdr ← self headers;
  mret (up (hdr + OffsetOptionalHeader + default 0 (offsetof IMAGE_OPTIONAL_HEADER 0 "DataDirectory")
            + sizeof IMAGE_DATA_DIRECTORY * idx)).

Definition imageOffset (hdr : Z) : M Z :=
  if w64 then base ← OptionalHeader "ImageBase" hdr; mret (Z.land base 0xffffffff00000000)
  else mret 0.

(** ** copySections *)

Definition section := field_ IMAGE_SECTION_HEADER.
Definition SetPhysicalAddress (s addr : Z) : M () :=
  set_field_ IMAGE_SECTION_HEADER "physicalAddressOrVirtualSize" s addr.

Definition copySection (address size old_headers s : Z) : M () :=
  raw ← section "SizeOfRawData" s;
  if bool_decide (raw = 0) then
    sectionSize ← OptionalHeader "SectionAlignment" old_headers;
    if bool_decide (sectionSize = 0) then mret () else
    base ← self codeBase;
    va ← section "VirtualAddress" s;
    r ← call (VirtualAlloc (up (base + va)) sectionSize MEM_COMMIT PAGE_READWRITE);
    _ ← wrap "Error allocating section" (try r);
    va ← section "VirtualAddress" s;
    let dest := up (base + va) in
    _ ← SetPhysicalAddress s (Z.land dest 0xffffffff);
    wr_bytes dest (replicate (Z.to_nat sectionSize) Byte.x00)
  else
    ptr ← section "PointerToRawData" s;
    if bool_decide (size < uwrap 32 (ptr + raw)) then throw (New "Incomplete section") else
    base ← self codeBase;
    va ← section "VirtualAddress" s;
    r ← call (VirtualAlloc (up (base + va)) raw MEM_COMMIT PAGE_READWRITE);
    dest ← wrap "Error allocating memory block" (try r);
    va ← section "VirtualAddress" s;
    ptr ← section "PointerToRawData" s;
    raw ← section "SizeOfRawData" s;
    _ ← memcpy (up (base + va)) (up (address + ptr)) raw;
    SetPhysicalAddress s (Z.land dest 0xffffffff).

Definition copySections (address size old_headers : Z) : M () :=
  hdr ← self headers;
  sections ← Sections hdr;
  for_each sections (copySection address size old_headers).

(** ** finalizeSections *)

Definition realSectionSize (s : Z) : M Z :=
  size ← section "SizeOfRawData" s;
  if bool_decide (size ≠ 0) then mret size else
  c ← section "Characteristics" s;
  hdr ← self headers;
  if bool_decide (Z.land c IMAGE_SCN_CNT_INITIALIZED_DATA ≠ 0)
  then OptionalHeader "SizeOfInitializedData" hdr
  else if bool_decide (Z.land c IMAGE_SCN_CNT_UNINITIALIZED_DATA ≠ 0)
  then OptionalHeader "SizeOfUninitializedData" hdr
  else mret 0.

Record sectionFinalizeData := {
  fd_address : Z;
  fd_alignedAddress : Z;
  fd_size : Z;
  fd_characteristics : Z;
  fd_last : bool;
}.

Definition ProtectionFlags : list Z :=
  [PAGE_NOACCESS; PAGE_EXECUTE; PAGE_READONLY; PAGE_EXECUTE_READ; PAGE_WRITECOPY;
   PAGE_EXECUTE_WRITECOPY; PAGE_READWRITE; PAGE_EXECUTE_READWRITE].

(** The protection that [finalizeSection] asks for. *)
Definition protection (characteristics : Z) : option Z :=
  protect ← ProtectionFlags !! Z.to_nat (Z.shiftr characteristics 29);
  Some (if bool_decide (Z.land characteristics IMAGE_SCN_MEM_NOT_CACHED ≠ 0)
        then Z.lor protect PAGE_NOCACHE else protect).

Definition finalizeSection (sd : sectionFinalizeData) : M () :=
  if bool_decide (fd_size sd = 0) then mret ()
  else if bool_decide (Z.land (fd_characteristics sd) IMAGE_SCN_MEM_DISCARDABLE ≠ 0) then
    if bool_decide (fd_address sd = fd_alignedAddress sd) then
      whole ← (if fd_last sd then mret true else
               hdr ← self headers;
               alignment ← OptionalHeader "SectionAlignment" hdr;
               if bool_decide (alignment = 0) then panic "integer divide by zero"
               else mret (bool_decide (fd_size sd `mod` alignment = 0)));
      if (whole : bool) then call_ (VirtualFree (fd_address sd) (fd_size sd) MEM_DECOMMIT) else mret ()
    else mret ()
  else match protection (fd_characteristics sd) with
  | None => panic "index out of range"
  | Some protect =>
      err ← call (VirtualProtect (fd_address sd) (fd_size sd) protect);
      match err with Some z => throw (Wrap "Error protecting memory page" (Errno z)) | None => mret () end
  end.

(** [sectionData] for a section on its own. *)
Definition sectionData (imageOffset s : Z) : M sectionFinalizeData :=
  pa ← section "physicalAddressOrVirtualSize" s;
  let address := Z.lor pa imageOffset in
  hdr ← self headers;
  alignment ← OptionalHeader "SectionAlignment" hdr;
  size ← realSectionSize s;
  c ← section "Characteristics" s;
  mret {| fd_address := address; fd_alignedAddress := alignDown address alignment; fd_size := size;
          fd_characteristics := c; fd_last := false |}.

(** The flags of two sections that share a page. *)
Definition combine (c1 c2 : Z) : Z :=
  if bool_decide (Z.land c2 IMAGE_SCN_MEM_DISCARDABLE = 0)
     || bool_decide (Z.land c1 IMAGE_SCN_MEM_DISCARDABLE = 0)
  then Z.ldiff (Z.lor c1 c2) IMAGE_SCN_MEM_DISCARDABLE
  else Z.lor c1 c2.

(** [sd] takes in the section [s] that starts on its last page. *)
Definition shares_page (sd s : sectionFinalizeData) : bool :=
  bool_decide (fd_alignedAddress sd = fd_alignedAddress s)
  || bool_decide (up (fd_address sd + fd_size sd) > fd_alignedAddress s).

Definition extend (sd s : sectionFinalizeData) : sectionFinalizeData := {|
  fd_address := fd_address sd;
  fd_alignedAddress := fd_alignedAddress sd;
  fd_size := up (fd_address s + fd_size s - fd_address sd);
  fd_characteristics := combine (fd_characteristics sd) (fd_characteristics s);
  fd_last := fd_last sd;
|}.

Definition set_last (sd : sectionFinalizeData) : sectionFinalizeData := {|
  fd_address := fd_address sd; fd_alignedAddress := fd_alignedAddress sd; fd_size := fd_size sd;
  fd_characteristics := fd_characteristics sd; fd_last := true |}.

(** The loop from the [i]-th section on, [sections] being the rest of the slice. *)
Fixpoint finalize_loop (offset : Z) (sections : list Z) (i : Z) (sd : sectionFinalizeData) : M () :=
  hdr ← self headers;
  n ← FileHeader "NumberOfSections" hdr;
  if bool_decide (i < n) then
    match sections with
    | [] => panic "index out of range"
    | s :: sections =>
        d ← sectionData offset s;
        if shares_page sd d then finalize_loop offset sections (i + 1) (extend sd d)
        else
          _ ← wrap "Error finalizing section" (finalizeSection sd);
          finalize_loop offset sections (i + 1) d
    end
  else wrap "Error finalizing section" (finalizeSection (set_last sd)).

Definition finalizeSections : M () :=
  hdr ← self headers;
  sections ← Sections hdr;
  offset ← imageOffset hdr;
  match sections with
  | [] => panic "index out of range"
  | s :: sections => sd ← sectionData offset s; finalize_loop offset sections 1 sd
  end.

(** ** executeTLS *)

Fixpoint tls_loop (fuel : nat) (callback : Z) : M () :=
  match fuel with
  | O => out_of_fuel
  | S fuel =>
      f ← rd (Z.to_nat (wordsize / 8)) callback;
      if bool_decide (f = 0) then mret () else
      base ← self codeBase;
      _ ← call (Syscall f base DLL_PROCESS_ATTACH 0);
      tls_loop fuel (up (callback + wordsize / 8))
  end.

Definition executeTLS (fuel : nat) : M () :=
  directory ← headerDirectory IMAGE_DIRECTORY_ENTRY_TLS;
  va ← field_ IMAGE_DATA_DIRECTORY "VirtualAddress" directory;
  if bool_decide (va = 0) then mret () else
  base ← self codeBase;
  callback ← field_ IMAGE_TLS_DIRECTORY "AddressOfCallbacks" (up (base + va));
  if bool_decide (callback = 0) then mret () else tls_loop fuel callback.

(** ** performBaseRelocation *)

Definition thumb_imm16 (inst : Z) : Z :=
  uwrap 32 (Z.land (uwrap 32 (Z.shiftl inst 1)) 0x0800 + Z.land (uwrap 32 (Z.shiftl inst 12)) 0xf000 +
    Z.land (Z.shiftr inst 20) 0x0700 + Z.land (Z.shiftr inst 16) 0x00ff).

Definition thumb_put (inst imm16 : Z) : Z :=
  uwrap 32 (Z.land inst 0x8f00fbf0 + Z.land (Z.shiftr imm16 1) 0x0400 +
    Z.land (Z.shiftr imm16 12) 0x000f + Z.land (uwrap 32 (Z.shiftl imm16 20)) 0x70000000 +
    Z.land (uwrap 32 (Z.shiftl imm16 16)) 0xff0000).

Definition is_MOVW (inst : Z) : bool := bool_decide (Z.land inst 0x8000fbf0 = 0x0000f240).
Definition is_MOVT (inst : Z) : bool := bool_decide (Z.land inst 0x8000fbf0 = 0x0000f2c0).

(** The values of [imm16 += uint32(delta) & 0xffff] and of [hiDelta]. *)
Definition thumb_low (inst delta : Z) : Z := uwrap 32 (thumb_imm16 inst + Z.land (uwrap 32 delta) 0xffff).
Definition thumb_hiDelta (imm16 delta : Z) : Z :=
  uwrap 32 (Z.shiftr (uwrap 32 (Z.land delta 0xffff0000)) 16 + Z.shiftr (Z.land imm16 0xffff0000) 16).

Definition relocate_thumb (a delta : Z) : M () :=
  inst ← rd 4 a;
  if negb (is_MOVW inst) then throw (New "Wrong Thumb2 instruction, expected MOVW") else
  let imm16 := thumb_low inst delta in
  let hiDelta := thumb_hiDelta imm16 delta in
  _ ← wr 4 a (thumb_put inst imm16);
  if bool_decide (hiDelta = 0) then mret () else
  inst ← rd 4 (up (a + 4));
  if negb (is_MOVT inst) then throw (New "Wrong Thumb2 instruction, expected MOVT") else
  let imm16 := uwrap 32 (thumb_imm16 inst + hiDelta) in
  if bool_decide (imm16 > 0xffff) then throw (New "Resulting immediate value won't fit")
  else wr 4 (up (a + 4)) (thumb_put inst imm16).

(** [*p += v] for a [p] of [n] bytes; [wr] cuts the sum to its width. *)
Definition add_at (n : nat) (a v : Z) : M () := x ← rd n a; wr n a (x + v).

(** One entry of a relocation block. *)
Definition relocate_one (dest delta relInfo : Z) : M () :=
  let relType := Z.shiftr relInfo 12 in
  let relOffset := Z.land relInfo 0xfff in
  let a := up (dest + relOffset) in
  if bool_decide (relType = IMAGE_REL_BASED_ABSOLUTE) then mret ()
  else if bool_decide (relType = IMAGE_REL_BASED_LOW) then add_at 2 a (Z.land delta 0xffff)
  else if bool_decide (relType = IMAGE_REL_BASED_HIGH) then add_at 2 a (uwrap 16 (Z.shiftr (uwrap 32 delta) 16))
  else if bool_decide (relType = IMAGE_REL_BASED_HIGHLOW) then add_at 4 a (uwrap 32 delta)
  else if bool_decide (relType = IMAGE_REL_BASED_DIR64) then add_at 8 a delta
  else if bool_decide (relType = IMAGE_REL_BASED_THUMB_MOV32) then relocate_thumb a delta
  else throw (New "Unsupported relocation").

(** The entries of a block, from address [p]. *)
Fixpoint relocate_entries (n : nat) (p dest delta : Z) : M () :=
  match n with
  | O => mret ()
  | S n => relInfo ← rd 2 p; _ ← relocate_one dest delta relInfo; relocate_entries n (up (p + 2)) dest delta
  end.

(** [int((uintptr(SizeOfBlock) - unsafe.Sizeof(hdr)) / 2)]. *)
Definition block_entries (SizeOfBlock : Z) : nat :=
  Z.to_nat (up (SizeOfBlock - sizeof IMAGE_BASE_RELOCATION) / 2).

Fixpoint relocate_blocks (fuel : nat) (relocationHdr delta : Z) : M () :=
  match fuel with
  | O => out_of_fuel
  | S fuel =>
      va ← field_ IMAGE_BASE_RELOCATION "VirtualAddress" relocationHdr;
      if bool_decide (va = 0) then mret () else
      base ← self codeBase;
      size ← field_ IMAGE_BASE_RELOCATION "SizeOfBlock" relocationHdr;
      _ ← relocate_entries (block_entries size) (up (relocationHdr + sizeof IMAGE_BASE_RELOCATION))
            (up (base + va)) delta;
      size ← field_ IMAGE_BASE_RELOCATION "SizeOfBlock" relocationHdr;
      relocate_blocks fuel (up (relocationHdr + size)) delta
  end.

Definition performBaseRelocation (fuel : nat) (delta : Z) : M bool :=
  directory ← headerDirectory IMAGE_DIRECTORY_ENTRY_BASERELOC;
  size ← field_ IMAGE_DATA_DIRECTORY "Size" directory;
  if bool_decide (size = 0) then mret (bool_decide (delta = 0)) else
  va ← field_ IMAGE_DATA_DIRECTORY "VirtualAddress" directory;
  base ← self codeBase;
  _ ← relocate_blocks fuel (up (base + va)) delta;
  mret true.

(** ** buildImportTable *)

Definition ptrsize : nat := Z.to_nat (wordsize / 8).

Fixpoint import_thunks (fuel : nat) (handle thunkRef funcRef : Z) : M () :=
  match fuel with
  | O => out_of_fuel
  | S fuel =>
      thunk ← rd ptrsize thunkRef;
      if bool_decide (thunk = 0) then mret () else
      r ← (if IMAGE_SNAP_BY_ORDINAL thunk
           then call (GetProcAddressByOrdinal handle (IMAGE_ORDINAL thunk))
           else base ← self codeBase;
                name ← BytePtrToString fuel
                  (up (base + thunk + default 0 (offsetof IMAGE_IMPORT_BY_NAME 0 "Name")));
                call (GetProcAddress handle name));
      _ ← wr ptrsize funcRef r.1;
      match r.2 with
      | Some z => _ ← call_ (FreeLibrary handle); throw (Wrap "Error getting function address" (Errno z))
      | None => import_thunks fuel handle (up (thunkRef + wordsize / 8)) (up (funcRef + wordsize / 8))
      end
  end.

Fixpoint import_descriptors (fuel : nat) (importDesc : Z) : M () :=
  match fuel with
  | O => out_of_fuel
  | S fuel' =>
      bad ← call (isBadReadPtr importDesc (sizeof IMAGE_IMPORT_DESCRIPTOR));
      if (bad : bool) then mret () else
      name ← field_ IMAGE_IMPORT_DESCRIPTOR "Name" importDesc;
      if bool_decide (name = 0) then mret () else
      base ← self codeBase;
      lib ← BytePtrToString fuel (up (base + name));
      r ← call (LoadLibraryEx lib);
      handle ← wrap "Error loading module" (try r);
      original ← field_ IMAGE_IMPORT_DESCRIPTOR "characteristicsOrOriginalFirstThunk" importDesc;
      first ← field_ IMAGE_IMPORT_DESCRIPTOR "FirstThunk" importDesc;
      let thunk := if bool_decide (original ≠ 0) then original else first in
      _ ← import_thunks fuel handle (up (base + thunk)) (up (base + first));
      mods ← self modules;
      _ ← update (with_modules (Some (default [] mods ++ [handle])));
      import_descriptors fuel' (up (importDesc + sizeof IMAGE_IMPORT_DESCRIPTOR))
  end.

Definition buildImportTable (fuel : nat) : M () :=
  directory ← headerDirectory IMAGE_DIRECTORY_ENTRY_IMPORT;
  size ← field_ IMAGE_DATA_DIRECTORY "Size" directory;
  if bool_decide (size = 0) then mret () else
  _ ← update (with_modules (Some []));
  base ← self codeBase;
  va ← field_ IMAGE_DATA_DIRECTORY "VirtualAddress" directory;
  import_descriptors fuel (up (base + va)).

(** ** Exports *)

Fixpoint name_exports (fuel n : nat) (nameRef ordinal : Z) (acc : gmap string Z) : M (gmap string Z) :=
  match n with
  | O => mret acc
  | S n =>
      base ← self codeBase;
      rva ← rd 4 nameRef;
      name ← BytePtrToString fuel (up (base + rva));
      o ← rd 2 ordinal;
      name_exports fuel n (up (nameRef + 4)) (up (ordinal + 2)) (<[name := o]> acc)
  end.

Definition buildNameExports (fuel : nat) : M () :=
  directory ← headerDirectory IMAGE_DIRECTORY_ENTRY_EXPORT;
  size ← field_ IMAGE_DATA_DIRECTORY "Size" directory;
  if bool_decide (size = 0) then throw (New "No export table found") else
  base ← self codeBase;
  va ← field_ IMAGE_DATA_DIRECTORY "VirtualAddress" directory;
  let exports := up (base + va) in
  names ← field_ IMAGE_EXPORT_DIRECTORY "NumberOfNames" exports;
  functions ← field_ IMAGE_EXPORT_DIRECTORY "NumberOfFunctions" exports;
  if bool_decide (names = 0 ∨ functions = 0) then throw (New "No functions exported") else
  if bool_decide (names = 0) then throw (New "No functions exported by name") else
  nameRefs ← field_ IMAGE_EXPORT_DIRECTORY "AddressOfNames" exports;
  ordinals ← field_ IMAGE_EXPORT_DIRECTORY "AddressOfNameOrdinals" exports;
  m ← name_exports fuel (Z.to_nat names) (up (base + nameRefs)) (up (base + ordinals)) ∅;
  update (with_nameExports (Some m)).

(** [codeBase + *( *uint32)(codeBase + AddressOfFunctions + idx*4)]. *)
Definition function_at (exports idx : Z) : M Z :=
  base ← self codeBase;
  table ← field_ IMAGE_EXPORT_DIRECTORY "AddressOfFunctions" exports;
  rva ← rd 4 (up (base + table + idx * 4));
  mret (up (base + rva)).

Definition ProcAddressByName (name : string) : M Z :=
  directory ← headerDirectory IMAGE_DIRECTORY_ENTRY_EXPORT;
  size ← field_ IMAGE_DATA_DIRECTORY "Size" directory;
  if bool_decide (size = 0) then throw (New "No export table found") else
  base ← self codeBase;
  va ← field_ IMAGE_DATA_DIRECTORY "VirtualAddress" directory;
  let exports := up (base + va) in
  names ← self nameExports;
  match names with
  | None => throw (New "No functions exported by name")
  | Some names =>
      match names !! name with
      | None => throw (New "Function not found by name")
      | Some idx =>
          functions ← field_ IMAGE_EXPORT_DIRECTORY "NumberOfFunctions" exports;
          if bool_decide (idx > functions) then throw (New "Ordinal number too high")
          else function_at exports idx
      end
  end.

Definition ProcAddressByOrdinal (ordinal : Z) : M Z :=
  directory ← headerDirectory IMAGE_DIRECTORY_ENTRY_EXPORT;
  size ← field_ IMAGE_DATA_DIRECTORY "Size" directory;
  if bool_decide (size = 0) then throw (New "No export table found") else
  base ← self codeBase;
  va ← field_ IMAGE_DATA_DIRECTORY "VirtualAddress" directory;
  let exports := up (base + va) in
  first ← field_ IMAGE_EXPORT_DIRECTORY "Base" exports;
  if bool_decide (ordinal < first) then throw (New "Ordinal number too low") else
  let idx := uwrap 16 (ordinal - uwrap 16 first) in
  functions ← field_ IMAGE_EXPORT_DIRECTORY "NumberOfFunctions" exports;
  if bool_decide (idx > functions) then throw (New "Ordinal number too high")
  else function_at exports idx.

(** ** LoadLibrary and Free *)

Fixpoint check4GB_loop (fuel : nat) (alignedImageSize : Z) : M () :=
  match fuel with
  | O => out_of_fuel
  | S fuel =>
      base ← self codeBase;
      if bool_decide (Z.shiftr base 32 < Z.shiftr (up (base + alignedImageSize)) 32) then
        _ ← update (λ m, with_blockedMemory (codeBase m :: blockedMemory m) m);
        r ← call (VirtualAlloc 0 alignedImageSize (Z.lor MEM_RESERVE MEM_COMMIT) PAGE_READWRITE);
        _ ← update (with_codeBase r.1);
        _ ← wrap "Error allocating memory block" (try r);
        check4GB_loop fuel alignedImageSize
      else mret ()
  end.

Definition check4GBBoundaries (fuel : nat) (alignedImageSize : Z) : M () :=
  if w64 then check4GB_loop fuel alignedImageSize else mret ().

Definition Free : M () :=
  m ← self id;
  _ ← (if initialized m then
         _ ← call (Syscall (entry m) (codeBase m) DLL_PROCESS_DETACH 0);
         update (with_initialized false)
       else mret ());
  _ ← (match modules m with
       | Some handles => _ ← for_each handles (λ h, call_ (FreeLibrary h)); update (with_modules None)
       | None => mret ()
       end);
  _ ← (if bool_decide (codeBase m ≠ 0) then
         _ ← call_ (VirtualFree (codeBase m) 0 MEM_RELEASE); update (with_codeBase 0)
       else mret ());
  match blockedMemory m with
  | [] => mret ()
  | l => _ ← for_each l (λ a, call_ (VirtualFree a 0 MEM_RELEASE)); update (with_blockedMemory [])
  end.

(** The end of the last section, as the header check computes it. *)
Fixpoint last_section_end (sections : list Z) (optionalSectionSize last : Z) : M Z :=
  match sections with
  | [] => mret last
  | s :: sections =>
      raw ← section "SizeOfRawData" s;
      va ← section "VirtualAddress" s;
      let endOfSection := up (va + (if bool_decide (raw = 0) then optionalSectionSize else raw)) in
      last_section_end sections optionalSectionSize
        (if bool_decide (endOfSection > last) then endOfSection else last)
  end.

(** [LoadLibrary] up to the creation of the module: the address of the headers in the data
    and the aligned size of the image. *)
Definition check_headers (addr size : Z) : M (Z * Z) :=
  if bool_decide (size = 0) then panic "index out of range" else
  if bool_decide (size < sizeof IMAGE_DOS_HEADER) then throw (New "Incomplete IMAGE_DOS_HEADER") else
  magic ← field_ IMAGE_DOS_HEADER "E_magic" addr;
  if bool_decide (magic ≠ IMAGE_DOS_SIGNATURE) then throw (New "Not an MS-DOS binary") else
  lfanew ← field_ IMAGE_DOS_HEADER "E_lfanew" addr;
  let lfanew := up (swrap 32 lfanew) in
  if bool_decide (size < up (lfanew + sizeof_IMAGE_NT_HEADERS))
  then throw (New "Incomplete IMAGE_NT_HEADERS") else
  let oldHeader := up (addr + lfanew) in
  signature ← rd 4 oldHeader;
  if bool_decide (signature ≠ IMAGE_NT_SIGNATURE) then throw (New "Not an NT binary") else
  machine ← FileHeader "Machine" oldHeader;
  if bool_decide (machine ≠ imageFileProcess) then throw (New "Foreign platform") else
  alignment ← OptionalHeader "SectionAlignment" oldHeader;
  if bool_decide (Z.land alignment 1 ≠ 0) then throw (New "Unaligned section") else
  sections ← Sections oldHeader;
  last ← last_section_end sections alignment 0;
  imageSize ← OptionalHeader "SizeOfImage" oldHeader;
  let alignedImageSize := alignUp imageSize alignment in
  if bool_decide (alignedImageSize ≠ alignUp last alignment)
  then throw (New "Section is not page-aligned")
  else mret (oldHeader, alignedImageSize).

(** Reserves the image at its preferred address, or anywhere. *)
Definition reserve_image (preferred alignedImageSize : Z) : M () :=
  r ← call (VirtualAlloc preferred alignedImageSize (Z.lor MEM_RESERVE MEM_COMMIT) PAGE_READWRITE);
  _ ← update (with_codeBase r.1);
  match r.2 with
  | None => mret ()
  | Some _ =>
      r ← call (VirtualAlloc 0 alignedImageSize (Z.lor MEM_RESERVE MEM_COMMIT) PAGE_READWRITE);
      _ ← update (with_codeBase r.1);
      _ ← wrap "Error allocating code" (try r);
      mret ()
  end.

(** [LoadLibrary] once the memory of the image is reserved: the headers are copied; the
    result is the address of the new ones. *)
Definition copy_headers (addr size oldHeader : Z) : M Z :=
  headerSize ← OptionalHeader "SizeOfHeaders" oldHeader;
  if bool_decide (size < headerSize) then throw (New "Incomplete headers") else
  base ← self codeBase;
  r ← call (VirtualAlloc base headerSize MEM_COMMIT PAGE_READWRITE);
  hdrs ← wrap "Error allocating headers" (try r);
  headerSize ← OptionalHeader "SizeOfHeaders" oldHeader;
  _ ← memcpy hdrs addr headerSize;
  lfanew ← field_ IMAGE_DOS_HEADER "E_lfanew" addr;
  let newHeader := up (hdrs + up (swrap 32 lfanew)) in
  _ ← update (with_headers newHeader);
  base ← self codeBase;
  _ ← set_field_ IMAGE_OPTIONAL_HEADER "ImageBase" (up (newHeader + OffsetOptionalHeader)) base;
  mret newHeader.

(** The sections are copied, relocated and linked. *)
Definition fill_image (fuel : nat) (addr size oldHeader newHeader : Z) : M () :=
  _ ← wrap "Error copying sections" (copySections addr size oldHeader);
  newBase ← OptionalHeader "ImageBase" newHeader;
  oldBase ← OptionalHeader "ImageBase" oldHeader;
  let locationDelta := up (newBase - oldBase) in
  relocated ← (if bool_decide (locationDelta ≠ 0)
               then wrap "Error relocating module" (performBaseRelocation fuel locationDelta)
               else mret true);
  _ ← update (with_isRelocated relocated);
  wrap "Error building import table" (buildImportTable fuel).

(** The image gets its page protections, and its code runs for the first time. *)
Definition start_image (fuel : nat) (newHeader : Z) : M () :=
  _ ← wrap "Error finalizing sections" finalizeSections;
  _ ← executeTLS fuel;
  entryPoint ← OptionalHeader "AddressOfEntryPoint" newHeader;
  if bool_decide (entryPoint ≠ 0) then
    base ← self codeBase;
    _ ← update (with_entry (up (base + entryPoint)));
    dll ← self isDLL;
    if (dll : bool) then
      e ← self entry;
      r0 ← call (Syscall e base DLL_PROCESS_ATTACH 0);
      if bool_decide (r0 = 0) then throw (Errno ERROR_DLL_INIT_FAILED)
      else update (with_initialized true)
    else mret ()
  else mret ().

Definition load_image (fuel : nat) (addr size oldHeader : Z) : M () :=
  newHeader ← copy_headers addr size oldHeader;
  _ ← fill_image fuel addr size oldHeader newHeader;
  start_image fuel newHeader.

(** The new module and the memory for its image. *)
Definition reserve_module (fuel : nat) (oldHeader alignedImageSize : Z) : M () :=
  c ← FileHeader "Characteristics" oldHeader;
  _ ← update (λ _, with_isDLL (bool_decide (Z.land c IMAGE_FILE_DLL ≠ 0)) zeroModule);
  preferred ← OptionalHeader "ImageBase" oldHeader;
  _ ← reserve_image preferred alignedImageSize;
  wrap "Error reallocating code" (check4GBBoundaries fuel alignedImageSize).

(** The rest of [LoadLibrary], on the new module. *)
Definition load_module (fuel : nat) (addr size oldHeader alignedImageSize : Z) : M () :=
  _ ← reserve_module fuel oldHeader alignedImageSize;
  load_image fuel addr size oldHeader.

(** An error that is dropped. *)
Definition ignore (m : M ()) : M () := λ s,
  match m s with Ret (inr _, s') => Ret (inl (), s') | o => o end.

(** The deferred [if err != nil { module.Free() }]. *)
Definition free_on_error {A} (m : M A) : M A := λ s,
  match m s with
  | Ret (inr e, s') =>
      match Free s' with
      | Ret (_, s'') => Ret (inr e, s'')
      | Panic msg => Panic msg
      | Block => Block
      end
  | o => o
  end.

Definition LoadLibrary (fuel : nat) (addr size : Z) : M () :=
  '(oldHeader, alignedImageSize) ← check_headers addr size;
  free_on_error
    (_ ← load_module fuel addr size oldHeader alignedImageSize;
     ignore (buildNameExports fuel)).

End loader.
