(* ===== verification/MemmodFacts.v ===== *)
(** * What the DLL loader promises

    Relocation: the table of blocks and entries, and the Thumb-2 instruction pair whose
    immediates are scattered over bit fields.  Also the lemmas on single steps of the loader's monad. *)

From S2P Require Import Prelude Sys Pe Memmod.

Local Open Scope Z_scope.

(** ** Words made of disjoint bit fields *)

Definition within (a m : Z) : Prop := Z.land a m = a.

Lemma within_land a m : within (Z.land a m) m.
Proof. unfold within. by rewrite <- Z.land_assoc, Z.land_diag. Qed.

Lemma within_disjoint a m b m' : within a m → within b m' → Z.land m m' = 0 → Z.land a b = 0.
Proof.
  unfold within. intros <- <- Hm. rewrite <- Z.land_assoc, (Z.land_assoc m), (Z.land_comm m b).
  rewrite <- Z.land_assoc, Hm. by rewrite !Z.land_0_r.
Qed.

Lemma add_within a m b m' :
  within a m → within b m' → Z.land m m' = 0 →
  a + b = Z.lor a b ∧ within (Z.lor a b) (Z.lor m m').
Proof.
  intros Ha Hb Hm. pose proof (within_disjoint a m b m' Ha Hb Hm) as H0. split.
  - rewrite Z.add_nocarry_lxor, Z.lxor_lor by done. done.
  - unfold within in *. apply Z.bits_inj'. intros n _.
    pose proof (f_equal (λ z, Z.testbit z n) Ha) as Hn. pose proof (f_equal (λ z, Z.testbit z n) Hb) as Hn'.
    simpl in Hn, Hn'. rewrite Z.land_spec in Hn, Hn'. rewrite Z.land_spec, !Z.lor_spec.
    by destruct (Z.testbit a n), (Z.testbit b n), (Z.testbit m n), (Z.testbit m' n).
Qed.

Lemma within_range a m k : 0 <= k → within a m → 0 <= m < 2 ^ k → 0 <= a < 2 ^ k.
Proof.
  intros Hk Ha Hm. assert (0 <= a) as Ha0.
  { rewrite <- Ha. apply Z.land_nonneg. lia. }
  split; [done|]. rewrite <- (Z.mod_small m (2 ^ k)) in Ha by done. unfold within in Ha.
  rewrite <- Z.land_ones, Z.land_assoc in Ha by done. rewrite <- Ha, Z.land_ones by done.
  apply Z.mod_pos_bound. lia.
Qed.

(** Two words with the same 32 bits are equal. *)
Lemma word32_ext x y :
  0 <= x < 2 ^ 32 → 0 <= y < 2 ^ 32 →
  (∀ i, (i < 32)%nat → Z.testbit x (Z.of_nat i) = Z.testbit y (Z.of_nat i)) → x = y.
Proof.
  intros Hx Hy Hf. apply Z.bits_inj'. intros n Hn.
  destruct (decide (n < 32)) as [Hlt|Hge].
  - specialize (Hf (Z.to_nat n)). rewrite Z2Nat.id in Hf by lia. apply Hf. lia.
  - rewrite <- (Z.mod_small x (2 ^ 32)), <- (Z.mod_small y (2 ^ 32)) by done.
    rewrite <- !Z.land_ones, !Z.land_spec, !Z.ones_spec_high by lia. by rewrite !andb_false_r.
Qed.

(** Compares two words built from masks and shifts bit by bit: every index and every bit of
    a mask is a closed term. *)
Ltac eval_index :=
  repeat match goal with |- context [Z.testbit ?a ?i] =>
    let j := eval vm_compute in i in progress change (Z.testbit a i) with (Z.testbit a j)
  end.

Ltac eval_mask :=
  repeat match goal with |- context [Z.testbit ?a ?i] =>
    match a with Zpos _ => idtac | Z.ones _ => idtac end;
    let v := eval vm_compute in (Z.testbit a i) in change (Z.testbit a i) with v
  end.

Ltac one_bit :=
  eval_index;
  repeat match goal with
  | |- context [Z.testbit ?a (Zneg ?p)] => rewrite (Z.testbit_neg_r a (Zneg p)) by lia
  | |- context [Z.testbit (Z.lor ?a ?b) ?i] => rewrite (Z.lor_spec a b i)
  | |- context [Z.testbit (Z.land ?a ?b) ?i] => rewrite (Z.land_spec a b i)
  | |- context [Z.testbit (Z.shiftl ?a ?n) ?i] => rewrite (Z.shiftl_spec a n i) by lia; eval_index
  | |- context [Z.testbit (Z.shiftr ?a ?n) ?i] => rewrite (Z.shiftr_spec a n i) by lia; eval_index
  end;
  eval_mask; rewrite ?andb_false_r, ?andb_true_r, ?orb_false_r, ?orb_false_l; reflexivity.

Ltac bits :=
  let i := fresh "i" in let Hi := fresh "Hi" in
  intros i Hi; do 32 (destruct i as [|i]; [clear Hi; one_bit|]); exfalso; lia.

(** ** The Thumb-2 immediates *)

Lemma uwrap32_shiftl_land x k m :
  0 <= k → 0 <= m < 2 ^ 32 → Z.land (uwrap 32 (Z.shiftl x k)) m = Z.land (Z.shiftl x k) m.
Proof.
  intros Hk Hm. unfold uwrap. rewrite <- Z.land_ones, <- Z.land_assoc by lia. f_equal.
  rewrite Z.land_comm, Z.land_ones by lia. by apply Z.mod_small.
Qed.

Definition imm16_bits (inst : Z) : Z :=
  Z.lor (Z.lor (Z.lor (Z.land (Z.shiftl inst 1) 0x0800) (Z.land (Z.shiftl inst 12) 0xf000))
    (Z.land (Z.shiftr inst 20) 0x0700)) (Z.land (Z.shiftr inst 16) 0x00ff).

Definition put_bits (inst imm16 : Z) : Z :=
  Z.lor (Z.lor (Z.lor (Z.lor (Z.land inst 0x8f00fbf0) (Z.land (Z.shiftr imm16 1) 0x0400))
    (Z.land (Z.shiftr imm16 12) 0x000f)) (Z.land (Z.shiftl imm16 20) 0x70000000))
    (Z.land (Z.shiftl imm16 16) 0xff0000).

Lemma thumb_imm16_bits inst :
  thumb_imm16 inst = imm16_bits inst ∧ 0 <= imm16_bits inst < 2 ^ 16.
Proof.
  unfold thumb_imm16, imm16_bits. rewrite !uwrap32_shiftl_land by lia.
  destruct (add_within _ _ _ _ (within_land (Z.shiftl inst 1) 0x0800)
    (within_land (Z.shiftl inst 12) 0xf000) eq_refl) as [-> H1].
  destruct (add_within _ _ _ _ H1 (within_land (Z.shiftr inst 20) 0x0700) eq_refl) as [-> H2].
  destruct (add_within _ _ _ _ H2 (within_land (Z.shiftr inst 16) 0x00ff) eq_refl) as [-> H3].
  pose proof (within_range _ _ 16 ltac:(lia) H3 ltac:(by vm_compute)). split; [|done].
  apply uwrap_small. unfold in_uint. lia.
Qed.

Lemma thumb_put_bits inst imm16 :
  thumb_put inst imm16 = put_bits inst imm16 ∧ 0 <= put_bits inst imm16 < 2 ^ 32.
Proof.
  unfold thumb_put, put_bits. rewrite !uwrap32_shiftl_land by lia.
  destruct (add_within _ _ _ _ (within_land inst 0x8f00fbf0)
    (within_land (Z.shiftr imm16 1) 0x0400) eq_refl) as [-> H1].
  destruct (add_within _ _ _ _ H1 (within_land (Z.shiftr imm16 12) 0x000f) eq_refl) as [-> H2].
  destruct (add_within _ _ _ _ H2 (within_land (Z.shiftl imm16 20) 0x70000000) eq_refl) as [-> H3].
  destruct (add_within _ _ _ _ H3 (within_land (Z.shiftl imm16 16) 0xff0000) eq_refl) as [-> H4].
  pose proof (within_range _ _ 32 ltac:(lia) H4 ltac:(by vm_compute)). split; [|done].
  by apply uwrap_small.
Qed.

(** What is put in comes out, cut to 16 bits, and the rest of the instruction stays. *)
Lemma thumb_imm16_put inst x : 0 <= x → thumb_imm16 (thumb_put inst x) = x mod 2 ^ 16.
Proof.
  intros Hx. destruct (thumb_put_bits inst x) as [-> _].
  destruct (thumb_imm16_bits (put_bits inst x)) as [-> Hr].
  apply word32_ext; [lia|pose proof (Z.mod_pos_bound x (2 ^ 16)); lia|].
  rewrite <- Z.land_ones by lia. unfold imm16_bits, put_bits.
  bits.
Qed.

Lemma thumb_put_opcode inst x :
  Z.land (thumb_put inst x) 0x8000fbf0 = Z.land inst 0x8000fbf0.
Proof.
  destruct (thumb_put_bits inst x) as [-> _]. unfold put_bits.
  apply word32_ext; [eapply within_range; [lia|apply within_land|by vm_compute]..|].
  bits.
Qed.

(** ** Steps of the monad *)

Section facts.
Context `{Arch} {OS : Type} `{WinAPI OS}.

Abbreviation M := (M OS).
Abbreviation state := (state OS).

Definition memory_of (s : state) : memory := mem (mach s).
Definition with_memory (m : memory) (s : state) : state := State (Machine m (os (mach s))) (module s).

Lemma bind_inl {A B} (m : M A) (f : A → M B) s a s' : m s = Ret (inl a, s') → (m ≫= f) s = f a s'.
Proof. intros E. unfold mbind, M_bind. by rewrite E. Qed.

Lemma bind_inr {A B} (m : M A) (f : A → M B) s e s' : m s = Ret (inr e, s') → (m ≫= f) s = Ret (inr e, s').
Proof. intros E. unfold mbind, M_bind. by rewrite E. Qed.

Lemma bind_Ret {A B} (m : M A) (f : A → M B) s r s' :
  (m ≫= f) s = Ret (r, s') →
  (∃ a s1, m s = Ret (inl a, s1) ∧ f a s1 = Ret (r, s')) ∨ (∃ e, m s = Ret (inr e, s') ∧ r = inr e).
Proof.
  unfold mbind, M_bind. destruct (m s) as [[[a|e] s1]| |]; try done; [eauto|]. intros [= <- <-]. eauto.
Qed.

Lemma rd_ok n a v s : load n a (memory_of s) = Some v → rd n a s = Ret (inl v, s).
Proof. unfold rd, mem_op, memory_of. intros ->. simpl. by destruct s as [[? ?] ?]. Qed.

Lemma wr_ok n a v m s : store n a v (memory_of s) = Some m → wr n a v s = Ret (inl (), with_memory m s).
Proof. unfold wr, mem_op, memory_of. by intros ->. Qed.

(** ** Relocation *)

Lemma thumb_low_value i delta :
  let d := uwrap 32 delta in
  let low := thumb_imm16 i + d mod 65536 in
  thumb_low i delta = low ∧ thumb_hiDelta low delta = d / 65536 + low / 65536.
Proof.
  intros d low. assert (0 <= d < 2 ^ 32) as Hd by (apply uwrap_in; lia).
  assert (0 <= thumb_imm16 i < 2 ^ 16) as Hi by (destruct (thumb_imm16_bits i) as [-> ?]; done).
  assert (0 <= d mod 65536 < 65536) as Hm by (apply Z.mod_pos_bound; lia).
  split.
  - unfold thumb_low. change 0xffff with (Z.ones 16). rewrite Z.land_ones by lia. apply uwrap_small.
    unfold in_uint. change (2 ^ 16) with 65536 in *. fold d. lia.
  - assert (∀ x, 0 <= x < 2 ^ 32 → Z.shiftr (Z.land x 0xffff0000) 16 = x / 65536) as Hs.
    { intros x Hx. rewrite Z.shiftr_land. change (Z.shiftr 0xffff0000 16) with (Z.ones 16).
      rewrite Z.land_ones, Z.shiftr_div_pow2 by lia. change (2 ^ 16) with 65536. apply Z.mod_small.
      split; [apply Z.div_pos; lia|apply Z.div_lt_upper_bound; lia]. }
    assert (uwrap 32 (Z.land delta 0xffff0000) = Z.land d 0xffff0000) as Hu.
    { unfold d, uwrap. rewrite <- !Z.land_ones by lia. rewrite <- !Z.land_assoc. f_equal. }
    unfold thumb_hiDelta. rewrite Hu, !Hs by (unfold low; lia). apply uwrap_small. unfold in_uint.
    assert (d / 65536 < 65536) by (apply Z.div_lt_upper_bound; lia).
    assert (low / 65536 < 65536) by (apply Z.div_lt_upper_bound; unfold low; lia).
    assert (0 <= d / 65536) by (apply Z.div_pos; lia).
    assert (0 <= low / 65536) by (apply Z.div_pos; unfold low; lia). lia.
Qed.

(** The 32-bit constant that a MOVW and a MOVT instruction load together. *)
Definition thumb_constant (i1 i2 : Z) : Z := thumb_imm16 i1 + 65536 * thumb_imm16 i2.

Lemma is_MOVW_put i x : is_MOVW i = true → is_MOVW (thumb_put i x) = true.
Proof. unfold is_MOVW. by rewrite thumb_put_opcode. Qed.

Lemma is_MOVT_put i x : is_MOVT i = true → is_MOVT (thumb_put i x) = true.
Proof. unfold is_MOVT. by rewrite thumb_put_opcode. Qed.

Lemma thumb_put_range i x : 0 <= thumb_put i x < 2 ^ 32.
Proof. by destruct (thumb_put_bits i x) as [-> ?]. Qed.

Lemma load_store_word a v m m' : 0 <= v < 2 ^ 32 → store 4 a v m = Some m' → load 4 a m' = Some v.
Proof. intros Hv (-> & _)%load_store. f_equal. by apply Z.mod_small. Qed.

(** The carry into the upper half, and the sum in terms of it. *)
Lemma thumb_sum i1 i2 delta :
  let d := uwrap 32 delta in
  let low := thumb_imm16 i1 + d mod 65536 in
  let hi := d / 65536 + low / 65536 in
  0 <= low ∧ 0 <= hi <= 65536 ∧ 0 <= thumb_imm16 i2 < 65536 ∧ 0 <= low mod 65536 < 65536 ∧
  thumb_constant i1 i2 + d = low mod 65536 + 65536 * (thumb_imm16 i2 + hi).
Proof.
  intros d low hi. assert (0 <= d < 2 ^ 32) as Hd by (apply uwrap_in; lia).
  assert (0 <= thumb_imm16 i1 < 65536) as Hi1 by (destruct (thumb_imm16_bits i1) as [-> ?]; done).
  assert (0 <= thumb_imm16 i2 < 65536) as Hi2 by (destruct (thumb_imm16_bits i2) as [-> ?]; done).
  pose proof (Z.div_mod d 65536 ltac:(lia)). pose proof (Z.mod_pos_bound d 65536 ltac:(lia)).
  pose proof (Z.div_mod low 65536 ltac:(lia)). pose proof (Z.mod_pos_bound low 65536 ltac:(lia)).
  assert (d / 65536 < 65536) by (apply Z.div_lt_upper_bound; lia).
  unfold thumb_constant, hi in *. unfold low in *. lia.
Qed.

(** What the code does with the pair: the first instruction is always written, the second
    where there is a carry. *)
Lemma relocate_thumb_run a delta s i1 i2 :
  load 4 a (memory_of s) = Some i1 → load 4 (a + 4) (memory_of s) = Some i2 →
  in_uint wordsize (a + 4) → is_MOVW i1 = true → is_MOVT i2 = true →
  let low := thumb_imm16 i1 + uwrap 32 delta mod 65536 in
  let hi := uwrap 32 delta / 65536 + low / 65536 in
  ∃ m1, store 4 a (thumb_put i1 low) (memory_of s) = Some m1 ∧
    load 4 (a + 4) m1 = Some i2 ∧
    relocate_thumb a delta s =
      (if bool_decide (hi = 0) then Ret (inl (), with_memory m1 s)
       else if bool_decide (thumb_imm16 i2 + hi > 0xffff)
       then Ret (inr (New "Resulting immediate value won't fit"), with_memory m1 s)
       else wr 4 (a + 4) (thumb_put i2 (thumb_imm16 i2 + hi)) (with_memory m1 s)).
Proof.
  intros H1 H2 Hup HW HT low hi. destruct (thumb_low_value i1 delta) as [Hlow Hhi]. fold low in Hlow, Hhi. fold hi in Hhi.
  destruct (thumb_sum i1 i2 delta) as (_ & Hh & Hi2 & _). fold low in Hh. fold hi in Hh.
  destruct (load_store_ok 4 a (memory_of s) i1 (thumb_put i1 low) H1) as [m1 Hm1].
  pose proof (load_disjoint _ _ 4 (a + 4) _ _ _ Hm1 ltac:(lia)) as Hk1. rewrite H2 in Hk1.
  exists m1. split_and!; [done|done|].
  unfold relocate_thumb. erewrite bind_inl; [|exact (rd_ok _ _ _ s H1)]. rewrite HW; cbn [negb]; cbv zeta.
  rewrite Hlow, Hhi. erewrite bind_inl; [|exact (wr_ok _ _ _ _ s Hm1)]. case_bool_decide; [done|].
  rewrite up_small by done. erewrite bind_inl; [|exact (rd_ok _ _ _ (with_memory m1 s) Hk1)].
  rewrite HT; cbn [negb]; cbv zeta. rewrite (uwrap_small 32) by (unfold in_uint; lia). by case_bool_decide.
Qed.

(** C18: A Thumb-2 relocation adds the distance to the 32-bit constant that a MOVW and MOVT
    pair loads, through immediates scattered over four bit fields of each instruction: when
    the sum fits in 32 bits, both instructions keep their opcodes and registers, load the
    sum together, and nothing else in memory changes; when it does not, which includes
    every image that moves down by no more than the address it refers to, loading fails. *)
Theorem relocate_thumb_correct a delta s i1 i2 :
  load 4 a (memory_of s) = Some i1 → load 4 (a + 4) (memory_of s) = Some i2 →
  in_uint wordsize (a + 4) → is_MOVW i1 = true → is_MOVT i2 = true →
  let sum := thumb_constant i1 i2 + uwrap 32 delta in
  if bool_decide (sum < 2 ^ 32)
  then ∃ m i1' i2', relocate_thumb a delta s = Ret (inl (), with_memory m s) ∧
    load 4 a m = Some i1' ∧ load 4 (a + 4) m = Some i2' ∧
    is_MOVW i1' = true ∧ is_MOVT i2' = true ∧ thumb_constant i1' i2' = sum ∧
    ∀ x, x < a ∨ a + 8 <= x → m !! x = memory_of s !! x
  else ∃ s', relocate_thumb a delta s = Ret (inr (New "Resulting immediate value won't fit"), s').
Proof.
  intros H1 H2 Hup HW HT sum. destruct (relocate_thumb_run a delta s i1 i2 H1 H2 Hup HW HT) as (m1 & Hm1 & Hk1 & ->).
  destruct (thumb_sum i1 i2 delta) as (Hl & Hh & Hi2 & Hm & Hsum).
  set (low := thumb_imm16 i1 + _) in *. set (hi := _ / _ + low / 65536) in *. fold sum in Hsum.
  pose proof (load_store _ _ _ _ _ Hm1) as (_ & Ho1 & _).
  pose proof (load_store_word _ _ _ _ (thumb_put_range i1 low) Hm1) as Hl1.
  case_bool_decide as Hfit.
  - destruct (decide (hi = 0)) as [Hz|Hz].
    + rewrite bool_decide_eq_true_2 by done. exists m1, (thumb_put i1 low), i2.
      split_and!; [done..|by apply is_MOVW_put|done| |intros x ?; apply Ho1; lia].
      unfold thumb_constant. rewrite thumb_imm16_put by lia. change (2 ^ 16) with 65536. lia.
    + rewrite !bool_decide_eq_false_2 by lia.
      destruct (load_store_ok 4 (a + 4) m1 i2 (thumb_put i2 (thumb_imm16 i2 + hi)) Hk1) as [m2 Hm2].
      pose proof (load_store _ _ _ _ _ Hm2) as (_ & Ho2 & _).
      exists m2, (thumb_put i1 low), (thumb_put i2 (thumb_imm16 i2 + hi)).
      split_and!; [exact (wr_ok _ _ _ _ (with_memory m1 s) Hm2)| | |by apply is_MOVW_put|by apply is_MOVT_put| |].
      * rewrite (load_disjoint _ _ 4 a _ _ _ Hm2) by lia. done.
      * by apply (load_store_word _ _ _ _ (thumb_put_range _ _) Hm2).
      * unfold thumb_constant. rewrite !thumb_imm16_put by lia. change (2 ^ 16) with 65536.
        rewrite (Z.mod_small (thumb_imm16 i2 + hi)) by lia. lia.
      * intros x Hx. rewrite Ho2, Ho1 by lia. done.
  - rewrite bool_decide_eq_false_2 by lia. rewrite bool_decide_eq_true_2 by lia. eauto.
Qed.

(** *** The entries of a block *)

(** A word that is changed: its size, its address and what is added to it. *)
Definition write := (nat * Z * Z)%type.

(** The change that an entry of the block for the page at [dest] asks for. *)
Definition target (dest delta relInfo : Z) : option write :=
  let relType := Z.shiftr relInfo 12 in
  let a := up (dest + Z.land relInfo 0xfff) in
  if bool_decide (relType = IMAGE_REL_BASED_LOW) then Some (2%nat, a, Z.land delta 0xffff)
  else if bool_decide (relType = IMAGE_REL_BASED_HIGH) then Some (2%nat, a, uwrap 16 (Z.shiftr (uwrap 32 delta) 16))
  else if bool_decide (relType = IMAGE_REL_BASED_HIGHLOW) then Some (4%nat, a, uwrap 32 delta)
  else if bool_decide (relType = IMAGE_REL_BASED_DIR64) then Some (8%nat, a, delta)
  else None.

(** The entries that change one word or none. *)
Definition plain (relInfo : Z) : Prop :=
  Z.shiftr relInfo 12 ∈ [IMAGE_REL_BASED_ABSOLUTE; IMAGE_REL_BASED_LOW; IMAGE_REL_BASED_HIGH;
                         IMAGE_REL_BASED_HIGHLOW; IMAGE_REL_BASED_DIR64].

Lemma relocate_one_plain dest delta e :
  plain e →
  relocate_one dest delta e =
  match target dest delta e with Some (n, a, v) => add_at n a v | None => (mret () : M ()) end.
Proof.
  unfold plain, relocate_one, target. rewrite !elem_of_cons.
  intros [->|[->|[->|[->|[->|[]%not_elem_of_nil]]]]]; done.
Qed.

(** *** Sets of changes *)

(** [x] is not a byte of the word. *)
Definition misses (x : Z) (w : write) : Prop := x < w.1.2 ∨ w.1.2 + Z.of_nat w.1.1 <= x.

(** The low half of an address and the high half of another in the same 4 GB. *)
Lemma address_recovers base x :
  0 <= base < 2 ^ 64 → 0 <= x < 2 ^ 64 → x / 2 ^ 32 = base / 2 ^ 32 →
  Z.lor (Z.land x 0xffffffff) (Z.land base 0xffffffff00000000) = x.
Proof.
  intros Hb Hx Hhigh.
  apply Z.bits_inj'. intros i Hi. rewrite Z.lor_spec, !Z.land_spec.
  change 0xffffffff with (Z.ones 32). change 0xffffffff00000000 with (Z.shiftl (Z.ones 32) 32).
  rewrite Z.shiftl_spec by done. destruct (decide (i < 32)) as [Hlt|Hge].
  - rewrite Z.ones_spec_low by lia. rewrite (Z.testbit_neg_r (Z.ones 32)) by lia.
    by rewrite andb_true_r, andb_false_r, orb_false_r.
  - rewrite Z.ones_spec_high, andb_false_r, orb_false_l by lia.
    assert (Z.testbit base i = Z.testbit x i) as ->.
    { replace i with (i - 32 + 32) by lia. rewrite <- !(Z.shiftr_spec _ 32) by lia.
      rewrite !Z.shiftr_div_pow2 by lia. by rewrite Hhigh. }
    destruct (decide (i < 64)) as [Hlt'|Hge'].
    + rewrite Z.ones_spec_low by lia. apply andb_true_r.
    + rewrite Z.ones_spec_high by lia. rewrite andb_false_r.
      rewrite <- (Z.mod_small x (2 ^ 64)) by lia. by rewrite Z.mod_pow2_bits_high by lia.
Qed.

(** No byte of the word is in [[lo, hi)]. *)
Definition apart (lo hi : Z) (w : write) : Prop := w.1.2 + Z.of_nat w.1.1 <= lo ∨ hi <= w.1.2.

Definition separate (w1 w2 : write) : Prop := apart w2.1.2 (w2.1.2 + Z.of_nat w2.1.1) w1.

Definition mapped (m : memory) (w : write) : Prop := is_Some (load w.1.1 w.1.2 m).

(** [m'] is [m] with every change made once, and nothing else. *)
Definition relocated (ws : list write) (m m' : memory) : Prop :=
  Forall (λ '(n, a, v), ∃ x, load n a m = Some x ∧
            load n a m' = Some ((x + v) mod 256 ^ Z.of_nat n)) ws ∧
  ∀ x, Forall (misses x) ws → m' !! x = m !! x.

(** Two memories that agree on [[lo, hi)]. *)
Definition agree (lo hi : Z) (m m' : memory) : Prop := ∀ x, lo <= x < hi → m' !! x = m !! x.

Lemma load_agree n a lo hi m m' :
  agree lo hi m m' → lo <= a → a + Z.of_nat n <= hi → load n a m' = load n a m.
Proof. intros Ha ? ?. unfold load. f_equal. apply load_bytes_ext. intros x ?. apply Ha. lia. Qed.

Lemma relocated_agree lo hi ws m m' : relocated ws m m' → Forall (apart lo hi) ws → agree lo hi m m'.
Proof.
  intros [_ Ho] Hw x Hx. apply Ho. eapply Forall_impl; [exact Hw|].
  unfold apart, misses. intros w. lia.
Qed.

Lemma relocated_nil m : relocated [] m m.
Proof. by split. Qed.

Lemma relocated_word ws m m' w :
  relocated ws m m' → Forall (λ w', separate w' w) ws → load w.1.1 w.1.2 m' = load w.1.1 w.1.2 m.
Proof. intros Hr Hw. eapply load_agree; [by eapply relocated_agree|lia..]. Qed.

Lemma relocated_app ws1 ws2 m1 m2 m3 :
  relocated ws1 m1 m2 → relocated ws2 m2 m3 →
  Forall (λ w1, Forall (separate w1) ws2) ws1 → relocated (ws1 ++ ws2) m1 m3.
Proof.
  intros H1 H2 Hs. split.
  - apply Forall_app. split.
    + apply Forall_forall. intros [[n a] v] Hin.
      pose proof (proj1 (Forall_forall _ _) (proj1 H1) _ Hin) as (x & Hx & Hx').
      exists x. split; [done|]. rewrite <- Hx'. apply (relocated_word ws2 m2 m3 (n, a, v) H2).
      pose proof (proj1 (Forall_forall _ _) Hs _ Hin) as Hw. eapply Forall_impl; [exact Hw|].
      unfold separate, apart. simpl. lia.
    + apply Forall_forall. intros [[n a] v] Hin.
      pose proof (proj1 (Forall_forall _ _) (proj1 H2) _ Hin) as (x & Hx & Hx').
      exists x. split; [|done]. rewrite <- Hx. symmetry. apply (relocated_word ws1 m1 m2 (n, a, v) H1).
      eapply Forall_impl; [exact Hs|]. intros w Hw. exact (proj1 (Forall_forall _ _) Hw _ Hin).
  - intros x [Hm1 Hm2]%Forall_app. rewrite (proj2 H2 x Hm2). by apply H1.
Qed.

Lemma add_at_relocated n a v s :
  mapped (memory_of s) (n, a, v) →
  ∃ m, add_at n a v s = Ret (inl (), with_memory m s) ∧ relocated [(n, a, v)] (memory_of s) m.
Proof.
  intros [x Hx]. destruct (load_store_ok n a _ x (x + v) Hx) as [m Hm].
  pose proof (load_store _ _ _ _ _ Hm) as (Hload & Hother & _). exists m. split.
  - unfold add_at. erewrite bind_inl; [|exact (rd_ok _ _ _ s Hx)]. by apply wr_ok.
  - split; [|intros y [Hy _]%Forall_cons; by apply Hother].
    apply Forall_singleton. by exists x.
Qed.

(** *** The table

    A block from address [p] on, as the linker lays it out: entries of plain types whose
    words are mapped, and overlap neither each other nor the entries still to be read. *)
Fixpoint block_ok (p dest delta : Z) (es : list Z) (m : memory) : Prop :=
  match es with
  | [] => True
  | e :: es =>
      load 2 p m = Some e ∧ plain e ∧ in_uint wordsize (p + 2) ∧
      Forall (λ w, mapped m w ∧ apart (p + 2) (p + 2 + 2 * Z.of_nat (length es)) w ∧
                   Forall (separate w) (omap (target dest delta) es))
        (option_list (target dest delta e)) ∧
      block_ok (p + 2) dest delta es m
  end.

Lemma Forall_option_list {A} (P : A → Prop) o : Forall P (option_list o) ↔ ∀ x, o = Some x → P x.
Proof.
  destruct o as [x|]; simpl; [rewrite Forall_singleton|rewrite Forall_nil]; naive_solver.
Qed.

Lemma omap_cons_option_list {A B} (f : A → option B) x l : omap f (x :: l) = option_list (f x) ++ omap f l.
Proof. by simpl; destruct (f x). Qed.

Lemma block_ok_agree p dest delta es m m' :
  agree p (p + 2 * Z.of_nat (length es)) m m' →
  Forall (λ w, load w.1.1 w.1.2 m' = load w.1.1 w.1.2 m) (omap (target dest delta) es) →
  block_ok p dest delta es m → block_ok p dest delta es m'.
Proof.
  revert p. induction es as [|e es IH]; intros p Ha Hw; [done|].
  rewrite omap_cons_option_list in Hw. apply Forall_app in Hw as [Hw1 Hw2].
  cbn [block_ok length] in *. intros (Hl & Hp & Hu & Ht & Hr). split_and!; [|done|done| |].
  - rewrite <- Hl. eapply load_agree; [exact Ha|lia..].
  - rewrite !Forall_option_list in *. intros w Hwe. destruct (Ht w Hwe) as (Hm & ? & ?).
    split_and!; [|done|done]. unfold mapped in *. by rewrite (Hw1 w Hwe).
  - apply IH; [|done|done]. intros x Hx. apply Ha. lia.
Qed.

Lemma relocate_entries_correct p dest delta es s :
  block_ok p dest delta es (memory_of s) →
  ∃ m, relocate_entries (length es) p dest delta s = Ret (inl (), with_memory m s) ∧
    relocated (omap (target dest delta) es) (memory_of s) m.
Proof.
  revert p s. induction es as [|e es IH]; intros p s; cbn [block_ok length relocate_entries].
  { intros _. exists (memory_of s). split; [by destruct s as [[? ?] ?]|apply relocated_nil]. }
  rewrite omap_cons_option_list. intros (Hl & Hp & Hu & Ht & Hr).
  erewrite bind_inl; [|exact (rd_ok _ _ _ s Hl)]. rewrite (relocate_one_plain _ _ _ Hp), up_small by done.
  destruct (target dest delta e) as [[[n a] v]|]; cbn [option_list] in *.
  - apply Forall_singleton in Ht as (Hm & Hd & Hs).
    destruct (add_at_relocated n a v s Hm) as (m1 & Hadd & Hr1). erewrite bind_inl; [|exact Hadd].
    destruct (IH (p + 2) (with_memory m1 s)) as (m & Hrun & Hr2).
    { eapply block_ok_agree; [| |exact Hr].
      - eapply relocated_agree; [exact Hr1|by apply Forall_singleton].
      - eapply Forall_impl; [exact Hs|]. intros w Hw.
        eapply relocated_word; [exact Hr1|by apply Forall_singleton]. }
    exists m. split; [exact Hrun|]. eapply relocated_app; [exact Hr1|exact Hr2|by apply Forall_singleton].
  - erewrite bind_inl; [|reflexivity]. destruct (IH (p + 2) s Hr) as (m & Hrun & Hr2). by exists m.
Qed.

(** *** The whole table

    A block is the page it is for and its entries. *)
Definition block_writes (base delta : Z) (b : Z * list Z) : list write :=
  omap (target (up (base + b.1)) delta) b.2.

Definition table_writes (base delta : Z) (bs : list (Z * list Z)) : list write :=
  concat (block_writes base delta <$> bs).

Definition block_size (b : Z * list Z) : Z := sizeof IMAGE_BASE_RELOCATION + 2 * Z.of_nat (length b.2).

(** The bytes from the first block to the terminator's [VirtualAddress]. *)
Definition table_size (bs : list (Z * list Z)) : Z := foldr (λ b n, block_size b + n) 4 bs.

(** The blocks [bs] and their terminator from address [p] on; no word they name is in the
    table, or named twice. *)
Fixpoint table_ok (p base delta : Z) (bs : list (Z * list Z)) (m : memory) : Prop :=
  match bs with
  | [] => get IMAGE_BASE_RELOCATION "VirtualAddress" p m = Some 0
  | b :: bs =>
      get IMAGE_BASE_RELOCATION "VirtualAddress" p m = Some b.1 ∧ b.1 ≠ 0 ∧
      get IMAGE_BASE_RELOCATION "SizeOfBlock" p m = Some (block_size b) ∧
      0 <= p ∧ in_uint wordsize (p + block_size b) ∧
      block_ok (p + sizeof IMAGE_BASE_RELOCATION) (up (base + b.1)) delta b.2 m ∧
      Forall (λ w, apart p (p + block_size b + table_size bs) w ∧
                   Forall (separate w) (table_writes base delta bs)) (block_writes base delta b) ∧
      table_ok (p + block_size b) base delta bs m
  end.

Lemma sizeof_block_header : sizeof IMAGE_BASE_RELOCATION = 8.
Proof. done. Qed.

Lemma table_size_pos bs : 4 <= table_size bs.
Proof.
  induction bs as [|b bs IH]; [done|]. cbn [table_size foldr]. fold (table_size bs).
  unfold block_size. rewrite sizeof_block_header. lia.
Qed.

Lemma get_block_agree f p m m' :
  f = "VirtualAddress"%string ∧ agree p (p + 4) m m' ∨ f = "SizeOfBlock"%string ∧ agree p (p + 8) m m' →
  get IMAGE_BASE_RELOCATION f p m' = get IMAGE_BASE_RELOCATION f p m.
Proof.
  intros [[-> Ha]|[-> Ha]];
    [change (load 4 (p + 0) m' = load 4 (p + 0) m)|change (load 4 (p + 4) m' = load 4 (p + 4) m)];
    (eapply load_agree; [exact Ha|lia..]).
Qed.

Lemma table_ok_agree p base delta bs m m' :
  agree p (p + table_size bs) m m' →
  Forall (λ w, load w.1.1 w.1.2 m' = load w.1.1 w.1.2 m) (table_writes base delta bs) →
  table_ok p base delta bs m → table_ok p base delta bs m'.
Proof.
  revert p. induction bs as [|b bs IH]; intros p Ha Hw; cbn [table_ok].
  { intros <-. apply get_block_agree. by left. }
  unfold table_writes in Hw. cbn [fmap list_fmap concat] in Hw. apply Forall_app in Hw as [Hw1 Hw2].
  cbn [table_size foldr] in Ha. fold (table_size bs) in Ha. pose proof (table_size_pos bs) as Hpos.
  assert (block_size b = 8 + 2 * Z.of_nat (length b.2)) as Hb by (unfold block_size; by rewrite sizeof_block_header).
  intros (Hva & Hne & Hsz & Hp & Hu & Hblk & Hsep & Hrest). split_and!; [..|done|done| | |].
  - rewrite <- Hva. apply get_block_agree. left. split; [done|]. intros x Hx. apply Ha. lia.
  - done.
  - rewrite <- Hsz. apply get_block_agree. right. split; [done|]. intros x Hx. apply Ha. lia.
  - eapply block_ok_agree; [|exact Hw1|exact Hblk]. rewrite sizeof_block_header. intros x Hx. apply Ha. lia.
  - done.
  - apply IH; [|done|done]. intros x Hx. apply Ha. lia.
Qed.

Lemma block_entries_size b :
  in_uint wordsize (block_size b) → block_entries (block_size b) = length b.2.
Proof.
  intros Hb. unfold block_entries, block_size in *. rewrite sizeof_block_header in *.
  replace (8 + 2 * Z.of_nat (length b.2) - 8) with (Z.of_nat (length b.2) * 2) by lia.
  rewrite up_small by (unfold in_uint in *; lia). rewrite Z.div_mul by lia. apply Nat2Z.id.
Qed.

Lemma field_ok l f a v s : get l f a (memory_of s) = Some v → field_ l f a s = Ret (inl v, s).
Proof. unfold field_, mem_op, memory_of. intros ->. simpl. by destruct s as [[? ?] ?]. Qed.

Lemma relocate_blocks_correct fuel p delta bs s :
  (length bs < fuel)%nat → table_ok p (codeBase (module s)) delta bs (memory_of s) →
  ∃ m, relocate_blocks fuel p delta s = Ret (inl (), with_memory m s) ∧
    relocated (table_writes (codeBase (module s)) delta bs) (memory_of s) m.
Proof.
  set (base := codeBase (module s)).
  assert (codeBase (module s) = base) as Hbase by done. clearbody base. revert fuel p s Hbase.
  induction bs as [|b bs IH]; intros [|fuel] p s Hbase Hf; simpl in Hf; try lia; cbn [table_ok relocate_blocks].
  { intros Hva. exists (memory_of s). split; [|apply relocated_nil].
    erewrite bind_inl; [|exact (field_ok _ _ _ _ s Hva)]. by destruct s as [[? ?] ?]. }
  intros (Hva & Hne & Hsz & Hp & Hu & Hblk & Hsep & Hrest). pose proof (table_size_pos bs) as Hpos.
  assert (block_size b = 8 + 2 * Z.of_nat (length b.2)) as Hb by (unfold block_size; by rewrite sizeof_block_header).
  unfold in_uint in Hu.
  erewrite bind_inl; [|exact (field_ok _ _ _ _ s Hva)]. rewrite bool_decide_eq_false_2 by done.
  erewrite bind_inl; [|reflexivity]. rewrite Hbase.
  erewrite bind_inl; [|exact (field_ok _ _ _ _ s Hsz)].
  rewrite block_entries_size by (unfold in_uint; lia).
  rewrite up_small by (rewrite sizeof_block_header; unfold in_uint; lia).
  destruct (relocate_entries_correct _ _ _ _ s Hblk) as (m1 & Hrun1 & Hr1).
  erewrite bind_inl; [|exact Hrun1]. cbv beta.
  assert (agree p (p + block_size b + table_size bs) (memory_of s) m1) as Ha.
  { eapply relocated_agree; [exact Hr1|]. eapply Forall_impl; [exact Hsep|]. by intros w []. }
  erewrite bind_inl; cycle 1.
  { apply field_ok. rewrite <- Hsz. apply get_block_agree. right. split; [done|].
    intros x Hx. apply Ha. lia. }
  rewrite up_small by done.
  assert (Forall (λ w1, Forall (separate w1) (table_writes base delta bs)) (block_writes base delta b)) as Hs.
  { eapply Forall_impl; [exact Hsep|]. by intros w []. }
  destruct (IH fuel (p + block_size b) (with_memory m1 s) Hbase) as (m & Hrun2 & Hr2); [lia| |].
  { eapply table_ok_agree; [| |exact Hrest].
    - intros x Hx. apply Ha. lia.
    - apply Forall_forall. intros w Hin. eapply relocated_word; [exact Hr1|].
      eapply Forall_impl; [exact Hs|]. intros w' Hw'. exact (proj1 (Forall_forall _ _) Hw' w Hin). }
  exists m. split; [exact Hrun2|]. by eapply relocated_app.
Qed.

(** The address of an entry of the data directory. *)
Definition directory_entry (idx : Z) (s : state) : Z :=
  up (headers (module s) + OffsetOptionalHeader + default 0 (offsetof IMAGE_OPTIONAL_HEADER 0 "DataDirectory")
      + sizeof IMAGE_DATA_DIRECTORY * idx).

(** A module with a table of blocks. *)
Lemma performBaseRelocation_runs fuel delta s size va bs :
  let directory := directory_entry IMAGE_DIRECTORY_ENTRY_BASERELOC s in
  let base := codeBase (module s) in
  get IMAGE_DATA_DIRECTORY "Size" directory (memory_of s) = Some size → size ≠ 0 →
  get IMAGE_DATA_DIRECTORY "VirtualAddress" directory (memory_of s) = Some va →
  table_ok (up (base + va)) base delta bs (memory_of s) → (length bs < fuel)%nat →
  ∃ m, performBaseRelocation fuel delta s = Ret (inl true, with_memory m s) ∧
    relocated (table_writes base delta bs) (memory_of s) m.
Proof.
  intros directory base Hsize Hz Hva Hok Hf. unfold performBaseRelocation, headerDirectory.
  erewrite bind_inl; [|erewrite bind_inl; [|reflexivity]; reflexivity]. fold (directory_entry IMAGE_DIRECTORY_ENTRY_BASERELOC s).
  erewrite bind_inl; [|exact (field_ok _ _ _ _ s Hsize)]. rewrite bool_decide_eq_false_2 by done.
  erewrite bind_inl; [|exact (field_ok _ _ _ _ s Hva)]. erewrite bind_inl; [|reflexivity].
  destruct (relocate_blocks_correct fuel _ delta bs s Hf Hok) as (m & Hrun & Hr).
  exists m. split; [by erewrite bind_inl; [|exact Hrun]|done].
Qed.

(** A module without one. *)
Lemma performBaseRelocation_none fuel delta s :
  get IMAGE_DATA_DIRECTORY "Size" (directory_entry IMAGE_DIRECTORY_ENTRY_BASERELOC s) (memory_of s) = Some 0 →
  performBaseRelocation fuel delta s = Ret (inl (bool_decide (delta = 0)), s).
Proof.
  intros Hsize. unfold performBaseRelocation, headerDirectory.
  erewrite bind_inl; [|erewrite bind_inl; [|reflexivity]; reflexivity]. fold (directory_entry IMAGE_DIRECTORY_ENTRY_BASERELOC s).
  by erewrite bind_inl; [|exact (field_ok _ _ _ _ s Hsize)].
Qed.

Lemma load_dom n a m v x : load n a m = Some v → a <= x < a + Z.of_nat n → x ∈ dom m.
Proof.
  unfold load. intros (bs & Hb & _)%fmap_Some. revert a bs Hb. induction n as [|n IH]; intros a bs Hb Hx; [lia|].
  simpl in Hb. destruct (m !! a) eqn:E; simpl in Hb; [|done].
  destruct (load_bytes n (a + 1) m) as [bs'|] eqn:E'; simpl in Hb; [|done].
  destruct (decide (x = a)) as [->|?]; [by eapply elem_of_dom_2|]. eapply IH; [exact E'|lia].
Qed.

(** The same bytes are mapped. *)
Lemma relocated_dom ws m m' : relocated ws m m' → dom m' = dom m.
Proof.
  intros [Hw Ho]. apply set_eq. intros x.
  destruct (decide (Forall (misses x) ws)) as [Hx|Hx].
  { rewrite !elem_of_dom. by rewrite (Ho x Hx). }
  apply not_Forall_Exists in Hx; [|intros w; unfold misses; apply _]. apply Exists_exists in Hx as ([[n a] v] & Hin & Hx).
  rewrite Forall_forall in Hw. destruct (Hw _ Hin) as (z & L1 & L2). unfold misses in Hx. simpl in Hx.
  split; intros _; [eapply load_dom; [exact L1|lia]|eapply load_dom; [exact L2|lia]].
Qed.

(** C15: Base relocation does what the table says.  A module without a table counts as
    relocated only if it did not move.  With a table of blocks as a linker lays it out (the
    words it names are mapped, none is named twice, and none is in the table itself), and
    with more turns than there are blocks, the pass ends and succeeds: it adds to each named
    word exactly its share of the distance (the low or the high half, its low 32 bits, or all
    of it, modulo the size of the word), and every other byte of memory is unchanged. *)
Theorem performBaseRelocation_correct fuel delta s size va bs :
  let directory := directory_entry IMAGE_DIRECTORY_ENTRY_BASERELOC s in
  let base := codeBase (module s) in
  get IMAGE_DATA_DIRECTORY "Size" directory (memory_of s) = Some size →
  get IMAGE_DATA_DIRECTORY "VirtualAddress" directory (memory_of s) = Some va →
  (size ≠ 0 → table_ok (up (base + va)) base delta bs (memory_of s)) → (length bs < fuel)%nat →
  if bool_decide (size = 0)
  then performBaseRelocation fuel delta s = Ret (inl (bool_decide (delta = 0)), s)
  else ∃ m, performBaseRelocation fuel delta s = Ret (inl true, with_memory m s) ∧
    Forall (λ '(n, a, v), ∃ x, load n a (memory_of s) = Some x ∧
              load n a m = Some ((x + v) mod 256 ^ Z.of_nat n)) (table_writes base delta bs) ∧
    ∀ x, Forall (misses x) (table_writes base delta bs) → m !! x = memory_of s !! x.
Proof.
  intros directory base Hsize Hva Hok Hf. case_bool_decide as Hz.
  - subst size. by apply performBaseRelocation_none.
  - destruct (performBaseRelocation_runs fuel delta s size va bs) as (m & Hrun & Hr1 & Hr2); [by auto..|].
    by exists m.
Qed.

End facts.
