(* ===== verification/PeTables.v ===== *)
(** * The rest of [syscall_windows.go]

    The tables of constants as the source groups them, of which the loader uses those of
    [Pe.v]; the accessors of the unions; [SYSTEM_INFO].  The constants that repeat what a
    structure says are compared with its layout, and the types of relocations with what
    [performBaseRelocation] of [Memmod.v] knows. *)

From S2P Require Import Prelude Sys Pe Memmod MemmodFacts.

Local Open Scope Z_scope.

(** ** Constants *)

(** The formats of executables. *)
Definition signatures : list (string * Z) :=
  [("IMAGE_DOS_SIGNATURE"%string, 0x5A4D);
   ("IMAGE_OS2_SIGNATURE"%string, 0x454E);
   ("IMAGE_OS2_SIGNATURE_LE"%string, 0x454C);
   ("IMAGE_VXD_SIGNATURE"%string, 0x454C);
   ("IMAGE_NT_SIGNATURE"%string, 0x00004550)].

(** The flags of [IMAGE_FILE_HEADER.Characteristics]. *)
Definition file_characteristics : list (string * Z) :=
  [("IMAGE_FILE_RELOCS_STRIPPED"%string, 0x0001);
   ("IMAGE_FILE_EXECUTABLE_IMAGE"%string, 0x0002);
   ("IMAGE_FILE_LINE_NUMS_STRIPPED"%string, 0x0004);
   ("IMAGE_FILE_LOCAL_SYMS_STRIPPED"%string, 0x0008);
   ("IMAGE_FILE_AGGRESIVE_WS_TRIM"%string, 0x0010);
   ("IMAGE_FILE_LARGE_ADDRESS_AWARE"%string, 0x0020);
   ("IMAGE_FILE_BYTES_REVERSED_LO"%string, 0x0080);
   ("IMAGE_FILE_32BIT_MACHINE"%string, 0x0100);
   ("IMAGE_FILE_DEBUG_STRIPPED"%string, 0x0200);
   ("IMAGE_FILE_REMOVABLE_RUN_FROM_SWAP"%string, 0x0400);
   ("IMAGE_FILE_NET_RUN_FROM_SWAP"%string, 0x0800);
   ("IMAGE_FILE_SYSTEM"%string, 0x1000);
   ("IMAGE_FILE_DLL"%string, 0x2000);
   ("IMAGE_FILE_UP_SYSTEM_ONLY"%string, 0x4000);
   ("IMAGE_FILE_BYTES_REVERSED_HI"%string, 0x8000)].

(** The machines a file is for. *)
Definition file_machines : list (string * Z) :=
  [("IMAGE_FILE_MACHINE_UNKNOWN"%string, 0);
   ("IMAGE_FILE_MACHINE_TARGET_HOST"%string, 0x0001);
   ("IMAGE_FILE_MACHINE_I386"%string, 0x014c);
   ("IMAGE_FILE_MACHINE_R3000"%string, 0x0162);
   ("IMAGE_FILE_MACHINE_R4000"%string, 0x0166);
   ("IMAGE_FILE_MACHINE_R10000"%string, 0x0168);
   ("IMAGE_FILE_MACHINE_WCEMIPSV2"%string, 0x0169);
   ("IMAGE_FILE_MACHINE_ALPHA"%string, 0x0184);
   ("IMAGE_FILE_MACHINE_SH3"%string, 0x01a2);
   ("IMAGE_FILE_MACHINE_SH3DSP"%string, 0x01a3);
   ("IMAGE_FILE_MACHINE_SH3E"%string, 0x01a4);
   ("IMAGE_FILE_MACHINE_SH4"%string, 0x01a6);
   ("IMAGE_FILE_MACHINE_SH5"%string, 0x01a8);
   ("IMAGE_FILE_MACHINE_ARM"%string, 0x01c0);
   ("IMAGE_FILE_MACHINE_THUMB"%string, 0x01c2);
   ("IMAGE_FILE_MACHINE_ARMNT"%string, 0x01c4);
   ("IMAGE_FILE_MACHINE_AM33"%string, 0x01d3);
   ("IMAGE_FILE_MACHINE_POWERPC"%string, 0x01F0);
   ("IMAGE_FILE_MACHINE_POWERPCFP"%string, 0x01f1);
   ("IMAGE_FILE_MACHINE_IA64"%string, 0x0200);
   ("IMAGE_FILE_MACHINE_MIPS16"%string, 0x0266);
   ("IMAGE_FILE_MACHINE_ALPHA64"%string, 0x0284);
   ("IMAGE_FILE_MACHINE_MIPSFPU"%string, 0x0366);
   ("IMAGE_FILE_MACHINE_MIPSFPU16"%string, 0x0466);
   ("IMAGE_FILE_MACHINE_AXP64"%string, 0x0284);
   ("IMAGE_FILE_MACHINE_TRICORE"%string, 0x0520);
   ("IMAGE_FILE_MACHINE_CEF"%string, 0x0CEF);
   ("IMAGE_FILE_MACHINE_EBC"%string, 0x0EBC);
   ("IMAGE_FILE_MACHINE_AMD64"%string, 0x8664);
   ("IMAGE_FILE_MACHINE_M32R"%string, 0x9041);
   ("IMAGE_FILE_MACHINE_ARM64"%string, 0xAA64);
   ("IMAGE_FILE_MACHINE_CEE"%string, 0xC0EE)].

(** The entries of the data directory. *)
Definition directory_entries : list (string * Z) :=
  [("IMAGE_DIRECTORY_ENTRY_EXPORT"%string, 0);
   ("IMAGE_DIRECTORY_ENTRY_IMPORT"%string, 1);
   ("IMAGE_DIRECTORY_ENTRY_RESOURCE"%string, 2);
   ("IMAGE_DIRECTORY_ENTRY_EXCEPTION"%string, 3);
   ("IMAGE_DIRECTORY_ENTRY_SECURITY"%string, 4);
   ("IMAGE_DIRECTORY_ENTRY_BASERELOC"%string, 5);
   ("IMAGE_DIRECTORY_ENTRY_DEBUG"%string, 6);
   ("IMAGE_DIRECTORY_ENTRY_COPYRIGHT"%string, 7);
   ("IMAGE_DIRECTORY_ENTRY_ARCHITECTURE"%string, 7);
   ("IMAGE_DIRECTORY_ENTRY_GLOBALPTR"%string, 8);
   ("IMAGE_DIRECTORY_ENTRY_TLS"%string, 9);
   ("IMAGE_DIRECTORY_ENTRY_LOAD_CONFIG"%string, 10);
   ("IMAGE_DIRECTORY_ENTRY_BOUND_IMPORT"%string, 11);
   ("IMAGE_DIRECTORY_ENTRY_IAT"%string, 12);
   ("IMAGE_DIRECTORY_ENTRY_DELAY_IMPORT"%string, 13);
   ("IMAGE_DIRECTORY_ENTRY_COM_DESCRIPTOR"%string, 14)].

(** The flags of [IMAGE_SECTION_HEADER.Characteristics], and the one of the TLS directory. *)
Definition section_characteristics : list (string * Z) :=
  [("IMAGE_SCN_TYPE_REG"%string, 0x00000000);
   ("IMAGE_SCN_TYPE_DSECT"%string, 0x00000001);
   ("IMAGE_SCN_TYPE_NOLOAD"%string, 0x00000002);
   ("IMAGE_SCN_TYPE_GROUP"%string, 0x00000004);
   ("IMAGE_SCN_TYPE_NO_PAD"%string, 0x00000008);
   ("IMAGE_SCN_TYPE_COPY"%string, 0x00000010);
   ("IMAGE_SCN_CNT_CODE"%string, 0x00000020);
   ("IMAGE_SCN_CNT_INITIALIZED_DATA"%string, 0x00000040);
   ("IMAGE_SCN_CNT_UNINITIALIZED_DATA"%string, 0x00000080);
   ("IMAGE_SCN_LNK_OTHER"%string, 0x00000100);
   ("IMAGE_SCN_LNK_INFO"%string, 0x00000200);
   ("IMAGE_SCN_TYPE_OVER"%string, 0x00000400);
   ("IMAGE_SCN_LNK_REMOVE"%string, 0x00000800);
   ("IMAGE_SCN_LNK_COMDAT"%string, 0x00001000);
   ("IMAGE_SCN_MEM_PROTECTED"%string, 0x00004000);
   ("IMAGE_SCN_NO_DEFER_SPEC_EXC"%string, 0x00004000);
   ("IMAGE_SCN_GPREL"%string, 0x00008000);
   ("IMAGE_SCN_MEM_FARDATA"%string, 0x00008000);
   ("IMAGE_SCN_MEM_SYSHEAP"%string, 0x00010000);
   ("IMAGE_SCN_MEM_PURGEABLE"%string, 0x00020000);
   ("IMAGE_SCN_MEM_16BIT"%string, 0x00020000);
   ("IMAGE_SCN_MEM_LOCKED"%string, 0x00040000);
   ("IMAGE_SCN_MEM_PRELOAD"%string, 0x00080000);
   ("IMAGE_SCN_ALIGN_1BYTES"%string, 0x00100000);
   ("IMAGE_SCN_ALIGN_2BYTES"%string, 0x00200000);
   ("IMAGE_SCN_ALIGN_4BYTES"%string, 0x00300000);
   ("IMAGE_SCN_ALIGN_8BYTES"%string, 0x00400000);
   ("IMAGE_SCN_ALIGN_16BYTES"%string, 0x00500000);
   ("IMAGE_SCN_ALIGN_32BYTES"%string, 0x00600000);
   ("IMAGE_SCN_ALIGN_64BYTES"%string, 0x00700000);
   ("IMAGE_SCN_ALIGN_128BYTES"%string, 0x00800000);
   ("IMAGE_SCN_ALIGN_256BYTES"%string, 0x00900000);
   ("IMAGE_SCN_ALIGN_512BYTES"%string, 0x00A00000);
   ("IMAGE_SCN_ALIGN_1024BYTES"%string, 0x00B00000);
   ("IMAGE_SCN_ALIGN_2048BYTES"%string, 0x00C00000);
   ("IMAGE_SCN_ALIGN_4096BYTES"%string, 0x00D00000);
   ("IMAGE_SCN_ALIGN_8192BYTES"%string, 0x00E00000);
   ("IMAGE_SCN_ALIGN_MASK"%string, 0x00F00000);
   ("IMAGE_SCN_LNK_NRELOC_OVFL"%string, 0x01000000);
   ("IMAGE_SCN_MEM_DISCARDABLE"%string, 0x02000000);
   ("IMAGE_SCN_MEM_NOT_CACHED"%string, 0x04000000);
   ("IMAGE_SCN_MEM_NOT_PAGED"%string, 0x08000000);
   ("IMAGE_SCN_MEM_SHARED"%string, 0x10000000);
   ("IMAGE_SCN_MEM_EXECUTE"%string, 0x20000000);
   ("IMAGE_SCN_MEM_READ"%string, 0x40000000);
   ("IMAGE_SCN_MEM_WRITE"%string, 0x80000000);
   ("IMAGE_SCN_SCALE_INDEX"%string, 0x00000001)].

(** The types of a relocation entry; some mean different things on different machines. *)
Definition relocation_types : list (string * Z) :=
  [("IMAGE_REL_BASED_ABSOLUTE"%string, 0);
   ("IMAGE_REL_BASED_HIGH"%string, 1);
   ("IMAGE_REL_BASED_LOW"%string, 2);
   ("IMAGE_REL_BASED_HIGHLOW"%string, 3);
   ("IMAGE_REL_BASED_HIGHADJ"%string, 4);
   ("IMAGE_REL_BASED_MACHINE_SPECIFIC_5"%string, 5);
   ("IMAGE_REL_BASED_RESERVED"%string, 6);
   ("IMAGE_REL_BASED_MACHINE_SPECIFIC_7"%string, 7);
   ("IMAGE_REL_BASED_MACHINE_SPECIFIC_8"%string, 8);
   ("IMAGE_REL_BASED_MACHINE_SPECIFIC_9"%string, 9);
   ("IMAGE_REL_BASED_DIR64"%string, 10);
   ("IMAGE_REL_BASED_IA64_IMM64"%string, 9);
   ("IMAGE_REL_BASED_MIPS_JMPADDR"%string, 5);
   ("IMAGE_REL_BASED_MIPS_JMPADDR16"%string, 9);
   ("IMAGE_REL_BASED_ARM_MOV32"%string, 5);
   ("IMAGE_REL_BASED_THUMB_MOV32"%string, 7)].

(** Why the entry point of a DLL is called. *)
Definition dll_reasons : list (string * Z) :=
  [("DLL_PROCESS_ATTACH"%string, 1);
   ("DLL_THREAD_ATTACH"%string, 2);
   ("DLL_THREAD_DETACH"%string, 3);
   ("DLL_PROCESS_DETACH"%string, 0)].

Definition IMAGE_SIZEOF_FILE_HEADER : Z := 20.
Definition IMAGE_SIZEOF_SHORT_NAME : Z := 8.

(** ** Accessors

    The physical address of a section and its virtual size are one field, and so are the two
    meanings of the first word of an import descriptor. *)
Definition PhysicalAddress (ishdr : Z) (m : memory) : option Z :=
  get IMAGE_SECTION_HEADER "physicalAddressOrVirtualSize" ishdr m.
Definition VirtualSize (ishdr : Z) (m : memory) : option Z :=
  get IMAGE_SECTION_HEADER "physicalAddressOrVirtualSize" ishdr m.
Definition SetVirtualSize (ishdr addr : Z) (m : memory) : option memory :=
  set IMAGE_SECTION_HEADER "physicalAddressOrVirtualSize" ishdr addr m.

Definition Characteristics (imgimpdesc : Z) (m : memory) : option Z :=
  get IMAGE_IMPORT_DESCRIPTOR "characteristicsOrOriginalFirstThunk" imgimpdesc m.
Definition OriginalFirstThunk (imgimpdesc : Z) (m : memory) : option Z :=
  get IMAGE_IMPORT_DESCRIPTOR "characteristicsOrOriginalFirstThunk" imgimpdesc m.

Section tables.
Context `{Arch} {OS : Type} `{WinAPI OS}.

Definition SYSTEM_INFO : layout :=
  [u16 "ProcessorArchitecture"; u16 "Reserved"; u32 "PageSize"; uintptr "MinimumApplicationAddress";
   uintptr "MaximumApplicationAddress"; uintptr "ActiveProcessorMask"; u32 "NumberOfProcessors";
   u32 "ProcessorType"; u32 "AllocationGranularity"; u16 "ProcessorLevel"; u16 "ProcessorRevision"].

(** ** What agrees *)

(** The value of a name in a table. *)
Definition value_of (name : string) (table : list (string * Z)) : option Z :=
  (λ c, c.2.2) <$> list_find (λ c, c.1 = name) table.

(** The constants of [Pe.v] are those of the tables. *)
Lemma constants_agree :
  Forall (λ '(name, table, v), value_of name table = Some v)
    [("IMAGE_DOS_SIGNATURE", signatures, IMAGE_DOS_SIGNATURE); ("IMAGE_NT_SIGNATURE", signatures, IMAGE_NT_SIGNATURE);
     ("IMAGE_FILE_DLL", file_characteristics, IMAGE_FILE_DLL);
     ("IMAGE_FILE_MACHINE_I386", file_machines, IMAGE_FILE_MACHINE_I386);
     ("IMAGE_FILE_MACHINE_ARMNT", file_machines, IMAGE_FILE_MACHINE_ARMNT);
     ("IMAGE_FILE_MACHINE_AMD64", file_machines, IMAGE_FILE_MACHINE_AMD64);
     ("IMAGE_FILE_MACHINE_ARM64", file_machines, IMAGE_FILE_MACHINE_ARM64);
     ("IMAGE_DIRECTORY_ENTRY_EXPORT", directory_entries, IMAGE_DIRECTORY_ENTRY_EXPORT);
     ("IMAGE_DIRECTORY_ENTRY_IMPORT", directory_entries, IMAGE_DIRECTORY_ENTRY_IMPORT);
     ("IMAGE_DIRECTORY_ENTRY_BASERELOC", directory_entries, IMAGE_DIRECTORY_ENTRY_BASERELOC);
     ("IMAGE_DIRECTORY_ENTRY_TLS", directory_entries, IMAGE_DIRECTORY_ENTRY_TLS);
     ("IMAGE_SCN_CNT_INITIALIZED_DATA", section_characteristics, IMAGE_SCN_CNT_INITIALIZED_DATA);
     ("IMAGE_SCN_CNT_UNINITIALIZED_DATA", section_characteristics, IMAGE_SCN_CNT_UNINITIALIZED_DATA);
     ("IMAGE_SCN_MEM_DISCARDABLE", section_characteristics, IMAGE_SCN_MEM_DISCARDABLE);
     ("IMAGE_SCN_MEM_NOT_CACHED", section_characteristics, IMAGE_SCN_MEM_NOT_CACHED);
     ("IMAGE_SCN_MEM_EXECUTE", section_characteristics, IMAGE_SCN_MEM_EXECUTE);
     ("IMAGE_SCN_MEM_READ", section_characteristics, IMAGE_SCN_MEM_READ);
     ("IMAGE_SCN_MEM_WRITE", section_characteristics, IMAGE_SCN_MEM_WRITE);
     ("DLL_PROCESS_ATTACH", dll_reasons, DLL_PROCESS_ATTACH); ("DLL_PROCESS_DETACH", dll_reasons, DLL_PROCESS_DETACH)]%string.
Proof. repeat constructor. Qed.

Lemma sizes_agree :
  sizeof IMAGE_FILE_HEADER = IMAGE_SIZEOF_FILE_HEADER ∧
  offsetof IMAGE_SECTION_HEADER 0 "physicalAddressOrVirtualSize" = Some IMAGE_SIZEOF_SHORT_NAME ∧
  sizeof SYSTEM_INFO = if w64 then 48 else 36.
Proof. unfold SYSTEM_INFO, uintptr, wordsize. by destruct w64; vm_compute. Qed.

(** The alignment of 2^k bytes has the number k + 1 in the bits of the mask. *)
Lemma alignments_agree :
  Forall (λ k : nat, value_of ("IMAGE_SCN_ALIGN_" +:+ pretty (2 ^ Z.of_nat k) +:+ "BYTES")
      section_characteristics = Some (Z.shiftl (Z.of_nat k + 1) 20)) (seq 0 14) ∧
  value_of "IMAGE_SCN_ALIGN_MASK" section_characteristics = Some (Z.shiftl 0xf 20).
Proof. split; [repeat constructor|done]. Qed.

(** The union's two names are one field. *)
Lemma SetVirtualSize_sets a v m m' :
  SetVirtualSize a v m = Some m' → VirtualSize a m' = Some (v mod 2 ^ 32) ∧ PhysicalAddress a m' = VirtualSize a m'.
Proof.
  intros Hs. change (store 4 (a + 8) v m = Some m') in Hs. split; [|done].
  change (load 4 (a + 8) m' = Some (v mod 2 ^ 32)). by apply load_store in Hs as (-> & _).
Qed.

(** The types of relocations that the loader knows: the others of the table stop it. *)
Lemma relocation_types_known :
  Forall (λ '(name, t), (t ∈ [0; 1; 2; 3; 7; 10]) ∨
    ∀ dest delta offset (s : state OS), 0 <= offset < 4096 →
      relocate_one dest delta (t * 4096 + offset) s = Ret (inr (New "Unsupported relocation"), s)) relocation_types.
Proof.
  assert (∀ t dest delta offset (s : state OS), t ∉ [0; 1; 2; 3; 7; 10] → 0 <= offset < 4096 →
    relocate_one dest delta (t * 4096 + offset) s = Ret (inr (New "Unsupported relocation"), s)) as Hu.
  { intros t dest delta offset s Ht Ho. unfold relocate_one. rewrite Z.shiftr_div_pow2 by lia. change (2 ^ 12) with 4096.
    rewrite Z.div_add_l, Z.div_small, Z.add_0_r by lia.
    rewrite !not_elem_of_cons in Ht. destruct Ht as (? & ? & ? & ? & ? & ? & _).
    by rewrite !bool_decide_eq_false_2. }
  unfold relocation_types. repeat apply Forall_cons_2; [..|apply Forall_nil_2].
  all: first [left; apply (bool_decide_unpack _); exact I|right; intros; apply Hu; [apply (bool_decide_unpack _); exact I|done]].
Qed.

End tables.
