(* ===== verification/MemmodSections.v ===== *)
(** * The protection of the sections

    [finalizeSections] of [Memmod.v]: neighbouring sections that share a page are joined
    into runs, and each run is protected or decommitted as one. *)

From S2P Require Import Prelude Sys Pe Memmod MemmodFacts.

Local Open Scope Z_scope.

(** ** Flags *)

Definition has (c flag : Z) : bool := bool_decide (Z.land c flag ≠ 0).

(** What a page protection permits. *)
Definition executable (p : Z) : bool :=
  has p (Z.lor (Z.lor PAGE_EXECUTE PAGE_EXECUTE_READ) (Z.lor PAGE_EXECUTE_READWRITE PAGE_EXECUTE_WRITECOPY)).
Definition readable (p : Z) : bool :=
  has p (Z.lor (Z.lor PAGE_READONLY PAGE_READWRITE) (Z.lor PAGE_EXECUTE_READ PAGE_EXECUTE_READWRITE)).
Definition writable (p : Z) : bool :=
  has p (Z.lor (Z.lor PAGE_WRITECOPY PAGE_READWRITE) (Z.lor PAGE_EXECUTE_WRITECOPY PAGE_EXECUTE_READWRITE)).

(** The protection [p] permits what the characteristics [c] ask for. *)
Definition permits (p c : Z) : Prop :=
  (has c IMAGE_SCN_MEM_EXECUTE = true → executable p = true) ∧
  (has c IMAGE_SCN_MEM_READ = true → readable p = true) ∧
  (has c IMAGE_SCN_MEM_WRITE = true → writable p = true).

Lemma has_bit c k : 0 <= k → has c (2 ^ k) = Z.testbit c k.
Proof.
  intros Hk. unfold has. destruct (Z.testbit c k) eqn:E.
  - apply bool_decide_eq_true_2. intros H0. pose proof (f_equal (λ z, Z.testbit z k) H0) as Hb. simpl in Hb.
    by rewrite Z.land_spec, E, Z.pow2_bits_true, Z.bits_0 in Hb by done.
  - apply bool_decide_eq_false_2. intros Hn. apply Hn. apply Z.bits_inj'. intros i Hi.
    rewrite Z.land_spec, Z.bits_0. destruct (decide (i = k)) as [->|]; [by rewrite E|].
    rewrite Z.pow2_bits_false by lia. by rewrite andb_false_r.
Qed.

Lemma has_execute c : has c IMAGE_SCN_MEM_EXECUTE = Z.testbit c 29.
Proof. by apply (has_bit c 29). Qed.
Lemma has_read c : has c IMAGE_SCN_MEM_READ = Z.testbit c 30.
Proof. by apply (has_bit c 30). Qed.
Lemma has_write c : has c IMAGE_SCN_MEM_WRITE = Z.testbit c 31.
Proof. by apply (has_bit c 31). Qed.
Lemma has_discardable c : has c IMAGE_SCN_MEM_DISCARDABLE = Z.testbit c 25.
Proof. by apply (has_bit c 25). Qed.

(** The table of protections is indexed by the three access flags. *)
Lemma protection_permits c : in_uint 32 c → ∃ p, protection c = Some p ∧ permits p c.
Proof.
  intros Hc. unfold permits. rewrite has_execute, has_read, has_write.
  assert (∃ i, (i < 8)%nat ∧ Z.shiftr c 29 = Z.of_nat i) as (i & Hi & Hs).
  { exists (Z.to_nat (Z.shiftr c 29)). rewrite Z.shiftr_div_pow2 by lia. unfold in_uint in Hc.
    assert (0 <= c / 2 ^ 29) by (apply Z.div_pos; lia).
    assert (c / 2 ^ 29 < 8) by (apply Z.div_lt_upper_bound; lia). lia. }
  assert (∀ k, 0 <= k → Z.testbit c (29 + k) = Z.testbit (Z.of_nat i) k) as Hb.
  { intros k Hk. rewrite <- Hs, Z.shiftr_spec by done. f_equal. lia. }
  change 29 with (29 + 0) at 1. change 30 with (29 + 1). change 31 with (29 + 2).
  rewrite !Hb by lia. unfold protection. rewrite Hs, Nat2Z.id. clear Hs Hb.
  do 8 (destruct i as [|i]; [eexists; split; [reflexivity|]; case_bool_decide; by vm_compute|]). lia.
Qed.

(** ** Runs of sections *)

Abbreviation fdata := sectionFinalizeData.

Section runs.
Context `{Arch}.

Definition fd_end (d : fdata) : Z := fd_address d + fd_size d.

(** The runs that the loop makes of the section [sd] and those that follow it. *)
Fixpoint runs (sd : fdata) (ds : list fdata) : list fdata :=
  match ds with
  | [] => [set_last sd]
  | d :: ds => if shares_page sd d then runs (extend sd d) ds else sd :: runs d ds
  end.

(** Sections in the order of their addresses, inside the address space and without overlap;
    [lo] is where the first may start. *)
Fixpoint laid_out (lo : Z) (ds : list fdata) : Prop :=
  match ds with
  | [] => True
  | d :: ds =>
      lo <= fd_address d ∧ 0 <= fd_size d ∧ fd_end d < 2 ^ wordsize ∧ in_uint 32 (fd_characteristics d) ∧
      laid_out (fd_end d) ds
  end.

(** The section [d] is in the run [r], which keeps all that [d] needs. *)
Definition includes (r d : fdata) : Prop :=
  fd_address r <= fd_address d ∧ fd_end d <= fd_end r ∧
  (∀ k, k = 29 ∨ k = 30 ∨ k = 31 → Z.testbit (fd_characteristics d) k = true →
        Z.testbit (fd_characteristics r) k = true) ∧
  (Z.testbit (fd_characteristics d) 25 = false → Z.testbit (fd_characteristics r) 25 = false).

Lemma includes_refl d : includes d d.
Proof. by repeat split. Qed.

Lemma includes_trans a b c : includes a b → includes b c → includes a c.
Proof.
  unfold includes. intros (? & ? & F1 & G1) (? & ? & F2 & G2). split_and!; [lia|lia| |naive_solver].
  intros k Hk Hc. apply F1, F2; done.
Qed.

Lemma not_discardable c : bool_decide (Z.land c IMAGE_SCN_MEM_DISCARDABLE = 0) = negb (Z.testbit c 25).
Proof.
  rewrite <- has_discardable. unfold has. rewrite bool_decide_not. by rewrite negb_involutive.
Qed.

Lemma combine_bits c1 c2 k : 0 <= k →
  Z.testbit (combine c1 c2) k =
  if bool_decide (k = 25) then Z.testbit c1 25 && Z.testbit c2 25 else Z.testbit c1 k || Z.testbit c2 k.
Proof.
  intros Hk. unfold combine. rewrite !not_discardable. destruct (decide (k = 25)) as [->|Hne].
  - rewrite bool_decide_eq_true_2 by done.
    destruct (Z.testbit c1 25) eqn:E1, (Z.testbit c2 25) eqn:E2; cbn [negb orb andb];
      rewrite ?Z.ldiff_spec, Z.lor_spec, E1, E2; done.
  - rewrite (bool_decide_eq_false_2 (k = 25)) by done.
    destruct (_ || _); [|apply Z.lor_spec]. rewrite Z.ldiff_spec, Z.lor_spec.
    change IMAGE_SCN_MEM_DISCARDABLE with (2 ^ 25). rewrite Z.pow2_bits_false by lia. apply andb_true_r.
Qed.

Lemma in_uint_bits w c : 0 <= w → 0 <= c → (∀ k, w <= k → Z.testbit c k = false) → in_uint w c.
Proof.
  intros Hw Hc Hb. split; [done|]. assert (c = c mod 2 ^ w) as ->; [|by apply Z.mod_pos_bound; lia].
  rewrite <- Z.land_ones by done. apply Z.bits_inj'. intros k Hk. rewrite Z.land_spec.
  destruct (decide (k < w)); [by rewrite Z.ones_spec_low, andb_true_r by lia|].
  by rewrite Hb by lia.
Qed.

Lemma in_uint_high w c k : 0 <= w <= k → in_uint w c → Z.testbit c k = false.
Proof. intros Hk Hc. rewrite <- (Z.mod_small c (2 ^ w)) by done. apply Z.mod_pow2_bits_high. lia. Qed.

Lemma combine_in c1 c2 : in_uint 32 c1 → in_uint 32 c2 → in_uint 32 (combine c1 c2).
Proof.
  intros H1 H2. apply in_uint_bits; [done| |].
  - unfold combine. destruct H1, H2. assert (0 <= Z.lor c1 c2) by (by apply Z.lor_nonneg).
    destruct (_ || _); [apply Z.ldiff_nonneg; by left|done].
  - intros k Hk. rewrite combine_bits by lia. rewrite bool_decide_eq_false_2 by lia.
    by rewrite !(in_uint_high 32) by (done || lia).
Qed.

Lemma extend_end sd d :
  0 <= fd_address sd → fd_end sd <= fd_address d → 0 <= fd_size sd → 0 <= fd_size d →
  fd_end d < 2 ^ wordsize → fd_end (extend sd d) = fd_end d.
Proof.
  unfold fd_end. intros. unfold extend; simpl. rewrite up_small by (unfold in_uint; lia). lia.
Qed.

Lemma extend_includes sd d :
  0 <= fd_address sd → fd_end sd <= fd_address d → 0 <= fd_size sd → 0 <= fd_size d →
  fd_end d < 2 ^ wordsize → includes (extend sd d) sd ∧ includes (extend sd d) d.
Proof.
  intros. pose proof (extend_end sd d ltac:(done) ltac:(done) ltac:(done) ltac:(done) ltac:(done)) as He.
  unfold includes. rewrite He. clear He. unfold fd_end in *. cbn [extend fd_address fd_size fd_characteristics].
  split; (split_and!; [lia|lia| |]).
  - intros k Hk Ht. rewrite combine_bits, Ht by lia. by rewrite bool_decide_eq_false_2 by lia.
  - intros Ht. by rewrite combine_bits, bool_decide_eq_true_2, Ht by lia.
  - intros k Hk Ht. rewrite combine_bits, Ht, orb_true_r by lia. by rewrite bool_decide_eq_false_2 by lia.
  - intros Ht. by rewrite combine_bits, bool_decide_eq_true_2, Ht, andb_false_r by lia.
Qed.

(** Every section is in a run that keeps what it needs. *)
Lemma runs_include sd ds :
  0 <= fd_address sd → laid_out (fd_address sd) (sd :: ds) →
  Forall (λ d, ∃ r, r ∈ runs sd ds ∧ includes r d ∧ in_uint 32 (fd_characteristics r)) (sd :: ds).
Proof.
  revert sd. induction ds as [|d ds IH]; intros sd H0; cbn [runs laid_out]; intros (_ & Hsz & He & Hc & Hd).
  - apply Forall_singleton. exists (set_last sd). split; [by apply list_elem_of_singleton|].
    split; [exact (includes_refl sd)|done].
  - destruct Hd as (Hlo & Hsz' & He' & Hc' & Hd). assert (fd_address sd <= fd_end sd) by (unfold fd_end; lia).
    case_match.
    + destruct (extend_includes sd d) as [I1 I2]; try done.
      pose proof (extend_end sd d ltac:(done) ltac:(done) ltac:(done) ltac:(done) ltac:(done)) as Hee.
      assert (laid_out (fd_address (extend sd d)) (extend sd d :: ds)) as Hl.
      { cbn [laid_out]. rewrite Hee. split_and!; [lia| |done| |done].
        - unfold fd_end, extend in *. simpl in *. lia.
        - by apply combine_in. }
      apply IH in Hl; [|done]. apply Forall_cons in Hl as [(r & Hr & Hi & Hrc) Hl].
      apply Forall_cons. split; [exists r; split_and!; [done|by eapply includes_trans|done]|].
      apply Forall_cons. split; [exists r; split_and!; [done|by eapply includes_trans|done]|done].
    + apply Forall_cons. split.
      { exists sd. split; [by apply list_elem_of_here|]. split; [apply includes_refl|done]. }
      assert (laid_out (fd_address d) (d :: ds)) as Hl by (cbn [laid_out]; split_and!; done).
      apply IH in Hl; [|lia]. eapply Forall_impl; [exact Hl|]. intros x (r & Hr & Hx).
      exists r. split; [by apply list_elem_of_further|done].
Qed.

(** The run that begins with [sd]. *)
Lemma runs_head sd ds : ∃ r rs, runs sd ds = r :: rs ∧ fd_alignedAddress r = fd_alignedAddress sd.
Proof.
  revert sd. induction ds as [|d ds IH]; intros sd; cbn [runs]; [by eexists _, _|].
  case_match; [|by eexists _, _]. destruct (IH (extend sd d)) as (r & rs & -> & Hr). by exists r, rs.
Qed.

(** A run ends before the page on which the next one begins. *)
Lemma runs_sorted sd ds :
  0 <= fd_address sd → laid_out (fd_address sd) (sd :: ds) →
  Sorted (λ r1 r2, fd_end r1 <= fd_alignedAddress r2) (runs sd ds).
Proof.
  revert sd. induction ds as [|d ds IH]; intros sd H0; cbn [runs laid_out].
  { repeat constructor. }
  intros (_ & Hsz & He & Hc & Hlo & Hsz' & He' & Hc' & Hd).
  assert (fd_address sd <= fd_end sd) by (unfold fd_end; lia).
  destruct (shares_page sd d) eqn:Es.
  - apply IH; [done|]. cbn [laid_out].
    pose proof (extend_end sd d ltac:(done) ltac:(done) ltac:(done) ltac:(done) ltac:(done)) as Hee.
    rewrite Hee. split_and!; [done| |done| |done].
    + unfold fd_end, extend in *. simpl in *. lia.
    + by apply combine_in.
  - constructor; [apply IH; [lia|]; cbn [laid_out]; split_and!; done|].
    destruct (runs_head d ds) as (r & rs & -> & Hr). constructor. rewrite Hr.
    apply orb_false_iff in Es as [_ Es]. apply bool_decide_eq_false_1 in Es.
    fold (fd_end sd) in Es. rewrite up_small in Es by (unfold in_uint; lia). lia.
Qed.

End runs.

(** ** Reading the headers *)

Section finalize.
Context `{Arch} {OS : Type} `{WinAPI OS}.

Abbreviation M := (M OS).
Abbreviation state := (state OS).

(** An operation that only reads: it gives the same in every memory that extends the one it
    succeeded in. *)
Definition reader {A} (m : M A) : Prop := ∀ (s s1 : state) r,
  m s = Ret (inl r, s1) →
  s1 = s ∧ ∀ s', module s' = module s → memory_of s ⊆ memory_of s' → m s' = Ret (inl r, s').

Lemma reader_bind {A B} (m : M A) (f : A → M B) : reader m → (∀ a, reader (f a)) → reader (m ≫= f).
Proof.
  intros Hm Hf s s1 r [(a & s2 & E1 & E2)|(e & _ & [=])]%bind_Ret.
  apply Hm in E1 as [-> E1]. apply Hf in E2 as [-> E2]. split; [done|]. intros s' Hmod Hsub.
  erewrite bind_inl; [|by apply E1]. by apply E2.
Qed.

Lemma reader_ret {A} (a : A) : reader (mret a).
Proof. intros s s1 r [= <- <-]. done. Qed.

Lemma reader_self {A} (f : Module_ → A) : reader (self f).
Proof. intros s s1 r [= <- <-]. split; [done|]. unfold self. by intros s' -> _. Qed.

Lemma load_bytes_weaken n a (m m' : memory) b : m ⊆ m' → load_bytes n a m = Some b → load_bytes n a m' = Some b.
Proof.
  intros Hm. revert a b. induction n as [|n IH]; intros a b; simpl; [done|].
  destruct (m !! a) as [x|] eqn:E; simpl; [|done]. rewrite (lookup_weaken _ _ _ _ E Hm). simpl.
  destruct (load_bytes n (a + 1) m) as [y|] eqn:E'; simpl; [|done]. by rewrite (IH _ _ E').
Qed.

Lemma reader_field l f a : reader (field_ l f a).
Proof.
  intros s s1 r. unfold field_, mem_op. fold (memory_of s).
  destruct (get l f a (memory_of s)) as [v|] eqn:E; simpl; [|done]. intros [= -> <-].
  split; [by destruct s as [[? ?] ?]|]. intros s' _ Hsub.
  assert (get l f a (memory_of s') = Some r) as E'; [|by apply field_ok].
  revert E. unfold get. destruct (offsetof l 0 f) as [o|]; simpl; [|done].
  unfold load. intros (b & Hb & ->)%fmap_Some. by rewrite (load_bytes_weaken _ _ _ _ _ Hsub Hb).
Qed.

Ltac reader :=
  repeat match goal with
  | |- reader (_ ≫= _) => apply reader_bind; [|intros ?]
  | |- reader (mret _) => apply reader_ret
  | |- reader (self _) => apply reader_self
  | |- reader (field_ _ _ _) => apply reader_field
  | |- reader (if ?b then _ else _) => destruct b
  end.

Lemma reader_sectionData o s : reader (sectionData o s).
Proof. unfold sectionData, realSectionSize, section, OptionalHeader. reader. Qed.

Lemma reader_Sections h : reader (Sections h).
Proof. unfold Sections, FileHeader. reader. Qed.

Lemma reader_imageOffset h : reader (imageOffset h).
Proof. unfold imageOffset, OptionalHeader. reader. Qed.

Lemma reader_number h : reader (FileHeader "NumberOfSections" h).
Proof. apply reader_field. Qed.

(** [m] reads [a] in the memory [hm] of the headers. *)
Definition reads {A} (hm : memory) (s : state) (m : M A) (a : A) : Prop :=
  m (with_memory hm s) = Ret (inl a, with_memory hm s).

Lemma reads_in {A} hm (s s' : state) (m : M A) a :
  reader m → reads hm s m a → module s' = module s → hm ⊆ memory_of s' → m s' = Ret (inl a, s').
Proof. intros Hm Hr Hmod Hsub. by apply (Hm _ _ _ Hr). Qed.

(** ** What Windows does to the memory of other pages

    Protecting pages does not change what they hold, and decommitting unmaps the pages that
    have a byte in the range. *)
Definition page (x : Z) : Z := x / 4096.

Class Pages := {
  protect_mem a n p m : mem (VirtualProtect (OS := OS) a n p m).2 = mem m;
  decommit_mem a n m x : page x < page a ∨ page (a + n - 1) < page x →
    mem (VirtualFree (OS := OS) a n MEM_DECOMMIT m) !! x = mem m !! x;
}.
Context `{!Pages}.

(** The section lies above the pages of the headers. *)
Definition above (hm : memory) (d : fdata) : Prop := ∀ x, x ∈ dom hm → page x < page (fd_address d).

(** Discarding the run [r] leaves the memory [hm] alone. *)
Definition spares (hm : memory) (r : fdata) : Prop :=
  Z.land (fd_characteristics r) IMAGE_SCN_MEM_DISCARDABLE ≠ 0 →
  ∀ x, x ∈ dom hm → page x < page (fd_address r) ∨ page (fd_address r + fd_size r - 1) < page x.

Lemma above_runs_spared hm sd ds : Forall (above hm) (sd :: ds) → Forall (spares hm) (runs sd ds).
Proof.
  revert sd. induction ds as [|d ds IH]; intros sd Hab; cbn [runs].
  - apply Forall_cons in Hab as [Ha _]. apply Forall_singleton. intros _ x Hx. left. by apply Ha.
  - apply Forall_cons in Hab as [Ha Hab]. case_match.
    + apply IH. apply Forall_cons in Hab as [_ Hab]. by apply Forall_cons.
    + apply Forall_cons. split; [|by apply IH]. intros _ x Hx. left. by apply Ha.
Qed.

Lemma finalizeSection_headers hm sd (s s1 : state) r :
  hm ⊆ memory_of s → spares hm sd → finalizeSection sd s = Ret (r, s1) →
  module s1 = module s ∧ hm ⊆ memory_of s1.
Proof.
  intros Hsub Hab. unfold finalizeSection.
  case_bool_decide; [by intros [= _ <-]|]. case_bool_decide.
  - case_bool_decide; [|by intros [= _ <-]]. intros [(w & s2 & E1 & E2)|(e & E1 & _)]%bind_Ret.
    + assert (s2 = s) as ->.
      { destruct (fd_last sd); [by injection E1|].
        refine (proj1 (reader_bind _ _ (reader_self headers) _ s s2 w E1)). intros h.
        intros t t1 r1 [(al & t2 & F1 & F2)|(e & _ & [=])]%bind_Ret.
        apply reader_field in F1 as [-> F1]. case_bool_decide; [done|]. injection F2 as <- <-.
        split; [done|]. intros t' Hm' Hs'. erewrite bind_inl; [|by apply F1].
        by rewrite bool_decide_eq_false_2. }
      destruct w; [|by injection E2 as _ <-]. injection E2 as _ <-. split; [done|].
      apply map_subseteq_spec. intros x b Hx. unfold memory_of. cbn [mach].
      rewrite decommit_mem; [by eapply lookup_weaken|]. apply Hab; [done|]. by eapply elem_of_dom_2.
    + destruct (fd_last sd); [done|].
      apply bind_Ret in E1 as [(h & s2 & [= <- <-] & E1)|(e' & [=] & _)].
      apply bind_Ret in E1 as [(al & s2 & E1 & E2)|(e' & E1 & _)].
      * case_bool_decide; done.
      * unfold OptionalHeader, field_, mem_op in E1. by destruct (get _ _ _ _).
  - destruct (protection _); [|done]. unfold call.
    intros [(w & s2 & E1 & E2)|(e & E1 & _)]%bind_Ret.
    + pose proof (protect_mem (fd_address sd) (fd_size sd) z (mach s)) as Hp.
      destruct (VirtualProtect _ _ _ _) as [err m] eqn:Ev. injection E1 as <- <-.
      assert (s1 = State m (module s)) as -> by (destruct err; by injection E2).
      split; [done|]. unfold memory_of. cbn [mach]. simpl in Hp. by rewrite Hp.
    + by destruct (VirtualProtect _ _ _ _).
Qed.

(** The error that the loop wraps. *)
Definition finalize (r : fdata) : M () := wrap "Error finalizing section" (finalizeSection r).

Lemma finalize_headers hm sd (s s1 : state) r :
  hm ⊆ memory_of s → spares hm sd → finalize sd s = Ret (r, s1) → module s1 = module s ∧ hm ⊆ memory_of s1.
Proof.
  intros Hsub Hab. unfold finalize, wrap. destruct (finalizeSection sd s) as [[[a|e] s2]| |] eqn:E; try done;
    intros [= <- <-]; by eapply finalizeSection_headers.
Qed.

Lemma for_each_last {A} (x : A) (f : A → M ()) (s : state) : for_each [x] f s = f x s.
Proof. simpl. unfold mbind, M_bind. by destruct (f x s) as [[[[]|e] s1]| |]. Qed.

Lemma bind_cases {A B} (m : M A) (f g : A → M B) (s : state) :
  (∀ a s1, m s = Ret (inl a, s1) → f a s1 = g a s1) → (m ≫= f) s = (m ≫= g) s.
Proof. unfold mbind, M_bind. destruct (m s) as [[[a|e] s1]| |]; auto. Qed.

Lemma finalize_loop_runs hm s0 offset secs ds i sd (s : state) :
  Forall2 (λ a, reads hm s0 (sectionData offset a)) secs ds →
  reads hm s0 (FileHeader "NumberOfSections" (headers (module s0))) (i + Z.of_nat (length secs)) →
  Forall (spares hm) (runs sd ds) → module s = module s0 → hm ⊆ memory_of s →
  finalize_loop offset secs i sd s = for_each (runs sd ds) finalize s.
Proof.
  intros Hds. revert i sd s. induction Hds as [|a d secs ds Hd Hds IH]; intros i sd s Hn Hab Hmod Hsub;
    cbn [finalize_loop runs]; (erewrite bind_inl; [|reflexivity]); rewrite Hmod;
    (erewrite bind_inl; [|eapply (reads_in hm s0); [apply reader_number|exact Hn|done|done]]).
  - rewrite bool_decide_eq_false_2 by (simpl; lia). by rewrite for_each_last.
  - rewrite bool_decide_eq_true_2 by (cbn [length]; lia).
    erewrite bind_inl; [|eapply (reads_in hm s0); [apply reader_sectionData|exact Hd|done|done]].
    assert (reads hm s0 (FileHeader "NumberOfSections" (headers (module s0))) (i + 1 + Z.of_nat (length secs))) as Hn'.
    { replace (i + 1 + Z.of_nat (length secs)) with (i + Z.of_nat (length (a :: secs))) by (cbn [length]; lia).
      exact Hn. }
    cbn [runs] in Hab. case_match; [by apply IH|]. apply Forall_cons in Hab as [Ha Hab].
    cbn [for_each]. apply bind_cases. intros u s1 Hf.
    eapply (finalize_headers hm) in Hf as [Hm1 Hs1]; [|done|done]. apply IH; [done|done|congruence|done].
Qed.

(** The slice of section headers is as long as the header says. *)
Lemma reads_number hm s0 h secs :
  reads hm s0 (Sections h) secs → reads hm s0 (FileHeader "NumberOfSections" h) (Z.of_nat (length secs)).
Proof.
  unfold reads, Sections. intros [(opt & s1 & E1 & E2)|(e & _ & [=])]%bind_Ret.
  pose proof E1 as E1'. apply reader_field in E1' as [-> _].
  apply bind_Ret in E2 as [(n & s2 & E2 & E3)|(e & _ & [=])].
  pose proof E2 as E2'. apply reader_field in E2' as [-> _]. injection E3 as <-.
  rewrite length_map, length_seq. rewrite Z2Nat.id; [done|].
  revert E2. unfold FileHeader, field_, mem_op. destruct (get _ _ _ _) as [v|] eqn:E; [|done]. intros [= ->].
  unfold get in E. destruct (offsetof _ _ _); [|done]. apply load_range in E. lia.
Qed.

(** [finalizeSections] is a loop over the runs. *)
Lemma finalizeSections_runs hm (s : state) secs offset d ds :
  hm ⊆ memory_of s →
  reads hm s (Sections (headers (module s))) secs →
  reads hm s (imageOffset (headers (module s))) offset →
  Forall2 (λ a d, reads hm s (sectionData offset a) d) secs (d :: ds) →
  Forall (spares hm) (runs d ds) →
  finalizeSections s = for_each (runs d ds) finalize s.
Proof.
  intros Hsub Hsecs Hoff Hds Hab.
  pose proof (reads_number _ _ _ _ Hsecs) as Hn. inversion Hds as [|a d' secs' ds' Hd Hds']; subst.
  unfold finalizeSections. erewrite bind_inl; [|reflexivity].
  erewrite bind_inl; [|eapply (reads_in hm s); [apply reader_Sections|exact Hsecs|done|done]].
  erewrite bind_inl; [|eapply (reads_in hm s); [apply reader_imageOffset|exact Hoff|done|done]].
  erewrite bind_inl; [|eapply (reads_in hm s); [apply reader_sectionData|exact Hd|done|done]].
  apply (finalize_loop_runs hm s); [done| |done|done|done].
  cbn [length] in Hn. by replace (1 + Z.of_nat (length secs')) with (Z.of_nat (S (length secs'))) by lia.
Qed.

(** C17: The pages of a library end up with the rights their sections ask for.  Let [ds] be
    the sections as the headers (the memory [hm], on pages below them) describe them, in
    order and without overlap.  Then [finalizeSections] makes runs of them and finalizes
    one run after the other, up to the first that fails; a run ends before the page on which
    the next begins; each section lies inside a run whose protection permits what the
    section's flags ask for (execute, read, write), and the run of a section that may not
    be discarded is not discarded but given that protection. *)
Theorem finalizeSections_protects hm (s : state) secs offset d ds :
  hm ⊆ memory_of s →
  reads hm s (Sections (headers (module s))) secs →
  reads hm s (imageOffset (headers (module s))) offset →
  Forall2 (λ a d, reads hm s (sectionData offset a) d) secs (d :: ds) →
  Forall (above hm) (d :: ds) → laid_out 0 (d :: ds) →
  ∃ rs, finalizeSections s = for_each rs (λ r, wrap "Error finalizing section" (finalizeSection r)) s ∧
    Sorted (λ r1 r2, fd_end r1 <= fd_alignedAddress r2) rs ∧
    Forall (λ d, ∃ r p, r ∈ rs ∧ fd_address r <= fd_address d ∧ fd_end d <= fd_end r ∧
      protection (fd_characteristics r) = Some p ∧ permits p (fd_characteristics d) ∧
      (has (fd_characteristics d) IMAGE_SCN_MEM_DISCARDABLE = false → fd_size r ≠ 0 →
       ∀ s', finalizeSection r s' =
         (err ← call (VirtualProtect (fd_address r) (fd_size r) p);
          match err with
          | Some z => throw (Wrap "Error protecting memory page" (Errno z))
          | None => mret ()
          end) s')) (d :: ds).
Proof.
  intros Hsub Hsecs Hoff Hds Hab Hl. exists (runs d ds).
  assert (0 <= fd_address d) as Hpos by apply Hl.
  assert (laid_out (fd_address d) (d :: ds)) as Hl' by (cbn [laid_out] in *; destruct Hl as [_ Hl]; by split).
  split_and!.
  - eapply finalizeSections_runs; [done..|]. by apply above_runs_spared.
  - by apply runs_sorted.
  - eapply Forall_impl; [by apply runs_include|]. intros x (r & Hr & (I1 & I2 & I3 & I4) & Hc).
    destruct (protection_permits _ Hc) as (p & Hp & P1 & P2 & P3). exists r, p. split_and!; try done.
    + unfold permits in *. rewrite has_execute, has_read, has_write in *. auto 10.
    + rewrite has_discardable. intros Hd Hsz s'. apply I4 in Hd. rewrite <- has_discardable in Hd.
      unfold has in Hd. unfold finalizeSection. by rewrite (bool_decide_eq_false_2 (fd_size r = 0)), Hd, Hp.
Qed.

End finalize.
