(* ===== verification/MemmodLedger.v ===== *)
(** * What the DLL loader reserves, releases and hands out

    The memory that [LoadLibrary] and [Free] reserve and release, the 4 GB boundary, the
    header check and the export table of [Memmod.v]. *)

From S2P Require Import Prelude Sys Pe Memmod MemmodFacts.

Local Open Scope Z_scope.

(** ** The ledger of reserved regions

    What the documentation of the Windows API says about reservations: only
    [VirtualAlloc] with [MEM_RESERVE] makes one, at the address it returns (0 with an
    error), and only [VirtualFree] with [MEM_RELEASE] ends one. *)
Class Ledger (OS : Type) `{WinAPI OS} := {
  reserved : machine OS → list Z;
  reserved_mem m1 m2 o : reserved (Machine m1 o) = reserved (Machine m2 o);
  alloc_reserve a n p m r e m' :
    VirtualAlloc a n (Z.lor MEM_RESERVE MEM_COMMIT) p m = (r, e, m') →
    match e with
    | None => r ≠ 0 ∧ reserved m' ≡ₚ r :: reserved m
    | Some _ => r = 0 ∧ reserved m' ≡ₚ reserved m
    end;
  alloc_commit a n p m : reserved (VirtualAlloc a n MEM_COMMIT p m).2 ≡ₚ reserved m;
  free_release a m : a ∈ reserved m → reserved m ≡ₚ a :: reserved (VirtualFree a 0 MEM_RELEASE m);
  free_decommit a n m : reserved (VirtualFree a n MEM_DECOMMIT m) ≡ₚ reserved m;
  reserved_protect a n p m : reserved (VirtualProtect a n p m).2 ≡ₚ reserved m;
  reserved_load s m : reserved (LoadLibraryEx s m).2 ≡ₚ reserved m;
  reserved_free_library h m : reserved (FreeLibrary h m) ≡ₚ reserved m;
  reserved_get_proc h s m : reserved (GetProcAddress h s m).2 ≡ₚ reserved m;
  reserved_get_ordinal h z m : reserved (GetProcAddressByOrdinal h z m).2 ≡ₚ reserved m;
  reserved_bad_read a n m : reserved (isBadReadPtr a n m).2 ≡ₚ reserved m;
}.

(** An assumption on the library that is loaded, not on Windows: its code, when the loader
    calls it, neither releases what the loader reserved nor adds to it.  What it reserves for
    itself is not in the ledger. *)
Class QuietLibrary (OS : Type) `{Ledger OS} :=
  reserved_syscall f a b c m : reserved (Syscall f a b c m).2 ≡ₚ reserved m.

Section ledger.
Context `{Arch} {OS : Type} `{Ledger OS} `{!QuietLibrary OS}.

Abbreviation M := (M OS).
Abbreviation state := (state OS).

(** The regions the module will release. *)
Definition owned (m : Module_) : list Z :=
  (if bool_decide (codeBase m = 0) then [] else [codeBase m]) ++ blockedMemory m.

(** Everything reserved is the module's, or was there before ([R]). *)
Definition balanced (R : list Z) (s : state) : Prop := reserved (mach s) ≡ₚ owned (module s) ++ R.

(** [m] keeps [I], whether it returns or fails. *)
Definition keeps {A} (I : state → Prop) (m : M A) : Prop :=
  ∀ s r s', I s → m s = Ret (r, s') → I s'.

Lemma keeps_bind {A B} I (m : M A) (f : A → M B) :
  keeps I m → (∀ a, keeps I (f a)) → keeps I (m ≫= f).
Proof.
  intros Hm Hf s r s' Hs [(a & s1 & E1 & E2)|(e & E1 & ->)]%bind_Ret.
  - eapply Hf; [|exact E2]. by eapply Hm.
  - by eapply Hm.
Qed.

Lemma keeps_ret {A} I (a : A) : keeps I (mret a : M A).
Proof. by intros s r s' Hs [= <- <-]. Qed.

Lemma keeps_throw {A} I e : keeps I (throw e : M A).
Proof. by intros s r s' Hs [= <- <-]. Qed.

Lemma keeps_panic {A} I msg : keeps I (panic msg : M A).
Proof. by intros s r s' Hs. Qed.

Lemma keeps_fuel {A} I : keeps I (out_of_fuel : M A).
Proof. by intros s r s' Hs. Qed.

Lemma keeps_self {A} I (f : Module_ → A) : keeps I (self f : M A).
Proof. by intros s r s' Hs [= <- <-]. Qed.

Lemma keeps_wrap {A} I t (m : M A) : keeps I m → keeps I (wrap t m).
Proof.
  intros Hm s r s' Hs. unfold wrap. destruct (m s) as [[[a|e] s1]| |] eqn:E; try done;
    intros [= <- <-]; by eapply Hm.
Qed.

Lemma keeps_for_each {A} I (l : list A) (f : A → M ()) : (∀ a, keeps I (f a)) → keeps I (for_each l f).
Proof.
  intros Hf. induction l as [|a l IH]; simpl; [apply keeps_ret|].
  apply keeps_bind; [apply Hf|intros _; exact IH].
Qed.

Lemma keeps_try I r : keeps I (try r : M Z).
Proof. unfold try. destruct r.2; [apply keeps_throw|apply keeps_ret]. Qed.

Lemma keeps_mem_op {A} R (f : memory → option (A * memory)) : keeps (balanced R) (mem_op f).
Proof.
  intros s r s' Hs. unfold mem_op. destruct (f _) as [[a m]|]; [|done]. intros [= <- <-].
  unfold balanced in *; simpl. rewrite <- Hs. destruct s as [[m0 o] md]; simpl. by erewrite reserved_mem.
Qed.

(** Before the module exists, the ledger alone. *)
Lemma keeps_mem_reserved {A} R (f : memory → option (A * memory)) :
  keeps (λ s, reserved (mach s) ≡ₚ R) (mem_op f).
Proof.
  intros s r s' Hs. unfold mem_op. destruct (f _) as [[a m]|]; [|done]. intros [= <- <-].
  rewrite <- Hs. destruct s as [[m0 o] md]; simpl. by erewrite reserved_mem.
Qed.

Lemma keeps_call {A} R (f : machine OS → A * machine OS) :
  (∀ m, reserved (f m).2 ≡ₚ reserved m) → keeps (balanced R) (call f).
Proof.
  intros Hf s r s' Hs. unfold call. specialize (Hf (mach s)). destruct (f (mach s)) as [a m].
  intros [= <- <-]. unfold balanced in *; simpl in *. by rewrite Hf.
Qed.

Lemma keeps_call_ R (f : machine OS → machine OS) :
  (∀ m, reserved (f m) ≡ₚ reserved m) → keeps (balanced R) (call_ f).
Proof.
  intros Hf s r s' Hs [= <- <-]. unfold balanced in *; simpl in *. by rewrite Hf.
Qed.

Lemma keeps_update R f : (∀ m, owned (f m) = owned m) → keeps (balanced R) (update f).
Proof. intros Hf s r s' Hs [= <- <-]. unfold balanced in *; simpl in *. by rewrite Hf. Qed.

(** Follows the shape of a method. *)
Ltac keeps_step :=
  match goal with
  | |- keeps _ (_ ≫= _) => apply keeps_bind; [|intros ?]
  | |- keeps _ (mret _) => apply keeps_ret
  | |- keeps _ (throw _) => apply keeps_throw
  | |- keeps _ (panic _) => apply keeps_panic
  | |- keeps _ out_of_fuel => apply keeps_fuel
  | |- keeps _ (self _) => apply keeps_self
  | |- keeps _ (wrap _ _) => apply keeps_wrap
  | |- keeps _ (try _) => apply keeps_try
  | |- keeps _ (for_each _ _) => apply keeps_for_each; intros ?
  | |- keeps _ (mem_op _) => first [apply keeps_mem_op | apply keeps_mem_reserved]
  | |- keeps _ (update _) => apply keeps_update; reflexivity
  | |- keeps _ (call (VirtualAlloc _ _ MEM_COMMIT _)) => apply keeps_call; intros; apply alloc_commit
  | |- keeps _ (call (VirtualProtect _ _ _)) => apply keeps_call; intros; apply reserved_protect
  | |- keeps _ (call (LoadLibraryEx _)) => apply keeps_call; intros; apply reserved_load
  | |- keeps _ (call (GetProcAddress _ _)) => apply keeps_call; intros; apply reserved_get_proc
  | |- keeps _ (call (GetProcAddressByOrdinal _ _)) => apply keeps_call; intros; apply reserved_get_ordinal
  | |- keeps _ (call (isBadReadPtr _ _)) => apply keeps_call; intros; apply reserved_bad_read
  | |- keeps _ (call (Syscall _ _ _ _)) => apply keeps_call; intros; apply reserved_syscall
  | |- keeps _ (call_ (FreeLibrary _)) => apply keeps_call_; intros; apply reserved_free_library
  | |- keeps _ (call_ (VirtualFree _ _ MEM_DECOMMIT)) => apply keeps_call_; intros; apply free_decommit
  | |- keeps _ (if ?b then _ else _) => destruct b
  | |- keeps _ (match ?x with _ => _ end) => destruct x
  | |- keeps _ (let _ := _ in _) => cbv zeta
  | H : _ |- _ => apply H
  end.
Ltac keeps := repeat keeps_step.

(** *** No method but the allocations of [LoadLibrary] and [Free] touches the ledger *)

Section keep.
Variable R : list Z.
Abbreviation kept := (keeps (balanced R)).

Lemma keeps_string fuel p : kept (BytePtrToString fuel p).
Proof. revert p. induction fuel as [|fuel IH]; intros p; simpl; unfold rd; keeps. Qed.

Lemma keeps_copySections a n o : kept (copySections a n o).
Proof.
  unfold copySections, copySection, Sections, FileHeader, OptionalHeader, section, SetPhysicalAddress,
    memcpy, rd_bytes, wr_bytes, field_, set_field_. keeps.
Qed.

Lemma keeps_sectionData i s : kept (sectionData i s).
Proof. unfold sectionData, realSectionSize, OptionalHeader, section, field_. keeps. Qed.

Lemma keeps_finalizeSection d : kept (finalizeSection d).
Proof. unfold finalizeSection, OptionalHeader, field_. keeps. Qed.

Lemma keeps_finalize_loop o l i d : kept (finalize_loop o l i d).
Proof.
  pose proof keeps_sectionData as Hd. pose proof keeps_finalizeSection as Hf. revert i d.
  induction l as [|s l IH]; intros i d; cbn [finalize_loop]; unfold FileHeader, field_; keeps.
Qed.

Lemma keeps_finalizeSections : kept finalizeSections.
Proof.
  pose proof keeps_sectionData as Hd. pose proof keeps_finalize_loop as Hl.
  unfold finalizeSections, Sections, imageOffset, FileHeader, OptionalHeader, field_. keeps.
Qed.

Lemma keeps_executeTLS fuel : kept (executeTLS fuel).
Proof.
  assert (∀ fuel c, kept (tls_loop fuel c)) as Hl.
  { clear fuel. induction fuel as [|fuel IH]; intros c; simpl; unfold rd; keeps. }
  unfold executeTLS, headerDirectory, field_. keeps.
Qed.

Lemma keeps_relocate_one d x e : kept (relocate_one d x e).
Proof. unfold relocate_one, relocate_thumb, add_at, rd, wr. keeps. Qed.

Lemma keeps_relocate_entries n p d x : kept (relocate_entries n p d x).
Proof.
  pose proof keeps_relocate_one as Hone.
  revert p. induction n as [|n IH]; intros p; simpl; unfold rd; keeps.
Qed.

Lemma keeps_performBaseRelocation fuel d : kept (performBaseRelocation fuel d).
Proof.
  pose proof keeps_relocate_entries as He.
  assert (∀ fuel h, kept (relocate_blocks fuel h d)) as Hb.
  { clear fuel. induction fuel as [|fuel IH]; intros h; simpl; unfold field_; keeps. }
  unfold performBaseRelocation, headerDirectory, field_. keeps.
Qed.

Lemma keeps_import_thunks fuel h t f : kept (import_thunks fuel h t f).
Proof.
  pose proof keeps_string as Hs. revert t f. induction fuel as [|fuel IH]; intros t f; simpl; [keeps|].
  unfold rd, wr. keeps.
Qed.

Lemma keeps_buildImportTable fuel : kept (buildImportTable fuel).
Proof.
  pose proof keeps_string as Hs. pose proof keeps_import_thunks as Ht.
  assert (∀ fuel d, kept (import_descriptors fuel d)) as Hd.
  { clear fuel. induction fuel as [|fuel IH]; intros d; cbn [import_descriptors]; unfold field_; keeps. }
  unfold buildImportTable, headerDirectory, field_. keeps.
Qed.

Lemma keeps_buildNameExports fuel : kept (buildNameExports fuel).
Proof.
  pose proof keeps_string as Hs.
  assert (∀ n a b acc, kept (name_exports fuel n a b acc)) as Hn.
  { induction n as [|n IH]; intros a b acc; simpl; unfold rd; keeps. }
  unfold buildNameExports, headerDirectory, field_. keeps.
Qed.

Lemma keeps_check_headers a n : keeps (λ s, reserved (mach s) ≡ₚ R) (check_headers a n).
Proof.
  assert (∀ l o x, keeps (λ s, reserved (mach s) ≡ₚ R) (last_section_end l o x)) as Hl.
  { induction l as [|s l IH]; intros o x; simpl; unfold section, field_; keeps. }
  unfold check_headers, Sections, FileHeader, OptionalHeader, field_, rd. keeps.
Qed.

End keep.
(** *** Free *)

Lemma release a m X : reserved m ≡ₚ a :: X → reserved (VirtualFree a 0 MEM_RELEASE m) ≡ₚ X.
Proof.
  intros Hm. apply (Permutation_cons_inv (a := a)). rewrite <- Hm. symmetry. apply free_release.
  rewrite Hm. apply elem_of_cons. by left.
Qed.

Lemma release_all l R (s : state) :
  reserved (mach s) ≡ₚ l ++ R →
  ∃ m, for_each l (λ a, call_ (VirtualFree a 0 MEM_RELEASE)) s = Ret (inl (), State m (module s)) ∧
    reserved m ≡ₚ R.
Proof.
  revert s. induction l as [|a l IH]; intros s Hs; simpl.
  - exists (mach s). split; [by destruct s|done].
  - destruct (IH (State (VirtualFree a 0 MEM_RELEASE (mach s)) (module s))) as (m & Hm & Hr);
      [by apply release|]. exists m. split; [|done]. erewrite bind_inl; [exact Hm|done].
Qed.

Lemma free_handles l (s : state) :
  ∃ m, for_each l (λ h, call_ (FreeLibrary h)) s = Ret (inl (), State m (module s)) ∧
    reserved m ≡ₚ reserved (mach s).
Proof.
  revert s. induction l as [|a l IH]; intros s; simpl.
  - exists (mach s). split; [by destruct s|done].
  - destruct (IH (State (FreeLibrary a (mach s)) (module s))) as (m & Hm & Hr).
    exists m. split; [erewrite bind_inl; [exact Hm|done]|]. rewrite Hr. apply reserved_free_library.
Qed.

(** [Free] always returns, and releases everything the module owns. *)
Lemma Free_releases R (s : state) :
  balanced R s → ∃ s', Free s = Ret (inl (), s') ∧ reserved (mach s') ≡ₚ R ∧ owned (module s') = [].
Proof.
  intros Hs. unfold Free. erewrite bind_inl; [|reflexivity].
  set (md := module s). change (id md) with md.
  assert (∃ s1, (if initialized md then
      _ ← call (Syscall (entry md) (codeBase md) DLL_PROCESS_DETACH 0); update (with_initialized false)
      else mret ()) s = Ret (inl (), s1) ∧ reserved (mach s1) ≡ₚ owned md ++ R ∧
      codeBase (module s1) = codeBase md ∧ blockedMemory (module s1) = blockedMemory md) as (s1 & E1 & R1 & C1 & B1).
  { destruct (initialized md); [|by eexists].
    pose proof (reserved_syscall (entry md) (codeBase md) DLL_PROCESS_DETACH 0 (mach s)) as Hsys.
    unfold mbind, M_bind, call. destruct (Syscall _ _ _ _ _) as [x m]. eexists. split; [done|].
    split; [|done]. simpl in *. by rewrite Hsys. }
  erewrite bind_inl; [|exact E1]. clear E1.
  assert (∃ s2, (match modules md with
      | Some handles => _ ← for_each handles (λ h, call_ (FreeLibrary h)); update (with_modules None)
      | None => mret () end) s1 = Ret (inl (), s2) ∧ reserved (mach s2) ≡ₚ owned md ++ R ∧
      codeBase (module s2) = codeBase md ∧ blockedMemory (module s2) = blockedMemory md) as (s2 & E2 & R2 & C2 & B2).
  { destruct (modules md) as [l|]; [|by eexists].
    destruct (free_handles l s1) as (m & Hm & Hr). eexists. split; [erewrite bind_inl; [|exact Hm]; done|].
    split; [|done]. simpl. by rewrite Hr. }
  erewrite bind_inl; [|exact E2]. clear E2.
  assert (∃ s3, (if bool_decide (codeBase md ≠ 0) then
      _ ← call_ (VirtualFree (codeBase md) 0 MEM_RELEASE); update (with_codeBase 0) else mret ()) s2 = Ret (inl (), s3) ∧
      reserved (mach s3) ≡ₚ blockedMemory md ++ R ∧ codeBase (module s3) = 0 ∧
      blockedMemory (module s3) = blockedMemory md) as (s3 & E3 & R3 & C3 & B3).
  { unfold owned in R2. destruct (decide (codeBase md = 0)) as [Hc|Hc].
    - rewrite bool_decide_eq_true_2 in R2 by done. rewrite bool_decide_eq_false_2 by auto.
      eexists. split; [done|]. split; [done|]. by rewrite C2.
    - rewrite bool_decide_eq_false_2 in R2 by done. rewrite bool_decide_eq_true_2 by done.
      eexists. split; [done|]. split; [|done]. by apply release. }
  erewrite bind_inl; [|exact E3]. clear E3.
  destruct (blockedMemory md) as [|b l] eqn:Hb.
  - exists s3. split_and!; [by destruct s3|done|]. unfold owned. by rewrite C3, B3.
  - destruct (release_all (b :: l) R s3 R3) as (m & Hm & Hr). eexists.
    split; [erewrite bind_inl; [|exact Hm]; done|]. split; [done|]. unfold owned; simpl. by rewrite C3.
Qed.

(** *** LoadLibrary *)

(** What an allocation by [LoadLibrary] leaves behind. *)
Definition allocated (R : list Z) (r : () + error) (s : state) : Prop :=
  balanced R s ∧ (r = inl () → codeBase (module s) ≠ 0).

Lemma check4GB_allocated R fuel n (s : state) r s' :
  allocated R (inl ()) s → check4GBBoundaries fuel n s = Ret (r, s') → allocated R r s'.
Proof.
  unfold check4GBBoundaries. destruct w64; [|by intros Hs [= <- <-]].
  revert s. induction fuel as [|fuel IH]; intros s Hs; cbn [check4GB_loop]; [done|].
  erewrite bind_inl; [|reflexivity].
  case_bool_decide; [|unfold mret, M_ret; intros Hx; injection Hx as <- <-; exact Hs].
  destruct Hs as [Hb Hc]. specialize (Hc eq_refl). unfold balanced, owned in Hb.
  rewrite bool_decide_eq_false_2 in Hb by done.
  erewrite bind_inl; [|reflexivity]. unfold mbind at 1, M_bind at 1, call; simpl.
  destruct (VirtualAlloc _ _ _ _ _) as [[a e] m] eqn:Ea. pose proof (alloc_reserve _ _ _ _ _ _ _ Ea) as Hl.
  erewrite bind_inl; [|reflexivity]. destruct e as [z|]; destruct Hl as [Ha Hr].
  - intros [= <- <-]. split; [|done]. unfold balanced, owned; simpl. rewrite Ha, bool_decide_eq_true_2 by done.
    simpl. by rewrite Hr.
  - intros Hrest. eapply IH; [|exact Hrest]. split; [|done]. unfold balanced, owned; simpl.
    rewrite bool_decide_eq_false_2 by done. simpl. by rewrite Hr, Hb.
Qed.

(** The two attempts to reserve the image. *)
Lemma reserve_allocated R preferred n (s : state) r s' :
  owned (module s) = [] → reserved (mach s) ≡ₚ R →
  reserve_image preferred n s = Ret (r, s') → allocated R r s'.
Proof.
  intros Ho Hr. assert (blockedMemory (module s) = []) as Hb by (unfold owned in Ho; by apply app_eq_nil in Ho as [_ ?]).
  unfold reserve_image, mbind at 1, M_bind at 1, call at 1. destruct (VirtualAlloc preferred _ _ _ _) as [[a e] m] eqn:Ea.
  pose proof (alloc_reserve _ _ _ _ _ _ _ Ea) as Hl. erewrite bind_inl; [|reflexivity].
  destruct e as [z|]; simpl; destruct Hl as [Ha Hl].
  - unfold mbind at 1, M_bind at 1, call; simpl.
    destruct (VirtualAlloc 0 _ _ _ _) as [[a' e'] m'] eqn:Ea'.
    pose proof (alloc_reserve _ _ _ _ _ _ _ Ea') as Hl'. erewrite bind_inl; [|reflexivity].
    destruct e' as [z'|]; destruct Hl' as [Ha' Hl']; intros [= <- <-]; (split; [|done]);
      unfold balanced, owned; simpl; rewrite Hb.
    + rewrite Ha', bool_decide_eq_true_2 by done. simpl. by rewrite Hl', Hl.
    + rewrite bool_decide_eq_false_2 by done. simpl. by rewrite Hl', Hl, Hr.
  - intros [= <- <-]. split; [|done]. unfold balanced, owned; simpl.
    rewrite Hb, bool_decide_eq_false_2 by done. simpl. by rewrite Hl, Hr.
Qed.

Lemma mem_op_Ret {A} (f : memory → option (A * memory)) (s s' : state) r :
  mem_op f s = Ret (r, s') →
  (∃ a, r = inl a) ∧ reserved (mach s') ≡ₚ reserved (mach s) ∧ module s' = module s.
Proof.
  unfold mem_op. destruct (f _) as [[a m]|]; [|done]. intros [= <- <-]. simpl.
  destruct s as [[m0 o] md]; simpl. split; [by eexists|]. by erewrite reserved_mem.
Qed.

Lemma wrap_Ret {A} t (m : M A) s r s' : wrap t m s = Ret (r, s') → ∃ r', m s = Ret (r', s').
Proof.
  unfold wrap. destruct (m s) as [[[a|e] s1]| |]; try done; intros [= <- <-]; by eexists.
Qed.

Lemma free_on_error_Ret {A} (m : M A) (s s' : state) r :
  free_on_error m s = Ret (r, s') →
  match r with
  | inl a => m s = Ret (inl a, s')
  | inr e => True
  end ∧
  match r with
  | inl _ => True
  | inr e => ∃ s2 x, m s = Ret (inr e, s2) ∧ Free s2 = Ret (x, s')
  end.
Proof.
  unfold free_on_error. destruct (m s) as [[[a|e] s2]| |]; try done; [by intros [= <- <-]|].
  destruct (Free s2) as [[x s3]| |] eqn:E; try done. intros [= <- <-]. eauto.
Qed.

Lemma bind_mem_op {A B} (f : memory → option (A * memory)) (g : A → M B) (s s' : state) r :
  (mem_op f ≫= g) s = Ret (r, s') →
  ∃ a s1, g a s1 = Ret (r, s') ∧ reserved (mach s1) ≡ₚ reserved (mach s) ∧ module s1 = module s.
Proof.
  intros [(a & s1 & E1 & E2)|(e & E1 & _)]%bind_Ret; apply mem_op_Ret in E1 as ((x & Ex) & ? & ?); [eauto|done].
Qed.

(** What follows the reservation leaves the ledger alone. *)
Lemma keeps_load_image R fuel addr size hdr : keeps (balanced R) (load_image fuel addr size hdr).
Proof.
  pose proof (keeps_copySections R) as K1. pose proof (keeps_performBaseRelocation R) as K2.
  pose proof (keeps_buildImportTable R) as K3. pose proof (keeps_finalizeSections R) as K4.
  pose proof (keeps_executeTLS R) as K5.
  unfold load_image, copy_headers, fill_image, start_image, OptionalHeader, memcpy, rd_bytes, wr_bytes, field_, set_field_.
  keeps.
Qed.

Lemma reserve_module_balanced R fuel hdr n (s : state) r s' :
  reserved (mach s) ≡ₚ R → reserve_module fuel hdr n s = Ret (r, s') → balanced R s'.
Proof.
  intros Hs Hrun. unfold reserve_module, FileHeader, OptionalHeader, field_ in Hrun.
  apply bind_mem_op in Hrun as (c & s1 & Hrun & Hr1 & _).
  erewrite bind_inl in Hrun; [|reflexivity].
  apply bind_mem_op in Hrun as (preferred & s2 & Hrun & Hr2 & Hm2).
  assert (owned (module s2) = []) as Ho by (by rewrite Hm2).
  assert (reserved (mach s2) ≡ₚ R) as HR by (rewrite Hr2; simpl; by rewrite Hr1).
  apply bind_Ret in Hrun as [(u & s3 & E3 & Hrun)|(e & E3 & ->)].
  2: { by eapply reserve_allocated in E3 as [? _]. }
  eapply reserve_allocated in E3; [|done|done]. destruct u.
  apply wrap_Ret in Hrun as (r' & E4). by eapply check4GB_allocated in E4 as [Hb _]; try exact E3.
Qed.

Lemma load_module_balanced R fuel addr size hdr n (s : state) r s' :
  reserved (mach s) ≡ₚ R → load_module fuel addr size hdr n s = Ret (r, s') → balanced R s'.
Proof.
  intros Hs [(u & s1 & E1 & E2)|(e & E1 & _)]%bind_Ret; (eapply reserve_module_balanced in E1; [|done]); [|done].
  by eapply keeps_load_image.
Qed.

(** C14: Loading a library leaks no memory and frees none that is not its own.  Whatever the
    bytes of the library, the state of memory and the answers of Windows: when
    [LoadLibrary] fails, exactly the regions that were reserved before are reserved after;
    when it succeeds, the only new ones are the image and the blocks it skipped over, which
    the module owns, and then [Free] returns and releases exactly those. *)
Theorem LoadLibrary_balances fuel addr size (s s' : state) r :
  LoadLibrary fuel addr size s = Ret (r, s') →
  match r with
  | inr _ => reserved (mach s') ≡ₚ reserved (mach s)
  | inl _ => reserved (mach s') ≡ₚ owned (module s') ++ reserved (mach s) ∧
      ∃ s'', Free s' = Ret (inl (), s'') ∧ reserved (mach s'') ≡ₚ reserved (mach s)
  end.
Proof.
  set (R := reserved (mach s)). intros Hrun. unfold LoadLibrary in Hrun.
  apply bind_Ret in Hrun as [([hdr n] & s1 & E1 & Hrun)|(e & E1 & ->)];
    eapply (keeps_check_headers R) in E1; try done.
  apply free_on_error_Ret in Hrun as [Hrun Hfreed].
  assert (∀ r2 s2, (_ ← load_module fuel addr size hdr n; ignore (buildNameExports fuel)) s1
            = Ret (r2, s2) → balanced R s2) as Hb.
  { intros r2 s2 [(u & s3 & E3 & E4)|(e & E3 & ->)]%bind_Ret;
      (eapply load_module_balanced in E3; [|exact E1]); [|done].
    unfold ignore in E4. destruct (buildNameExports fuel s3) as [[[[]|e] s4]| |] eqn:E5; try done;
      injection E4 as <- <-; by eapply keeps_buildNameExports. }
  destruct r as [[]|e].
  - apply Hb in Hrun. split; [done|]. destruct (Free_releases R s' Hrun) as (s'' & ? & ? & _). eauto.
  - destruct Hfreed as (s2 & x & E2 & E3). apply Hb in E2.
    destruct (Free_releases R s2 E2) as (s3 & E4 & ? & _). rewrite E4 in E3. by injection E3 as <- <-.
Qed.

End ledger.

(** ** Addresses, headers and exports *)

Section checks.
Context `{Arch} {OS : Type} `{WinAPI OS}.

Abbreviation M := (M OS).
Abbreviation state := (state OS).

Lemma check4GB_same_block fuel n (s s' : state) :
  check4GB_loop fuel n s = Ret (inl (), s') →
  ¬ Z.shiftr (codeBase (module s')) 32 < Z.shiftr (up (codeBase (module s') + n)) 32.
Proof.
  revert s. induction fuel as [|fuel IH]; intros s; cbn [check4GB_loop]; [done|].
  erewrite bind_inl; [|reflexivity].
  case_bool_decide; [|unfold mret, M_ret; intros Hx; by injection Hx as <-].
  erewrite bind_inl; [|reflexivity]. unfold mbind at 1, M_bind at 1, call; simpl.
  destruct (VirtualAlloc _ _ _ _ _) as [[a e] m]. erewrite bind_inl; [|reflexivity].
  destruct e as [z|]; [done|]. apply IH.
Qed.

(** The 4 GB check makes truncated addresses recoverable.  The loader keeps only the low
    32 bits of every section's address, and later puts the high 32 bits of the image's base
    back; after [check4GBBoundaries] has succeeded, that gives the original address for
    every byte of the image. *)
Theorem truncated_address_recovers fuel n (s s' : state) x :
  w64 = true → check4GBBoundaries fuel n s = Ret (inl (), s') →
  let base := codeBase (module s') in
  0 <= base → base + n < 2 ^ 64 → base <= x < base + n →
  Z.lor (Z.land x 0xffffffff) (Z.land base 0xffffffff00000000) = x.
Proof.
  intros Hw Hrun base Hb Hend Hx. unfold check4GBBoundaries in Hrun. rewrite Hw in Hrun.
  apply check4GB_same_block in Hrun. fold base in Hrun.
  assert (wordsize = 64) as Hws by (unfold wordsize; by rewrite Hw).
  unfold up, uwrap in Hrun. rewrite Hws, Z.mod_small, !Z.shiftr_div_pow2 in Hrun by lia.
  assert (x / 2 ^ 32 = base / 2 ^ 32) as Hhigh.
  { pose proof (Z.div_le_mono base x (2 ^ 32) ltac:(lia) ltac:(lia)) as D1.
    pose proof (Z.div_le_mono x (base + n) (2 ^ 32) ltac:(lia) ltac:(lia)) as D2.
    revert Hrun D1 D2. generalize (x / 2 ^ 32) (base / 2 ^ 32) ((base + n) / 2 ^ 32). lia. }
  apply address_recovers; [lia|lia|done].
Qed.

Lemma sizeof_NT : sizeof_IMAGE_NT_HEADERS = if w64 then 264 else 248.
Proof. destruct H as [[] ?]; by vm_compute. Qed.

Lemma load_mapped n a m :
  (∀ x, a <= x < a + Z.of_nat n → x ∈ dom m) → is_Some (load n a m).
Proof.
  unfold load. intros Hm. apply fmap_is_Some. revert a Hm. induction n as [|n IH]; intros a Hm; simpl; [done|].
  destruct (m !! a) as [b|] eqn:E; simpl.
  - destruct (IH (a + 1)) as [bs ->]; [|done]. intros x Hx. apply Hm. lia.
  - apply not_elem_of_dom in E. destruct E. apply Hm. lia.
Qed.

(** The first steps of the header check. *)
Lemma check_headers_start addr size (s : state) lfanew :
  sizeof IMAGE_DOS_HEADER <= size →
  get IMAGE_DOS_HEADER "E_magic" addr (memory_of s) = Some IMAGE_DOS_SIGNATURE →
  get IMAGE_DOS_HEADER "E_lfanew" addr (memory_of s) = Some lfanew →
  let l := up (swrap 32 lfanew) in
  (size < up (l + sizeof_IMAGE_NT_HEADERS) →
     check_headers addr size s = Ret (inr (New "Incomplete IMAGE_NT_HEADERS"), s)) ∧
  (¬ size < up (l + sizeof_IMAGE_NT_HEADERS) → load 4 (up (addr + l)) (memory_of s) = None →
     check_headers addr size s = Panic "access violation").
Proof.
  intros Hsize Hmagic Hlf l. assert (sizeof IMAGE_DOS_HEADER = 64) as Hdos by done. rewrite Hdos in Hsize.
  split; intros Hc; [|intros Hn]; unfold check_headers;
    rewrite Hdos, bool_decide_eq_false_2, bool_decide_eq_false_2 by lia;
    (erewrite bind_inl; [|exact (field_ok _ _ _ _ s Hmagic)]); rewrite bool_decide_eq_false_2 by auto;
    (erewrite bind_inl; [|exact (field_ok _ _ _ _ s Hlf)]); cbv zeta; fold l.
  - by rewrite bool_decide_eq_true_2.
  - rewrite bool_decide_eq_false_2 by done. unfold mbind at 1, M_bind at 1, rd, mem_op.
    unfold memory_of in Hn. by rewrite Hn.
Qed.

(** The header check trusts a signed offset.  For an offset of the NT headers that is
    not negative it is right: the load fails when the headers do not fit into the data, and
    otherwise what is read next lies inside the data.  A negative offset of up to the size
    of the headers wraps around and passes the size check, and the loader reads in front of
    the data: if nothing is mapped there, a malformed library crashes the process instead
    of being refused. *)
Theorem negative_lfanew_reads_outside addr size (s : state) lfanew :
  0 <= addr → addr + size <= 2 ^ wordsize → sizeof IMAGE_DOS_HEADER <= size →
  (∀ x, addr <= x < addr + size → x ∈ dom (memory_of s)) →
  get IMAGE_DOS_HEADER "E_magic" addr (memory_of s) = Some IMAGE_DOS_SIGNATURE →
  get IMAGE_DOS_HEADER "E_lfanew" addr (memory_of s) = Some lfanew →
  let l := swrap 32 lfanew in
  if bool_decide (0 <= l) then
    if bool_decide (size < l + sizeof_IMAGE_NT_HEADERS)
    then check_headers addr size s = Ret (inr (New "Incomplete IMAGE_NT_HEADERS"), s)
    else is_Some (load 4 (up (addr + up l)) (memory_of s))
  else
    - sizeof_IMAGE_NT_HEADERS <= l → l + sizeof_IMAGE_NT_HEADERS <= size → 0 <= addr + l →
    up (addr + up l) = addr + l ∧
    (load 4 (addr + l) (memory_of s) = None → check_headers addr size s = Panic "access violation").
Proof.
  intros Ha Hend Hsize Hm Hmagic Hlf l.
  destruct (check_headers_start addr size s lfanew Hsize Hmagic Hlf) as [Hfail Hpass]. fold l in Hfail, Hpass.
  pose proof (swrap_in 32 lfanew ltac:(lia)) as Hl. fold l in Hl. unfold in_int in Hl.
  assert (sizeof_IMAGE_NT_HEADERS = 264 ∨ sizeof_IMAGE_NT_HEADERS = 248) as Hnt
    by (rewrite sizeof_NT; destruct w64; auto).
  assert (2 ^ 32 <= 2 ^ wordsize) as Hw by (apply Z.pow_le_mono_r; [lia|apply wordsize_pos]).
  change (32 - 1) with 31 in Hl. case_bool_decide as H0l.
  - assert (up l = l) as Hu by (apply up_small; unfold in_uint; lia). rewrite Hu in *.
    assert (up (l + sizeof_IMAGE_NT_HEADERS) = l + sizeof_IMAGE_NT_HEADERS) as Hs
      by (apply up_small; unfold in_uint; lia). rewrite Hs in *.
    case_bool_decide; [by apply Hfail|].
    rewrite up_small by (unfold in_uint; lia). apply load_mapped. intros x Hx. apply Hm. lia.
  - intros H1 H2 H3. assert (up l = l + 2 ^ wordsize) as Hu.
    { unfold up, uwrap. symmetry. apply (Z.mod_unique_pos _ _ (-1)); lia. }
    assert (up (up l + sizeof_IMAGE_NT_HEADERS) = l + sizeof_IMAGE_NT_HEADERS) as Hs.
    { rewrite Hu. unfold up, uwrap. symmetry. apply (Z.mod_unique_pos _ _ 1); lia. }
    assert (up (addr + up l) = addr + l) as Hal.
    { rewrite Hu. unfold up, uwrap. symmetry. apply (Z.mod_unique_pos _ _ 1); lia. }
    split; [done|]. intros Hn. apply Hpass; [lia|]. by rewrite Hal.
Qed.

(** *** The export table *)

(** The address of the export entry of the data directory. *)
Definition export_directory (s : state) : Z := directory_entry IMAGE_DIRECTORY_ENTRY_EXPORT s.

(** A loaded module with an export table of [n] functions, the first of ordinal [first],
    whose addresses are at [table]. *)
Record exporting (s : state) (first n table : Z) : Prop := {
  ex_size : ∃ size, get IMAGE_DATA_DIRECTORY "Size" (export_directory s) (memory_of s) = Some size ∧ size ≠ 0;
  ex_dir : ∃ va rva, get IMAGE_DATA_DIRECTORY "VirtualAddress" (export_directory s) (memory_of s) = Some va ∧
    let exports := up (codeBase (module s) + va) in
    get IMAGE_EXPORT_DIRECTORY "Base" exports (memory_of s) = Some first ∧
    get IMAGE_EXPORT_DIRECTORY "NumberOfFunctions" exports (memory_of s) = Some n ∧
    get IMAGE_EXPORT_DIRECTORY "AddressOfFunctions" exports (memory_of s) = Some rva ∧
    table = up (codeBase (module s) + rva);
  ex_fits : table + 4 * n + 4 <= 2 ^ wordsize;
}.

Lemma function_at_run exports idx rva (s : state) :
  get IMAGE_EXPORT_DIRECTORY "AddressOfFunctions" exports (memory_of s) = Some rva →
  function_at exports idx s =
  match load 4 (up (codeBase (module s) + rva + idx * 4)) (memory_of s) with
  | Some f => Ret (inl (up (codeBase (module s) + f)), s)
  | None => Panic "access violation"
  end.
Proof.
  intros Ht. unfold function_at. erewrite bind_inl; [|reflexivity].
  erewrite bind_inl; [|exact (field_ok _ _ _ _ s Ht)].
  destruct (load 4 _ _) as [f|] eqn:E.
  - by erewrite bind_inl; [|exact (rd_ok _ _ _ s E)].
  - unfold mbind, M_bind, rd, mem_op. unfold memory_of in E. by rewrite E.
Qed.

Lemma up_add_small base rva k : 0 <= k → up (base + rva) + k < 2 ^ wordsize → up (base + rva + k) = up (base + rva) + k.
Proof.
  intros Hk Hlt. unfold up in *. rewrite <- uwrap_add_l. apply uwrap_small. unfold in_uint.
  pose proof (up_in (base + rva)) as Hr. unfold up, in_uint in Hr. lia.
Qed.

(** [ProcAddressByOrdinal] on every branch, with its bound that is off by one: an
    ordinal below the first is refused, one at most [n] above it (there are [n] functions,
    so the last of these is one past the end) is answered with the base plus the word found
    at its place in the table of addresses, and any other is refused.  For the ordinal one
    past the end that word is not in the table. *)
Theorem ordinal_bound_off_by_one (s : state) first n table o :
  exporting s first n table → 0 <= first < 2 ^ 16 → 0 <= o < 2 ^ 16 → 0 <= n →
  ProcAddressByOrdinal o s =
    (if bool_decide (o < first) then Ret (inr (New "Ordinal number too low"), s)
     else if bool_decide (n < o - first) then Ret (inr (New "Ordinal number too high"), s)
     else match load 4 (table + 4 * (o - first)) (memory_of s) with
          | Some f => Ret (inl (up (codeBase (module s) + f)), s)
          | None => Panic "access violation"
          end) ∧
  (o = first + n → ¬ table <= table + 4 * (o - first) < table + 4 * n).
Proof.
  intros [(size & Hsize & Hne) (va & rva & Hva & Hbase & Hn & Ht & ->) Hfit] Hf Ho Hn0.
  split; [|lia]. unfold ProcAddressByOrdinal, headerDirectory.
  erewrite bind_inl; [|erewrite bind_inl; [|reflexivity]; reflexivity].
  fold (directory_entry IMAGE_DIRECTORY_ENTRY_EXPORT s). fold (export_directory s). erewrite bind_inl; [|exact (field_ok _ _ _ _ s Hsize)].
  rewrite bool_decide_eq_false_2 by done. erewrite bind_inl; [|reflexivity].
  erewrite bind_inl; [|exact (field_ok _ _ _ _ s Hva)]. cbv zeta.
  erewrite bind_inl; [|exact (field_ok _ _ _ _ s Hbase)].
  destruct (decide (o < first)) as [Hlow|Hlow];
    [by rewrite !bool_decide_eq_true_2|rewrite !(bool_decide_eq_false_2 (o < first)) by done].
  erewrite bind_inl; [|exact (field_ok _ _ _ _ s Hn)].
  assert (uwrap 16 (o - uwrap 16 first) = o - first) as ->.
  { rewrite (uwrap_small 16 first) by done. apply uwrap_small. unfold in_uint. lia. }
  destruct (decide (n < o - first)) as [Hhigh|Hhigh].
  - rewrite !bool_decide_eq_true_2 by lia. done.
  - rewrite !bool_decide_eq_false_2 by lia. rewrite (function_at_run _ _ _ _ Ht).
    replace ((o - first) * 4) with (4 * (o - first)) by lia. by rewrite up_add_small by lia.
Qed.

End checks.

