(* ===== verification/MemmodImports.v ===== *)
(** * The import table of the loader

    What [buildImportTable] of [Memmod.v] does with the table that a linker lays out: the
    libraries are loaded in order, and every slot gets the address of its function. *)

From S2P Require Import Prelude Sys Pe Memmod MemmodFacts.

Local Open Scope Z_scope.

(** A function is imported by its name or its ordinal. *)
Inductive import := ByName (name : string) | ByOrdinal (ordinal : Z).

(** Windows can load the libraries of [lib] and knows the procedures of [proc], whatever
    happened before; finding them does not change the memory of the machine, and that memory
    can be read.  (The libraries that Windows maps are not part of that memory, see
    [Memmod.machine].) *)
Class Linker (OS : Type) `{WinAPI OS} := {
  lib : string → option Z;
  proc : Z → import → option Z;
  linker_load s h (m : machine OS) :
    lib s = Some h → ∃ m', mem m' = mem m ∧ LoadLibraryEx s m = (h, None, m');
  linker_name h n a (m : machine OS) :
    proc h (ByName n) = Some a → ∃ m', mem m' = mem m ∧ GetProcAddress h n m = (a, None, m');
  linker_ordinal h o a (m : machine OS) :
    proc h (ByOrdinal o) = Some a → ∃ m', mem m' = mem m ∧ GetProcAddressByOrdinal h o m = (a, None, m');
  linker_readable a n (m : machine OS) :
    (∀ x, a <= x < a + n → x ∈ dom (mem m)) → ∃ m', mem m' = mem m ∧ isBadReadPtr a n m = (false, m');
}.

(** ** Strings in memory *)

Definition cstring (m : memory) (p : Z) (s : string) : Prop :=
  load_bytes (length (string_bytes s) + 1) p m = Some (string_bytes s ++ [Byte.x00]) ∧
  Byte.x00 ∉ string_bytes s.

Lemma load_one p m : load 1 p m = byte_val <$> (m !! p).
Proof. unfold load. simpl. destruct (m !! p) as [b|]; simpl; [|done]. f_equal. lia. Qed.

Lemma cstring_nil m p : cstring m p "" → load 1 p m = Some 0.
Proof.
  intros [H _]. rewrite load_one. change (load_bytes 1 p m = Some [Byte.x00]) in H. simpl in H.
  destruct (m !! p); simpl in *; by simplify_eq.
Qed.

Lemma ascii_byte_val c : Ascii.ascii_of_nat (Z.to_nat (byte_val (Ascii.byte_of_ascii c))) = c.
Proof. by destruct c as [[] [] [] [] [] [] [] []]. Qed.

Lemma cstring_cons m p c s :
  cstring m p (String c s) →
  load 1 p m = Some (byte_val (Ascii.byte_of_ascii c)) ∧ byte_val (Ascii.byte_of_ascii c) ≠ 0 ∧ cstring m (p + 1) s.
Proof.
  unfold cstring. rewrite load_one. change (string_bytes (String c s)) with (Ascii.byte_of_ascii c :: string_bytes s).
  cbn [length Nat.add load_bytes app].
  intros [H [Hc Hs]%not_elem_of_cons]. destruct (m !! p) as [b|]; simpl in *; [|done].
  destruct (load_bytes _ (p + 1) m) as [bs|] eqn:E; simpl in *; [|done]. injection H as -> ->.
  split_and!; [done| |done|done]. intros Hz. apply Hc. by apply byte_val_inj.
Qed.

Section imports.
Context `{Arch} {OS : Type} `{Linker OS}.

Abbreviation state := (state OS).
Abbreviation M := (M OS).

Lemma BytePtrToString_cstring fuel p s (st : state) :
  cstring (memory_of st) p s → 0 <= p → p + Z.of_nat (length (string_bytes s)) < 2 ^ wordsize →
  (length (string_bytes s) < fuel)%nat → BytePtrToString fuel p st = Ret (inl s, st).
Proof.
  revert fuel p. induction s as [|c s IH]; intros [|fuel] p Hs Hp Hr Hf; try lia; cbn [BytePtrToString].
  - erewrite bind_inl by (apply rd_ok, cstring_nil, Hs). done.
  - change (string_bytes (String c s)) with (Ascii.byte_of_ascii c :: string_bytes s) in Hr, Hf.
    cbn [length] in Hr, Hf. apply cstring_cons in Hs as (Hl & Hc & Hs). erewrite bind_inl by apply rd_ok, Hl.
    rewrite bool_decide_eq_false_2 by done.
    rewrite up_small by (unfold in_uint; lia).
    erewrite bind_inl by (apply IH; [done|lia|lia|lia]). by rewrite ascii_byte_val.
Qed.

Lemma cstring_agree m m' p s :
  agree p (p + Z.of_nat (length (string_bytes s)) + 1) m m' → cstring m p s → cstring m' p s.
Proof.
  intros Ha [Hl Hn]. split; [|done]. rewrite <- Hl. apply load_bytes_ext. intros x Hx. apply Ha. lia.
Qed.

(** ** The accesses to a table

    Each step of the loader reads some regions (address and length) and then writes at most
    one slot, a word, with a value. *)
Record access := { reads : list (Z * Z); slot : option (Z * Z) }.

Definition word : Z := Z.of_nat ptrsize.

Definition clear_of (a : Z) (r : Z * Z) : Prop := a + word <= r.1 ∨ r.1 + r.2 <= a.

(** The slot of [x] is not needed by [y], and it is not the slot of [y]. *)
Definition unharmed (x y : access) : Prop :=
  match slot x with
  | Some (a, _) => Forall (clear_of a) (reads y) ∧ Forall (λ s, clear_of a (s.1, word)) (option_list (slot y))
  | None => True
  end.

Fixpoint ordered (l : list access) : Prop :=
  match l with [] => True | x :: l => Forall (unharmed x) l ∧ ordered l end.

#[global] Instance clear_of_dec a r : Decision (clear_of a r).
Proof. unfold clear_of. apply _. Defined.

#[global] Instance unharmed_dec x y : Decision (unharmed x y).
Proof. unfold unharmed. destruct (slot x) as [[a v]|]; apply _. Defined.

#[global] Instance ordered_dec l : Decision (ordered l).
Proof. induction l as [|x l IH]; simpl; apply _. Defined.

Lemma ordered_app l1 l2 :
  ordered (l1 ++ l2) ↔ ordered l1 ∧ ordered l2 ∧ Forall (λ x, Forall (unharmed x) l2) l1.
Proof.
  induction l1 as [|x l1 IH]; simpl; [by rewrite Forall_nil; tauto|].
  rewrite IH, Forall_app, Forall_cons. tauto.
Qed.

Definition slots (l : list access) : list (Z * Z) := omap slot l.

Definition agrees (m m' : memory) (l : list access) : Prop :=
  Forall (λ x, Forall (λ r, agree r.1 (r.1 + r.2) m m') (reads x)) l.

(** [m'] is [m] with the values in the slots, and nothing else. *)
Definition patched (ws : list (Z * Z)) (m m' : memory) : Prop :=
  Forall (λ w, load ptrsize w.1 m' = Some w.2) ws ∧
  (∀ x, Forall (λ w, x < w.1 ∨ w.1 + word <= x) ws → m' !! x = m !! x) ∧ dom m' = dom m.

Definition mapped_slots (m : memory) (ws : list (Z * Z)) : Prop :=
  Forall (λ w, ∀ x, w.1 <= x < w.1 + word → x ∈ dom m) ws.

Lemma patched_agree lo n ws m m' :
  patched ws m m' → Forall (λ w, clear_of w.1 (lo, n)) ws → agree lo (lo + n) m m'.
Proof.
  intros (_ & Ho & _) Hw x Hx. apply Ho. eapply Forall_impl; [exact Hw|]. intros w [?|?]; simpl in *; lia.
Qed.

Lemma patched_nil m : patched [] m m.
Proof. by split. Qed.

Lemma patched_app ws1 ws2 m1 m2 m3 :
  patched ws1 m1 m2 → patched ws2 m2 m3 →
  Forall (λ w1, Forall (λ w2, clear_of w1.1 (w2.1, word)) ws2) ws1 → patched (ws1 ++ ws2) m1 m3.
Proof.
  intros (V1 & O1 & D1) (V2 & O2 & D2) Hs. split_and!; [|intros x Hx; apply Forall_app in Hx as [? ?]|congruence].
  - apply Forall_app. split; [|done]. rewrite !Forall_forall in *. intros w Hw.
    rewrite <- (V1 w Hw). apply (load_agree _ _ w.1 (w.1 + word)); [|unfold word; lia..].
    intros x Hx. apply O2. apply Forall_forall. intros w2 Hw2. specialize (Hs w Hw).
    rewrite Forall_forall in Hs. specialize (Hs w2 Hw2). unfold clear_of in Hs; simpl in Hs. lia.
  - rewrite O2, O1 by done. done.
Qed.

(** What the slots of [l1] leave alone. *)
Lemma slots_unharmed l1 l2 :
  Forall (λ x, Forall (unharmed x) l2) l1 →
  Forall (λ w, Forall (λ y, Forall (clear_of w.1) (reads y)) l2 ∧
               Forall (λ w', clear_of w.1 (w'.1, word)) (slots l2)) (slots l1).
Proof.
  rewrite !Forall_forall. intros Hl [a v] (x & Hx & Hs)%list_elem_of_omap.
  specialize (Hl x Hx). unfold unharmed in Hl. rewrite Hs in Hl. simpl. split.
  - eapply Forall_impl; [exact Hl|]. by intros y [? _].
  - apply Forall_forall. intros w (y & Hy & Hw)%list_elem_of_omap. rewrite Forall_forall in Hl.
    specialize (Hl y Hy) as [_ Hc]. rewrite Hw in Hc. simpl in Hc. by rewrite Forall_singleton in Hc.
Qed.

Lemma agrees_patched l1 l2 m m' :
  Forall (λ x, Forall (unharmed x) l2) l1 → patched (slots l1) m m' → agrees m m' l2.
Proof.
  intros Hl%slots_unharmed (_ & Ho & _). apply Forall_forall. intros y Hy. apply Forall_forall. intros r Hr x Hx.
  apply Ho. eapply Forall_impl; [exact Hl|]. intros w [Hw _]. rewrite Forall_forall in Hw.
  specialize (Hw y Hy). rewrite Forall_forall in Hw. specialize (Hw r Hr). unfold clear_of in Hw. lia.
Qed.

(** Patches of two parts of a table, one after the other. *)
Lemma patched_slots l1 l2 m1 m2 m3 :
  Forall (λ x, Forall (unharmed x) l2) l1 →
  patched (slots l1) m1 m2 → patched (slots l2) m2 m3 → patched (slots (l1 ++ l2)) m1 m3.
Proof.
  intros Hl%slots_unharmed H1' H2'. unfold slots. rewrite omap_app. eapply patched_app; [done..|].
  eapply Forall_impl; [exact Hl|]. by intros w [_ ?].
Qed.

Lemma wr_slot a v (st : state) :
  in_uint wordsize v → mapped_slots (memory_of st) [(a, v)] →
  ∃ m, wr ptrsize a v st = Ret (inl (), with_memory m st) ∧ patched [(a, v)] (memory_of st) m.
Proof.
  intros Hv Hm. unfold mapped_slots in Hm. rewrite Forall_singleton in Hm. simpl in Hm.
  destruct (store_bytes_mapped (le_split ptrsize v) a (memory_of st)) as [m Hst].
  { intros x Hx. apply Hm. unfold word. rewrite le_split_length in Hx. lia. }
  exists m. split; [by apply wr_ok|].
  pose proof Hst as (Hl & Ho & Hd)%load_store. split_and!; [|intros x Hx; apply Ho|done].
  - apply Forall_singleton. simpl. rewrite Hl. f_equal. apply Z.mod_small.
    unfold in_uint in Hv. replace (256 ^ Z.of_nat ptrsize) with (2 ^ wordsize); [done|].
    unfold ptrsize, wordsize. by destruct w64.
  - rewrite Forall_singleton in Hx. simpl in Hx. unfold word in Hx. lia.
Qed.

(** ** The functions of one library

    A word of the lookup table, the function it names, and that function's address. *)
Record bound := { thunk : Z; fn : import; addr : Z }.

Definition name_ptr (base : Z) (b : bound) : Z :=
  up (base + thunk b + default 0 (offsetof IMAGE_IMPORT_BY_NAME 0 "Name")).

(** A NUL-terminated string at [p], which does not wrap around. *)
Definition string_at (m : memory) (p : Z) (s : string) : Prop :=
  cstring m p s ∧ 0 <= p ∧ p + Z.of_nat (length (string_bytes s)) < 2 ^ wordsize.

Definition string_region (p : Z) (s : string) : Z * Z := (p, Z.of_nat (length (string_bytes s)) + 1).

(** The word means the function. *)
Definition names (base : Z) (m : memory) (b : bound) : Prop :=
  match fn b with
  | ByOrdinal o => IMAGE_SNAP_BY_ORDINAL (thunk b) = true ∧ IMAGE_ORDINAL (thunk b) = o
  | ByName n => IMAGE_SNAP_BY_ORDINAL (thunk b) = false ∧ string_at m (name_ptr base b) n
  end.

Definition name_reads (base : Z) (b : bound) : list (Z * Z) :=
  match fn b with ByName n => [string_region (name_ptr base b) n] | ByOrdinal _ => [] end.

(** The lookup table at [tr] is [bs] and ends with 0; the slots start at [fr]. *)
Fixpoint thunks_in (base : Z) (m : memory) (tr : Z) (bs : list bound) : Prop :=
  match bs with
  | [] => load ptrsize tr m = Some 0
  | b :: bs =>
      load ptrsize tr m = Some (thunk b) ∧ thunk b ≠ 0 ∧ names base m b ∧ thunks_in base m (up (tr + word)) bs
  end.

Fixpoint thunk_accesses (base tr fr : Z) (bs : list bound) : list access :=
  match bs with
  | [] => [{| reads := [(tr, word)]; slot := None |}]
  | b :: bs =>
      {| reads := (tr, word) :: name_reads base b; slot := Some (fr, addr b) |}
      :: thunk_accesses base (up (tr + word)) (up (fr + word)) bs
  end.

(** Windows finds the functions; their names are shorter than [k]. *)
Definition bound_ok (h : Z) (k : nat) (b : bound) : Prop :=
  proc h (fn b) = Some (addr b) ∧ in_uint wordsize (addr b) ∧
  match fn b with ByName n => (length (string_bytes n) < k)%nat | ByOrdinal _ => True end.

Lemma string_agree m m' p s :
  agree p (p + (Z.of_nat (length (string_bytes s)) + 1)) m m' → string_at m p s → string_at m' p s.
Proof. intros Ha (Hs & ? & ?). split_and!; [eapply cstring_agree; [|done]; by rewrite <- Z.add_assoc|done..]. Qed.

Lemma thunks_agree base m m' tr fr bs :
  agrees m m' (thunk_accesses base tr fr bs) → thunks_in base m tr bs → thunks_in base m' tr bs.
Proof.
  revert tr fr. induction bs as [|b bs IH]; intros tr fr; simpl.
  - intros [[Ha _]%Forall_cons _]%Forall_cons Hl. by rewrite (load_agree _ _ tr (tr + word) m m') by (done || unfold word; lia).
  - intros [[Ha Hn]%Forall_cons Hr]%Forall_cons (Hl & Hz & Hb & Ht). split_and!.
    + by rewrite (load_agree _ _ tr (tr + word) m m') by (done || unfold word; lia).
    + done.
    + unfold names, name_reads in *. destruct (fn b); [|done]. destruct Hb as [? Hs]. split; [done|].
      apply Forall_cons in Hn as [Hn _]. by eapply string_agree.
    + by eapply IH.
Qed.

(** The call that looks a function up. *)
Lemma lookup_correct base h k b (st : state) fuel :
  codeBase (module st) = base → names base (memory_of st) b → bound_ok h k b → (k <= fuel)%nat →
  ∃ st', (if IMAGE_SNAP_BY_ORDINAL (thunk b) then call (GetProcAddressByOrdinal h (IMAGE_ORDINAL (thunk b)))
          else base ← self codeBase; name ← BytePtrToString fuel
                 (up (base + thunk b + default 0 (offsetof IMAGE_IMPORT_BY_NAME 0 "Name")));
               call (GetProcAddress h name)) st = Ret (inl (addr b, None), st') ∧
    memory_of st' = memory_of st ∧ module st' = module st.
Proof.
  intros Hbase Hn (Hp & _ & Hk) Hf. unfold names in Hn. destruct (fn b) as [n|o]; destruct Hn as [-> Hn].
  - destruct Hn as (Hs & Hlo & Hhi). erewrite bind_inl by done. rewrite Hbase.
    erewrite bind_inl by (apply BytePtrToString_cstring; [done..|lia]).
    destruct (linker_name h n (addr b) (mach st) Hp) as (m & Hm & E). unfold call. rewrite E. by eexists.
  - subst o. destruct (linker_ordinal h _ (addr b) (mach st) Hp) as (m & Hm & E). unfold call. rewrite E. by eexists.
Qed.

Lemma import_thunks_correct base h k tr fr bs (st : state) fuel :
  codeBase (module st) = base → thunks_in base (memory_of st) tr bs → Forall (bound_ok h k) bs →
  ordered (thunk_accesses base tr fr bs) → mapped_slots (memory_of st) (slots (thunk_accesses base tr fr bs)) →
  (length bs + k < fuel)%nat →
  ∃ st', import_thunks fuel h tr fr st = Ret (inl (), st') ∧
    patched (slots (thunk_accesses base tr fr bs)) (memory_of st) (memory_of st') ∧ module st' = module st.
Proof.
  revert tr fr st fuel. induction bs as [|b bs IH]; intros tr fr st [|fuel] Hbase Ht Hb Ho Hm Hf; try (simpl in Hf; lia);
    cbn [import_thunks thunks_in] in *.
  - erewrite bind_inl by apply rd_ok, Ht. exists st. split_and!; [done|apply patched_nil|done].
  - destruct Ht as (Hl & Hz & Hn & Ht). apply Forall_cons in Hb as [Hb Hbs].
    destruct Ho as [Hu Ho]. cbn [slots omap list_omap slot] in Hm. apply Forall_cons in Hm as [Hm Hms].
    erewrite bind_inl by apply rd_ok, Hl. rewrite bool_decide_eq_false_2 by done.
    destruct (lookup_correct base h k b st fuel Hbase Hn Hb) as (st1 & E1 & M1 & P1); [simpl in Hf; lia|].
    erewrite bind_inl by exact E1. cbn [fst snd].
    destruct (wr_slot fr (addr b) st1) as (m & E2 & Hp); [by destruct Hb as (_ & ? & _)|rewrite M1; by apply Forall_singleton|].
    erewrite bind_inl by exact E2. rewrite M1 in Hp.
    set (st2 := with_memory m st1). change m with (memory_of st2) in Hp.
    set (acc := {| reads := (tr, word) :: name_reads base b; slot := Some (fr, addr b) |}) in *.
    apply (Forall_singleton (λ x, Forall (unharmed x) _)) in Hu. change (patched (slots [acc]) (memory_of st) (memory_of st2)) in Hp.
    pose proof (agrees_patched [acc] _ _ _ Hu Hp) as Ha.
    destruct (IH (up (tr + word)) (up (fr + word)) st2 fuel) as (st' & E & Hp' & Hmod); [|by eapply thunks_agree|done..| |simpl in Hf; lia|].
    { subst st2. simpl. by rewrite P1. }
    { destruct Hp as (_ & _ & Hd). unfold mapped_slots. rewrite Hd. done. }
    exists st'. split; [|split; [|by rewrite Hmod]].
    + replace (wordsize / 8) with word; [exact E|]. unfold word, ptrsize, wordsize. by destruct w64.
    + by apply (patched_slots [acc] _ _ (memory_of st2)).
Qed.

(** ** The libraries *)

(** The fields of a descriptor, the library it names, the handle of that library, and the
    functions of its lookup table. *)
Record imported := {
  d_name : Z; d_original : Z; d_first : Z;
  d_lib : string; d_handle : Z; d_bounds : list bound;
}.

Definition d_size : Z := sizeof IMAGE_IMPORT_DESCRIPTOR.
Definition d_string (base : Z) (d : imported) : Z := up (base + d_name d).
Definition d_thunks (base : Z) (d : imported) : Z :=
  up (base + (if bool_decide (d_original d ≠ 0) then d_original d else d_first d)).
Definition d_slots (base : Z) (d : imported) : Z := up (base + d_first d).

Definition fields_in (m : memory) (a : Z) (d : imported) : Prop :=
  get IMAGE_IMPORT_DESCRIPTOR "Name" a m = Some (d_name d) ∧
  get IMAGE_IMPORT_DESCRIPTOR "characteristicsOrOriginalFirstThunk" a m = Some (d_original d) ∧
  get IMAGE_IMPORT_DESCRIPTOR "FirstThunk" a m = Some (d_first d).

(** The descriptors at [a] are [ds], and end with one without a name. *)
Fixpoint descriptors_in (base : Z) (m : memory) (a : Z) (ds : list imported) : Prop :=
  (∀ x, a <= x < a + d_size → x ∈ dom m) ∧
  match ds with
  | [] => get IMAGE_IMPORT_DESCRIPTOR "Name" a m = Some 0
  | d :: ds =>
      fields_in m a d ∧ d_name d ≠ 0 ∧ string_at m (d_string base d) (d_lib d) ∧
      thunks_in base m (d_thunks base d) (d_bounds d) ∧ descriptors_in base m (up (a + d_size)) ds
  end.

Definition d_accesses (base : Z) (d : imported) : list access :=
  thunk_accesses base (d_thunks base d) (d_slots base d) (d_bounds d).

Fixpoint descriptor_accesses (base a : Z) (ds : list imported) : list access :=
  match ds with
  | [] => [{| reads := [(a, d_size)]; slot := None |}]
  | d :: ds =>
      {| reads := [(a, d_size); string_region (d_string base d) (d_lib d)]; slot := None |}
      :: d_accesses base d ++ descriptor_accesses base (up (a + d_size)) ds
  end.

(** Windows has the library; it imports less than [n] functions. *)
Definition imported_ok (n k : nat) (d : imported) : Prop :=
  lib (d_lib d) = Some (d_handle d) ∧ (length (string_bytes (d_lib d)) < k)%nat ∧
  (length (d_bounds d) < n)%nat ∧ Forall (bound_ok (d_handle d) k) (d_bounds d).

Lemma fields_agree m m' a d : agree a (a + d_size) m m' → fields_in m a d → fields_in m' a d.
Proof.
  intros Ha (Hn & Ho & Hf).
  change (load 4 (a + 12) m = Some (d_name d)) in Hn.
  change (load 4 (a + 0) m = Some (d_original d)) in Ho.
  change (load 4 (a + 16) m = Some (d_first d)) in Hf.
  change d_size with 20 in Ha. split_and!.
  - change (load 4 (a + 12) m' = Some (d_name d)). rewrite <- Hn. eapply load_agree; [exact Ha|lia..].
  - change (load 4 (a + 0) m' = Some (d_original d)). rewrite <- Ho. eapply load_agree; [exact Ha|lia..].
  - change (load 4 (a + 16) m' = Some (d_first d)). rewrite <- Hf. eapply load_agree; [exact Ha|lia..].
Qed.

Lemma name_agree m m' a z :
  agree a (a + d_size) m m' → get IMAGE_IMPORT_DESCRIPTOR "Name" a m = Some z →
  get IMAGE_IMPORT_DESCRIPTOR "Name" a m' = Some z.
Proof.
  intros Ha Hn. change (load 4 (a + 12) m = Some z) in Hn. change d_size with 20 in Ha.
  change (load 4 (a + 12) m' = Some z). rewrite <- Hn. eapply load_agree; [exact Ha|lia..].
Qed.

Lemma descriptors_agree base m m' a ds :
  dom m' = dom m → agrees m m' (descriptor_accesses base a ds) →
  descriptors_in base m a ds → descriptors_in base m' a ds.
Proof.
  intros Hd. revert a. induction ds as [|d ds IH]; intros a; cbn [descriptors_in descriptor_accesses]; rewrite Hd.
  - intros [[Ha _]%Forall_cons _]%Forall_cons [Hm Hn]. split; [done|]. by eapply name_agree.
  - intros [[Ha [Hs _]%Forall_cons]%Forall_cons [Ht Hr]%Forall_app]%Forall_cons (Hm & Hf & Hn & Hl & Hb & Hds).
    split_and!; [done|by eapply fields_agree|done|by eapply string_agree|by eapply thunks_agree|by eapply IH].
Qed.

(** What [LoadLibraryEx] and [isBadReadPtr] do for a table that Windows can satisfy. *)
Lemma readable a (st : state) :
  (∀ x, a <= x < a + d_size → x ∈ dom (memory_of st)) →
  ∃ st', call (isBadReadPtr a d_size) st = Ret (inl false, st') ∧
    memory_of st' = memory_of st ∧ module st' = module st.
Proof.
  intros Hm. destruct (linker_readable a d_size (mach st) Hm) as (m & Hm' & E).
  unfold call. rewrite E. by eexists.
Qed.

Lemma load_correct s h (st : state) :
  lib s = Some h →
  ∃ st', call (LoadLibraryEx s) st = Ret (inl (h, None), st') ∧
    memory_of st' = memory_of st ∧ module st' = module st.
Proof.
  intros Hl. destruct (linker_load s h (mach st) Hl) as (m & Hm & E).
  unfold call. rewrite E. by eexists.
Qed.

Lemma import_descriptors_correct base n k a ds (st : state) fuel :
  codeBase (module st) = base → descriptors_in base (memory_of st) a ds → Forall (imported_ok n k) ds →
  ordered (descriptor_accesses base a ds) →
  mapped_slots (memory_of st) (slots (descriptor_accesses base a ds)) →
  (length ds + n + k < fuel)%nat →
  ∃ st', import_descriptors fuel a st = Ret (inl (), st') ∧
    patched (slots (descriptor_accesses base a ds)) (memory_of st) (memory_of st') ∧
    module st' = match ds with
                 | [] => module st
                 | _ => with_modules (Some (default [] (modules (module st)) ++ map d_handle ds)) (module st)
                 end.
Proof.
  revert a st fuel. induction ds as [|d ds IH]; intros a st [|fuel] Hbase Hin Hok Ho Hm Hf; try (simpl in Hf; lia).
  - destruct Hin as [Hr Hn]. cbn [import_descriptors].
    destruct (readable a st Hr) as (st1 & E1 & M1 & P1). erewrite bind_inl by exact E1. cbv beta iota.
    erewrite bind_inl by (apply field_ok; by rewrite M1).
    exists st1. split; [done|]. rewrite M1, P1. split; [apply patched_nil|done].
  - destruct Hin as (Hr & (Hn & Hor & Hfi) & Hz & (Hs & Hs1 & Hs2) & Ht & Hds).
    apply Forall_cons in Hok as [(Hlib & Hk & Hlen & Hb) Hok].
    cbn [descriptor_accesses ordered] in Ho. destruct Ho as [_ (Hot & Hod & Hsep)%ordered_app].
    unfold slots in Hm. cbn [descriptor_accesses omap list_omap slot] in Hm. rewrite omap_app in Hm.
    apply Forall_app in Hm as [Hmt Hmd]. cbn [import_descriptors].
    destruct (readable a st Hr) as (st1 & E1 & M1 & P1). erewrite bind_inl by exact E1. cbv beta iota.
    erewrite bind_inl by (apply field_ok; by rewrite M1). rewrite bool_decide_eq_false_2 by done.
    erewrite bind_inl by done. rewrite P1, Hbase.
    erewrite bind_inl by (apply (BytePtrToString_cstring _ _ (d_lib d)); [by rewrite M1|done|done|lia]).
    destruct (load_correct (d_lib d) (d_handle d) st1 Hlib) as (st2 & E2 & M2 & P2). rewrite M1 in M2. rewrite P1 in P2.
    erewrite bind_inl by exact E2. erewrite bind_inl by done.
    erewrite bind_inl by (apply field_ok; by rewrite M2). erewrite bind_inl by (apply field_ok; by rewrite M2).
    fold (d_thunks base d) (d_slots base d).
    destruct (import_thunks_correct base (d_handle d) k (d_thunks base d) (d_slots base d) (d_bounds d) st2 (S fuel))
      as (st3 & E3 & Hp & P3); [by rewrite P2|by rewrite M2|done|done|by rewrite M2|lia|].
    erewrite bind_inl by exact E3. erewrite bind_inl by done. erewrite bind_inl by done.
    rewrite M2 in Hp. set (st4 := State _ _).
    assert (memory_of st4 = memory_of st3) as M4 by done. rewrite <- M4 in Hp.
    pose proof (agrees_patched _ _ _ _ Hsep Hp) as Ha.
    destruct (IH (up (a + d_size)) st4 fuel) as (st' & E & Hp' & Hmod).
    + subst st4. simpl. by rewrite P3, P2.
    + eapply descriptors_agree; [by destruct Hp as (_ & _ & ?)|exact Ha|done].
    + done.
    + done.
    + destruct Hp as (_ & _ & Hd). unfold mapped_slots. rewrite Hd. done.
    + simpl in Hf. lia.
    + exists st'. split; [exact E|]. split.
      * cbn [descriptor_accesses]. exact (patched_slots _ _ _ _ _ Hsep Hp Hp').
      * rewrite Hmod. subst st4. cbn [module]. rewrite P3, P2. destruct ds; simpl; [done|].
        unfold with_modules; simpl. by rewrite <- app_assoc.
Qed.

(** A table that Windows can satisfy, at [a]: it is in memory, its slots are mapped, and no
    slot is one of the words or strings that are still needed when it is written (a table
    without a lookup table of its own reads each word from the slot before it writes it). *)
Record table_ok (base a : Z) (n k : nat) (ds : list imported) (m : memory) : Prop := {
  table_in : descriptors_in base m a ds;
  table_found : Forall (imported_ok n k) ds;
  table_ordered : ordered (descriptor_accesses base a ds);
  table_mapped : mapped_slots m (slots (descriptor_accesses base a ds));
}.

Lemma import_table_agree base a n k ds m m' :
  dom m' = dom m → agrees m m' (descriptor_accesses base a ds) → table_ok base a n k ds m → table_ok base a n k ds m'.
Proof.
  intros Hd Ha [Hin Hf Ho Hm]. split; [by eapply descriptors_agree|done|done|]. unfold mapped_slots. by rewrite Hd.
Qed.

(** A module with such a table. *)
Lemma buildImportTable_runs fuel n k ds (st : state) size va :
  let directory := directory_entry IMAGE_DIRECTORY_ENTRY_IMPORT st in
  let base := codeBase (module st) in
  let a := up (base + va) in
  get IMAGE_DATA_DIRECTORY "Size" directory (memory_of st) = Some size → size ≠ 0 →
  get IMAGE_DATA_DIRECTORY "VirtualAddress" directory (memory_of st) = Some va →
  table_ok base a n k ds (memory_of st) → (length ds + n + k < fuel)%nat →
  ∃ st', buildImportTable fuel st = Ret (inl (), st') ∧
    module st' = with_modules (Some (map d_handle ds)) (module st) ∧
    patched (slots (descriptor_accesses base a ds)) (memory_of st) (memory_of st').
Proof.
  intros directory base a Hsize Hz Hva [Hin Hfound Hord Hmap] Hf. unfold buildImportTable, headerDirectory.
  erewrite bind_inl; [|erewrite bind_inl; [|reflexivity]; reflexivity]. fold (directory_entry IMAGE_DIRECTORY_ENTRY_IMPORT st).
  erewrite bind_inl; [|exact (field_ok _ _ _ _ st Hsize)]. rewrite bool_decide_eq_false_2 by done.
  erewrite bind_inl by reflexivity. erewrite bind_inl by reflexivity.
  set (st1 := State _ _). erewrite bind_inl; [|exact (field_ok _ _ _ _ st1 Hva)].
  destruct (import_descriptors_correct base n k a ds st1 fuel) as (st' & E & Hp & Hmod); [done..|].
  exists st'. split; [exact E|]. split; [|exact Hp]. rewrite Hmod. by destruct ds.
Qed.

(** A module without one. *)
Lemma buildImportTable_none fuel (st : state) :
  get IMAGE_DATA_DIRECTORY "Size" (directory_entry IMAGE_DIRECTORY_ENTRY_IMPORT st) (memory_of st) = Some 0 →
  buildImportTable fuel st = Ret (inl (), st).
Proof.
  intros Hsize. unfold buildImportTable, headerDirectory.
  erewrite bind_inl; [|erewrite bind_inl; [|reflexivity]; reflexivity]. fold (directory_entry IMAGE_DIRECTORY_ENTRY_IMPORT st).
  by erewrite bind_inl; [|exact (field_ok _ _ _ _ st Hsize)].
Qed.

(** C16: Linking does what the import table says.  A module without a table is left as it
    is.  With a table that Windows can satisfy, and with fuel for its libraries, functions
    and names, the pass ends and succeeds: the handles of the libraries are the module's, in
    their order; every slot, of a function imported by name or by ordinal, holds the address
    of its function; and every other byte of memory is unchanged. *)
Theorem buildImportTable_correct fuel n k ds (st : state) size va :
  let directory := directory_entry IMAGE_DIRECTORY_ENTRY_IMPORT st in
  let base := codeBase (module st) in
  let a := up (base + va) in
  get IMAGE_DATA_DIRECTORY "Size" directory (memory_of st) = Some size →
  get IMAGE_DATA_DIRECTORY "VirtualAddress" directory (memory_of st) = Some va →
  (size ≠ 0 → table_ok base a n k ds (memory_of st)) → (length ds + n + k < fuel)%nat →
  if bool_decide (size = 0) then buildImportTable fuel st = Ret (inl (), st)
  else ∃ st', buildImportTable fuel st = Ret (inl (), st') ∧
    module st' = with_modules (Some (map d_handle ds)) (module st) ∧
    patched (slots (descriptor_accesses base a ds)) (memory_of st) (memory_of st').
Proof.
  intros directory base a Hsize Hva Hok Hf. case_bool_decide as Hz.
  - subst size. by apply buildImportTable_none.
  - by apply (buildImportTable_runs fuel n k ds st size va); auto.
Qed.

End imports.

(** ** A table of one library and two functions *)
Module ImportsDemo.
#[local] Existing Instance i386.

(** Windows has the library [k], with the function [f] and one of ordinal 7. *)
Definition find_proc (h : Z) (i : import) : option Z :=
  match i with
  | ByName n => if bool_decide (n = "f"%string) then Some 0x5000 else None
  | ByOrdinal o => if bool_decide (o = 7) then Some 0x6000 else None
  end.

Definition answer {A} (o : option Z) (m : A) : Z * option Z * A :=
  match o with Some a => (a, None, m) | None => (0, Some 127, m) end.

#[local] Instance windows : WinAPI () := {|
  VirtualAlloc a n t p m := (a, None, m);
  VirtualFree a n t m := m;
  VirtualProtect a n p m := (None, m);
  LoadLibraryEx s m := answer (if bool_decide (s = "k"%string) then Some 9 else None) m;
  FreeLibrary h m := m;
  GetProcAddress h s m := answer (find_proc h (ByName s)) m;
  GetProcAddressByOrdinal h z m := answer (find_proc h (ByOrdinal z)) m;
  isBadReadPtr a n m := (false, m);
  Syscall f a b c m := (1, m);
|}.

#[local] Instance linker : Linker ().
Proof.
  refine {| lib := λ s, if bool_decide (s = "k"%string) then Some 9 else None; proc := find_proc |}.
  all: intros; exists m; split; [done|]; cbn [LoadLibraryEx GetProcAddress GetProcAddressByOrdinal isBadReadPtr windows].
  - by rewrite H.
  - by rewrite H.
  - by rewrite H.
  - done.
Defined.

Definition put (n : nat) (a v : Z) (m : memory) : memory := default m (store n a v m).

(** The headers at 0x1000, the image at 0x10000: its descriptor at 0x80, the lookup table
    at 0x110 and the slots at 0x130. *)
Definition start : state () :=
  State (Machine ∅ ()) (with_codeBase 0x10000 (with_headers 0x1000 zeroModule)).
Definition directory : Z := directory_entry IMAGE_DIRECTORY_ENTRY_IMPORT start.
Definition blank (a : Z) (n : nat) : memory := list_to_map (map (λ i, (a + Z.of_nat i, Byte.x00)) (seq 0 n)).

Definition table : memory :=
  put 4 directory 0x80 (put 4 (directory + 4) 40
  (put 4 0x10080 0x110 (put 4 0x1008C 0x100 (put 4 0x10090 0x130
  (put 1 0x10100 107
  (put 4 0x10110 0x120 (put 4 0x10114 0x80000007
  (put 1 0x10122 102 (blank 0x1000 512 ∪ blank 0x10080 192))))))))).

Definition linking : state () := State (Machine table ()) (module start).

Definition k_dll : imported :=
  {| d_name := 0x100; d_original := 0x110; d_first := 0x130; d_lib := "k"; d_handle := 9;
     d_bounds := [{| thunk := 0x120; fn := ByName "f"; addr := 0x5000 |};
                  {| thunk := 0x80000007; fn := ByOrdinal 7; addr := 0x6000 |}] |}.

Lemma put_dom n a v m : dom (put n a v m) = dom m.
Proof. unfold put. destruct (store n a v m) as [m'|] eqn:E; [|done]. simpl. by apply load_store in E as (_ & _ & ->). Qed.

Lemma table_mapped_at x : 0x10080 <= x < 0x10140 → x ∈ dom table.
Proof.
  intros Hx. unfold table. rewrite !put_dom, dom_union_L. apply elem_of_union_r.
  unfold blank. rewrite dom_list_to_map_L, elem_of_list_to_set.
  apply list_elem_of_fmap. exists (x, Byte.x00). split; [done|]. apply list_elem_of_fmap.
  exists (Z.to_nat (x - 0x10080)). split; [f_equal; lia|]. apply elem_of_seq. lia.
Qed.

Lemma table_region lo hi : 0x10080 <= lo → hi <= 0x10140 → ∀ x, lo <= x < hi → x ∈ dom table.
Proof. intros ? ? x ?. apply table_mapped_at. lia. Qed.

Lemma string_ok p s :
  cstring table p s → 0 <= p → p + Z.of_nat (length (string_bytes s)) < 2 ^ 32 → string_at table p s.
Proof. by intros. Qed.

Lemma demo_table_ok : table_ok 0x10000 0x10080 3 2 [k_dll] table.
Proof.
  split.
  - cbn [descriptors_in]. split; [apply table_region; vm_compute; congruence|].
    split; [split_and!; vm_compute; reflexivity|]. split; [done|].
    split; [apply string_ok; [split; [vm_compute; reflexivity|by apply (bool_decide_unpack _)]|done|done]|].
    split; [|split; [apply table_region; vm_compute; congruence|vm_compute; reflexivity]].
    cbn [thunks_in d_bounds k_dll]. split; [vm_compute; reflexivity|]. split; [done|].
    split; [split; [vm_compute; reflexivity|apply string_ok; [split; [vm_compute; reflexivity|by apply (bool_decide_unpack _)]|done|done]]|].
    split; [vm_compute; reflexivity|]. split; [done|].
    split; [split; vm_compute; reflexivity|vm_compute; reflexivity].
  - repeat constructor; vm_compute; congruence.
  - apply (bool_decide_unpack _). vm_compute. exact I.
  - repeat constructor; apply table_region; vm_compute; congruence.
Qed.

Lemma linking_ok : table_ok (codeBase (module linking)) (up (codeBase (module linking) + 0x80)) 3 2 [k_dll] (memory_of linking).
Proof.
  assert (memory_of linking = table) as -> by (unfold memory_of, linking; reflexivity).
  assert (codeBase (module linking) = 0x10000) as -> by (unfold linking; reflexivity).
  assert (up (0x10000 + 0x80) = 0x10080) as -> by (vm_compute; reflexivity). exact demo_table_ok.
Qed.

Lemma linking_slots :
  slots (descriptor_accesses (codeBase (module linking)) (up (codeBase (module linking) + 0x80)) [k_dll])
  = [(0x10130, 0x5000); (0x10134, 0x6000)].
Proof. vm_compute. reflexivity. Qed.

Lemma buildImportTable_correct_witness :
  ∃ st, buildImportTable 7 linking = Ret (inl (), st) ∧
    module st = with_modules (Some [9]) (module linking) ∧
    patched [(0x10130, 0x5000); (0x10134, 0x6000)] (memory_of linking) (memory_of st).
Proof.
  assert (get IMAGE_DATA_DIRECTORY "Size" (directory_entry IMAGE_DIRECTORY_ENTRY_IMPORT linking) (memory_of linking) = Some 40)
    as Hs by (vm_compute; reflexivity).
  assert (get IMAGE_DATA_DIRECTORY "VirtualAddress" (directory_entry IMAGE_DIRECTORY_ENTRY_IMPORT linking) (memory_of linking) = Some 0x80)
    as Hv by (vm_compute; reflexivity).
  rewrite <- linking_slots.
  exact (buildImportTable_correct 7 3 2 [k_dll] linking 40 0x80 Hs Hv (λ _, linking_ok)
    ltac:(apply Nat.ltb_lt; vm_compute; reflexivity)).
Defined.

End ImportsDemo.
