(* ===== verification/MemmodFuel.v ===== *)
(** * Fuel of the loader

    The loops that memory or Windows controls take fuel; running out of it is [Block].  More
    fuel never changes a result: [approx] orders the computations by how often they are out
    of fuel, every construct of the loader is monotone in it, so [LoadLibrary] is. *)

From S2P Require Import Prelude Sys Pe Memmod.

Local Open Scope Z_scope.

Section approx.
Context {OS : Type}.

Definition approx {A} (m m' : M OS A) : Prop := ∀ s, m s = Block ∨ m s = m' s.

#[global] Instance approx_refl A : Reflexive (@approx A).
Proof. intros m s. by right. Qed.

#[global] Instance approx_trans A : Transitive (@approx A).
Proof. intros m1 m2 m3 H1 H2 s. destruct (H1 s) as [?| ->]; [by left|apply H2]. Qed.

Lemma approx_agree {A} (m m' : M OS A) s : approx m m' → m s ≠ Block → m' s = m s.
Proof. intros Hm Hs. by destruct (Hm s). Qed.

Lemma approx_block {A} (m : M OS A) : approx (λ _, Block) m.
Proof. intros s. by left. Qed.

Lemma approx_bind {A B} (m m' : M OS A) (f f' : A → M OS B) :
  approx m m' → (∀ a, approx (f a) (f' a)) → approx (m ≫= f) (m' ≫= f').
Proof.
  intros Hm Hf s. unfold mbind, M_bind. destruct (Hm s) as [-> | ->]; [by left|].
  destruct (m' s) as [[[a|e] s']| |]; [apply Hf|by right..].
Qed.

Lemma approx_wrap {A} text (m m' : M OS A) : approx m m' → approx (wrap text m) (wrap text m').
Proof. intros Hm s. unfold wrap. destruct (Hm s) as [-> | ->]; [by left|by right]. Qed.

Lemma approx_ignore (m m' : M OS ()) : approx m m' → approx (ignore m) (ignore m').
Proof. intros Hm s. unfold ignore. destruct (Hm s) as [-> | ->]; [by left|by right]. Qed.

Lemma approx_free_on_error `{Arch} `{WinAPI OS} {A} (m m' : M OS A) :
  approx m m' → approx (free_on_error m) (free_on_error m').
Proof. intros Hm s. unfold free_on_error. destruct (Hm s) as [-> | ->]; [by left|by right]. Qed.

End approx.

Create HintDb fuel.

(** One construct at a time. *)
Ltac monotone :=
  repeat match goal with
    | |- ∀ _, _ => intro
    | |- approx ?m ?m => exact (approx_refl _ m)
    | |- approx (mbind _ _) (mbind _ _) => apply approx_bind
    | |- approx (wrap _ _) _ => apply approx_wrap
    | |- approx (ignore _) _ => apply approx_ignore
    | |- approx (free_on_error _) _ => apply approx_free_on_error
    | |- approx (match ?b with _ => _ end) _ => destruct b
    | |- approx _ _ => solve [auto with fuel nocore]
    end.

Section loader.
Context `{Arch} {OS : Type} `{WinAPI OS}.

Lemma BytePtrToString_mono n n' p : (n <= n')%nat → approx (OS := OS) (BytePtrToString n p) (BytePtrToString n' p).
Proof.
  revert n' p. induction n as [|n IH]; intros [|n'] p Hn; try lia; simpl; [apply approx_block..|].
  assert (n <= n')%nat by lia. monotone.
Qed.
#[local] Hint Resolve BytePtrToString_mono : fuel.

Lemma tls_loop_mono n n' a : (n <= n')%nat → approx (OS := OS) (tls_loop n a) (tls_loop n' a).
Proof.
  revert n' a. induction n as [|n IH]; intros [|n'] a Hn; try lia; simpl; [apply approx_block..|].
  assert (n <= n')%nat by lia. monotone.
Qed.
#[local] Hint Resolve tls_loop_mono : fuel.

Lemma relocate_blocks_mono n n' a d : (n <= n')%nat → approx (OS := OS) (relocate_blocks n a d) (relocate_blocks n' a d).
Proof.
  revert n' a. induction n as [|n IH]; intros [|n'] a Hn; try lia; cbn [relocate_blocks]; [apply approx_block..|].
  assert (n <= n')%nat by lia. monotone.
Qed.
#[local] Hint Resolve relocate_blocks_mono : fuel.

Lemma import_thunks_mono n n' h t f : (n <= n')%nat → approx (OS := OS) (import_thunks n h t f) (import_thunks n' h t f).
Proof.
  revert n' t f. induction n as [|n IH]; intros [|n'] t f Hn; try lia; cbn [import_thunks]; [apply approx_block..|].
  assert (n <= n')%nat by lia. monotone.
Qed.
#[local] Hint Resolve import_thunks_mono : fuel.

Lemma import_descriptors_mono n n' a : (n <= n')%nat → approx (OS := OS) (import_descriptors n a) (import_descriptors n' a).
Proof.
  revert n' a. induction n as [|n IH]; intros [|n'] a Hn; try lia; cbn [import_descriptors]; [apply approx_block..|].
  assert (n <= n')%nat by lia. monotone.
Qed.
#[local] Hint Resolve import_descriptors_mono : fuel.

Lemma name_exports_mono n n' k a o acc : (n <= n')%nat → approx (OS := OS) (name_exports n k a o acc) (name_exports n' k a o acc).
Proof. intros Hn. revert a o acc. induction k as [|k IH]; intros; cbn [name_exports]; monotone. Qed.
#[local] Hint Resolve name_exports_mono : fuel.

Lemma check4GB_mono n n' z : (n <= n')%nat → approx (OS := OS) (check4GB_loop n z) (check4GB_loop n' z).
Proof.
  revert n'. induction n as [|n IH]; intros [|n'] Hn; try lia; cbn [check4GB_loop]; [apply approx_block..|].
  assert (n <= n')%nat by lia. monotone.
Qed.
#[local] Hint Resolve check4GB_mono : fuel.

Lemma passes_mono n n' :
  (n <= n')%nat →
  (∀ d, approx (OS := OS) (performBaseRelocation n d) (performBaseRelocation n' d)) ∧
  approx (OS := OS) (buildImportTable n) (buildImportTable n') ∧
  approx (OS := OS) (executeTLS n) (executeTLS n') ∧
  approx (OS := OS) (buildNameExports n) (buildNameExports n') ∧
  (∀ z, approx (OS := OS) (check4GBBoundaries n z) (check4GBBoundaries n' z)).
Proof.
  intros Hn. unfold performBaseRelocation, buildImportTable, executeTLS, buildNameExports, check4GBBoundaries.
  split_and!; monotone.
Qed.

Lemma load_image_mono n n' addr size old :
  (n <= n')%nat → approx (OS := OS) (load_image n addr size old) (load_image n' addr size old).
Proof.
  intros Hn. destruct (passes_mono n n' Hn) as (? & ? & ? & _ & _).
  unfold load_image, copy_headers, fill_image, start_image. monotone.
Qed.

Lemma LoadLibrary_mono n n' addr size :
  (n <= n')%nat → approx (OS := OS) (LoadLibrary n addr size) (LoadLibrary n' addr size).
Proof.
  intros Hn. destruct (passes_mono n n' Hn) as (_ & _ & _ & ? & ?).
  pose proof (load_image_mono n n'). unfold LoadLibrary, load_module, reserve_module. monotone.
Qed.

(** Fuel decides only whether a load ends within it, never what it does.  When
    [LoadLibrary] ends with some fuel, it ends with every larger fuel in the same way: the
    same result or error, the same module and the same memory and operating system, or the
    same panic; so any two amounts of fuel that are enough agree. *)
Theorem LoadLibrary_fuel_irrelevant n n' addr size (s : state OS) :
  LoadLibrary n addr size s ≠ Block →
  ((n <= n')%nat → LoadLibrary n' addr size s = LoadLibrary n addr size s) ∧
  (LoadLibrary n' addr size s ≠ Block → LoadLibrary n' addr size s = LoadLibrary n addr size s).
Proof.
  intros Hs.
  assert ((n <= n')%nat → LoadLibrary n' addr size s = LoadLibrary n addr size s) as Hle
    by exact (λ Hn, approx_agree _ _ s (LoadLibrary_mono n n' addr size Hn) Hs).
  split; [exact Hle|]. intros Hs'. destruct (Nat.le_ge_cases n n') as [Hn|Hn]; [exact (Hle Hn)|].
  exact (eq_sym (approx_agree _ _ s (LoadLibrary_mono n' n addr size Hn) Hs')).
Qed.

End loader.
