(* ===== verification/MemmodExports.v ===== *)
(** * The exported functions of a loaded library

    What [buildNameExports] and [ProcAddressByName] of [Memmod.v] do with the table of
    names that a linker lays out. *)

From S2P Require Import Prelude Sys Pe Memmod MemmodFacts MemmodImports MemmodLedger.

Local Open Scope Z_scope.

(** A name of the table, where its string is, and its index into the table of addresses. *)
Record export := { x_name : string; x_rva : Z; x_index : Z }.

(** The index that a name stands for: that of its last entry. *)
Definition resolve (name : string) (xs : list export) : option Z :=
  x_index <$> last (filter (λ x, x_name x = name) xs).

(** The map that the loop over the names builds. *)
Definition export_map (xs : list export) (acc : gmap string Z) : gmap string Z :=
  foldl (λ m x, <[x_name x := x_index x]> m) acc xs.

Lemma export_map_snoc xs x acc : export_map (xs ++ [x]) acc = <[x_name x := x_index x]> (export_map xs acc).
Proof. unfold export_map. by rewrite foldl_app. Qed.

Lemma export_map_resolve xs name : export_map xs ∅ !! name = resolve name xs.
Proof.
  unfold resolve. induction xs as [|x xs IH] using rev_ind; [done|].
  rewrite export_map_snoc, filter_app. destruct (decide (x_name x = name)) as [Hx|Hx].
  - rewrite Hx, lookup_insert_eq, filter_cons_True, filter_nil, last_snoc by done. done.
  - rewrite lookup_insert_ne, filter_cons_False, filter_nil, app_nil_r by done. exact IH.
Qed.

Lemma resolve_index name xs i : Forall (λ x, 0 <= x_index x) xs → resolve name xs = Some i → 0 <= i.
Proof.
  unfold resolve. rewrite Forall_forall. intros Hx (x & Hl & ->)%fmap_Some. apply Hx.
  by apply last_Some_elem_of, list_elem_of_filter in Hl as [_ ?].
Qed.

Section exports.
Context `{Arch} {OS : Type} `{WinAPI OS}.

Abbreviation state := (state OS).

(** The words of the names from [a] on and their indices from [o] on. *)
Fixpoint names_in (base : Z) (m : memory) (a o : Z) (xs : list export) : Prop :=
  match xs with
  | [] => True
  | x :: xs =>
      load 4 a m = Some (x_rva x) ∧ string_at m (up (base + x_rva x)) (x_name x) ∧
      load 2 o m = Some (x_index x) ∧ names_in base m (up (a + 4)) (up (o + 2)) xs
  end.

Lemma names_in_index base m a o xs : names_in base m a o xs → Forall (λ x, 0 <= x_index x) xs.
Proof.
  revert a o. induction xs as [|x xs IH]; intros a o; [by constructor|].
  intros (_ & _ & Ho & Hin). constructor; [by apply load_range in Ho as [? _]|by eapply IH].
Qed.

(** The export table lists the names [xs]; their strings are shorter than [k]. *)
Record named (s : state) (k : nat) (xs : list export) : Prop := {
  named_short : Forall (λ x, (length (string_bytes (x_name x)) < k)%nat) xs;
  named_table : ∃ va names ordinals,
    get IMAGE_DATA_DIRECTORY "VirtualAddress" (export_directory s) (memory_of s) = Some va ∧
    let exports := up (codeBase (module s) + va) in
    get IMAGE_EXPORT_DIRECTORY "NumberOfNames" exports (memory_of s) = Some (Z.of_nat (length xs)) ∧
    get IMAGE_EXPORT_DIRECTORY "AddressOfNames" exports (memory_of s) = Some names ∧
    get IMAGE_EXPORT_DIRECTORY "AddressOfNameOrdinals" exports (memory_of s) = Some ordinals ∧
    names_in (codeBase (module s)) (memory_of s) (up (codeBase (module s) + names))
      (up (codeBase (module s) + ordinals)) xs;
}.

Lemma name_exports_correct fuel k base xs a o acc (s : state) :
  codeBase (module s) = base → names_in base (memory_of s) a o xs →
  Forall (λ x, (length (string_bytes (x_name x)) < k)%nat) xs → (k <= fuel)%nat →
  name_exports fuel (length xs) a o acc s = Ret (inl (export_map xs acc), s).
Proof.
  intros Hbase. revert a o acc. induction xs as [|x xs IH]; intros a o acc Hin Hk Hf; [done|].
  destruct Hin as (Ha & (Hs & Hlo & Hhi) & Ho & Hin). apply Forall_cons in Hk as [Hx Hk].
  cbn [length name_exports]. erewrite bind_inl by done. rewrite Hbase.
  erewrite bind_inl by apply rd_ok, Ha.
  erewrite bind_inl by (apply BytePtrToString_cstring; [done..|lia]).
  erewrite bind_inl by apply rd_ok, Ho. by apply IH.
Qed.

(** How both operations begin: the directory's entry, and the error when it is empty. *)
Lemma export_entry {B} (f : Z → M OS B) (s : state) size :
  get IMAGE_DATA_DIRECTORY "Size" (export_directory s) (memory_of s) = Some size →
  (directory ← headerDirectory IMAGE_DIRECTORY_ENTRY_EXPORT;
   size ← field_ IMAGE_DATA_DIRECTORY "Size" directory;
   if bool_decide (size = 0) then throw (New "No export table found") else f directory) s =
  if bool_decide (size = 0) then Ret (inr (New "No export table found"), s) else f (export_directory s) s.
Proof.
  intros Hs. erewrite bind_inl; [|unfold headerDirectory; erewrite bind_inl; reflexivity].
  fold (directory_entry IMAGE_DIRECTORY_ENTRY_EXPORT s). fold (export_directory s).
  erewrite bind_inl by apply field_ok, Hs. by case_bool_decide.
Qed.

(** The table is a matter of the memory and of where the module is. *)
Lemma exporting_moves (s st : state) first n table :
  memory_of st = memory_of s → headers (module st) = headers (module s) →
  codeBase (module st) = codeBase (module s) → exporting s first n table → exporting st first n table.
Proof.
  intros Hm Hh Hb [Hs Hd Hf]. unfold export_directory, directory_entry in *.
  split; unfold export_directory, directory_entry; rewrite ?Hm, ?Hh, ?Hb; done.
Qed.

(** What [buildNameExports] leaves: the module with the map of names, or an error. *)
Definition built (n : Z) (xs : list export) (s : state) : (() + error) * state :=
  if bool_decide (xs = [] ∨ n = 0) then (inr (New "No functions exported"), s)
  else (inl (), State (mach s) (with_nameExports (Some (export_map xs ∅)) (module s))).

Lemma exporting_built (s : state) first n table n' xs :
  exporting s first n table → exporting (built n' xs s).2 first n table.
Proof. by apply exporting_moves; unfold built; case_bool_decide. Qed.

Lemma buildNameExports_correct fuel k first n table xs (s : state) :
  exporting s first n table → named s k xs → (k <= fuel)%nat →
  buildNameExports fuel s = Ret (built n xs s).
Proof.
  intros [(size & Hsize & Hne) (va & rva & Hva & _ & Hn & _ & _) _] [Hk (va' & names & ordinals & Hva' & Hl & Ha & Ho & Hin)] Hf.
  rewrite Hva in Hva'. injection Hva' as <-. unfold buildNameExports. rewrite (export_entry _ s size Hsize).
  rewrite bool_decide_eq_false_2 by done. erewrite bind_inl by done.
  erewrite bind_inl by apply field_ok, Hva. cbv zeta.
  erewrite bind_inl by apply field_ok, Hl. erewrite bind_inl by apply field_ok, Hn.
  unfold built. assert (Z.of_nat (length xs) = 0 ↔ xs = []) as Hz by (destruct xs; simpl; split; congruence || lia).
  rewrite (bool_decide_ext (Z.of_nat (length xs) = 0 ∨ n = 0) (xs = [] ∨ n = 0)) by (by rewrite Hz).
  case_bool_decide as Hc; [done|]. rewrite bool_decide_eq_false_2 by (rewrite Hz; tauto).
  erewrite bind_inl by apply field_ok, Ha. erewrite bind_inl by apply field_ok, Ho.
  rewrite Nat2Z.id. erewrite bind_inl by (by eapply name_exports_correct). done.
Qed.

(** C19: Exported functions are found by name.  Let the module have an export table of [n]
    functions and the names [xs].  With fuel for the longest name the table of names is read
    to its end: without names or functions that is an error and the module is as before;
    else only the module's map of names changes.  From then on, whatever else has happened to
    the module, a lookup of any name on a module with that map gives: for a name of the
    table, the base plus the word at its index (that of its last entry) in the table of
    addresses, or an error if the index is more than [n]; for any other name, and for any
    name at all when there was no map to build, an error; and nothing changes. *)
Theorem exports_resolve fuel k first n table xs (s : state) :
  exporting s first n table → named s k xs → (k <= fuel)%nat → nameExports (module s) = None →
  buildNameExports fuel s = Ret (built n xs s) ∧
  ∀ (st : state) name,
    exporting st first n table → nameExports (module st) = nameExports (module (built n xs s).2) →
    ProcAddressByName name st =
      if bool_decide (xs = [] ∨ n = 0) then Ret (inr (New "No functions exported by name"), st)
      else match resolve name xs with
      | None => Ret (inr (New "Function not found by name"), st)
      | Some i =>
          if bool_decide (n < i) then Ret (inr (New "Ordinal number too high"), st)
          else match load 4 (table + 4 * i) (memory_of st) with
               | Some f => Ret (inl (up (codeBase (module st) + f)), st)
               | None => Panic "access violation"
               end
      end.
Proof.
  intros Hs Hx Hf Hnone. split; [by eapply buildNameExports_correct|].
  intros st name [(size & Hsize & Hne) (va & rva & Hva & _ & Hn & Ht & ->) Hfit] Hmap.
  unfold ProcAddressByName. rewrite (export_entry _ st size Hsize), bool_decide_eq_false_2 by done.
  erewrite bind_inl by done. erewrite bind_inl by apply field_ok, Hva. cbv zeta.
  erewrite bind_inl by done. rewrite Hmap. unfold built. case_bool_decide as Hc; cbn [snd module].
  { by rewrite Hnone. }
  cbn [nameExports with_nameExports]. rewrite export_map_resolve.
  destruct (resolve name xs) as [i|] eqn:Hi; [|done].
  destruct (named_table _ _ _ Hx) as (? & ? & ? & _ & _ & _ & _ & Hin).
  pose proof (resolve_index _ _ _ (names_in_index _ _ _ _ _ Hin) Hi).
  erewrite bind_inl by apply field_ok, Hn.
  rewrite (bool_decide_ext (i > n) (n < i)) by lia. case_bool_decide; [done|].
  rewrite (function_at_run _ _ _ _ Ht). replace (i * 4) with (4 * i) by lia. by rewrite up_add_small by lia.
Qed.

End exports.
