(* ===== verification/MemmodLoad.v ===== *)
(** * A library in memory

    [LoadLibrary] of [Memmod.v] as a whole, up to the first page that is protected: with a
    well-formed library it lays the headers and sections out, relocates and links them, and
    nothing else. *)

From S2P Require Import Prelude Sys Pe Memmod MemmodFacts MemmodImports.

Local Open Scope Z_scope.

(** ** Bytes put into memory *)

Fixpoint put_bytes (bs : bytes) (a : Z) (m : memory) : memory :=
  match bs with [] => m | b :: bs => put_bytes bs (a + 1) (<[a := b]> m) end.

Lemma put_bytes_lookup bs a m x :
  put_bytes bs a m !! x =
  if bool_decide (a <= x < a + Z.of_nat (length bs)) then bs !! Z.to_nat (x - a) else m !! x.
Proof.
  revert a m. induction bs as [|b bs IH]; intros a m; simpl.
  - by rewrite bool_decide_eq_false_2 by lia.
  - rewrite IH. destruct (decide (x = a)) as [->|Hx].
    + rewrite bool_decide_eq_false_2, bool_decide_eq_true_2 by lia. rewrite lookup_insert_eq.
      by rewrite Z.sub_diag.
    + rewrite lookup_insert_ne by done.
      destruct (decide (a <= x < a + Z.of_nat (S (length bs)))) as [Hr|Hr].
      * rewrite !bool_decide_eq_true_2 by lia.
        by replace (Z.to_nat (x - a)) with (S (Z.to_nat (x - (a + 1)))) by lia.
      * by rewrite !bool_decide_eq_false_2 by lia.
Qed.

Lemma put_bytes_other bs a m x : x < a ∨ a + Z.of_nat (length bs) <= x → put_bytes bs a m !! x = m !! x.
Proof. intros Hx. rewrite put_bytes_lookup. by rewrite bool_decide_eq_false_2 by lia. Qed.

Definition mapped_in (lo hi : Z) (m : memory) : Prop := ∀ x, lo <= x < hi → x ∈ dom m.

Lemma store_bytes_put bs a m :
  mapped_in a (a + Z.of_nat (length bs)) m → store_bytes bs a m = Some (put_bytes bs a m).
Proof.
  revert a m. induction bs as [|b bs IH]; intros a m Hm; simpl; [done|].
  destruct (m !! a) eqn:E; cycle 1.
  { apply not_elem_of_dom in E. destruct E. apply Hm. simpl. lia. }
  apply IH. intros x Hx. rewrite dom_insert_L. apply elem_of_union_r, Hm. simpl. lia.
Qed.

Lemma put_bytes_dom bs a m : mapped_in a (a + Z.of_nat (length bs)) m → dom (put_bytes bs a m) = dom m.
Proof. intros Hm%store_bytes_put. by apply load_store_bytes in Hm as (_ & _ & ?). Qed.

Lemma mapped_dom lo hi m m' : dom m' = dom m → mapped_in lo hi m → mapped_in lo hi m'.
Proof. unfold mapped_in. by intros ->. Qed.

Lemma mapped_sub lo hi lo' hi' m : lo <= lo' → hi' <= hi → mapped_in lo hi m → mapped_in lo' hi' m.
Proof. intros ? ? Hm x ?. apply Hm. lia. Qed.

Lemma agree_put lo hi bs a m : hi <= a ∨ a + Z.of_nat (length bs) <= lo → agree lo hi m (put_bytes bs a m).
Proof. intros Ha x Hx. apply put_bytes_other. lia. Qed.

Lemma agree_trans lo hi m1 m2 m3 : agree lo hi m1 m2 → agree lo hi m2 m3 → agree lo hi m1 m3.
Proof. intros H1 H2 x Hx. by rewrite H2, H1. Qed.

Lemma agree_sub lo hi lo' hi' m m' : lo <= lo' → hi' <= hi → agree lo hi m m' → agree lo' hi' m m'.
Proof. intros ? ? Ha x ?. apply Ha. lia. Qed.

Lemma load_bytes_length n a m bs : load_bytes n a m = Some bs → length bs = n.
Proof.
  revert a bs. induction n as [|n IH]; intros a bs; simpl; [by intros [= <-]|].
  destruct (m !! a); simpl; [|done]. destruct (load_bytes n (a + 1) m) eqn:E; simpl; [|done].
  intros [= <-]. simpl. f_equal. by eapply IH.
Qed.

Lemma load_bytes_lookup n a m bs i :
  load_bytes n a m = Some bs → (i < n)%nat → m !! (a + Z.of_nat i) = bs !! i.
Proof.
  revert a bs i. induction n as [|n IH]; intros a bs i; simpl; [lia|].
  destruct (m !! a) as [b|] eqn:Ea; simpl; [|done]. destruct (load_bytes n (a + 1) m) as [l|] eqn:E; simpl; [|done].
  intros [= <-] Hi. destruct i as [|i]; simpl.
  - by rewrite Z.add_0_r.
  - rewrite <- (IH (a + 1) l i E) by lia. f_equal. lia.
Qed.

Lemma load_bytes_intro n a m bs :
  length bs = n → (∀ i, (i < n)%nat → m !! (a + Z.of_nat i) = bs !! i) → load_bytes n a m = Some bs.
Proof.
  revert a bs. induction n as [|n IH]; intros a [|b bs]; simpl; intros Hl Hi; try done.
  pose proof (Hi 0%nat ltac:(lia)) as H0. rewrite Z.add_0_r in H0. rewrite H0; simpl.
  rewrite (IH (a + 1) bs); [done|lia|]. intros i Hn. pose proof (Hi (S i) ltac:(lia)) as Hs. simpl in Hs.
  rewrite <- Hs. f_equal. lia.
Qed.

(** A part of a region. *)
Lemma load_bytes_part n a m bs o k :
  load_bytes n a m = Some bs → (o + k <= n)%nat →
  load_bytes k (a + Z.of_nat o) m = Some (take k (drop o bs)).
Proof.
  intros Hb Hk. pose proof (load_bytes_length _ _ _ _ Hb) as Hl. apply load_bytes_intro.
  - rewrite length_take, length_drop. lia.
  - intros i Hi. rewrite lookup_take_lt, lookup_drop by done.
    rewrite <- (load_bytes_lookup _ _ _ _ (o + i) Hb) by lia. f_equal. lia.
Qed.

(** The same bytes at another address are the same word. *)
Lemma load_moved k a a' m m' :
  (∀ x, 0 <= x < Z.of_nat k → m' !! (a' + x) = m !! (a + x)) → load k a' m' = load k a m.
Proof.
  intros Hx. unfold load. f_equal. revert a a' Hx. induction k as [|k IH]; intros a a' Hx; simpl; [done|].
  pose proof (Hx 0 ltac:(lia)) as H0. rewrite !Z.add_0_r in H0. rewrite H0.
  rewrite (IH (a + 1) (a' + 1)); [done|]. intros x ?. rewrite <- !Z.add_assoc. apply Hx. lia.
Qed.

Section load.
Context `{Arch} {OS : Type} `{WinAPI OS}.

Abbreviation state := (state OS).
Abbreviation M := (M OS).

Lemma rd_bytes_ok n a bs (s : state) : load_bytes n a (memory_of s) = Some bs → rd_bytes n a s = Ret (inl bs, s).
Proof. unfold rd_bytes, mem_op, memory_of. intros ->. simpl. by destruct s as [[? ?] ?]. Qed.

Lemma wr_bytes_ok a bs (s : state) :
  mapped_in a (a + Z.of_nat (length bs)) (memory_of s) →
  wr_bytes a bs s = Ret (inl (), with_memory (put_bytes bs a (memory_of s)) s).
Proof. unfold wr_bytes, mem_op, memory_of. intros Hm. by rewrite (store_bytes_put _ _ _ Hm). Qed.

Lemma set_field_ok l f o a v (s : state) :
  offsetof l 0 f = Some o → let n := Z.to_nat (f_width l f) in
  mapped_in (a + o) (a + o + Z.of_nat n) (memory_of s) →
  set_field_ l f a v s = Ret (inl (), with_memory (put_bytes (le_split n v) (a + o) (memory_of s)) s).
Proof.
  intros Ho n Hm. unfold set_field_, mem_op, set, memory_of in *. rewrite Ho; simpl.
  unfold store. rewrite store_bytes_put by (by rewrite le_split_length). done.
Qed.

(** A field at an offset is a word. *)
Lemma get_load l f o a m : offsetof l 0 f = Some o → get l f a m = load (Z.to_nat (f_width l f)) (a + o) m.
Proof. intros Ho. unfold get. by rewrite Ho. Qed.

Lemma alignment_agree a lo hi m m' :
  agree lo hi m m' → lo <= a → a + 64 <= hi →
  get IMAGE_OPTIONAL_HEADER "SectionAlignment" a m' = get IMAGE_OPTIONAL_HEADER "SectionAlignment" a m.
Proof.
  intros Ha ? ?. assert (∃ o, offsetof IMAGE_OPTIONAL_HEADER 0 "SectionAlignment" = Some o ∧
    Z.to_nat (f_width IMAGE_OPTIONAL_HEADER "SectionAlignment") = 4%nat ∧ 0 <= o <= 60) as (o & Hof & Hw & Hor).
  { unfold IMAGE_OPTIONAL_HEADER, IMAGE_OPTIONAL_HEADER_32, IMAGE_OPTIONAL_HEADER_64, uintptr, wordsize. destruct w64; eexists; (split; [vm_compute; reflexivity|]); by vm_compute. }
  rewrite !(get_load _ _ o) by done. rewrite Hw. eapply load_agree; [exact Ha|lia..].
Qed.

(** Committing pages of the image, which are reserved and mapped, gives their address and
    leaves the bytes that are mapped as they are. *)
Class Committer := {
  commit_mapped a n (m : machine OS) :
    a mod 4096 = 0 → 0 < n → mapped_in a (a + n) (mem m) →
    ∃ m', VirtualAlloc a n MEM_COMMIT PAGE_READWRITE m = (a, None, m') ∧ mem m' = mem m;
}.
Context `{!Committer}.

Lemma commit_run {B} (f : Z * option Z → M B) a n (s : state) :
  a mod 4096 = 0 → 0 < n → mapped_in a (a + n) (memory_of s) →
  ∃ s', (call (VirtualAlloc a n MEM_COMMIT PAGE_READWRITE) ≫= f) s = f (a, None) s' ∧
    memory_of s' = memory_of s ∧ module s' = module s.
Proof.
  intros Ha Hn Hm. destruct (commit_mapped a n (mach s) Ha Hn Hm) as (m & E & Hmem).
  exists (State m (module s)). split; [|done]. unfold mbind, M_bind, call. by rewrite E.
Qed.

(** ** A section

    What the section table says of it. *)
Record section_desc := { s_va : Z; s_raw : Z; s_ptr : Z }.

Definition section_in (m : memory) (a : Z) (d : section_desc) : Prop :=
  get IMAGE_SECTION_HEADER "VirtualAddress" a m = Some (s_va d) ∧
  get IMAGE_SECTION_HEADER "SizeOfRawData" a m = Some (s_raw d) ∧
  get IMAGE_SECTION_HEADER "PointerToRawData" a m = Some (s_ptr d).

(** How many bytes of the image the section fills. *)
Definition s_len (align : Z) (d : section_desc) : Z := if bool_decide (s_raw d = 0) then align else s_raw d.

Definition put_physical (base a : Z) (d : section_desc) (m : memory) : memory :=
  put_bytes (le_split 4 (Z.land (base + s_va d) 0xffffffff)) (a + 8) m.

Lemma SetPhysicalAddress_ok a v (s : state) :
  mapped_in (a + 8) (a + 12) (memory_of s) →
  SetPhysicalAddress a v s = Ret (inl (), with_memory (put_bytes (le_split 4 v) (a + 8) (memory_of s)) s).
Proof.
  intros Hm. unfold SetPhysicalAddress. rewrite (set_field_ok _ _ 8); [done|done|].
  change (Z.of_nat _) with 4. by replace (a + 8 + 4) with (a + 12) by lia.
Qed.

Lemma put_physical_dom base a d m : mapped_in (a + 8) (a + 12) m → dom (put_physical base a d m) = dom m.
Proof. intros Hm. apply put_bytes_dom. rewrite le_split_length. by apply (mapped_sub (a + 8) (a + 12)); [lia..|]. Qed.

(** The section whose table entry is at [a], from the library [file]. *)
Definition place_section (base align : Z) (file : bytes) (a : Z) (d : section_desc) (m : memory) : memory :=
  if bool_decide (s_raw d = 0) then
    if bool_decide (align = 0) then m
    else put_bytes (replicate (Z.to_nat align) Byte.x00) (base + s_va d) (put_physical base a d m)
  else put_physical base a d
    (put_bytes (take (Z.to_nat (s_raw d)) (drop (Z.to_nat (s_ptr d)) file)) (base + s_va d) m).

(** The section lies in pages of its own of the image, between the [hsize] bytes of the
    headers and the end of the address space, and its data in the file. *)
Record section_fits (base hsize size align : Z) (d : section_desc) (m : memory) : Prop := {
  fits_page : (base + s_va d) mod 4096 = 0;
  fits_above : hsize <= s_va d;
  fits_end : base + s_va d + s_len align d <= 2 ^ wordsize;
  fits_mapped : mapped_in (base + s_va d) (base + s_va d + s_len align d) m;
  fits_file : 0 <= s_ptr d ∧ s_ptr d + s_raw d <= size;
}.

Lemma copySection_correct addr size old a base hsize align file d (s : state) :
  codeBase (module s) = base → 0 <= base → 0 <= hsize → 0 <= addr → 0 <= s_raw d → 0 <= align →
  addr + size <= 2 ^ wordsize → size < 2 ^ 32 →
  section_in (memory_of s) a d →
  load_bytes (Z.to_nat size) addr (memory_of s) = Some file →
  get IMAGE_OPTIONAL_HEADER "SectionAlignment" (up (old + OffsetOptionalHeader)) (memory_of s) = Some align →
  section_fits base hsize size align d (memory_of s) →
  mapped_in (a + 8) (a + 12) (memory_of s) → a + 24 <= base + s_va d ∨ base + s_va d + s_len align d <= a →
  ∃ s', copySection addr size old a s = Ret (inl (), s') ∧
    memory_of s' = place_section base align file a d (memory_of s) ∧ module s' = module s.
Proof.
  intros Hbase Hb0 Hh0 Ha0 Hr0 Hal0 Hend Hsz (Hva & Hraw & Hptr) Hfile Halign [Hpage Habove He Hm [Hp0 Hp]] Hma Hsep.
  unfold s_len in *. unfold copySection, place_section. erewrite bind_inl by exact (field_ok _ _ _ _ s Hraw).
  case_bool_decide as Hz.
  - erewrite bind_inl by exact (field_ok _ _ _ _ s Halign).
    case_bool_decide as Hz'; [by exists s|].
    erewrite bind_inl by done. rewrite Hbase. erewrite bind_inl by exact (field_ok _ _ _ _ s Hva).
    rewrite up_small by (unfold in_uint; lia).
    edestruct (commit_run (B := ())) as (s1 & -> & M1 & P1); [exact Hpage| |exact Hm|]; [lia|].
    erewrite bind_inl by done. erewrite bind_inl by (apply field_ok; rewrite M1; exact Hva). cbv zeta.
    erewrite bind_inl by (apply SetPhysicalAddress_ok; by rewrite M1).
    rewrite up_small by (unfold in_uint; lia).
    rewrite wr_bytes_ok; cycle 1.
    { rewrite length_replicate, Z2Nat.id by lia. eapply mapped_dom, Hm. simpl. rewrite M1. by apply put_physical_dom. }
    eexists. split; [done|]. split; [simpl; by rewrite M1|done].
  - erewrite bind_inl by exact (field_ok _ _ _ _ s Hptr).
    rewrite bool_decide_eq_false_2 by (rewrite uwrap_small by (unfold in_uint; lia); lia).
    erewrite bind_inl by done. rewrite Hbase. erewrite bind_inl by exact (field_ok _ _ _ _ s Hva).
    rewrite up_small by (unfold in_uint; lia).
    edestruct (commit_run (B := ())) as (s1 & -> & M1 & P1); [exact Hpage| |exact Hm|]; [lia|].
    erewrite bind_inl by done.
    erewrite bind_inl by (apply field_ok; rewrite M1; exact Hva).
    erewrite bind_inl by (apply field_ok; rewrite M1; exact Hptr).
    erewrite bind_inl by (apply field_ok; rewrite M1; exact Hraw).
    unfold memcpy. rewrite !up_small by (unfold in_uint; lia).
    assert (load_bytes (Z.to_nat (s_raw d)) (addr + s_ptr d) (memory_of s1) =
      Some (take (Z.to_nat (s_raw d)) (drop (Z.to_nat (s_ptr d)) file))) as Hl.
    { rewrite M1. rewrite <- (Z2Nat.id (s_ptr d)) at 1 by done. eapply load_bytes_part; [exact Hfile|lia]. }
    pose proof (load_bytes_length _ _ _ _ Hl) as Hlen.
    erewrite bind_inl; [|erewrite bind_inl by exact (rd_bytes_ok _ _ _ s1 Hl);
      apply wr_bytes_ok; rewrite Hlen, M1, Z2Nat.id by done; exact Hm].
    rewrite SetPhysicalAddress_ok; cycle 1.
    { eapply mapped_dom, Hma. simpl. rewrite M1. apply put_bytes_dom. by rewrite Hlen, Z2Nat.id. }
    eexists. split; [done|]. split; [simpl; by rewrite M1|done].
Qed.

(** What placing a section leaves alone: all but its bytes and one word of its entry. *)
Lemma place_section_agree base align file a d lo hi m :
  0 <= align → 0 <= s_raw d → (Z.to_nat (s_ptr d) + Z.to_nat (s_raw d) <= length file)%nat →
  hi <= base + s_va d ∨ base + s_va d + s_len align d <= lo → hi <= a + 8 ∨ a + 12 <= lo →
  agree lo hi m (place_section base align file a d m).
Proof.
  intros Hal Hr Hf Hd Hp. unfold place_section, put_physical, s_len in *. case_bool_decide.
  - case_bool_decide; [by intros ? ?|]. eapply agree_trans; apply agree_put; [rewrite le_split_length|rewrite length_replicate]; lia.
  - eapply agree_trans; apply agree_put; [rewrite length_take, length_drop|rewrite le_split_length]; lia.
Qed.

Lemma place_section_dom base hsize size align file a d m :
  0 <= align → 0 <= s_raw d → (Z.to_nat (s_ptr d) + Z.to_nat (s_raw d) <= length file)%nat →
  section_fits base hsize size align d m → mapped_in (a + 8) (a + 12) m →
  dom (place_section base align file a d m) = dom m.
Proof.
  intros Hal Hr Hf [_ _ _ Hm _] Ha. unfold place_section, s_len in *. case_bool_decide.
  - case_bool_decide; [done|]. rewrite put_bytes_dom; [by apply put_physical_dom|].
    rewrite length_replicate, Z2Nat.id by done. eapply mapped_dom, Hm. by apply put_physical_dom.
  - assert (dom (put_bytes (take (Z.to_nat (s_raw d)) (drop (Z.to_nat (s_ptr d)) file)) (base + s_va d) m) = dom m) as Hd.
    { apply put_bytes_dom. rewrite length_take, length_drop. by eapply mapped_sub, Hm; lia. }
    rewrite put_physical_dom; [done|]. by eapply mapped_dom, Ha.
Qed.

(** ** The sections in their order *)

Fixpoint place_sections (base align : Z) (file : bytes) (a : Z) (ds : list section_desc) (m : memory) : memory :=
  match ds with
  | [] => m
  | d :: ds => place_sections base align file (a + 40) ds (place_section base align file a d m)
  end.

Lemma place_sections_agree base align file a ds lo hi m :
  0 <= align → hi <= a →
  Forall (λ d, 0 <= s_raw d ∧ (Z.to_nat (s_ptr d) + Z.to_nat (s_raw d) <= length file)%nat ∧ hi <= base + s_va d) ds →
  agree lo hi m (place_sections base align file a ds m).
Proof.
  intros Hal. revert a m. induction ds as [|d ds IH]; intros a m Ha; [by intros _ ? ?|].
  intros [(? & ? & ?) Hds]%Forall_cons. cbn [place_sections]. eapply agree_trans; [|apply IH; [lia|done]].
  apply place_section_agree; done || lia.
Qed.

(** The section table at [a]. *)
Fixpoint sections_in (m : memory) (a : Z) (ds : list section_desc) : Prop :=
  match ds with [] => True | d :: ds => section_in m a d ∧ sections_in m (a + 40) ds end.

Fixpoint entries (a : Z) (n : nat) : list Z :=
  match n with O => [] | S n => a :: entries (a + 40) n end.

Lemma section_in_agree m m' a d : agree (a + 12) (a + 24) m m' → section_in m a d → section_in m' a d.
Proof.
  intros Ha (Hv & Hr & Hp).
  change (load 4 (a + 12) m = Some (s_va d)) in Hv. change (load 4 (a + 16) m = Some (s_raw d)) in Hr.
  change (load 4 (a + 20) m = Some (s_ptr d)) in Hp.
  split_and!;
    [change (load 4 (a + 12) m' = Some (s_va d))|change (load 4 (a + 16) m' = Some (s_raw d))
    |change (load 4 (a + 20) m' = Some (s_ptr d))]; by erewrite load_agree; [|exact Ha|lia..].
Qed.

Lemma sections_in_agree m m' a ds :
  agree a (a + 40 * Z.of_nat (length ds)) m m' → sections_in m a ds → sections_in m' a ds.
Proof.
  revert a. induction ds as [|d ds IH]; intros a Ha; [done|]. cbn [length] in Ha. intros [Hd Hds]. split.
  - eapply section_in_agree, Hd. eapply agree_sub, Ha; lia.
  - eapply IH, Hds. eapply agree_sub, Ha; lia.
Qed.

Lemma section_in_range m a d : section_in m a d → 0 <= s_va d ∧ 0 <= s_raw d ∧ 0 <= s_ptr d.
Proof.
  intros (Hv & Hr & Hp).
  change (load 4 (a + 12) m = Some (s_va d)) in Hv. change (load 4 (a + 16) m = Some (s_raw d)) in Hr.
  change (load 4 (a + 20) m = Some (s_ptr d)) in Hp. apply load_range in Hv, Hr, Hp. lia.
Qed.

(** The place for the image, and the file apart from it. *)
Record room (addr size base hsize span align : Z) (ds : list section_desc) (m : memory) : Prop := {
  room_addr : 0 <= addr ∧ addr + size <= 2 ^ wordsize ∧ 0 <= size < 2 ^ 32;
  room_base : 0 <= base ∧ 0 <= hsize <= span ∧ 0 <= align ∧ base + hsize <= 2 ^ wordsize;
  room_apart : addr + size <= base ∨ base + span <= addr;
  room_headers : mapped_in base (base + hsize) m;
  room_sections : Forall (λ d, section_fits base hsize size align d m ∧ s_va d + s_len align d <= span) ds;
}.

Lemma room_dom addr size base hsize span align ds m m' :
  dom m' = dom m → room addr size base hsize span align ds m → room addr size base hsize span align ds m'.
Proof.
  intros Hd [R1 R2 R3 R4 R5]. split; [done..|by eapply mapped_dom|]. eapply Forall_impl; [exact R5|].
  intros d [[] ?]. split; [|done]. split; try done. by eapply mapped_dom.
Qed.

Lemma copySections_correct addr size old base hsize span align file a ds (s : state) :
  codeBase (module s) = base → room addr size base hsize span align ds (memory_of s) →
  sections_in (memory_of s) a ds → base <= a → a + 40 * Z.of_nat (length ds) <= base + hsize →
  load_bytes (Z.to_nat size) addr (memory_of s) = Some file →
  let opt := up (old + OffsetOptionalHeader) in
  get IMAGE_OPTIONAL_HEADER "SectionAlignment" opt (memory_of s) = Some align →
  addr <= opt → opt + 64 <= addr + size →
  ∃ s', for_each (entries a (length ds)) (copySection addr size old) s = Ret (inl (), s') ∧
    memory_of s' = place_sections base align file a ds (memory_of s) ∧ module s' = module s ∧
    dom (memory_of s') = dom (memory_of s) ∧
    agree addr (addr + size) (memory_of s) (memory_of s').
Proof.
  revert a s. induction ds as [|d ds IH]; intros a s Hbase Hroom Hin Hlo Hhi Hfile opt Halign Ho1 Ho2; simpl.
  { by exists s. }
  cbn [length] in Hhi. destruct Hin as [Hd Hds]. pose proof (section_in_range _ _ _ Hd) as (Hva & Hraw & Hptr).
  pose proof (load_bytes_length _ _ _ _ Hfile) as Hlen.
  pose proof Hroom as [(Ra1 & Ra2 & Ra3) (Rb1 & Rb2 & Rb3 & Rb4) Rap Rh [[Rd Rsp] Rds]%Forall_cons].
  assert (mapped_in (a + 8) (a + 12) (memory_of s)) as Hm8 by (eapply mapped_sub, Rh; lia).
  pose proof (fits_above _ _ _ _ _ _ Rd) as Rab. pose proof (fits_file _ _ _ _ _ _ Rd) as Rfi.
  assert (0 <= s_len align d) as Hsl by (unfold s_len; case_bool_decide; lia).
  destruct (copySection_correct addr size old a base hsize align file d s) as (s1 & E1 & M1 & P1);
    try done; try lia.
  erewrite bind_inl by exact E1.
  assert (dom (memory_of s1) = dom (memory_of s)) as D1.
  { rewrite M1. eapply place_section_dom; [done|done|lia|exact Rd|exact Hm8]. }
  assert (∀ lo hi, hi <= base + s_va d ∨ base + s_va d + s_len align d <= lo → hi <= a + 8 ∨ a + 12 <= lo →
    agree lo hi (memory_of s) (memory_of s1)) as Hag.
  { intros lo hi ? ?. rewrite M1. apply place_section_agree; done || lia. }
  assert (agree addr (addr + size) (memory_of s) (memory_of s1)) as Hfa by (apply Hag; lia).
  destruct (IH (a + 40) s1) as (s2 & E2 & M2 & P2 & D2 & A2).
  - by rewrite P1.
  - eapply room_dom; [exact D1|]. by split.
  - eapply sections_in_agree, Hds. apply Hag; lia.
  - lia.
  - lia.
  - rewrite <- Hfile. apply load_bytes_ext. intros x Hx. apply Hfa. lia.
  - rewrite <- Halign. by apply (alignment_agree _ addr (addr + size)).
  - done.
  - done.
  - exists s2. split_and!; [exact E2|by rewrite M2, M1|congruence|congruence|by eapply agree_trans].
Qed.

(** ** The headers *)

Definition image_base_offset : Z := default 0 (offsetof IMAGE_OPTIONAL_HEADER 0 "ImageBase").

Lemma image_base_field :
  offsetof IMAGE_OPTIONAL_HEADER 0 "ImageBase" = Some image_base_offset ∧
  Z.to_nat (f_width IMAGE_OPTIONAL_HEADER "ImageBase") = ptrsize ∧
  24 <= image_base_offset ∧ 64 <= sizeof IMAGE_OPTIONAL_HEADER ∧ image_base_offset + Z.of_nat ptrsize <= sizeof IMAGE_OPTIONAL_HEADER ∧
  256 ^ Z.of_nat ptrsize = 2 ^ wordsize.
Proof.
  unfold image_base_offset, IMAGE_OPTIONAL_HEADER, IMAGE_OPTIONAL_HEADER_32, IMAGE_OPTIONAL_HEADER_64, uintptr, ptrsize, wordsize.
  by destruct w64; vm_compute; split_and!.
Qed.

Lemma image_base_agree a lo hi m m' v :
  agree lo hi m m' → get IMAGE_OPTIONAL_HEADER "ImageBase" a m = Some v →
  lo <= a ∧ a + image_base_offset + Z.of_nat ptrsize <= hi → get IMAGE_OPTIONAL_HEADER "ImageBase" a m' = Some v.
Proof.
  destruct image_base_field as (Ho & Hw & ? & _). rewrite !(get_load _ _ _ _ _ Ho), Hw. intros Ha <- ?.
  eapply load_agree; [exact Ha|lia..].
Qed.

(** An entry of the data directory at [a]. *)
Record directory := { dir_va : Z; dir_size : Z }.

Definition directory_in (m : memory) (a : Z) (d : directory) : Prop :=
  get IMAGE_DATA_DIRECTORY "VirtualAddress" a m = Some (dir_va d) ∧
  get IMAGE_DATA_DIRECTORY "Size" a m = Some (dir_size d).

Definition directories_offset : Z := default 0 (offsetof IMAGE_OPTIONAL_HEADER 0 "DataDirectory").

Lemma directories_inside :
  image_base_offset + Z.of_nat ptrsize <= directories_offset ∧ directories_offset + 8 * 16 <= sizeof IMAGE_OPTIONAL_HEADER.
Proof.
  unfold directories_offset, image_base_offset, IMAGE_OPTIONAL_HEADER, IMAGE_OPTIONAL_HEADER_32, IMAGE_OPTIONAL_HEADER_64, uintptr, ptrsize, wordsize.
  by destruct w64; vm_compute.
Qed.

(** What the file says of the library: where its headers are, their size, the alignment of
    its sections, its preferred base, the section table, and where its relocations and
    imports are. *)
Record library := {
  l_file : bytes; l_lfanew : Z; l_hsize : Z; l_align : Z; l_opt : Z; l_base : Z; l_sections : list section_desc;
  l_relocs : directory; l_imports : directory;
}.

Definition old_header (addr : Z) (l : library) : Z := addr + l_lfanew l.
Definition section_table (l : library) : Z := l_lfanew l + OffsetOptionalHeader + l_opt l.

Record library_in (addr size : Z) (l : library) (m : memory) : Prop := {
  lib_file : load_bytes (Z.to_nat size) addr m = Some (l_file l);
  lib_lfanew : get IMAGE_DOS_HEADER "E_lfanew" addr m = Some (l_lfanew l);
  lib_hsize : get IMAGE_OPTIONAL_HEADER "SizeOfHeaders" (old_header addr l + OffsetOptionalHeader) m = Some (l_hsize l);
  lib_align : get IMAGE_OPTIONAL_HEADER "SectionAlignment" (old_header addr l + OffsetOptionalHeader) m = Some (l_align l);
  lib_base : get IMAGE_OPTIONAL_HEADER "ImageBase" (old_header addr l + OffsetOptionalHeader) m = Some (l_base l);
  lib_number : get IMAGE_FILE_HEADER "NumberOfSections" (old_header addr l + OffsetFileHeader) m =
    Some (Z.of_nat (length (l_sections l)));
  lib_opt : get IMAGE_FILE_HEADER "SizeOfOptionalHeader" (old_header addr l + OffsetFileHeader) m = Some (l_opt l);
  lib_relocs : directory_in m (old_header addr l + OffsetOptionalHeader + directories_offset + 8 * IMAGE_DIRECTORY_ENTRY_BASERELOC) (l_relocs l);
  lib_imports : directory_in m (old_header addr l + OffsetOptionalHeader + directories_offset + 8 * IMAGE_DIRECTORY_ENTRY_IMPORT) (l_imports l);
  lib_sections : sections_in m (addr + section_table l) (l_sections l);
  lib_fits : l_lfanew l < 2 ^ 31 ∧ sizeof IMAGE_OPTIONAL_HEADER <= l_opt l ∧
    section_table l + 40 * Z.of_nat (length (l_sections l)) <= l_hsize l <= size;
}.

(** The headers in the image: those of the file, with the new base. *)
Definition place_headers (base : Z) (l : library) (m : memory) : memory :=
  put_bytes (le_split ptrsize base) (base + l_lfanew l + OffsetOptionalHeader + image_base_offset)
    (put_bytes (take (Z.to_nat (l_hsize l)) (l_file l)) base m).

(** The image before it is relocated. *)
Definition placed (base : Z) (l : library) (m : memory) : memory :=
  place_sections base (l_align l) (l_file l) (base + section_table l) (l_sections l) (place_headers base l m).

Context `{!Linker OS}.

(** What relocation and linking rely on: the tables of the image, as a linker lays them out,
    at the addresses the headers give. *)
Definition relocatable (base delta : Z) (l : library) (blocks : list (Z * list Z)) (m : memory) : Prop :=
  delta ≠ 0 → dir_size (l_relocs l) ≠ 0 →
  MemmodFacts.table_ok (up (base + dir_va (l_relocs l))) base delta blocks m.

Definition linkable (base : Z) (l : library) (n k : nat) (imports : list imported) (m : memory) : Prop :=
  dir_size (l_imports l) ≠ 0 → MemmodImports.table_ok base (up (base + dir_va (l_imports l))) n k imports m.

(** What they do: from [m] to [m']. *)
Definition image_relocated (base delta : Z) (l : library) (blocks : list (Z * list Z)) (m m' : memory) : Prop :=
  if bool_decide (delta = 0 ∨ dir_size (l_relocs l) = 0) then m' = m
  else relocated (table_writes base delta blocks) m m'.

Definition image_linked (base : Z) (l : library) (imports : list imported) (m m' : memory) : Prop :=
  if bool_decide (dir_size (l_imports l) = 0) then m' = m
  else patched (slots (descriptor_accesses base (up (base + dir_va (l_imports l))) imports)) m m'.

Definition image_handles (l : library) (imports : list imported) (mo : Module_) : Module_ :=
  if bool_decide (dir_size (l_imports l) = 0) then mo else with_modules (Some (map d_handle imports)) mo.

(** No word that is relocated is in the headers, or read when the imports are linked. *)
Definition relocations_apart (base delta : Z) (l : library) (blocks : list (Z * list Z)) (imports : list imported) : Prop :=
  Forall (λ w, apart base (base + l_hsize l) w ∧
    Forall (λ x, Forall (λ r, apart r.1 (r.1 + r.2) w) (reads x))
      (descriptor_accesses base (up (base + dir_va (l_imports l))) imports)) (table_writes base delta blocks).

Lemma wrap_inl {A} text (p : M A) (s s' : state) a : p s = Ret (inl a, s') → wrap text p s = Ret (inl a, s').
Proof. unfold wrap. by intros ->. Qed.

Section place.
Variables addr size base span : Z.
Variable l : library.
Variable m : memory.
Hypothesis Hlib : library_in addr size l m.
Hypothesis Hroom : room addr size base (l_hsize l) span (l_align l) (l_sections l) m.

Lemma lfanew_range : 0 <= l_lfanew l ∧ 0 <= l_opt l.
Proof.
  pose proof (lib_lfanew _ _ _ _ Hlib) as E1. pose proof (lib_opt _ _ _ _ Hlib) as E2.
  change (load 4 (addr + 60) m = Some (l_lfanew l)) in E1.
  change (load 2 (old_header addr l + OffsetFileHeader + 16) m = Some (l_opt l)) in E2.
  apply load_range in E1, E2. lia.
Qed.

Lemma table_inside :
  0 <= section_table l ∧ l_lfanew l + OffsetOptionalHeader + image_base_offset + Z.of_nat ptrsize <= section_table l ∧
  section_table l <= l_hsize l ∧ OffsetOptionalHeader = 24.
Proof.
  pose proof lfanew_range. destruct (lib_fits _ _ _ _ Hlib) as (_ & H2' & H3' & _).
  destruct image_base_field as (_ & _ & H4' & _ & H5' & _). unfold section_table in *.
  assert (OffsetOptionalHeader = 24) by (by vm_compute). lia.
Qed.

Lemma file_length : Z.of_nat (length (l_file l)) = size ∧ length (take (Z.to_nat (l_hsize l)) (l_file l)) = Z.to_nat (l_hsize l).
Proof.
  destruct Hroom as [(_ & _ & ?) _ _ _ _]. destruct (lib_fits _ _ _ _ Hlib) as (_ & _ & _ & ?).
  pose proof (load_bytes_length _ _ _ _ (lib_file _ _ _ _ Hlib)) as Hl. rewrite length_take. lia.
Qed.

(** The bytes of the headers, but for the base, are those of the file. *)
Lemma header_byte k :
  0 <= k < l_hsize l →
  k < l_lfanew l + OffsetOptionalHeader + image_base_offset ∨
  l_lfanew l + OffsetOptionalHeader + image_base_offset + Z.of_nat ptrsize <= k →
  place_headers base l m !! (base + k) = m !! (addr + k).
Proof.
  intros Hk Hb. destruct file_length as [Hl1 Hl2]. destruct (lib_fits _ _ _ _ Hlib) as (_ & _ & _ & Hs).
  unfold place_headers. rewrite put_bytes_other by (rewrite le_split_length; lia).
  rewrite put_bytes_lookup, bool_decide_eq_true_2 by lia. replace (base + k - base) with k by lia.
  rewrite lookup_take_lt by lia.
  rewrite <- (load_bytes_lookup _ _ _ _ (Z.to_nat k) (lib_file _ _ _ _ Hlib)) by lia. f_equal. lia.
Qed.

Lemma header_word k j :
  0 <= j → j + Z.of_nat k <= l_hsize l →
  j + Z.of_nat k <= l_lfanew l + OffsetOptionalHeader + image_base_offset ∨
  l_lfanew l + OffsetOptionalHeader + image_base_offset + Z.of_nat ptrsize <= j →
  load k (base + j) (place_headers base l m) = load k (addr + j) m.
Proof.
  intros Hj Hh Hb. apply load_moved. intros x Hx. rewrite <- !Z.add_assoc. apply header_byte; lia.
Qed.

Lemma place_headers_dom : dom (place_headers base l m) = dom m.
Proof.
  destruct table_inside as (? & ? & ? & ?). destruct file_length as [Hl1 Hl2]. pose proof lfanew_range.
  destruct image_base_field as (_ & _ & ? & ? & _).
  destruct Hroom as [_ (_ & ? & _) _ Hm _].
  assert (dom (put_bytes (take (Z.to_nat (l_hsize l)) (l_file l)) base m) = dom m) as Hd.
  { apply put_bytes_dom. eapply mapped_sub, Hm; lia. }
  unfold place_headers. rewrite put_bytes_dom; [done|]. eapply mapped_dom; [exact Hd|].
  rewrite le_split_length. eapply mapped_sub, Hm; lia.
Qed.

(** Nothing else changes: the file neither. *)
Lemma place_headers_other lo hi : hi <= base ∨ base + l_hsize l <= lo → agree lo hi m (place_headers base l m).
Proof.
  intros Ho. destruct table_inside as (? & ? & ? & ?). destruct file_length as [Hl1 Hl2]. pose proof lfanew_range.
  destruct image_base_field as (_ & _ & ? & ? & _).
  eapply agree_trans; apply agree_put; [|rewrite le_split_length]; lia.
Qed.

Lemma place_headers_sections : sections_in (place_headers base l m) (base + section_table l) (l_sections l).
Proof.
  destruct table_inside as (H1' & H2' & _). destruct (lib_fits _ _ _ _ Hlib) as (_ & _ & H3' & _).
  pose proof (lib_sections _ _ _ _ Hlib) as Hs. revert H1' H2' H3' Hs. generalize (l_sections l), (section_table l).
  intros ds. induction ds as [|d ds IH]; intros t H1' H2' H3'; [done|]. cbn [length] in H3'.
  intros [(Hv & Hr & Hp) Hds]. split.
  - change (load 4 (addr + t + 12) m = Some (s_va d)) in Hv. change (load 4 (addr + t + 16) m = Some (s_raw d)) in Hr.
    change (load 4 (addr + t + 20) m = Some (s_ptr d)) in Hp. rewrite <- Z.add_assoc in Hv, Hr, Hp.
    split_and!;
      [change (load 4 (base + t + 12) (place_headers base l m) = Some (s_va d))
      |change (load 4 (base + t + 16) (place_headers base l m) = Some (s_raw d))
      |change (load 4 (base + t + 20) (place_headers base l m) = Some (s_ptr d))];
      rewrite <- Z.add_assoc, header_word by lia; done.
  - rewrite <- Z.add_assoc in *. apply IH; [lia..|done].
Qed.

Lemma old_base_inside :
  addr <= old_header addr l + OffsetOptionalHeader ∧
  old_header addr l + OffsetOptionalHeader + image_base_offset + Z.of_nat ptrsize <= addr + size.
Proof.
  destruct table_inside as (? & ? & ? & Ho). pose proof lfanew_range. destruct (lib_fits _ _ _ _ Hlib) as (_ & ? & ? & ?).
  unfold old_header in *. lia.
Qed.

(** The addresses that the code computes do not wrap around. *)
Lemma old_up : up (old_header addr l + OffsetOptionalHeader) = old_header addr l + OffsetOptionalHeader ∧
  up (old_header addr l + OffsetFileHeader) = old_header addr l + OffsetFileHeader ∧
  addr <= old_header addr l + OffsetFileHeader ∧
  old_header addr l + OffsetOptionalHeader + 64 <= addr + size.
Proof.
  destruct table_inside as (? & ? & ? & Ho). pose proof lfanew_range. destruct Hroom as [(? & ? & ?) _ _ _ _].
  destruct (lib_fits _ _ _ _ Hlib) as (_ & ? & ? & ?). destruct image_base_field as (_ & _ & ? & ? & ? & _).
  unfold old_header, section_table in *. rewrite Ho in *. change OffsetFileHeader with 4.
  split_and!; try lia; apply up_small; unfold in_uint; lia.
Qed.

Lemma new_up : up (base + l_lfanew l + OffsetOptionalHeader) = base + l_lfanew l + OffsetOptionalHeader ∧
  up (base + l_lfanew l + OffsetFileHeader) = base + l_lfanew l + OffsetFileHeader ∧
  up (base + l_lfanew l) = base + l_lfanew l.
Proof.
  destruct table_inside as (? & ? & ? & Ho). pose proof lfanew_range. destruct Hroom as [_ (? & ? & ? & ?) _ _ _].
  destruct image_base_field as (_ & _ & ? & ? & ? & _). rewrite Ho in *. change OffsetFileHeader with 4.
  split_and!; apply up_small; unfold in_uint; lia.
Qed.

Lemma copy_headers_correct (s : state) :
  memory_of s = m → codeBase (module s) = base → base mod 4096 = 0 →
  ∃ s', copy_headers addr size (old_header addr l) s = Ret (inl (base + l_lfanew l), s') ∧
    memory_of s' = place_headers base l m ∧ module s' = with_headers (base + l_lfanew l) (module s).
Proof.
  intros Hm Hbase Hpage. destruct table_inside as (? & ? & ? & Ho). pose proof lfanew_range.
  destruct (lib_fits _ _ _ _ Hlib) as (Hlf & ? & ? & Hhs). destruct file_length as [Hl1 Hl2].
  destruct old_up as (Hold & _). destruct new_up as (Hnew & _ & Hnh).
  destruct image_base_field as (Hio & Hiw & ? & ? & ? & _).
  destruct Hroom as [(? & ? & ?) (? & ? & ? & Hb) Hap Hmap _].
  unfold copy_headers, OptionalHeader. rewrite Hold.
  erewrite bind_inl by (apply field_ok; rewrite Hm; apply (lib_hsize _ _ _ _ Hlib)).
  rewrite bool_decide_eq_false_2 by lia. erewrite bind_inl by done. rewrite Hbase.
  edestruct (commit_run (B := Z)) as (s1 & -> & M1 & P1); [exact Hpage| |rewrite Hm; exact Hmap|]; [lia|].
  rewrite Hm in M1. erewrite bind_inl by done.
  erewrite bind_inl by (apply field_ok; rewrite M1; apply (lib_hsize _ _ _ _ Hlib)).
  assert (load_bytes (Z.to_nat (l_hsize l)) addr (memory_of s1) = Some (take (Z.to_nat (l_hsize l)) (l_file l))) as Hld.
  { rewrite M1. rewrite <- (Z.add_0_r addr). apply (load_bytes_part _ _ _ _ 0 _ (lib_file _ _ _ _ Hlib)). lia. }
  assert (mapped_in base (base + Z.of_nat (length (take (Z.to_nat (l_hsize l)) (l_file l)))) (memory_of s1)) as Hm1.
  { rewrite Hl2, M1. by eapply mapped_sub, Hmap; lia. }
  erewrite bind_inl; [|unfold memcpy; erewrite bind_inl by exact (rd_bytes_ok _ _ _ s1 Hld);
    exact (wr_bytes_ok _ _ s1 Hm1)].
  set (s2 := with_memory _ s1). assert (memory_of s2 = put_bytes (take (Z.to_nat (l_hsize l)) (l_file l)) base m) as M2
    by (rewrite <- M1; done).
  assert (dom (memory_of s2) = dom m) as D2.
  { rewrite M2. apply put_bytes_dom. rewrite Hl2. by eapply mapped_sub, Hmap; lia. }
  erewrite bind_inl; cycle 1.
  { apply field_ok. rewrite M2, <- (lib_lfanew _ _ _ _ Hlib). rewrite !(get_load _ _ 60) by done.
    change (Z.to_nat (f_width IMAGE_DOS_HEADER "E_lfanew")) with 4%nat.
    eapply load_agree; [apply (agree_put addr (addr + size)); lia|lia|]. unfold section_table in *. lia. }
  cbv zeta. assert (swrap 32 (l_lfanew l) = l_lfanew l) as ->.
  { apply swrap_small; [lia|]. unfold in_int. change (32 - 1) with 31. lia. }
  assert (2 ^ 32 <= 2 ^ wordsize) by (apply Z.pow_le_mono_r; [lia|apply wordsize_pos]).
  rewrite (up_small (l_lfanew l)) by (unfold in_uint; lia).
  cbn [fst]. rewrite Hnh. erewrite bind_inl by done. erewrite bind_inl by done. rewrite Hnew.
  set (s3 := State _ _). erewrite bind_inl; cycle 1.
  { eapply (set_field_ok _ _ image_base_offset); [done|]. rewrite Hiw.
    eapply mapped_dom; [exact D2|]. eapply mapped_sub, Hmap; lia. }
  assert (codeBase (module s3) = base) as ->.
  { simpl. by rewrite P1. }
  eexists. split; [done|]. split; [|simpl; by rewrite P1].
  unfold place_headers. rewrite <- M2, Hiw. done.
Qed.

(** The section table is read from the new headers. *)
Lemma entries_map a n : entries a n = map (λ i, a + 40 * Z.of_nat i) (seq 0 n).
Proof.
  revert a. induction n as [|n IH]; intros a; [done|]. cbn [entries seq map]. f_equal; [lia|].
  rewrite IH, <- seq_shift, map_map. apply map_ext. intros i. lia.
Qed.

Lemma Sections_correct (s : state) :
  agree base (base + section_table l) (place_headers base l m) (memory_of s) →
  Sections (base + l_lfanew l) s = Ret (inl (entries (base + section_table l) (length (l_sections l))), s).
Proof.
  intros Hm. destruct table_inside as (? & ? & ? & Ho). pose proof lfanew_range.
  destruct (lib_fits _ _ _ _ Hlib) as (_ & ? & ? & ?). destruct image_base_field as (_ & _ & ? & ? & ? & _).
  destruct new_up as (_ & Hup & _). destruct Hroom as [_ (? & ? & ? & ?) _ _ _].
  pose proof (lib_opt _ _ _ _ Hlib) as E1. pose proof (lib_number _ _ _ _ Hlib) as E2.
  change (load 2 (addr + l_lfanew l + 4 + 16) m = Some (l_opt l)) in E1.
  change (load 2 (addr + l_lfanew l + 4 + 2) m = Some (Z.of_nat (length (l_sections l)))) in E2.
  rewrite <- !Z.add_assoc, <- header_word in E1 by lia. rewrite <- !Z.add_assoc, <- header_word in E2 by lia.
  rewrite <- (load_agree _ _ _ _ _ _ Hm) in E1 by (unfold section_table; lia).
  rewrite <- (load_agree _ _ _ _ _ _ Hm) in E2 by (unfold section_table; lia). rewrite !Z.add_assoc in E1, E2.
  unfold Sections, FileHeader. rewrite Hup. erewrite bind_inl by exact (field_ok IMAGE_FILE_HEADER "SizeOfOptionalHeader" (base + l_lfanew l + 4) _ s E1).
  erewrite bind_inl by exact (field_ok IMAGE_FILE_HEADER "NumberOfSections" (base + l_lfanew l + 4) _ s E2).
  rewrite Nat2Z.id, entries_map. unfold mret, M_ret. do 3 f_equal. apply map_ext_in. intros i [_ Hi]%in_seq.
  change (sizeof IMAGE_SECTION_HEADER) with 40. unfold section_table in *.
  rewrite up_small by (unfold in_uint; lia). lia.
Qed.

Lemma sections_fit_file : Forall (λ d, 0 <= s_raw d ∧ (Z.to_nat (s_ptr d) + Z.to_nat (s_raw d) <= length (l_file l))%nat) (l_sections l).
Proof.
  destruct file_length as [Hl _]. pose proof (lib_sections _ _ _ _ Hlib) as Hs. destruct Hroom as [_ _ _ _ Hf].
  revert Hs Hf. generalize (l_sections l), (addr + section_table l).
  intros ds. induction ds as [|d ds IH]; intros a; [done|].
  intros [Hd Hds] [[Hf _] Hfs]%Forall_cons. apply Forall_cons. split; [|exact (IH _ Hds Hfs)].
  apply section_in_range in Hd. pose proof (fits_file _ _ _ _ _ _ Hf). lia.
Qed.

(** The headers below the section table stay as they are when the sections are placed. *)
Lemma placed_headers : agree base (base + section_table l) (place_headers base l m) (placed base l m).
Proof.
  destruct table_inside as (? & ? & ? & _). pose proof sections_fit_file as Hs.
  destruct Hroom as [_ (? & ? & ? & ?) _ _ Hf]. apply place_sections_agree; [done|lia|].
  rewrite !Forall_forall in *. intros d Hd. destruct (Hs d Hd), (Hf d Hd) as [Hfd _].
  pose proof (fits_above _ _ _ _ _ _ Hfd). split_and!; [done|done|lia].
Qed.

Lemma copySections_placed (s : state) :
  memory_of s = place_headers base l m → headers (module s) = base + l_lfanew l → codeBase (module s) = base →
  ∃ s', copySections addr size (old_header addr l) s = Ret (inl (), s') ∧
    memory_of s' = placed base l m ∧ module s' = module s ∧ dom (memory_of s') = dom m ∧
    agree addr (addr + size) m (memory_of s').
Proof.
  intros Hm Hh Hb. destruct table_inside as (? & ? & ? & Ho). destruct old_up as (Hup & _ & ? & ?).
  destruct (lib_fits _ _ _ _ Hlib) as (_ & ? & ? & ?). change OffsetFileHeader with 4 in *. pose proof Hroom as [(? & ? & ?) (? & ? & ? & ?) Hap _ _].
  assert (agree addr (addr + size) m (memory_of s)) as Hag by (rewrite Hm; apply place_headers_other; lia).
  unfold copySections. erewrite bind_inl by done. rewrite Hh. erewrite bind_inl by (apply Sections_correct; by rewrite Hm).
  destruct (copySections_correct addr size (old_header addr l) base (l_hsize l) span (l_align l) (l_file l)
    (base + section_table l) (l_sections l) s) as (s' & E & M' & P' & D' & A').
  - done.
  - eapply room_dom; [|exact Hroom]. rewrite Hm. apply place_headers_dom.
  - rewrite Hm. apply place_headers_sections.
  - lia.
  - lia.
  - rewrite <- (lib_file _ _ _ _ Hlib). apply load_bytes_ext. intros x Hx. apply Hag. lia.
  - rewrite Hup, <- (lib_align _ _ _ _ Hlib).
    apply (alignment_agree _ addr (addr + size)); [exact Hag|lia..].
  - rewrite Hup. lia.
  - rewrite Hup. lia.
  - exists s'. split_and!; [exact E|by rewrite M', Hm|done|rewrite D', Hm; apply place_headers_dom|by eapply agree_trans].
Qed.

Lemma directory_entry_new idx (s : state) :
  0 <= idx < 16 → headers (module s) = base + l_lfanew l →
  directory_entry idx s = base + l_lfanew l + OffsetOptionalHeader + directories_offset + 8 * idx.
Proof.
  intros Hi Hh. unfold directory_entry. rewrite Hh. fold directories_offset. change (sizeof IMAGE_DATA_DIRECTORY) with 8.
  destruct table_inside as (? & ? & ? & Ho). pose proof lfanew_range. destruct directories_inside as [? ?].
  destruct image_base_field as (_ & _ & ? & ? & ? & _). destruct (lib_fits _ _ _ _ Hlib) as (_ & ? & ? & ?).
  unfold section_table in *. destruct Hroom as [_ (? & ? & ? & ?) _ _ _]. rewrite Ho in *.
  apply up_small. unfold in_uint. lia.
Qed.
(** The new headers have the new base, and the data directory of the file. *)
Section headers.
Variable m' : memory.
Hypothesis Hsame : agree base (base + section_table l) (place_headers base l m) m'.

Lemma new_base : get IMAGE_OPTIONAL_HEADER "ImageBase" (base + l_lfanew l + OffsetOptionalHeader) m' = Some base.
Proof.
  destruct table_inside as (? & ? & ? & Ho). pose proof lfanew_range. destruct file_length as [_ Hl].
  destruct image_base_field as (Hio & Hiw & ? & ? & ? & Hpow). destruct (lib_fits _ _ _ _ Hlib) as (_ & ? & ? & ?).
  destruct Hroom as [_ (? & ? & ? & ?) _ Hmap _].
  rewrite (get_load _ _ _ _ _ Hio), Hiw. rewrite (load_agree _ _ _ _ _ _ Hsame) by lia.
  assert (store ptrsize (base + l_lfanew l + OffsetOptionalHeader + image_base_offset) base
    (put_bytes (take (Z.to_nat (l_hsize l)) (l_file l)) base m) = Some (place_headers base l m)) as (-> & _)%load_store.
  { unfold store. apply store_bytes_put. rewrite le_split_length. eapply mapped_dom; [|eapply mapped_sub, Hmap; lia].
    apply put_bytes_dom. rewrite Hl. eapply mapped_sub, Hmap; lia. }
  f_equal. rewrite Hpow. apply Z.mod_small. lia.
Qed.

Lemma new_directory idx d :
  0 <= idx < 16 → directory_in m (old_header addr l + OffsetOptionalHeader + directories_offset + 8 * idx) d →
  directory_in m' (base + l_lfanew l + OffsetOptionalHeader + directories_offset + 8 * idx) d.
Proof.
  intros Hi. destruct table_inside as (? & ? & ? & Ho). pose proof lfanew_range. destruct directories_inside as [? ?].
  destruct image_base_field as (_ & _ & ? & ? & ? & _). destruct (lib_fits _ _ _ _ Hlib) as (_ & ? & ? & ?).
  unfold old_header, section_table in *. rewrite Ho in *. intros [Hv Hs].
  change (load 4 (addr + l_lfanew l + 24 + directories_offset + 8 * idx + 0) m = Some (dir_va d)) in Hv.
  change (load 4 (addr + l_lfanew l + 24 + directories_offset + 8 * idx + 4) m = Some (dir_size d)) in Hs.
  rewrite <- !Z.add_assoc, <- header_word in Hv, Hs by (rewrite ?Ho; lia).
  split; [change (load 4 (base + l_lfanew l + 24 + directories_offset + 8 * idx + 0) m' = Some (dir_va d))
         |change (load 4 (base + l_lfanew l + 24 + directories_offset + 8 * idx + 4) m' = Some (dir_size d))];
    rewrite (load_agree _ _ _ _ _ _ Hsame), <- !Z.add_assoc by lia; done.
Qed.
End headers.

(** *** Relocating and linking *)

Lemma performBaseRelocation_image fuel delta blocks (s : state) :
  headers (module s) = base + l_lfanew l → codeBase (module s) = base →
  agree base (base + section_table l) (place_headers base l m) (memory_of s) →
  relocatable base delta l blocks (memory_of s) → (length blocks < fuel)%nat →
  ∃ m', (if bool_decide (delta ≠ 0) then wrap "Error relocating module" (performBaseRelocation fuel delta) else mret true) s =
    Ret (inl (bool_decide (delta = 0 ∨ dir_size (l_relocs l) ≠ 0)), with_memory m' s) ∧
    image_relocated base delta l blocks (memory_of s) m'.
Proof.
  intros Hh Hb Hsame Hok Hf. unfold image_relocated. destruct (decide (delta = 0)) as [Hz|Hz].
  { exists (memory_of s). rewrite (bool_decide_eq_false_2 (delta ≠ 0)), !(bool_decide_eq_true_2 (_ ∨ _)) by tauto.
    split; [by destruct s as [[? ?] ?]|done]. }
  rewrite (bool_decide_eq_true_2 (delta ≠ 0)) by done.
  destruct (new_directory _ Hsame IMAGE_DIRECTORY_ENTRY_BASERELOC (l_relocs l) ltac:(by vm_compute) (lib_relocs _ _ _ _ Hlib)) as [Hva Hsz].
  rewrite <- (directory_entry_new _ s) in Hva, Hsz by done.
  destruct (decide (dir_size (l_relocs l) = 0)) as [Hd|Hd].
  - exists (memory_of s). rewrite (bool_decide_eq_true_2 (_ ∨ dir_size (l_relocs l) = 0)) by tauto. split; [|done].
    rewrite Hd in Hsz |- *. apply wrap_inl. rewrite performBaseRelocation_none by done.
    do 2 f_equal; [|by destruct s as [[? ?] ?]]. f_equal. apply bool_decide_ext. tauto.
  - destruct (performBaseRelocation_runs fuel delta s _ _ blocks Hsz Hd Hva) as (m' & E & Hr); [|done|].
    { rewrite Hb. by apply Hok. }
    exists m'. rewrite (bool_decide_eq_false_2 (_ ∨ dir_size (l_relocs l) = 0)), bool_decide_eq_true_2 by tauto. rewrite Hb in Hr. split; [by apply wrap_inl|done].
Qed.

Lemma buildImportTable_image fuel n k imports (s : state) :
  headers (module s) = base + l_lfanew l → codeBase (module s) = base →
  agree base (base + section_table l) (place_headers base l m) (memory_of s) →
  linkable base l n k imports (memory_of s) → (length imports + n + k < fuel)%nat →
  ∃ s', wrap "Error building import table" (buildImportTable fuel) s = Ret (inl (), s') ∧
    module s' = image_handles l imports (module s) ∧ image_linked base l imports (memory_of s) (memory_of s').
Proof.
  intros Hh Hb Hsame Hok Hf. unfold image_linked, image_handles.
  destruct (new_directory _ Hsame IMAGE_DIRECTORY_ENTRY_IMPORT (l_imports l) ltac:(by vm_compute) (lib_imports _ _ _ _ Hlib)) as [Hva Hsz].
  rewrite <- (directory_entry_new _ s) in Hva, Hsz by done. case_bool_decide as Hd.
  - exists s. rewrite Hd in Hsz. split_and!; [apply wrap_inl, buildImportTable_none, Hsz|done..].
  - destruct (buildImportTable_runs fuel n k imports s _ _ Hsz Hd Hva) as (s' & E & P' & Hp); [|done|].
    { rewrite Hb. by apply Hok. }
    exists s'. rewrite Hb in Hp. split_and!; [by apply wrap_inl|done..].
Qed.

(** What relocation leaves of the image for the steps after it. *)
Lemma relocated_image delta n k blocks imports m1 m2 :
  image_relocated base delta l blocks m1 m2 → relocations_apart base delta l blocks imports →
  linkable base l n k imports m1 →
  agree base (base + l_hsize l) m1 m2 ∧ linkable base l n k imports m2.
Proof.
  unfold image_relocated, relocations_apart, linkable. case_bool_decide as Hd; [intros -> _ Hl; split; [by intros ? ?|done]|].
  intros Hr Ha Hl. split.
  - eapply relocated_agree; [exact Hr|]. eapply Forall_impl; [exact Ha|]. by intros w [].
  - intros Hz. eapply import_table_agree; [by eapply relocated_dom| |by apply Hl].
    unfold agrees. apply Forall_forall. intros x Hx. apply Forall_forall. intros r Hr'.
    eapply relocated_agree; [exact Hr|]. eapply Forall_impl; [exact Ha|]. intros w [_ Hw].
    rewrite Forall_forall in Hw. specialize (Hw x Hx). rewrite Forall_forall in Hw. by apply Hw.
Qed.

Lemma fill_image_correct fuel n k blocks imports (s : state) :
  memory_of s = place_headers base l m → headers (module s) = base + l_lfanew l → codeBase (module s) = base →
  let delta := up (base - l_base l) in
  relocatable base delta l blocks (placed base l m) → linkable base l n k imports (placed base l m) →
  relocations_apart base delta l blocks imports → (length blocks < fuel)%nat → (length imports + n + k < fuel)%nat →
  ∃ s' m', fill_image fuel addr size (old_header addr l) (base + l_lfanew l) s = Ret (inl (), s') ∧
    image_relocated base delta l blocks (placed base l m) m' ∧ image_linked base l imports m' (memory_of s') ∧
    module s' = image_handles l imports
      (with_isRelocated (bool_decide (delta = 0 ∨ dir_size (l_relocs l) ≠ 0)) (module s)).
Proof.
  intros Hm Hh Hb delta Hrel Hlink Hapart Hf1 Hf2. destruct new_up as (Hnew & _ & _). destruct old_up as (Hold & _).
  destruct (copySections_placed s Hm Hh Hb) as (s1 & E1 & M1 & P1 & D1 & A1).
  unfold fill_image, OptionalHeader. rewrite Hnew, Hold. erewrite bind_inl by (apply wrap_inl; exact E1).
  erewrite bind_inl by (apply field_ok; rewrite M1; apply new_base, placed_headers).
  erewrite bind_inl by (apply field_ok, (image_base_agree _ addr (addr + size) _ _ _ A1 (lib_base _ _ _ _ Hlib)); apply old_base_inside).
  cbv zeta. fold delta. rewrite <- P1 in Hh, Hb. rewrite <- M1 in Hrel.
  destruct (performBaseRelocation_image fuel delta blocks s1 Hh Hb) as (m' & E2 & R2); [|done..|].
  { rewrite M1. apply placed_headers. }
  erewrite bind_inl by exact E2. erewrite bind_inl by done. set (s2 := State _ _). rewrite M1 in R2.
  destruct (relocated_image delta n k blocks imports _ _ R2 Hapart Hlink) as [A2 Hlink'].
  destruct (buildImportTable_image fuel n k imports s2) as (s3 & E3 & P3 & L3); [done|done| |done..|].
  { eapply agree_trans; [apply placed_headers|]. eapply agree_sub, A2; [lia|]. destruct table_inside as (_ & _ & ? & _). lia. }
  exists s3, m'. split_and!; [exact E3|exact R2|exact L3|]. rewrite P3. subst s2. simpl. by rewrite P1.
Qed.

End place.

(** ** LoadLibrary *)

Lemma load_module_correct fuel addr size aligned span n k l blocks imports (s s1 : state) :
  reserve_module fuel (old_header addr l) aligned s = Ret (inl (), s1) →
  let base := codeBase (module s1) in
  let m := memory_of s1 in
  let delta := up (base - l_base l) in
  base mod 4096 = 0 → library_in addr size l m →
  room addr size base (l_hsize l) span (l_align l) (l_sections l) m →
  relocatable base delta l blocks (placed base l m) → linkable base l n k imports (placed base l m) →
  relocations_apart base delta l blocks imports → (length blocks < fuel)%nat → (length imports + n + k < fuel)%nat →
  ∃ st m', load_module fuel addr size (old_header addr l) aligned s = start_image fuel (base + l_lfanew l) st ∧
    image_relocated base delta l blocks (placed base l m) m' ∧ image_linked base l imports m' (memory_of st) ∧
    module st = image_handles l imports (with_isRelocated (bool_decide (delta = 0 ∨ dir_size (l_relocs l) ≠ 0))
      (with_headers (base + l_lfanew l) (module s1))).
Proof.
  intros Hres base m delta Hpage Hlib Hroom Hrel Hlink Hapart Hf1 Hf2.
  destruct (copy_headers_correct addr size base span l m Hlib Hroom s1) as (s2 & E2 & M2 & P2); [done..|].
  destruct (fill_image_correct addr size base span l m Hlib Hroom fuel n k blocks imports s2)
    as (st & m' & E3 & R & L & P3); [done|by rewrite P2|by rewrite P2|done..|].
  exists st, m'. split_and!; [|done|done|by rewrite P3, P2].
  unfold load_module. erewrite bind_inl by exact Hres. unfold load_image.
  erewrite bind_inl by exact E2. by erewrite bind_inl by exact E3.
Qed.

(** The rest of [LoadLibrary], once the image is linked ([MemmodStart.v] says what it does). *)
Definition finish (fuel : nat) (newHeader : Z) : M () :=
  free_on_error (_ ← start_image fuel newHeader; ignore (buildNameExports fuel)).

(** C12: Loading lays the library out in memory as its headers say, moves it and links it, and
    does nothing else before its pages are protected and its code runs.  When the headers are
    accepted and the memory of the image is reserved (the state is then [s1]), in one piece of
    mapped pages apart from the file, big enough for the headers and each section; and the
    image, once it is laid out, has a relocation table and an import table as a linker makes
    them, of libraries that Windows can load, with fuel for their blocks, libraries, functions
    and names: then no copy, page commit, relocation or import fails, and [LoadLibrary] goes
    on to protect and start the image, and to index its exports, in a state where

    - the memory is that of [s1] with the headers at the base of the image, the new base in
      them, each section's data (or its zeros) at its virtual address and its physical
      address in the section table; then, if the image is not at its preferred address, each
      word of the relocation table moved by the distance; then each slot of the import table
      filled with the address of its function; and every other byte as it was;
    - the module has the new headers, the handles of its libraries in their order, and counts
      as relocated if it did not move or has a relocation table. *)
Theorem LoadLibrary_correct fuel addr size aligned span n k l blocks imports (s s1 : state) :
  check_headers addr size s = Ret (inl (old_header addr l, aligned), s) →
  reserve_module fuel (old_header addr l) aligned s = Ret (inl (), s1) →
  let base := codeBase (module s1) in
  let m := memory_of s1 in
  let delta := up (base - l_base l) in
  base mod 4096 = 0 → library_in addr size l m →
  room addr size base (l_hsize l) span (l_align l) (l_sections l) m →
  relocatable base delta l blocks (placed base l m) → linkable base l n k imports (placed base l m) →
  relocations_apart base delta l blocks imports → (length blocks < fuel)%nat → (length imports + n + k < fuel)%nat →
  ∃ st m', LoadLibrary fuel addr size s = finish fuel (base + l_lfanew l) st ∧
    image_relocated base delta l blocks (placed base l m) m' ∧ image_linked base l imports m' (memory_of st) ∧
    module st = image_handles l imports (with_isRelocated (bool_decide (delta = 0 ∨ dir_size (l_relocs l) ≠ 0))
      (with_headers (base + l_lfanew l) (module s1))).
Proof.
  intros Hchk Hres base m delta Hpage Hlib Hroom Hrel Hlink Hapart Hf1 Hf2.
  destruct (load_module_correct fuel addr size aligned span n k l blocks imports s s1 Hres) as (st & m' & E & R & L & P); [done..|].
  exists st, m'. split_and!; [|done..]. unfold LoadLibrary, finish. erewrite bind_inl by exact Hchk. cbv beta iota.
  unfold free_on_error, mbind, M_bind. by rewrite E.
Qed.

End load.
