(* ===== verification/MemmodStart.v ===== *)
(** * The start of a library

    The end of [LoadLibrary] in [Memmod.v], on an image that is laid out and linked: its pages
    are protected, its TLS callbacks and its entry point are called. *)

From S2P Require Import Prelude Sys Pe Memmod MemmodFacts MemmodImports MemmodSections MemmodLoad.

Local Open Scope Z_scope.

Section start.
Context `{Arch} {OS : Type} `{WinAPI OS} `{!Pages}.

Abbreviation M := (M OS).
Abbreviation state := (state OS).
Abbreviation finish := (MemmodLoad.finish (OS := OS)).

(** ** Protecting the runs *)

Lemma runs_flags sd ds :
  Forall (λ d, in_uint 32 (fd_characteristics d)) (sd :: ds) →
  Forall (λ r, in_uint 32 (fd_characteristics r)) (runs sd ds).
Proof.
  revert sd. induction ds as [|d ds IH]; intros sd; cbn [runs].
  - intros [Hc _]%Forall_cons. by apply Forall_singleton.
  - intros [Hc Hds]%Forall_cons. case_match.
    + apply IH. apply Forall_cons in Hds as [Hd Hds]. apply Forall_cons. split; [by apply combine_in|done].
    + apply Forall_cons. split; [done|by apply IH].
Qed.

Lemma reader_headerDirectory i : reader (headerDirectory (OS := OS) i).
Proof. apply reader_bind; [apply reader_self|intros ?; apply reader_ret]. Qed.

Lemma reads_after {A} hm (s s1 : state) (m : M A) a :
  reader m → reads hm s m a → module s1 = module s → reads hm s1 m a.
Proof. intros Hm Ha Hs. by eapply (reads_in hm s). Qed.

(** Windows may refuse a protection, but nothing else stops the finalization of a run. *)
Lemma finalizeSection_returns hm sd al (s : state) :
  hm ⊆ memory_of s → in_uint 32 (fd_characteristics sd) →
  reads hm s (OptionalHeader "SectionAlignment" (headers (module s))) al → al ≠ 0 →
  ∃ r s1, finalizeSection sd s = Ret (r, s1).
Proof.
  intros Hsub Hc Hal Hne. unfold finalizeSection. case_bool_decide; [by eexists _, _|].
  case_bool_decide; [|destruct (protection_permits _ Hc) as (p & -> & _)].
  - case_bool_decide; [|by eexists _, _].
    assert (∃ w, (if fd_last sd then mret true else
      hdr ← self headers; alignment ← OptionalHeader "SectionAlignment" hdr;
      if bool_decide (alignment = 0) then panic "integer divide by zero"
      else mret (bool_decide (fd_size sd `mod` alignment = 0))) s = Ret (inl w, s)) as [w E].
    { destruct (fd_last sd); [by eexists|]. erewrite bind_inl by reflexivity.
      erewrite bind_inl; [|eapply (reads_in hm s); [apply reader_field|exact Hal|done|done]].
      rewrite bool_decide_eq_false_2 by done. by eexists. }
    erewrite bind_inl by exact E. destruct w; by eexists _, _.
  - unfold call, mbind, M_bind. destruct (VirtualProtect (fd_address sd) (fd_size sd) p (mach s)) as [[z|] m]; by eexists _, _.
Qed.

(** The headers and whatever else no run discards stay as they are. *)
Lemma finalize_all_returns hm al rs (s : state) :
  hm ⊆ memory_of s → Forall (λ r, in_uint 32 (fd_characteristics r)) rs → Forall (spares hm) rs →
  reads hm s (OptionalHeader "SectionAlignment" (headers (module s))) al → al ≠ 0 →
  ∃ r s1, for_each rs finalize s = Ret (r, s1) ∧ module s1 = module s ∧ hm ⊆ memory_of s1.
Proof.
  intros Hsub Hc Hs Hal Hne. revert s Hsub Hal. induction Hc as [|d rs Hd Hrs IH]; intros s Hsub Hal.
  - by eexists _, s.
  - apply Forall_cons in Hs as [Hsd Hs]. cbn [for_each].
    destruct (finalizeSection_returns hm d al s Hsub Hd Hal Hne) as (r & s1 & E).
    assert (∃ r', finalize d s = Ret (r', s1)) as [r' E'] by (unfold finalize, wrap; rewrite E; destruct r; eauto).
    pose proof (finalize_headers hm d s s1 r' Hsub Hsd E') as [Hm1 Hs1]. unfold mbind, M_bind. rewrite E'.
    destruct r' as [u|e]; [|by eexists _, s1]. rewrite <- Hm1. apply IH; [done|done|].
    rewrite Hm1. by eapply reads_after; [apply reader_field|exact Hal|].
Qed.

(** ** The callbacks *)

(** The pointers from [a] on in the memory [hm], up to a null pointer. *)
Fixpoint callback_table (a : Z) (callbacks : list Z) (hm : memory) : Prop :=
  match callbacks with
  | [] => load (Z.to_nat (wordsize / 8)) a hm = Some 0
  | f :: callbacks => load (Z.to_nat (wordsize / 8)) a hm = Some f ∧ f ≠ 0 ∧
      callback_table (up (a + wordsize / 8)) callbacks hm
  end.

(** The callbacks that the TLS directory names. *)
Definition tls_callbacks (hm : memory) (s : state) (callbacks : list Z) : Prop :=
  ∃ directory va, reads hm s (headerDirectory IMAGE_DIRECTORY_ENTRY_TLS) directory ∧
    reads hm s (field_ IMAGE_DATA_DIRECTORY "VirtualAddress" directory) va ∧
    if bool_decide (va = 0) then callbacks = [] else
    ∃ a, reads hm s (field_ IMAGE_TLS_DIRECTORY "AddressOfCallbacks" (up (codeBase (module s) + va))) a ∧
      if bool_decide (a = 0) then callbacks = [] else callback_table a callbacks hm.

(** A function of the library is called with the reason [DLL_PROCESS_ATTACH]. *)
Definition attach (base : Z) (m : machine OS) (f : Z) : machine OS := (Syscall f base DLL_PROCESS_ATTACH 0 m).2.

Definition with_mach (m : machine OS) (s : state) : state := State m (module s).

(** It leaves the memory [hm] alone. *)
Definition leaves (hm : memory) (base f : Z) : Prop := ∀ m, hm ⊆ mem m → hm ⊆ mem (attach base m f).

Lemma load_weaken n a (m m' : memory) v : m ⊆ m' → load n a m = Some v → load n a m' = Some v.
Proof. unfold load. intros Hm (b & Hb & ->)%fmap_Some. by rewrite (load_bytes_weaken _ _ _ _ _ Hm Hb). Qed.

Lemma attach_all_leaves hm base fs (m : machine OS) :
  Forall (leaves hm base) fs → hm ⊆ mem m → hm ⊆ mem (foldl (attach base) m fs).
Proof. intros Hf. revert m. induction Hf as [|f fs Hf Hfs IH]; intros m Hm; simpl; [done|]. by apply IH, Hf. Qed.

Lemma tls_loop_attaches fuel a fs hm (s : state) :
  (length fs < fuel)%nat → callback_table a fs hm → Forall (leaves hm (codeBase (module s))) fs → hm ⊆ memory_of s →
  tls_loop fuel a s = Ret (inl (), with_mach (foldl (attach (codeBase (module s))) (mach s) fs) s).
Proof.
  revert fuel a s. induction fs as [|f fs IH]; intros [|fuel] a s Hf Ht Hl Hsub; simpl in Hf; try lia; cbn [tls_loop callback_table] in Ht |- *.
  - erewrite bind_inl by (apply rd_ok; by eapply load_weaken). rewrite bool_decide_eq_true_2 by done. by destruct s.
  - destruct Ht as (Hv & Hne & Ht). apply Forall_cons in Hl as [Hfl Hl].
    erewrite bind_inl by (apply rd_ok; by eapply load_weaken). rewrite bool_decide_eq_false_2 by done.
    erewrite bind_inl by done. set (s1 := with_mach (attach (codeBase (module s)) (mach s) f) s).
    rewrite (bind_inl _ _ _ (Syscall f (codeBase (module s)) DLL_PROCESS_ATTACH 0 (mach s)).1 s1); cycle 1.
    { unfold call, s1, with_mach, attach. by destruct (Syscall _ _ _ _ _). }
    rewrite (IH fuel _ s1); [done|lia|done|done|]. by apply Hfl.
Qed.

Lemma executeTLS_attaches fuel fs hm (s : state) :
  (length fs < fuel)%nat → tls_callbacks hm s fs → Forall (leaves hm (codeBase (module s))) fs → hm ⊆ memory_of s →
  executeTLS fuel s = Ret (inl (), with_mach (foldl (attach (codeBase (module s))) (mach s) fs) s).
Proof.
  intros Hf (dir & va & Hdir & Hva & Hcb) Hl Hsub. unfold executeTLS.
  assert (∀ {A} (m : M A) a, reader m → reads hm s m a → m s = Ret (inl a, s)) as Hr.
  { intros A m a Hm Ha. by eapply (reads_in hm s). }
  erewrite bind_inl by (eapply Hr; [apply reader_headerDirectory|exact Hdir]).
  erewrite bind_inl by (eapply Hr; [apply reader_field|exact Hva]).
  case_bool_decide; [subst fs; by destruct s|]. erewrite bind_inl by done. destruct Hcb as (a & Ha & Hcb).
  erewrite bind_inl by (eapply Hr; [apply reader_field|exact Ha]).
  case_bool_decide; [subst fs; by destruct s|]. by apply (tls_loop_attaches _ _ _ hm).
Qed.

(** ** The entry point *)

(** The entry point of a library at [e] has been called, or that of a program is known. *)
Definition enter (fuel : nat) (e : Z) (s : state) : outcome ((() + error) * state) :=
  let s := State (mach s) (with_entry e (module s)) in
  if isDLL (module s) then
    let '(r0, m) := Syscall e (codeBase (module s)) DLL_PROCESS_ATTACH 0 (mach s) in
    if bool_decide (r0 = 0) then free_on_error (throw (Errno ERROR_DLL_INIT_FAILED)) (with_mach m s)
    else ignore (buildNameExports fuel) (State m (with_initialized true (module s)))
  else ignore (buildNameExports fuel) s.

Lemma free_on_error_ignore (m : M ()) (s : state) : free_on_error (ignore m) s = ignore m s.
Proof. unfold free_on_error, ignore. by destruct (m s) as [[[u|e] s1]| |]. Qed.

Lemma free_on_error_inl {A} (m : M ()) (f : () → M A) a (s s1 : state) :
  m s = Ret (inl a, s1) → free_on_error (m ≫= f) s = free_on_error (f a) s1.
Proof. intros E. unfold free_on_error, mbind, M_bind. by rewrite E. Qed.

Lemma free_on_error_inr {A} (m : M ()) (f : () → M A) e (s s1 : state) :
  m s = Ret (inr e, s1) → free_on_error (m ≫= f) s = free_on_error (throw e) s1.
Proof. intros E. unfold free_on_error, mbind, M_bind. by rewrite E. Qed.

Lemma start_image_enters fuel h ep hm (s s1 s2 : state) :
  finalizeSections s = Ret (inl (), s1) → executeTLS fuel s1 = Ret (inl (), s2) →
  reads hm s (OptionalHeader "AddressOfEntryPoint" h) ep → module s2 = module s → hm ⊆ memory_of s2 →
  finish fuel h s = if bool_decide (ep = 0) then ignore (buildNameExports fuel) s2
                    else enter fuel (up (codeBase (module s) + ep)) s2.
Proof.
  intros E1 E2 Hep Hmod Hsub.
  assert (OptionalHeader "AddressOfEntryPoint" h s2 = Ret (inl ep, s2)) as E3 by (eapply (reads_in hm s); [apply reader_field|done..]).
  assert (start_image fuel h s = (if bool_decide (ep = 0) then mret () else
    _ ← update (with_entry (up (codeBase (module s) + ep)));
    if isDLL (module s) then
      r0 ← call (Syscall (up (codeBase (module s) + ep)) (codeBase (module s)) DLL_PROCESS_ATTACH 0);
      if bool_decide (r0 = 0) then throw (Errno ERROR_DLL_INIT_FAILED) else update (with_initialized true)
    else mret ()) s2) as E.
  { unfold start_image. rewrite (bind_inl _ _ _ () s1) by (unfold wrap; by rewrite E1).
    erewrite bind_inl by exact E2. erewrite bind_inl by exact E3. destruct (decide (ep = 0)) as [->|Hne].
    - by rewrite bool_decide_eq_false_2, bool_decide_eq_true_2 by tauto.
    - rewrite bool_decide_eq_true_2, bool_decide_eq_false_2 by done. rewrite <- Hmod.
      do 3 erewrite bind_inl by done. erewrite (bind_inl (update _)) by done.
      cbn [isDLL with_entry module]. destruct (isDLL (module s2)); [|done]. by erewrite bind_inl by done. }
  unfold MemmodLoad.finish, enter. cbn [mach module]. destruct (decide (ep = 0)) as [->|Hne].
  - rewrite bool_decide_eq_true_2 in E |- * by done. by rewrite (free_on_error_inl _ _ () s s2), free_on_error_ignore.
  - rewrite bool_decide_eq_false_2 in E |- * by done. rewrite <- Hmod in *.
    set (e := up (codeBase (module s2) + ep)) in *. set (s3 := State (mach s2) (with_entry e (module s2))).
    rewrite (bind_inl _ _ _ () s3) in E by done.
    change (isDLL (with_entry e (module s2))) with (isDLL (module s2)).
    change (codeBase (with_entry e (module s2))) with (codeBase (module s2)).
    destruct (isDLL (module s2)).
    + destruct (Syscall e (codeBase (module s2)) DLL_PROCESS_ATTACH 0 (mach s2)) as [r0 m] eqn:Es.
      rewrite (bind_inl _ _ _ r0 (with_mach m s3)) in E by (unfold call; simpl; by rewrite Es).
      case_bool_decide.
      * by rewrite (free_on_error_inr _ _ (Errno ERROR_DLL_INIT_FAILED) s (with_mach m s3)).
      * by rewrite (free_on_error_inl _ _ () s (State m (with_initialized true (module s3)))), free_on_error_ignore.
    + by rewrite (free_on_error_inl _ _ () s s3), free_on_error_ignore.
Qed.

(** A library that is in memory is started as Windows starts one.  Let the state [s] be
    that of a linked image (the one [LoadLibrary_correct] ends with), where the memory [hm],
    which has the headers and the table of TLS callbacks, is on no page that is discarded and
    is left alone by the callbacks.  Then the pages of its sections are protected, or Windows
    refuses one: the load fails, the module is freed, and no code of the library has run.
    Otherwise each callback of the table is called once, in its order, with the base of the
    image and [DLL_PROCESS_ATTACH]; then, if the header has one, the entry point of a DLL is
    called in the same way, and only that of a DLL; if it returns zero the load fails and
    the module is freed; otherwise the module is initialized, and its exports are indexed. *)
Theorem finish_calls_library fuel h hm (s : state) secs offset d ds alignment callbacks entryPoint :
  hm ⊆ memory_of s →
  reads hm s (Sections (headers (module s))) secs → reads hm s (imageOffset (headers (module s))) offset →
  Forall2 (λ a d, reads hm s (sectionData offset a) d) secs (d :: ds) →
  reads hm s (OptionalHeader "SectionAlignment" (headers (module s))) alignment → alignment ≠ 0 →
  Forall (λ d, in_uint 32 (fd_characteristics d)) (d :: ds) → Forall (spares hm) (runs d ds) →
  tls_callbacks hm s callbacks → Forall (leaves hm (codeBase (module s))) callbacks → (length callbacks < fuel)%nat →
  reads hm s (OptionalHeader "AddressOfEntryPoint" h) entryPoint →
  let base := codeBase (module s) in
  ∃ r s1, finalizeSections s = Ret (r, s1) ∧ module s1 = module s ∧ hm ⊆ memory_of s1 ∧
    finish fuel h s =
      match r with
      | inr e => free_on_error (throw (Wrap "Error finalizing sections" e)) s1
      | inl () =>
          let s2 := with_mach (foldl (attach base) (mach s1) callbacks) s1 in
          if bool_decide (entryPoint = 0) then ignore (buildNameExports fuel) s2
          else enter fuel (up (base + entryPoint)) s2
      end.
Proof.
  intros Hsub Hsecs Hoff Hds Hal Hne Hc Hsp Htls Hl Hf Hep base.
  destruct (finalize_all_returns hm alignment (runs d ds) s) as (r & s1 & E & Hm1 & Hs1); [done|by apply runs_flags|done..|].
  rewrite <- (finalizeSections_runs hm s secs offset) in E by done.
  exists r, s1. split_and!; [done..|]. destruct r as [[]|e].
  - assert (executeTLS fuel s1 = Ret (inl (), with_mach (foldl (attach base) (mach s1) callbacks) s1)) as Et.
    { unfold base. rewrite <- Hm1. apply (executeTLS_attaches _ _ hm); [done| |by rewrite Hm1|done].
      destruct Htls as (dir & va & Hdir & Hva & Hcb). exists dir, va.
      split_and!; [by eapply reads_after; [apply reader_headerDirectory|..]|by eapply reads_after; [apply reader_field|..]|].
      case_bool_decide; [done|]. destruct Hcb as (a & Ha & Hcb). exists a. split; [|done]. rewrite Hm1.
      by eapply reads_after; [apply reader_field|..]. }
    rewrite (start_image_enters _ _ entryPoint hm _ _ _ E Et Hep); [done|done|]. by apply attach_all_leaves.
  - unfold MemmodLoad.finish, start_image. apply free_on_error_inr.
    rewrite (bind_inr _ _ _ (Wrap "Error finalizing sections" e) s1); [done|]. unfold wrap. by rewrite E.
Qed.

End start.
