(* ===== verification/MemmodAttach.v ===== *)
(** * A load from the file to the entry point

    [MemmodLoad.v] goes from the file to the linked image, [MemmodStart.v] from a linked image
    to the calls of the library's functions.  Here are the two together: what the second
    needs of the headers is read off the file. *)

From S2P Require Import Prelude Sys Pe Memmod MemmodFacts MemmodLedger MemmodImports MemmodSections MemmodLoad MemmodStart.

Local Open Scope Z_scope.

Section attach.
Context `{Arch} {OS : Type} `{WinAPI OS} `{!Committer} `{!Linker OS} `{!Pages}.

Abbreviation M := (M OS).
Abbreviation state := (state OS).

(** ** What the file says of the start

    The characteristics of the sections, the sizes of those without data, the entry point. *)
Record start_desc := { c_flags : list Z; c_init : Z; c_uninit : Z; c_entry : Z }.

Fixpoint flags_in (m : memory) (a : Z) (fs : list Z) : Prop :=
  match fs with
  | [] => True
  | f :: fs => get IMAGE_SECTION_HEADER "Characteristics" a m = Some f ∧ flags_in m (a + 40) fs
  end.

Record start_in (addr : Z) (l : library) (c : start_desc) (m : memory) : Prop := {
  start_flags : flags_in m (addr + section_table l) (c_flags c);
  start_length : length (c_flags c) = length (l_sections l);
  start_init : get IMAGE_OPTIONAL_HEADER "SizeOfInitializedData" (old_header addr l + OffsetOptionalHeader) m = Some (c_init c);
  start_uninit : get IMAGE_OPTIONAL_HEADER "SizeOfUninitializedData" (old_header addr l + OffsetOptionalHeader) m = Some (c_uninit c);
  start_entry : get IMAGE_OPTIONAL_HEADER "AddressOfEntryPoint" (old_header addr l + OffsetOptionalHeader) m = Some (c_entry c);
}.

(** What is protected of a section in the image at [base]. *)
Definition section_size (c : start_desc) (d : section_desc) (f : Z) : Z :=
  if bool_decide (s_raw d ≠ 0) then s_raw d
  else if bool_decide (Z.land f IMAGE_SCN_CNT_INITIALIZED_DATA ≠ 0) then c_init c
  else if bool_decide (Z.land f IMAGE_SCN_CNT_UNINITIALIZED_DATA ≠ 0) then c_uninit c
  else 0.

Definition described (base : Z) (l : library) (c : start_desc) (d : section_desc) (f : Z) : sectionFinalizeData :=
  {| fd_address := base + s_va d; fd_alignedAddress := alignDown (base + s_va d) (l_align l);
     fd_size := section_size c d f; fd_characteristics := f; fd_last := false |}.

Definition sections_of (base : Z) (l : library) (c : start_desc) : list sectionFinalizeData :=
  zip_with (described base l c) (l_sections l) (c_flags c).

Lemma sections_described base l c :
  length (c_flags c) = length (l_sections l) → l_sections l ≠ [] → ∃ d ds, sections_of base l c = d :: ds.
Proof. unfold sections_of. destruct (l_sections l), (c_flags c); try done; cbn [zip_with]; eauto. Qed.

Lemma described_flags base l c :
  Forall (in_uint 32) (c_flags c) → Forall (λ d, in_uint 32 (fd_characteristics d)) (sections_of base l c).
Proof.
  unfold sections_of. intros Hc. revert Hc. generalize (l_sections l), (c_flags c).
  induction l0 as [|d ds IH]; intros [|f fs]; cbn [zip_with]; [done..|].
  intros [Hf Hfs]%Forall_cons. apply Forall_cons. split; [exact Hf|by apply IH].
Qed.

(** The runs of sections that are protected as one. *)
Definition runs_of (ds : list sectionFinalizeData) : list sectionFinalizeData :=
  match ds with [] => [] | d :: ds => runs d ds end.

(** No slot that is filled when the imports are linked is in the headers. *)
Definition slots_apart (base : Z) (l : library) (imports : list imported) : Prop :=
  dir_size (l_imports l) ≠ 0 →
  Forall (λ w, clear_of w.1 (base, l_hsize l)) (slots (descriptor_accesses base (up (base + dir_va (l_imports l))) imports)).

(** ** The section table of the image *)

(** The table [m] at [a], with the addresses that placing the sections put into it. *)
Fixpoint table_placed (base a : Z) (ds : list section_desc) (fs : list Z) (m : memory) : Prop :=
  match ds, fs with
  | d :: ds, f :: fs =>
      load 4 (a + 8) m = Some (Z.land (base + s_va d) 0xffffffff) ∧ load 4 (a + 16) m = Some (s_raw d) ∧
      load 4 (a + 36) m = Some f ∧ table_placed base (a + 40) ds fs m
  | _, _ => True
  end.

Lemma table_placed_agree base a ds fs m m' :
  agree a (a + 40 * Z.of_nat (length ds)) m m' → table_placed base a ds fs m → table_placed base a ds fs m'.
Proof.
  revert a fs. induction ds as [|d ds IH]; intros a [|f fs] Ha; [done..|]. cbn [table_placed length] in *.
  intros (H1' & H2' & H3' & Ht).
  split_and!; [by rewrite (load_agree _ _ _ _ _ _ Ha) by lia..|]. apply IH; [|done]. eapply agree_sub, Ha; lia.
Qed.

Lemma place_section_physical base align file a d m :
  0 <= align → align ≠ 0 → mapped_in (a + 8) (a + 12) m → a + 12 <= base + s_va d →
  mapped_in (base + s_va d) (base + s_va d + s_len align d) m → 0 <= s_raw d →
  (Z.to_nat (s_ptr d) + Z.to_nat (s_raw d) <= length file)%nat →
  load 4 (a + 8) (place_section base align file a d m) = Some (Z.land (base + s_va d) 0xffffffff).
Proof.
  intros Hal Hne Hm Hlo Hd Hr Hf.
  assert (∀ m1, mapped_in (a + 8) (a + 12) m1 →
    load 4 (a + 8) (put_physical base a d m1) = Some (Z.land (base + s_va d) 0xffffffff)) as Hp.
  { intros m1 Hm1. assert (store 4 (a + 8) (Z.land (base + s_va d) 0xffffffff) m1 = Some (put_physical base a d m1)) as E.
    { unfold store. apply store_bytes_put. rewrite le_split_length. by replace (a + 8 + Z.of_nat 4) with (a + 12) by lia. }
    apply load_store in E as (-> & _). f_equal. apply Z.mod_small. change 0xffffffff with (Z.ones 32).
    rewrite Z.land_ones by done. by apply Z.mod_pos_bound. }
  unfold place_section, s_len in *. case_bool_decide.
  - rewrite bool_decide_eq_false_2 by done. erewrite load_agree; [by apply Hp|apply (agree_put a (base + s_va d)); lia|lia|lia].
  - apply Hp. eapply mapped_dom, Hm. apply put_bytes_dom. rewrite length_take, length_drop. eapply mapped_sub, Hd; lia.
Qed.


Lemma flags_in_agree m m' a fs :
  agree a (a + 40 * Z.of_nat (length fs)) m m' → flags_in m a fs → flags_in m' a fs.
Proof.
  revert a. induction fs as [|f fs IH]; intros a Ha; [done|]. cbn [length flags_in] in *. intros [Hf Hfs].
  change (load 4 (a + 36) m = Some f) in Hf. split; [|eapply IH, Hfs; eapply agree_sub, Ha; lia].
  change (load 4 (a + 36) m' = Some f). by rewrite (load_agree _ _ _ _ _ _ Ha) by lia.
Qed.

Lemma section_fits_dom base hsize size align d m m' :
  dom m' = dom m → section_fits base hsize size align d m → section_fits base hsize size align d m'.
Proof. intros Hd []. split; try done. by eapply mapped_dom. Qed.

Lemma place_sections_table base hsize size align file a ds fs m :
  0 <= align → align ≠ 0 → base <= a → a + 40 * Z.of_nat (length ds) <= base + hsize → length fs = length ds →
  sections_in m a ds → flags_in m a fs → Forall (λ d, section_fits base hsize size align d m) ds →
  Forall (λ d, 0 <= s_raw d ∧ (Z.to_nat (s_ptr d) + Z.to_nat (s_raw d) <= length file)%nat) ds →
  mapped_in base (base + hsize) m →
  table_placed base a ds fs (place_sections base align file a ds m).
Proof.
  intros Hal Hne. revert a fs m. induction ds as [|d ds IH]; intros a [|f fs] m Hlo Hhi Hlen; cbn [length] in *; try done.
  intros [Hd Hds] [Hf Hfs] [Hfd Hfds]%Forall_cons [[Hr Hfile] Hfiles]%Forall_cons Hm. cbn [place_sections table_placed].
  pose proof (section_in_range _ _ _ Hd) as (Hva & _). pose proof (fits_above _ _ _ _ _ _ Hfd) as Hab.
  pose proof Hd as (_ & Hraw & _). change (load 4 (a + 16) m = Some (s_raw d)) in Hraw. change (load 4 (a + 36) m = Some f) in Hf.
  assert (mapped_in (a + 8) (a + 12) m) as Hm8 by (eapply mapped_sub, Hm; lia).
  set (m1 := place_section base align file a d m).
  assert (dom m1 = dom m) as D1 by (eapply place_section_dom; [done|done|done|exact Hfd|exact Hm8]).
  assert (agree a (a + 40) m1 (place_sections base align file (a + 40) ds m1)) as A2.
  { apply place_sections_agree; [done|lia|]. rewrite !Forall_forall in *. intros d' Hd'.
    destruct (Hfiles d' Hd'). pose proof (fits_above _ _ _ _ _ _ (Hfds d' Hd')). split_and!; [done|done|lia]. }
  assert (agree (a + 12) (a + 40) m m1) as A1 by (apply place_section_agree; done || lia).
  assert (agree (a + 40) (a + 40 + 40 * Z.of_nat (length ds)) m m1) as A3 by (apply place_section_agree; done || lia).
  split_and!.
  - rewrite (load_agree _ _ _ _ _ _ A2) by lia. apply place_section_physical; try done; [lia|]. apply Hfd.
  - rewrite (load_agree _ _ _ _ _ _ A2), (load_agree _ _ _ _ _ _ A1) by lia. done.
  - rewrite (load_agree _ _ _ _ _ _ A2), (load_agree _ _ _ _ _ _ A1) by lia. done.
  - apply IH; [lia|lia|lia|by eapply sections_in_agree|eapply flags_in_agree, Hfs; by replace (length fs) with (length ds) by lia| |done|by eapply mapped_dom].
    eapply Forall_impl; [exact Hfds|]. intros d'. by apply section_fits_dom.
Qed.

(** ** Reading the headers of the image *)

(** A 32-bit field of the optional header that is not the base. *)
Definition kept_field (f : string) : Prop :=
  ∃ o, offsetof IMAGE_OPTIONAL_HEADER 0 f = Some o ∧ Z.to_nat (f_width IMAGE_OPTIONAL_HEADER f) = 4%nat ∧
    0 <= o ∧ o + 4 <= sizeof IMAGE_OPTIONAL_HEADER ∧
    (o + 4 <= image_base_offset ∨ image_base_offset + Z.of_nat ptrsize <= o).

Lemma kept_fields :
  Forall kept_field ["SizeOfInitializedData"; "SizeOfUninitializedData"; "AddressOfEntryPoint"; "SectionAlignment"]%string.
Proof.
  unfold kept_field, image_base_offset, IMAGE_OPTIONAL_HEADER, IMAGE_OPTIONAL_HEADER_32, IMAGE_OPTIONAL_HEADER_64, uintptr, ptrsize, wordsize.
  repeat constructor; destruct w64; (eexists; split; [vm_compute; reflexivity|]);
    (split; [by vm_compute|]); (split; [done|]); (split; [by vm_compute|]); first [left; by vm_compute|right; by vm_compute].
Qed.

Section image.
Variables addr size base span : Z.
Variable l : library.
Variable c : start_desc.
Variable m : memory.
Hypothesis Hlib : library_in addr size l m.
Hypothesis Hroom : room addr size base (l_hsize l) span (l_align l) (l_sections l) m.
Hypothesis Hstart : start_in addr l c m.
Hypothesis Halign : l_align l ≠ 0.

Lemma flags_moved : flags_in (place_headers base l m) (base + section_table l) (c_flags c).
Proof.
  destruct (table_inside _ _ _ _ Hlib) as (H1' & H2' & _). destruct (lib_fits _ _ _ _ Hlib) as (_ & _ & H3' & _).
  pose proof (start_flags _ _ _ _ Hstart) as Hs. rewrite <- (start_length _ _ _ _ Hstart) in H3'.
  revert H1' H2' H3' Hs. generalize (c_flags c), (section_table l).
  intros fs. induction fs as [|f fs IH]; intros t H1' H2' H3'; [done|]. cbn [length] in H3'.
  intros [Hf Hfs]. change (load 4 (addr + t + 36) m = Some f) in Hf. split.
  - change (load 4 (base + t + 36) (place_headers base l m) = Some f).
    rewrite <- Z.add_assoc in *. by rewrite (header_word _ _ _ _ _ _ Hlib Hroom) by lia.
  - rewrite <- Z.add_assoc in *. apply IH; [lia..|done].
Qed.

Lemma table_moved : table_placed base (base + section_table l) (l_sections l) (c_flags c) (placed base l m).
Proof.
  destruct (table_inside _ _ _ _ Hlib) as (? & ? & ? & _). destruct (lib_fits _ _ _ _ Hlib) as (_ & _ & ? & _).
  pose proof (place_headers_dom _ _ _ _ _ _ Hlib Hroom) as Hd.
  destruct (room_dom _ _ _ _ _ _ _ _ _ Hd Hroom) as [_ (? & ? & ? & ?) _ Hm Hf].
  apply (place_sections_table base (l_hsize l) size); [done|done|lia|lia|apply (start_length _ _ _ _ Hstart)|
    exact (place_headers_sections _ _ _ _ _ _ Hlib Hroom)|exact flags_moved| |
    exact (sections_fit_file _ _ _ _ _ _ Hlib Hroom)|done].
  eapply Forall_impl; [exact Hf|]. by intros d [].
Qed.

Lemma sections_positive : Forall (λ d, 0 <= s_va d) (l_sections l).
Proof.
  pose proof (lib_sections _ _ _ _ Hlib) as Hs. revert Hs. generalize (l_sections l), (addr + section_table l).
  intros ds. induction ds as [|d ds IH]; intros a; [done|].
  intros [Hd Hds]. apply Forall_cons. split; [by apply section_in_range in Hd as [? _]|exact (IH _ Hds)].
Qed.

Lemma flags_range : Forall (in_uint 32) (c_flags c).
Proof.
  pose proof (start_flags _ _ _ _ Hstart) as Hs. revert Hs. generalize (c_flags c), (addr + section_table l).
  intros fs. induction fs as [|f fs IH]; intros a; [done|]. intros [Hf Hfs]. apply Forall_cons. split; [|exact (IH _ Hfs)].
  change (load 4 (a + 36) m = Some f) in Hf. by apply load_range in Hf.
Qed.

(** A memory [hm] that has the headers of the image. *)
Section headers.
Variable hm : memory.
Variable st : state.
Hypothesis Hsame : agree base (base + l_hsize l) (placed base l m) hm.
Hypothesis Hheaders : headers (module st) = base + l_lfanew l.

Lemma new_headers : agree base (base + section_table l) (place_headers base l m) hm.
Proof.
  destruct (table_inside _ _ _ _ Hlib) as (? & ? & ? & _).
  eapply agree_trans; [exact (placed_headers _ _ _ _ _ _ Hlib Hroom)|]. eapply agree_sub, Hsame; lia.
Qed.

Lemma new_word k j :
  0 <= j → j + Z.of_nat k <= section_table l →
  j + Z.of_nat k <= l_lfanew l + OffsetOptionalHeader + image_base_offset ∨
  l_lfanew l + OffsetOptionalHeader + image_base_offset + Z.of_nat ptrsize <= j →
  load k (base + j) hm = load k (addr + j) m.
Proof.
  intros Hj Hk Hb. destruct (table_inside _ _ _ _ Hlib) as (? & ? & ? & _).
  rewrite (load_agree _ _ _ _ _ _ new_headers) by lia. apply (header_word _ _ _ _ _ _ Hlib Hroom); lia || done.
Qed.

Lemma new_optional f v :
  kept_field f → get IMAGE_OPTIONAL_HEADER f (old_header addr l + OffsetOptionalHeader) m = Some v →
  reads hm st (OptionalHeader f (base + l_lfanew l)) v.
Proof.
  intros (o & Ho & Hw & ? & ? & Hb). rewrite (get_load _ _ _ _ _ Ho), Hw. intros Hv. unfold reads, OptionalHeader.
  destruct (new_up _ _ _ _ _ _ Hlib Hroom) as (-> & _). destruct (table_inside _ _ _ _ Hlib) as (? & ? & ? & E).
  destruct (lib_fits _ _ _ _ Hlib) as (_ & ? & _ & _). pose proof (lfanew_range _ _ _ _ Hlib).
  unfold section_table, old_header in *. rewrite E in *.
  apply field_ok. rewrite (get_load _ _ _ _ _ Ho), Hw, <- Hv.
  change (load 4 (base + l_lfanew l + 24 + o) hm = load 4 (addr + l_lfanew l + 24 + o) m).
  rewrite <- !Z.add_assoc. apply new_word; unfold section_table; rewrite ?E; lia.
Qed.

Lemma new_sections : reads hm st (Sections (base + l_lfanew l)) (entries (base + section_table l) (length (l_sections l))).
Proof. by apply (Sections_correct _ _ _ _ _ _ Hlib Hroom), new_headers. Qed.

(** What is added to the addresses in the section table, and it makes them whole. *)
Definition high_half : Z := if w64 then Z.land base 0xffffffff00000000 else 0.

Lemma new_offset : reads hm st (imageOffset (base + l_lfanew l)) high_half.
Proof.
  unfold reads, imageOffset, high_half. destruct w64; [|done]. unfold OptionalHeader.
  destruct (new_up _ _ _ _ _ _ Hlib Hroom) as (-> & _).
  by erewrite bind_inl by (apply field_ok; apply (new_base _ _ _ _ _ _ Hlib Hroom), new_headers).
Qed.

Lemma address_whole x :
  0 <= base → 0 <= x < 2 ^ wordsize → (w64 = true → x / 2 ^ 32 = base / 2 ^ 32) → base < 2 ^ wordsize →
  Z.lor (Z.land x 0xffffffff) high_half = x.
Proof.
  unfold high_half, wordsize. destruct w64; intros Hb Hx Hh Hb'; [apply address_recovers; [lia|lia|by apply Hh]|].
  rewrite Z.lor_0_r. change 0xffffffff with (Z.ones 32). rewrite Z.land_ones by done. by apply Z.mod_small.
Qed.

Lemma new_section a d f :
  load 4 (a + 8) hm = Some (Z.land (base + s_va d) 0xffffffff) → load 4 (a + 16) hm = Some (s_raw d) →
  load 4 (a + 36) hm = Some f → Z.lor (Z.land (base + s_va d) 0xffffffff) high_half = base + s_va d →
  reads hm st (sectionData high_half a) (described base l c d f).
Proof.
  intros Hp Hr Hf Hw. pose proof kept_fields as Hk. rewrite !Forall_cons in Hk. destruct Hk as (Hk1 & Hk2 & _ & Hk4 & _).
  pose proof (new_optional _ _ Hk4 (lib_align _ _ _ _ Hlib)) as Ral.
  pose proof (new_optional _ _ Hk1 (start_init _ _ _ _ Hstart)) as Rin.
  pose proof (new_optional _ _ Hk2 (start_uninit _ _ _ _ Hstart)) as Run.
  unfold reads, sectionData, realSectionSize, section, described, section_size in *.
  assert (∀ F v, get IMAGE_SECTION_HEADER F a hm = Some v → field_ IMAGE_SECTION_HEADER F a (with_memory hm st) = Ret (inl v, with_memory hm st)) as Fd
    by (intros F v; exact (field_ok _ _ _ _ (with_memory hm st))).
  erewrite bind_inl by (apply Fd; exact Hp). cbv zeta. rewrite Hw. erewrite bind_inl by reflexivity.
  cbn [module with_memory]. rewrite Hheaders. erewrite bind_inl by exact Ral.
  assert (get IMAGE_SECTION_HEADER "Characteristics" a hm = Some f) as Hf' by exact Hf.
  erewrite bind_inl; [by erewrite bind_inl by (apply Fd; exact Hf')|].
  erewrite bind_inl by (apply Fd; exact Hr). case_bool_decide; [done|].
  erewrite bind_inl by (apply Fd; exact Hf'). erewrite bind_inl by reflexivity.
  cbn [module with_memory]. rewrite Hheaders.
  case_bool_decide; [exact Rin|]. case_bool_decide; [exact Run|done].
Qed.

Lemma new_section_table a ds fs :
  length fs = length ds → table_placed base a ds fs hm →
  Forall (λ d, Z.lor (Z.land (base + s_va d) 0xffffffff) high_half = base + s_va d) ds →
  Forall2 (λ a d, reads hm st (sectionData high_half a) d) (entries a (length ds)) (zip_with (described base l c) ds fs).
Proof.
  revert a fs. induction ds as [|d ds IH]; intros a [|f fs] Hlen; try done; [].
  intros (Hp & Hr & Hf & Ht) [Hw Hws]%Forall_cons. cbn [length entries zip_with].
  apply Forall2_cons. split; [by apply new_section|]. apply IH; [by injection Hlen|done|done].
Qed.

(** The addresses of the sections when the image does not cross a 4 GB boundary. *)
Lemma addresses_whole :
  base + span < 2 ^ wordsize →
  (w64 = true → ¬ Z.shiftr base 32 < Z.shiftr (base + span) 32) →
  Forall (λ d, Z.lor (Z.land (base + s_va d) 0xffffffff) high_half = base + s_va d) (l_sections l).
Proof.
  intros Hend H4. pose proof Hroom as [_ (? & ? & ? & ?) _ _ Hf]. pose proof sections_positive as Hva.
  pose proof (sections_fit_file _ _ _ _ _ _ Hlib Hroom) as Hr.
  rewrite !Forall_forall in *. intros d Hd. destruct (Hf d Hd) as [_ Hs], (Hr d Hd) as [Hraw _]. specialize (Hva d Hd). simpl in Hva.
  assert (0 <= s_len (l_align l) d) by (unfold s_len; case_bool_decide; lia).
  apply address_whole; [done|lia| |lia]. intros Hw. specialize (H4 Hw). rewrite !Z.shiftr_div_pow2 in H4 by done.
  pose proof (Z.div_le_mono base (base + s_va d) (2 ^ 32) ltac:(lia) ltac:(lia)) as D1.
  pose proof (Z.div_le_mono (base + s_va d) (base + span) (2 ^ 32) ltac:(lia) ltac:(lia)) as D2.
  revert H4 D1 D2. generalize ((base + s_va d) / 2 ^ 32) (base / 2 ^ 32) ((base + span) / 2 ^ 32). lia.
Qed.

(** What [finalizeSections] reads. *)
Lemma new_finalize_data :
  base + span < 2 ^ wordsize → (w64 = true → ¬ Z.shiftr base 32 < Z.shiftr (base + span) 32) →
  Forall2 (λ a d, reads hm st (sectionData high_half a) d)
    (entries (base + section_table l) (length (l_sections l))) (sections_of base l c).
Proof.
  intros Hend H4. apply new_section_table; [apply (start_length _ _ _ _ Hstart)| |by apply addresses_whole].
  eapply table_placed_agree, table_moved. destruct (lib_fits _ _ _ _ Hlib) as (_ & _ & ? & _).
  destruct (table_inside _ _ _ _ Hlib) as (? & ? & ? & _). eapply agree_sub, Hsame; lia.
Qed.

End headers.

(** *** The headers outlast relocation and linking *)

Lemma linked_headers delta n k blocks imports m' m'' :
  image_relocated base delta l blocks (placed base l m) m' → image_linked base l imports m' m'' →
  relocations_apart base delta l blocks imports → linkable base l n k imports (placed base l m) →
  slots_apart base l imports → agree base (base + l_hsize l) (placed base l m) m''.
Proof.
  intros Hr Hl Ha Hok Hs. destruct (relocated_image _ _ _ n k _ _ _ _ Hr Ha Hok) as [Hag _].
  eapply agree_trans; [exact Hag|]. unfold image_linked, slots_apart in *. case_bool_decide as Hz; [by subst m''; intros ? ?|].
  eapply patched_agree; [exact Hl|by apply Hs].
Qed.

End image.

(** *** The image does not cross a 4 GB boundary *)

Lemma reserve_module_same_block fuel old aligned (s s1 : state) :
  reserve_module fuel old aligned s = Ret (inl (), s1) → codeBase (module s1) + aligned < 2 ^ wordsize →
  0 <= codeBase (module s1) → 0 <= aligned →
  w64 = true → ¬ Z.shiftr (codeBase (module s1)) 32 < Z.shiftr (codeBase (module s1) + aligned) 32.
Proof.
  unfold reserve_module. intros Hres Hend Hb Ha Hw.
  do 4 (apply bind_Ret in Hres as [(? & ? & _ & Hres)|(? & _ & [=])]).
  unfold wrap, check4GBBoundaries in Hres. rewrite Hw in Hres.
  destruct (check4GB_loop _ _ _) as [[[[]|e] s2]| |] eqn:E; try done. injection Hres as ->.
  apply check4GB_same_block in E. by rewrite up_small in E by (unfold in_uint; lia).
Qed.

(** ** LoadLibrary, from the file to the last call *)

(** C13: A library is loaded as a whole: from the file to the last call into its code.  Under
    the hypotheses of [LoadLibrary_correct], when the image has sections with an alignment,
    lies in the reserved memory, and no import slot is in its headers, [LoadLibrary] lays the
    library out, moves it and links it, which gives the state [st].  From there on all that
    it does follows from the file.  Let [hm] be the part of the memory of [st] that has the
    headers and the table of TLS callbacks, on no page that is discarded, left alone by the
    callbacks.  Then:

    - the runs that [finalizeSections] protects are those of the sections of the file at their
      addresses in the image, with the flags of the file, although the section table holds
      only the low 32 bits of each address ([check4GBBoundaries] has seen to the others);
    - if Windows refuses one protection, loading fails, the module is freed and no code of the
      library has run;
    - otherwise each TLS callback is called once, in order, with [DLL_PROCESS_ATTACH], and then
      the entry point that the file names, if it names one: a DLL that returns zero fails
      to load and is freed, any other library has its exports indexed. *)
Theorem LoadLibrary_runs_library fuel addr size aligned n k l c blocks imports (s s1 : state) :
  check_headers addr size s = Ret (inl (old_header addr l, aligned), s) →
  reserve_module fuel (old_header addr l) aligned s = Ret (inl (), s1) →
  let base := codeBase (module s1) in
  let m := memory_of s1 in
  let delta := up (base - l_base l) in
  base mod 4096 = 0 → base + aligned < 2 ^ wordsize →
  library_in addr size l m → start_in addr l c m → l_align l ≠ 0 → l_sections l ≠ [] →
  room addr size base (l_hsize l) aligned (l_align l) (l_sections l) m →
  relocatable base delta l blocks (placed base l m) → linkable base l n k imports (placed base l m) →
  relocations_apart base delta l blocks imports → slots_apart base l imports →
  (length blocks < fuel)%nat → (length imports + n + k < fuel)%nat →
  ∃ st m', image_relocated base delta l blocks (placed base l m) m' ∧ image_linked base l imports m' (memory_of st) ∧
    module st = image_handles l imports (with_isRelocated (bool_decide (delta = 0 ∨ dir_size (l_relocs l) ≠ 0))
      (with_headers (base + l_lfanew l) (module s1))) ∧
    ∀ hm callbacks,
      hm ⊆ memory_of st → mapped_in base (base + l_hsize l) hm → Forall (spares hm) (runs_of (sections_of base l c)) →
      tls_callbacks hm st callbacks → Forall (leaves hm base) callbacks → (length callbacks < fuel)%nat →
      ∃ r s2, for_each (runs_of (sections_of base l c)) finalize st = Ret (r, s2) ∧ module s2 = module st ∧ hm ⊆ memory_of s2 ∧
        LoadLibrary fuel addr size s =
          match r with
          | inr e => free_on_error (throw (Wrap "Error finalizing sections" e)) s2
          | inl () =>
              let s3 := with_mach (foldl (attach base) (mach s2) callbacks) s2 in
              if bool_decide (c_entry c = 0) then ignore (buildNameExports fuel) s3
              else enter fuel (up (base + c_entry c)) s3
          end.
Proof.
  intros Hchk Hres base m delta Hpage Hend Hlib Hstart Hal Hne Hroom Hrel Hlink Hapart Hslots Hf1 Hf2.
  destruct (load_module_correct fuel addr size aligned aligned n k l blocks imports s s1 Hres) as (st & m' & E & R & L & P); [done..|].
  fold base m delta in R, L, P. exists st, m'. split_and!; [done..|]. intros hm callbacks Hsub Hmap Hsp Htls Hl Hf.
  assert (headers (module st) = base + l_lfanew l ∧ codeBase (module st) = base) as [Hh Hb].
  { rewrite P. unfold image_handles. destruct (bool_decide (dir_size _ = 0)); (split; reflexivity). }
  assert (agree base (base + l_hsize l) (placed base l m) hm) as Hag.
  { assert (agree base (base + l_hsize l) (placed base l m) (memory_of st)) as Hst by (by eapply linked_headers).
    intros x Hx. rewrite <- (Hst x Hx). destruct (proj1 (elem_of_dom hm x)) as [b E']; [by apply Hmap|]. rewrite E'. symmetry. by eapply lookup_weaken. }
  pose proof Hroom as [_ (? & ? & ? & ?) _ _ _].
  assert (w64 = true → ¬ Z.shiftr base 32 < Z.shiftr (base + aligned) 32) as Hblock
    by (eapply reserve_module_same_block; [exact Hres|done|done|lia]).
  pose proof kept_fields as Hk. rewrite !Forall_cons in Hk. destruct Hk as (_ & _ & Hk3 & Hk4 & _).
  pose proof (sections_described base l c (start_length _ _ _ _ Hstart) Hne) as (d & ds & Hds).
  pose proof (new_finalize_data addr size base aligned l c m Hlib Hroom Hstart Hal hm st Hag Hh Hend Hblock) as Hdata.
  pose proof (described_flags base l c (flags_range _ _ _ _ Hstart)) as Hflags. rewrite Hds in Hdata, Hflags, Hsp |- *.
  pose proof (new_sections _ _ _ _ _ _ Hlib Hroom _ st Hag) as Hsecs. pose proof (new_offset _ _ _ _ _ _ Hlib Hroom _ st Hag) as Hoff.
  pose proof (new_optional _ _ _ _ _ _ Hlib Hroom _ st Hag _ _ Hk4 (lib_align _ _ _ _ Hlib)) as Halign.
  pose proof (new_optional _ _ _ _ _ _ Hlib Hroom _ st Hag _ _ Hk3 (start_entry _ _ _ _ Hstart)) as Hentry.
  rewrite <- Hh in Hsecs, Hoff, Halign. rewrite <- Hb in Hl.
  destruct (finish_calls_library fuel (base + l_lfanew l) hm st _ _ d ds _ callbacks _ Hsub Hsecs Hoff Hdata Halign Hal
    Hflags Hsp Htls Hl Hf Hentry) as (r & s2 & E2 & M2 & S2 & F2).
  exists r, s2. split_and!; [by rewrite <- E2, (finalizeSections_runs hm st _ _ d ds Hsub Hsecs Hoff Hdata Hsp)|done..|].
  rewrite Hb in F2. rewrite <- F2. unfold LoadLibrary. erewrite bind_inl by exact Hchk. cbv beta iota.
  unfold MemmodLoad.finish, free_on_error, mbind, M_bind. by rewrite E.
Qed.

End attach.
