(* ===== verification/MemmodDemo.v ===== *)
(** * A library loaded

    A small Windows (a list of reservations) and a minimal 32-bit library, on which the
    theorems about the loader are applied. *)

From S2P Require Import Prelude Sys Pe Memmod MemmodImports MemmodExports MemmodFacts MemmodSections MemmodLedger MemmodFuel.

Local Open Scope Z_scope.

(** ** A small Windows *)

Abbreviation toy := (list Z).

Fixpoint remove1 (a : Z) (l : list Z) : list Z :=
  match l with
  | [] => []
  | x :: l => if bool_decide (x = a) then l else x :: remove1 a l
  end.

Lemma remove1_spec a l : a ∈ l → l ≡ₚ a :: remove1 a l.
Proof.
  induction l as [|x l IH]; [by intros []%not_elem_of_nil|]. intros [->|Ha]%elem_of_cons; simpl.
  - by rewrite bool_decide_eq_true_2.
  - case_bool_decide; [by subst|]. rewrite (IH Ha) at 1. apply Permutation_swap.
Qed.

Definition zeroes (a n : Z) : memory :=
  list_to_map (map (λ i, (a + Z.of_nat i, Byte.x00)) (seq 0 (Z.to_nat n))).

Definition reserving : Z := Z.lor MEM_RESERVE MEM_COMMIT.

#[global] Instance toy_api : WinAPI toy := {|
  VirtualAlloc a n t p m :=
    if bool_decide (t = reserving) then
      let r := if bool_decide (a = 0) then 0x20000 else a in
      (r, None, Machine (mem m ∪ zeroes r n) (r :: os m))
    else (a, None, m);
  VirtualFree a n t m := if bool_decide (t = MEM_RELEASE) then Machine (mem m) (remove1 a (os m)) else m;
  VirtualProtect a n p m := (None, m);
  LoadLibraryEx s m := (0, Some 126, m);
  FreeLibrary h m := m;
  GetProcAddress h s m := (0, Some 127, m);
  GetProcAddressByOrdinal h z m := (0, Some 127, m);
  isBadReadPtr a n m := (false, m);
  Syscall f a b c m := (1, m);
|}.

#[global] Instance toy_ledger : Ledger toy.
Proof.
  refine {| reserved := os |}; try done.
  - intros a n p m r e m'. simpl. intros [= <- <- <-].
    split; [case_bool_decide; lia|done].
  - intros a m Ha. simpl. by apply remove1_spec.
Defined.

#[global] Instance toy_quiet : QuietLibrary toy.
Proof. by intros f a b c m. Defined.

(** ** A minimal library *)

#[local] Existing Instance i386.

(** One section without data of 512 bytes at 512, in an image of 1024 bytes. *)
Definition data_at : Z := 0x1000.
Definition nt_at : Z := data_at + 64.
Definition opt_at : Z := nt_at + OffsetOptionalHeader.
Definition section_at : Z := opt_at + 224.
Definition data_size : Z := 352.

Definition fields : list (layout * string * Z * Z) :=
  [(IMAGE_DOS_HEADER, "E_magic"%string, data_at, IMAGE_DOS_SIGNATURE);
   (IMAGE_DOS_HEADER, "E_lfanew"%string, data_at, 64);
   ([u32 "Signature"], "Signature"%string, nt_at, IMAGE_NT_SIGNATURE);
   (IMAGE_FILE_HEADER, "Machine"%string, nt_at + 4, IMAGE_FILE_MACHINE_I386);
   (IMAGE_FILE_HEADER, "NumberOfSections"%string, nt_at + 4, 1);
   (IMAGE_FILE_HEADER, "SizeOfOptionalHeader"%string, nt_at + 4, 224);
   (IMAGE_OPTIONAL_HEADER, "SizeOfUninitializedData"%string, opt_at, 512);
   (IMAGE_OPTIONAL_HEADER, "ImageBase"%string, opt_at, 0x8000);
   (IMAGE_OPTIONAL_HEADER, "SectionAlignment"%string, opt_at, 512);
   (IMAGE_OPTIONAL_HEADER, "SizeOfImage"%string, opt_at, 1024);
   (IMAGE_OPTIONAL_HEADER, "SizeOfHeaders"%string, opt_at, 352);
   (IMAGE_SECTION_HEADER, "VirtualAddress"%string, section_at, 512);
   (IMAGE_SECTION_HEADER, "Characteristics"%string, section_at, 0xC0000080)].

Definition library : memory :=
  default ∅ (foldl (λ m '(l, f, a, v), m ≫= set l f a v) (Some (zeroes data_at data_size)) fields).

Definition before : state toy := State (Machine library [7]) zeroModule.

Definition loaded : state toy :=
  match LoadLibrary 4 data_at data_size before with Ret (_, s) => s | _ => before end.

Lemma library_loads : LoadLibrary 4 data_at data_size before = Ret (inl (), loaded).
Proof.
  assert (match LoadLibrary 4 data_at data_size before with Ret (inl (), _) => true | _ => false end = true) as E by (vm_compute; reflexivity).
  unfold loaded. by destruct (LoadLibrary 4 data_at data_size before) as [[[[]|e] s]| |].
Qed.

Lemma LoadLibrary_balances_witness :
  LoadLibrary 4 data_at data_size before = Ret (inl (), loaded) ∧
  reserved (mach loaded) ≡ₚ [0x8000; 7] ∧
  ∃ s'', Free loaded = Ret (inl (), s'') ∧ reserved (mach s'') ≡ₚ [7].
Proof.
  pose proof library_loads as E.
  destruct (LoadLibrary_balances 4 data_at data_size before loaded (inl ()) E) as [H1 H2].
  exact (conj E (conj H1 H2)).
Defined.

Lemma ret_not_block {A} (o : outcome A) a : o = Ret a → o ≠ Block.
Proof. by intros ->. Qed.

Lemma LoadLibrary_fuel_irrelevant_witness :
  LoadLibrary 4 data_at data_size before ≠ Block ∧
  LoadLibrary 1000 data_at data_size before = LoadLibrary 4 data_at data_size before.
Proof.
  pose proof library_loads as E.
  pose proof (ret_not_block _ _ E) as H.
  refine (conj H (proj1 (LoadLibrary_fuel_irrelevant 4 1000 data_at data_size before H) _)).
  apply Nat.leb_le. vm_compute. reflexivity.
Defined.

(** ** The other theorems at work *)

Definition stored (n : nat) (a v : Z) (m : memory) : memory := default m (store n a v m).
Definition with_fields (fs : list (layout * string * Z * Z)) (m : memory) : memory :=
  foldl (λ m '(l, f, a, v), default m (set l f a v m)) m fs.
Definition at_rest (m : memory) : state toy := State (Machine m []) zeroModule.

(** MOVW and MOVT of 0x12345678, which moves up by 0x1000A000. *)
Definition thumb_pair : state toy :=
  at_rest (stored 4 0x104 (thumb_put 0xf2c0 0x1234) (stored 4 0x100 (thumb_put 0xf240 0x5678) (zeroes 0x100 8))).

Lemma relocate_thumb_correct_witness :
  ∃ m i1' i2', relocate_thumb 0x100 0x1000A000 thumb_pair = Ret (inl (), with_memory m thumb_pair) ∧
    load 4 0x100 m = Some i1' ∧ load 4 (0x100 + 4) m = Some i2' ∧
    is_MOVW i1' = true ∧ is_MOVT i2' = true ∧ thumb_constant i1' i2' = 0x2234F678 ∧
    ∀ x, x < 0x100 ∨ 0x100 + 8 <= x → m !! x = memory_of thumb_pair !! x.
Proof.
  exact (relocate_thumb_correct 0x100 0x1000A000 thumb_pair (thumb_put 0xf240 0x5678) (thumb_put 0xf2c0 0x1234)
    ltac:(vm_compute; reflexivity) ltac:(vm_compute; reflexivity) ltac:(split; vm_compute; congruence)
    ltac:(vm_compute; reflexivity) ltac:(vm_compute; reflexivity)).
Defined.

Ltac computed := vm_compute; first [reflexivity|congruence].

Ltac decided := apply (bool_decide_unpack _); vm_compute; exact I.
(** A read of a field, and a condition. *)
Ltac read := erewrite bind_inl;
  [|lazymatch goal with |- rd _ _ _ = _ => apply rd_ok | _ => apply field_ok end; vm_compute; reflexivity].
Ltac skip := rewrite bool_decide_eq_false_2 by (vm_compute; congruence).
Ltac apart := first [left; computed|right; computed].

(** A table of one block at 0x10080 for the page at 0x10100: the word at 0x10100, nothing, and
    the low half of the word at 0x10108. *)
Definition table : list (Z * list Z) := [(0x100, [0x3000; 0; 0x2008])].

Definition moved : state toy :=
  let m := with_codeBase 0x10000 (with_headers 0x1000 zeroModule) in
  let s : state toy := State (Machine ∅ []) m in
  let directory := directory_entry IMAGE_DIRECTORY_ENTRY_BASERELOC s in
  State (Machine
    (stored 4 0x10100 0xFFFFFFFF (stored 2 0x1008C 0x2008 (stored 2 0x10088 0x3000 (with_fields
      [(IMAGE_DATA_DIRECTORY, "Size"%string, directory, 18);
       (IMAGE_DATA_DIRECTORY, "VirtualAddress"%string, directory, 0x80);
       (IMAGE_BASE_RELOCATION, "VirtualAddress"%string, 0x10080, 0x100);
       (IMAGE_BASE_RELOCATION, "SizeOfBlock"%string, 0x10080, 14)]
      (zeroes 0x10A0 8 ∪ zeroes 0x10080 0x90))))) []) m.

(** The entry at the head of a block. *)
Ltac entry :=
  split; [computed|]; split; [unfold plain; decided|];
  split; [split; computed|]; split.

Lemma moved_table_ok : table_ok 0x10080 0x10000 0x10002 table (memory_of moved).
Proof.
  unfold table; cbn [table_ok fst snd].
  do 3 (split; [computed|]). split; [computed|]. split; [split; computed|].
  split; [|split; [|computed]].
  - cbn [block_ok length].
    entry; [apply Forall_option_list; intros w [= <-]; split; [eexists; computed|split; [apart|]]|].
    { apply Forall_singleton. apart. }
    entry; [apply Forall_nil; exact I|].
    entry; [|exact I].
    apply Forall_option_list; intros w [= <-]; split; [eexists; computed|split; [apart|apply Forall_nil; exact I]].
  - apply Forall_cons; split; [split; [apart|apply Forall_nil; exact I]|].
    apply Forall_singleton. split; [apart|apply Forall_nil; exact I].
Qed.

Lemma performBaseRelocation_correct_witness :
  ∃ m, performBaseRelocation 2 0x10002 moved = Ret (inl true, with_memory m moved) ∧
    Forall (λ '(n, a, v), ∃ x, load n a (memory_of moved) = Some x ∧
              load n a m = Some ((x + v) mod 256 ^ Z.of_nat n)) (table_writes 0x10000 0x10002 table) ∧
    ∀ x, Forall (misses x) (table_writes 0x10000 0x10002 table) → m !! x = memory_of moved !! x.
Proof.
  refine (performBaseRelocation_correct 2 0x10002 moved 18 0x80 table _ _ (λ _, moved_table_ok) _);
    [vm_compute; reflexivity|vm_compute; reflexivity|simpl; lia].
Defined.

(** An image of 8 kB at 64 GB. *)
Definition high : state toy := State (Machine ∅ []) (with_codeBase 0x1000000000 zeroModule).

Lemma truncated_address_recovers_witness :
  Z.lor (Z.land 0x1000001234 0xffffffff) (Z.land 0x1000000000 0xffffffff00000000) = 0x1000001234.
Proof.
  exact (@truncated_address_recovers amd64 toy toy_api 1 8192 high high 0x1000001234
    eq_refl ltac:(vm_compute; reflexivity) ltac:(vm_compute; congruence) ltac:(vm_compute; reflexivity)
    ltac:(split; [vm_compute; congruence|vm_compute; reflexivity])).
Defined.

(** *** A header in front of the data *)

Lemma zeroes_mapped a n x : a <= x < a + n → x ∈ dom (zeroes a n).
Proof.
  intros Hx. unfold zeroes. rewrite dom_list_to_map_L, elem_of_list_to_set.
  apply list_elem_of_fmap. exists (x, Byte.x00). split; [done|]. apply list_elem_of_fmap.
  exists (Z.to_nat (x - a)). split; [f_equal; lia|]. apply elem_of_seq. lia.
Qed.

Lemma with_fields_dom fs m : dom (with_fields fs m) = dom m.
Proof.
  unfold with_fields. revert m. induction fs as [|[[[l f] a] v] fs IH]; intros m; [done|].
  cbn [foldl]. rewrite IH. unfold set. destruct (offsetof l 0 f) as [o|]; [|done]. simpl.
  destruct (store _ _ _ m) as [m'|] eqn:E; [|done]. simpl. by apply load_store in E as (_ & _ & ->).
Qed.

Lemma zeroes_dom a n x : x ∈ dom (zeroes a n) → a <= x < a + Z.max n 0.
Proof.
  unfold zeroes. rewrite dom_list_to_map_L, elem_of_list_to_set.
  intros ([y b] & -> & Hy)%list_elem_of_fmap. apply list_elem_of_fmap in Hy as (i & [= -> ->] & Hi).
  apply elem_of_seq in Hi. simpl. lia.
Qed.

(** 512 bytes that put the NT headers 128 bytes in front of themselves. *)
Definition malformed : state toy :=
  at_rest (with_fields [(IMAGE_DOS_HEADER, "E_magic"%string, data_at, IMAGE_DOS_SIGNATURE);
                        (IMAGE_DOS_HEADER, "E_lfanew"%string, data_at, 0xFFFFFF80)] (zeroes data_at 512)).

Lemma negative_lfanew_reads_outside_witness :
  up (data_at + up (-128)) = data_at - 128 ∧
  (load 4 (data_at - 128) (memory_of malformed) = None →
     check_headers data_at 512 malformed = Panic "access violation") ∧
  load 4 (data_at - 128) (memory_of malformed) = None.
Proof.
  assert (∀ x, data_at <= x < data_at + 512 → x ∈ dom (memory_of malformed)) as Hm.
  { intros x Hx. unfold malformed, at_rest, memory_of. cbn [mach mem]. rewrite with_fields_dom.
    by apply zeroes_mapped. }
  destruct (negative_lfanew_reads_outside data_at 512 malformed 0xFFFFFF80
    ltac:(vm_compute; congruence) ltac:(vm_compute; congruence) ltac:(vm_compute; congruence) Hm
    ltac:(vm_compute; reflexivity) ltac:(vm_compute; reflexivity)
    ltac:(vm_compute; congruence) ltac:(vm_compute; congruence) ltac:(vm_compute; congruence)) as [H1 H2].
  split; [exact H1|split; [exact H2|vm_compute; reflexivity]].
Defined.

(** *** Three sections, the first two on one page, the last to be discarded *)

#[global] Instance toy_pages : Pages (OS := toy).
Proof. split; intros; reflexivity. Defined.

Definition section_header (i : Z) (addr size c : Z) : list (layout * string * Z * Z) :=
  let a := 0x1000 + OffsetOptionalHeader + 224 + 40 * i in
  [(IMAGE_SECTION_HEADER, "physicalAddressOrVirtualSize"%string, a, addr);
   (IMAGE_SECTION_HEADER, "SizeOfRawData"%string, a, size);
   (IMAGE_SECTION_HEADER, "Characteristics"%string, a, c)].

Definition image_headers : memory := with_fields
  ([(IMAGE_FILE_HEADER, "NumberOfSections"%string, 0x1000 + 4, 3);
    (IMAGE_FILE_HEADER, "SizeOfOptionalHeader"%string, 0x1000 + 4, 224);
    (IMAGE_OPTIONAL_HEADER, "SectionAlignment"%string, 0x1000 + OffsetOptionalHeader, 0x1000)] ++
   section_header 0 0x2000 0x800 0x60000020 ++ section_header 1 0x2800 0x800 0xC0000040 ++
   section_header 2 0x3000 0x1000 0x42000040) (zeroes 0x1000 368).

Definition image : state toy := State (Machine image_headers []) (with_headers 0x1000 zeroModule).

Definition of_section (a size c : Z) : sectionFinalizeData :=
  {| fd_address := a; fd_alignedAddress := a / 0x1000 * 0x1000; fd_size := size;
     fd_characteristics := c; fd_last := false |}.

Definition image_sections : list sectionFinalizeData :=
  [of_section 0x2000 0x800 0x60000020; of_section 0x2800 0x800 0xC0000040; of_section 0x3000 0x1000 0x42000040].

Lemma image_dom : dom image_headers = dom (zeroes 0x1000 368).
Proof. exact (with_fields_dom _ _). Qed.

Lemma image_above d : 0x2000 <= fd_address d → above image_headers d.
Proof.
  intros Hd x Hx. rewrite image_dom in Hx. apply zeroes_dom in Hx. unfold page.
  assert (x < 0x2000) as Hlt; cycle 1.
  { apply Z.lt_le_trans with 2; [apply Z.div_lt_upper_bound; lia|apply Z.div_le_lower_bound; lia]. }
  clear -Hx. change (0x1000 + Z.max 368 0) with 0x1170 in Hx. lia.
Qed.

Lemma finalizeSections_protects_witness :
  ∃ rs, finalizeSections image = for_each rs (λ r, wrap "Error finalizing section" (finalizeSection r)) image ∧
    Sorted (λ r1 r2, fd_end r1 <= fd_alignedAddress r2) rs.
Proof.
  destruct (finalizeSections_protects image_headers image [0x10F8; 0x1120; 0x1148] 0
    (of_section 0x2000 0x800 0x60000020)
    [of_section 0x2800 0x800 0xC0000040; of_section 0x3000 0x1000 0x42000040]) as (rs & H1 & H2 & _).
  - exact (reflexivity (R := (⊆)) image_headers).
  - vm_compute. reflexivity.
  - vm_compute. reflexivity.
  - repeat constructor; vm_compute; reflexivity.
  - repeat constructor; apply image_above; vm_compute; congruence.
  - repeat split; vm_compute; congruence.
  - exists rs. split; [exact H1|exact H2].
Defined.

(** *** An export table of two functions, of ordinals 5 and 6 *)

Definition exports_at : Z := 0x1000.

Definition exporter : state toy :=
  let s : state toy := State (Machine ∅ []) (with_codeBase 0x10000 (with_headers exports_at zeroModule)) in
  State (Machine
    (stored 4 0x10100 0x11 (stored 4 0x10104 0x22 (with_fields
      [(IMAGE_DATA_DIRECTORY, "Size"%string, export_directory s, 40);
       (IMAGE_DATA_DIRECTORY, "VirtualAddress"%string, export_directory s, 0x80);
       (IMAGE_EXPORT_DIRECTORY, "Base"%string, 0x10080, 5);
       (IMAGE_EXPORT_DIRECTORY, "NumberOfFunctions"%string, 0x10080, 2);
       (IMAGE_EXPORT_DIRECTORY, "AddressOfFunctions"%string, 0x10080, 0x100)]
      (zeroes exports_at 512 ∪ zeroes 0x10080 256)))) []) (module s).

Lemma exporter_exporting : exporting exporter 5 2 0x10100.
Proof.
  split.
  - exists 40. split; [vm_compute; reflexivity|congruence].
  - exists 0x80, 0x100. repeat split; vm_compute; reflexivity.
  - vm_compute. congruence.
Qed.

Lemma ordinal_bound_off_by_one_witness :
  ProcAddressByOrdinal 6 exporter = Ret (inl 0x10022, exporter) ∧
  ProcAddressByOrdinal 7 exporter = Ret (inl 0x10000, exporter) ∧
  (7 = 5 + 2 → ¬ 0x10100 <= 0x10100 + 4 * (7 - 5) < 0x10100 + 4 * 2).
Proof.
  pose (run := λ o Ho, ordinal_bound_off_by_one exporter 5 2 0x10100 o exporter_exporting
    ltac:(split; computed) Ho ltac:(computed)).
  destruct (run 6 ltac:(split; computed)) as [H1 _], (run 7 ltac:(split; computed)) as [H2 H3].
  split; [rewrite H1; vm_compute; reflexivity|]. split; [rewrite H2; vm_compute; reflexivity|exact H3].
Defined.

(** *** Names for the two functions: [a] for the second, [b] for the first, then [a] for it too *)

Definition named_exports : list export :=
  [{| x_name := "a"; x_rva := 0x140; x_index := 1 |}; {| x_name := "b"; x_rva := 0x142; x_index := 0 |};
   {| x_name := "a"; x_rva := 0x140; x_index := 0 |}].

Definition exporter_of_names : state toy :=
  State (Machine
    (stored 1 0x10140 97 (stored 1 0x10142 98
    (stored 4 0x10120 0x140 (stored 4 0x10124 0x142 (stored 4 0x10128 0x140
    (stored 2 0x10130 1 (with_fields
      [(IMAGE_EXPORT_DIRECTORY, "NumberOfNames"%string, 0x10080, 3);
       (IMAGE_EXPORT_DIRECTORY, "AddressOfNames"%string, 0x10080, 0x120);
       (IMAGE_EXPORT_DIRECTORY, "AddressOfNameOrdinals"%string, 0x10080, 0x130)]
      (memory_of exporter)))))))) []) (module exporter).

Lemma exporter_of_names_exporting : exporting exporter_of_names 5 2 0x10100.
Proof.
  split.
  - exists 40. split; [vm_compute; reflexivity|congruence].
  - exists 0x80, 0x100. repeat split; vm_compute; reflexivity.
  - vm_compute. congruence.
Qed.

Lemma exporter_of_names_named : named exporter_of_names 2 named_exports.
Proof.
  split; [repeat constructor|]. exists 0x80, 0x120, 0x130. split; [vm_compute; reflexivity|].
  do 3 (split; [vm_compute; reflexivity|]).
  cbn [names_in named_exports x_rva x_name x_index].
  do 3 (split; [vm_compute; reflexivity|];
    split; [split; [split; [vm_compute; reflexivity|by apply (bool_decide_unpack _)]|split; vm_compute; congruence]|];
    split; [vm_compute; reflexivity|]).
  exact I.
Qed.

Lemma exports_resolve_witness :
  buildNameExports 2 exporter_of_names = Ret (built 2 named_exports exporter_of_names) ∧
  let st := (built 2 named_exports exporter_of_names).2 in
  ProcAddressByName "a" st = Ret (inl 0x10011, st) ∧
  ProcAddressByName "c" st = Ret (inr (New "Function not found by name"), st).
Proof.
  destruct (exports_resolve 2 2 5 2 0x10100 named_exports exporter_of_names exporter_of_names_exporting
    exporter_of_names_named ltac:(apply Nat.leb_le; reflexivity) eq_refl) as [H1 H2].
  pose (run := λ name, H2 (built 2 named_exports exporter_of_names).2 name
    (exporting_built exporter_of_names 5 2 0x10100 2 named_exports exporter_of_names_exporting) eq_refl).
  split; [exact H1|]. cbv zeta. split; [rewrite (run "a"%string)|rewrite (run "c"%string)]; vm_compute; reflexivity.
Defined.
