(* ===== verification/MemmodStartDemo.v ===== *)
(** * A library started

    A library with two TLS callbacks and an entry point, on a Windows that records which of
    its functions it called: the theorem of [MemmodStart.v] at work. *)

From S2P Require Import Prelude Sys Pe Memmod MemmodDemo MemmodFacts MemmodSections MemmodLoad MemmodStart.

Local Open Scope Z_scope.

#[local] Existing Instance i386.

(** ** A Windows that writes calls down *)

Abbreviation calls := (list (Z * Z * Z)).

#[local] Instance recorder : WinAPI calls := {|
  VirtualAlloc a n t p m := (0, Some 8, m);
  VirtualFree a n t m := m;
  VirtualProtect a n p m := (None, m);
  LoadLibraryEx s m := (0, Some 126, m);
  FreeLibrary h m := m;
  GetProcAddress h s m := (0, Some 127, m);
  GetProcAddressByOrdinal h z m := (0, Some 127, m);
  isBadReadPtr a n m := (false, m);
  Syscall f a b c m := (1, Machine (mem m) (os m ++ [(f, a, b)]));
|}.

#[local] Instance recorder_pages : Pages (OS := calls).
Proof. by split. Defined.

(** ** The image

    The headers and sections of [MemmodDemo.v], at the base 0x1000: the TLS directory at
    0x2800, its callbacks 0x2010 and 0x2020 at 0x2840, the entry point at 0x2030. *)
Definition tls_at : Z := 0x1000 + OffsetOptionalHeader + default 0 (offsetof IMAGE_OPTIONAL_HEADER 0 "DataDirectory") +
  sizeof IMAGE_DATA_DIRECTORY * IMAGE_DIRECTORY_ENTRY_TLS.

Definition kept_memory : memory :=
  stored 4 0x2840 0x2010 (stored 4 0x2844 0x2020 (with_fields
    [(IMAGE_DATA_DIRECTORY, "VirtualAddress"%string, tls_at, 0x1800);
     (IMAGE_OPTIONAL_HEADER, "AddressOfEntryPoint"%string, 0x1000 + OffsetOptionalHeader, 0x1030);
     (IMAGE_TLS_DIRECTORY, "AddressOfCallbacks"%string, 0x2800, 0x2840)]
    (image_headers ∪ zeroes 0x2800 80))).

Definition linked : state calls :=
  State (Machine kept_memory []) (with_isDLL true (with_codeBase 0x1000 (with_headers 0x1000 zeroModule))).

Lemma stored_dom n a v m : dom (stored n a v m) = dom m.
Proof. unfold stored. destruct (store n a v m) as [m'|] eqn:E; [|done]. by apply load_store in E as (_ & _ & ?). Qed.

Lemma kept_dom : dom kept_memory = dom (zeroes 0x1000 368 ∪ zeroes 0x2800 80).
Proof.
  unfold kept_memory. rewrite !stored_dom, with_fields_dom, !dom_union_L. by rewrite image_dom.
Qed.

Lemma kept_spared : Forall (spares kept_memory) (runs (of_section 0x2000 0x800 0x60000020)
  [of_section 0x2800 0x800 0xC0000040; of_section 0x3000 0x1000 0x42000040]).
Proof.
  assert (∀ x, x ∈ dom kept_memory → page x < 3) as Hp.
  { intros x. rewrite kept_dom, dom_union_L. intros [Hx|Hx]%elem_of_union; apply zeroes_dom in Hx;
      unfold page; apply Z.div_lt_upper_bound; lia. }
  match goal with |- Forall _ ?rs => let v := eval vm_compute in rs in change rs with v end.
  apply Forall_cons; split; [intros Hd; exfalso; apply Hd; by vm_compute|].
  apply Forall_singleton. intros _ x Hx. left. by apply Hp.
Qed.

(** A section that has data, from the fields of its header. *)
Lemma section_read o a size c :
  get IMAGE_SECTION_HEADER "physicalAddressOrVirtualSize" o kept_memory = Some a →
  get IMAGE_SECTION_HEADER "SizeOfRawData" o kept_memory = Some size →
  get IMAGE_SECTION_HEADER "Characteristics" o kept_memory = Some c →
  bool_decide (size ≠ 0) = true → Z.lor a 0 = a → alignDown a 0x1000 = a / 0x1000 * 0x1000 →
  reads kept_memory linked (sectionData 0 o) (of_section a size c).
Proof.
  intros Ha Hsz Hc Hne Ho Hal. unfold reads, sectionData, realSectionSize, section.
  erewrite bind_inl by exact (field_ok _ _ _ _ (with_memory kept_memory linked) Ha).
  erewrite bind_inl by reflexivity. unfold OptionalHeader. read.
  erewrite bind_inl; cycle 1.
  { erewrite bind_inl by exact (field_ok _ _ _ _ (with_memory kept_memory linked) Hsz). rewrite Hne. reflexivity. }
  erewrite bind_inl by exact (field_ok _ _ _ _ (with_memory kept_memory linked) Hc). by rewrite Ho, Hal.
Qed.

(** This Windows refuses no protection. *)
Lemma linked_finalized : match finalizeSections linked with Ret (inl (), _) => true | _ => false end = true.
Proof. vm_compute. reflexivity. Qed.

Lemma finish_calls_library_witness :
  ∃ s1, finalizeSections linked = Ret (inl (), s1) ∧ module s1 = module linked ∧
    finish 3 0x1000 linked = enter 3 0x2030 (with_mach (foldl (attach 0x1000) (mach s1) [0x2010; 0x2020]) s1).
Proof.
  destruct (finish_calls_library 3 0x1000 kept_memory linked [0x10F8; 0x1120; 0x1148] 0
    (of_section 0x2000 0x800 0x60000020)
    [of_section 0x2800 0x800 0xC0000040; of_section 0x3000 0x1000 0x42000040] 0x1000 [0x2010; 0x2020] 0x1030)
    as (r & s1 & E1 & Hm & _ & E).
  - exact (reflexivity (R := (⊆)) kept_memory).
  - unfold reads, Sections, FileHeader. read. read. reflexivity.
  - reflexivity.
  - repeat (apply Forall2_cons; split; [apply section_read; by vm_compute|]). by apply Forall2_nil.
  - apply field_ok. by vm_compute.
  - done.
  - repeat constructor; vm_compute; congruence.
  - exact kept_spared.
  - exists tls_at, 0x1800. split; [reflexivity|]. split; [apply field_ok; by vm_compute|]. rewrite bool_decide_eq_false_2 by done.
    exists 0x2840. split; [apply field_ok; by vm_compute|]. rewrite bool_decide_eq_false_2 by done. split_and!; by vm_compute.
  - apply Forall_true. intros f m Hm. unfold attach. cbn [Syscall recorder snd mem]. exact Hm.
  - simpl. lia.
  - apply field_ok. by vm_compute.
  - pose proof linked_finalized as Ef. rewrite E1 in Ef. destruct r as [[]|e]; [|done].
    exists s1. split; [exact E1|]. split; [exact Hm|exact E].
Defined.
