(* ===== verification/MemmodLoadDemo.v ===== *)
(** * A library laid out, moved and linked

    A library of two sections, one with its relocations and imports and one of zeros, that
    cannot have its preferred address: the theorem of [MemmodLoad.v] at work. *)

From S2P Require Import Prelude Sys Pe Memmod MemmodDemo MemmodFacts MemmodImports MemmodLoad.

Local Open Scope Z_scope.

#[local] Existing Instance i386.

(** ** A Windows with one free place, at 0x20000, and the library [k] *)

#[local] Instance windows : WinAPI () := {|
  VirtualAlloc a n t p m :=
    if bool_decide (t = MEM_COMMIT) then (a, None, m)
    else if bool_decide (a = 0) then (0x20000, None, m) else (0, Some 487, m);
  VirtualFree a n t m := m;
  VirtualProtect a n p m := (None, m);
  LoadLibraryEx s m := ImportsDemo.answer (if bool_decide (s = "k"%string) then Some 9 else None) m;
  FreeLibrary h m := m;
  GetProcAddress h s m := ImportsDemo.answer (ImportsDemo.find_proc h (ByName s)) m;
  GetProcAddressByOrdinal h z m := ImportsDemo.answer (ImportsDemo.find_proc h (ByOrdinal z)) m;
  isBadReadPtr a n m := (false, m);
  Syscall f a b c m := (1, m);
|}.

#[local] Instance linker : Linker ().
Proof.
  refine {| lib := λ s, if bool_decide (s = "k"%string) then Some 9 else None; proc := ImportsDemo.find_proc |}.
  all: intros; exists m; split; [done|]; cbn [LoadLibraryEx GetProcAddress GetProcAddressByOrdinal isBadReadPtr windows];
    by rewrite ?H.
Defined.

#[local] Instance committer : Committer (OS := ()).
Proof. split. intros a n m _ _ _. by exists m. Defined.

(** ** The file

    576 bytes at 0x1000: the DOS header, the NT headers at 64, two entries of the section
    table at 312, and from 392 on the first section, for the address 0x1000 of the image. *)
Definition file_at : Z := 0x1000.
Definition file_size : Z := 576.
Definition nt : Z := file_at + 64.
Definition opt : Z := nt + OffsetOptionalHeader.
Definition first : Z := file_at + 392.

Definition words (ws : list (nat * Z * Z)) (m : memory) : memory :=
  foldl (λ m '(n, a, v), ImportsDemo.put n a v m) m ws.

Definition headers_of_file : list (layout * string * Z * Z) :=
  let dir i := opt + directories_offset + 8 * i in
  [(IMAGE_DOS_HEADER, "E_magic"%string, file_at, IMAGE_DOS_SIGNATURE);
   (IMAGE_DOS_HEADER, "E_lfanew"%string, file_at, 64);
   ([u32 "Signature"], "Signature"%string, nt, IMAGE_NT_SIGNATURE);
   (IMAGE_FILE_HEADER, "Machine"%string, nt + 4, IMAGE_FILE_MACHINE_I386);
   (IMAGE_FILE_HEADER, "NumberOfSections"%string, nt + 4, 2);
   (IMAGE_FILE_HEADER, "Characteristics"%string, nt + 4, IMAGE_FILE_DLL);
   (IMAGE_FILE_HEADER, "SizeOfOptionalHeader"%string, nt + 4, 224);
   (IMAGE_OPTIONAL_HEADER, "SizeOfUninitializedData"%string, opt, 16);
   (IMAGE_OPTIONAL_HEADER, "AddressOfEntryPoint"%string, opt, 0x10b4);
   (IMAGE_OPTIONAL_HEADER, "ImageBase"%string, opt, 0x8000);
   (IMAGE_OPTIONAL_HEADER, "SectionAlignment"%string, opt, 16);
   (IMAGE_OPTIONAL_HEADER, "SizeOfImage"%string, opt, 0x2010);
   (IMAGE_OPTIONAL_HEADER, "SizeOfHeaders"%string, opt, 392);
   (IMAGE_DATA_DIRECTORY, "VirtualAddress"%string, dir IMAGE_DIRECTORY_ENTRY_BASERELOC, 0x1000);
   (IMAGE_DATA_DIRECTORY, "Size"%string, dir IMAGE_DIRECTORY_ENTRY_BASERELOC, 20);
   (IMAGE_DATA_DIRECTORY, "VirtualAddress"%string, dir IMAGE_DIRECTORY_ENTRY_IMPORT, 0x1018);
   (IMAGE_DATA_DIRECTORY, "Size"%string, dir IMAGE_DIRECTORY_ENTRY_IMPORT, 40);
   (IMAGE_DATA_DIRECTORY, "VirtualAddress"%string, dir IMAGE_DIRECTORY_ENTRY_TLS, 0x1080);
   (IMAGE_DATA_DIRECTORY, "Size"%string, dir IMAGE_DIRECTORY_ENTRY_TLS, 24);
   (IMAGE_SECTION_HEADER, "VirtualAddress"%string, file_at + 312, 0x1000);
   (IMAGE_SECTION_HEADER, "SizeOfRawData"%string, file_at + 312, 184);
   (IMAGE_SECTION_HEADER, "PointerToRawData"%string, file_at + 312, 392);
   (IMAGE_SECTION_HEADER, "Characteristics"%string, file_at + 312, 0xE0000020);
   (IMAGE_SECTION_HEADER, "VirtualAddress"%string, file_at + 352, 0x2000);
   (IMAGE_SECTION_HEADER, "Characteristics"%string, file_at + 352, 0xC0000080)].

(** One block for the page at 0x1000: the words at 0x70, 0x8c and 0xa0 of it, and nothing; the
    library [k] with [f] and the function of ordinal 7, their slots at 0x58; the TLS directory
    at 0x80 with one callback, whose table is at 0xa0. *)
Definition first_section : list (nat * Z * Z) :=
  [(4%nat, first, 0x1000); (4%nat, first + 4, 16); (2%nat, first + 8, 0x3070); (2%nat, first + 10, 0x308c);
   (2%nat, first + 12, 0x30a0); (4%nat, first + 0x18, 0x1040); (4%nat, first + 0x24, 0x1050); (4%nat, first + 0x28, 0x1058);
   (4%nat, first + 0x40, 0x1060); (4%nat, first + 0x44, 0x80000007);
   (1%nat, first + 0x50, 107); (1%nat, first + 0x62, 102); (4%nat, first + 0x70, 0x8010);
   (4%nat, first + 0x8c, 0x90a0); (4%nat, first + 0xa0, 0x90b0)].

Definition file : memory := words first_section (with_fields headers_of_file (zeroes file_at file_size)).

(** The free place: the pages of it that the image uses. *)
Definition place : memory := zeroes 0x20000 392 ∪ (zeroes 0x21000 184 ∪ zeroes 0x22000 16).

Definition before : state () := State (Machine (file ∪ place) ()) zeroModule.

Lemma sections_of_file : Sections nt before = Ret (inl [file_at + 312; file_at + 352], before).
Proof. unfold Sections, FileHeader. read. read. reflexivity. Qed.

Lemma headers_accepted : check_headers file_at file_size before = Ret (inl (nt, 0x2010), before).
Proof.
  unfold check_headers, FileHeader, OptionalHeader. skip. skip. read. skip. read. skip. read. skip. read. skip. read. skip.
  erewrite bind_inl by exact sections_of_file.
  erewrite bind_inl; cycle 1.
  { unfold last_section_end, section. do 4 read. reflexivity. }
  read. skip. reflexivity.
Qed.

Definition reserved : state () :=
  State (Machine (file ∪ place) ()) (with_codeBase 0x20000 (with_isDLL true zeroModule)).

Lemma image_reserved : reserve_module 8 nt 0x2010 before = Ret (inl (), reserved).
Proof.
  unfold reserve_module, FileHeader, OptionalHeader. read. erewrite bind_inl by reflexivity. read.
  erewrite bind_inl by reflexivity. reflexivity.
Qed.

(** ** The library *)

Definition contents : bytes := default [] (load_bytes (Z.to_nat file_size) file_at (file ∪ place)).

Definition lib_k : library := {|
  l_file := contents; l_lfanew := 64; l_hsize := 392; l_align := 16; l_opt := 224; l_base := 0x8000;
  l_sections := [{| s_va := 0x1000; s_raw := 184; s_ptr := 392 |}; {| s_va := 0x2000; s_raw := 0; s_ptr := 0 |}];
  l_relocs := {| dir_va := 0x1000; dir_size := 20 |}; l_imports := {| dir_va := 0x1018; dir_size := 40 |};
|}.

Lemma file_holds_library : library_in file_at file_size lib_k (file ∪ place).
Proof.
  split.
  - vm_compute. reflexivity.
  - vm_compute. reflexivity.
  - vm_compute. reflexivity.
  - vm_compute. reflexivity.
  - vm_compute. reflexivity.
  - vm_compute. reflexivity.
  - vm_compute. reflexivity.
  - split; vm_compute; reflexivity.
  - split; vm_compute; reflexivity.
  - cbn [l_sections lib_k sections_in]. repeat split; vm_compute; reflexivity.
  - repeat split; vm_compute; congruence.
Qed.

Lemma place_mapped lo hi n : (lo, n) ∈ [(0x20000, 392); (0x21000, 184); (0x22000, 16)] → hi <= lo + n →
  mapped_in lo hi (file ∪ place).
Proof.
  intros Hin Hh x Hx. unfold place. rewrite !dom_union_L, !elem_of_union.
  rewrite !elem_of_cons in Hin. destruct Hin as [[= -> ->]|[[= -> ->]|[[= -> ->]|[]%not_elem_of_nil]]];
    [right; left|right; right; left|right; right; right]; apply zeroes_mapped; lia.
Qed.

Lemma room_for_library : room file_at file_size 0x20000 392 0x2010 16 (l_sections lib_k) (file ∪ place).
Proof.
  split.
  - vm_compute. repeat split; congruence.
  - vm_compute. repeat split; congruence.
  - left. vm_compute. congruence.
  - apply (place_mapped _ _ 392); [apply (bool_decide_unpack _); reflexivity|lia].
  - cbn [l_sections lib_k]. repeat apply Forall_cons_2; [| |apply Forall_nil_2]; (split; [|vm_compute; congruence]); split.
    1-3, 5-8, 10: vm_compute; repeat split; congruence.
    + apply (place_mapped _ _ 184); [apply (bool_decide_unpack _); reflexivity|vm_compute; congruence].
    + apply (place_mapped _ _ 16); [apply (bool_decide_unpack _); reflexivity|vm_compute; congruence].
Qed.

(** ** The image before it is relocated *)

Definition laid_out : memory := placed 0x20000 lib_k (file ∪ place).

Definition blocks : list (Z * list Z) := [(0x1000, [0x3070; 0x308c; 0x30a0; 0])].

Definition k_dll : imported :=
  {| d_name := 0x1050; d_original := 0x1040; d_first := 0x1058; d_lib := "k"; d_handle := 9;
     d_bounds := [{| thunk := 0x1060; fn := ByName "f"; addr := 0x5000 |};
                  {| thunk := 0x80000007; fn := ByOrdinal 7; addr := 0x6000 |}] |}.

#[local] Instance apart_dec lo hi w : Decision (MemmodFacts.apart lo hi w).
Proof. unfold MemmodFacts.apart. apply _. Defined.

#[local] Instance separate_dec w1 w2 : Decision (separate w1 w2).
Proof. unfold separate. apply _. Defined.

Lemma image_relocatable : relocatable 0x20000 0x18000 lib_k blocks laid_out.
Proof.
  intros _ _. change (MemmodFacts.table_ok 0x21000 0x20000 0x18000 blocks laid_out).
  unfold blocks; cbn [MemmodFacts.table_ok fst snd].
  do 3 (split; [computed|]). split; [computed|]. split; [split; computed|].
  split; [|split; [|computed]].
  - cbn [block_ok length].
    do 3 (entry; [apply Forall_option_list; intros w [= <-]; split; [eexists; computed|split; [apart|decided]]|]).
    entry; [apply Forall_nil; exact I|exact I].
  - cbn [foldr]. decided.
Qed.

Lemma laid_out_mapped lo hi : 0x21000 <= lo → hi <= 0x210b8 → ∀ x, lo <= x < hi → x ∈ dom laid_out.
Proof.
  intros ? ? x Hx.
  assert (Forall (λ i, is_Some (laid_out !! (0x21000 + Z.of_nat i))) (seq 0 184)) as Ha.
  { decided. }
  rewrite Forall_forall in Ha. apply elem_of_dom. replace x with (0x21000 + Z.of_nat (Z.to_nat (x - 0x21000))) by lia.
  apply Ha, elem_of_seq. lia.
Qed.

Lemma laid_out_string p s :
  cstring laid_out p s → 0 <= p → p + Z.of_nat (length (string_bytes s)) < 2 ^ 32 → string_at laid_out p s.
Proof. by intros. Qed.

Lemma image_linkable : linkable 0x20000 lib_k 3 2 [k_dll] laid_out.
Proof.
  intros _. change (MemmodImports.table_ok 0x20000 0x21018 3 2 [k_dll] laid_out). split.
  - cbn [descriptors_in]. split; [apply laid_out_mapped; computed|].
    split; [split_and!; computed|]. split; [done|].
    split; [apply laid_out_string; [split; [computed|by apply (bool_decide_unpack _)]|done|done]|].
    split; [|split; [apply laid_out_mapped; computed|computed]].
    cbn [thunks_in d_bounds k_dll]. split; [computed|]. split; [done|].
    split; [split; [computed|apply laid_out_string; [split; [computed|by apply (bool_decide_unpack _)]|done|done]]|].
    split; [computed|]. split; [done|].
    split; [split; computed|computed].
  - repeat constructor; computed.
  - decided.
  - repeat constructor; apply laid_out_mapped; computed.
Qed.

Lemma image_apart : relocations_apart 0x20000 0x18000 lib_k blocks [k_dll].
Proof. unfold relocations_apart. decided. Qed.

Lemma image_changes :
  table_writes 0x20000 0x18000 blocks = [(4%nat, 0x21070, 0x18000); (4%nat, 0x2108c, 0x18000); (4%nat, 0x210a0, 0x18000)] ∧
  slots (descriptor_accesses 0x20000 (up (0x20000 + 0x1018)) [k_dll]) = [(0x21058, 0x5000); (0x2105c, 0x6000)].
Proof. split; vm_compute; reflexivity. Qed.

Lemma reserved_memory : memory_of reserved = file ∪ place.
Proof. unfold memory_of, reserved. cbn [mach mem]. reflexivity. Qed.

Lemma laid_out_placed : placed 0x20000 lib_k (file ∪ place) = laid_out.
Proof. unfold laid_out. reflexivity. Qed.

Lemma reserved_base : codeBase (module reserved) = 0x20000.
Proof. reflexivity. Qed.

Lemma image_delta : up (0x20000 - l_base lib_k) = 0x18000.
Proof. reflexivity. Qed.

Lemma LoadLibrary_correct_witness :
  ∃ st m, LoadLibrary 8 file_at file_size before =
      free_on_error (_ ← start_image 8 (0x20000 + 64); ignore (buildNameExports 8)) st ∧
    relocated [(4%nat, 0x21070, 0x18000); (4%nat, 0x2108c, 0x18000); (4%nat, 0x210a0, 0x18000)] laid_out m ∧
    patched [(0x21058, 0x5000); (0x2105c, 0x6000)] m (memory_of st) ∧
    module st = with_modules (Some [9]) (with_isRelocated true (with_headers (0x20000 + 64) (module reserved))).
Proof.
  destruct image_changes as [Hw Hs].
  pose proof (LoadLibrary_correct 8 file_at file_size 0x2010 0x2010 3 2 lib_k blocks [k_dll] before reserved
    headers_accepted image_reserved) as H. cbv zeta in H. rewrite reserved_memory, reserved_base, image_delta, laid_out_placed in H.
  destruct (H eq_refl file_holds_library room_for_library image_relocatable image_linkable
    image_apart ltac:(apply Nat.ltb_lt; reflexivity) ltac:(apply Nat.ltb_lt; reflexivity)) as (st & m & H1 & H2 & H3 & H4).
  exists st, m. rewrite <- Hw, <- Hs. exact (conj H1 (conj H2 (conj H3 H4))).
Defined.
