(* ===== verification/MemmodAttachDemo.v ===== *)
(** * A library loaded and started

    The DLL of [MemmodLoadDemo.v], with a TLS callback and an entry point that move with it:
    the theorem of [MemmodAttach.v] at work. *)

From S2P Require Import Prelude Sys Pe Memmod MemmodFacts MemmodImports MemmodSections MemmodLoad MemmodStart MemmodAttach MemmodDemo MemmodLoadDemo.

Local Open Scope Z_scope.

#[local] Existing Instances i386 windows linker committer.

#[local] Instance windows_pages : Pages (OS := ()).
Proof. by split. Defined.

Definition start_k : start_desc :=
  {| c_flags := [0xE0000020; 0xC0000080]; c_init := 0; c_uninit := 16; c_entry := 0x10b4 |}.

Lemma file_starts : start_in file_at lib_k start_k (file ∪ place).
Proof.
  split; [cbn [c_flags start_k flags_in]; repeat split| | | |]; vm_compute; reflexivity.
Qed.

Lemma imports_apart : slots_apart 0x20000 lib_k [k_dll].
Proof. intros _. decided. Qed.

Lemma headers_mapped : mapped_in 0x20000 (0x20000 + 392) laid_out.
Proof.
  intros x Hx. assert (Forall (λ i, is_Some (laid_out !! (0x20000 + Z.of_nat i))) (seq 0 392)) as Ha.
  { decided. }
  rewrite Forall_forall in Ha. apply elem_of_dom. replace x with (0x20000 + Z.of_nat (Z.to_nat (x - 0x20000))) by lia.
  apply Ha, elem_of_seq. lia.
Qed.

(** ** What the library finds in its memory *)

Section linked.
Variable m' : memory.
Variable st : state ().
Hypothesis Hrel : relocated (table_writes 0x20000 0x18000 blocks) laid_out m'.
Hypothesis Hlink : patched (slots (descriptor_accesses 0x20000 (up (0x20000 + 0x1018)) [k_dll])) m' (memory_of st).

Lemma linked_mapped : mapped_in 0x20000 (0x20000 + 392) (memory_of st).
Proof.
  destruct Hlink as (_ & _ & Hd). eapply mapped_dom, headers_mapped. rewrite Hd. by eapply relocated_dom.
Qed.

(** A word that is neither moved nor filled in. *)
Lemma linked_word a v :
  load 4 a laid_out = Some v → Forall (MemmodFacts.apart a (a + 4)) (table_writes 0x20000 0x18000 blocks) →
  Forall (λ w, clear_of w.1 (a, 4)) (slots (descriptor_accesses 0x20000 (up (0x20000 + 0x1018)) [k_dll])) →
  load 4 a (memory_of st) = Some v.
Proof.
  intros <- Hr Hp. rewrite (load_agree _ _ _ _ _ _ (patched_agree _ _ _ _ _ Hlink Hp)) by lia.
  by rewrite (load_agree _ _ _ _ _ _ (relocated_agree _ _ _ _ _ Hrel Hr)) by lia.
Qed.

(** A word that is moved. *)
Lemma moved_word a v :
  (4%nat, a, 0x18000) ∈ table_writes 0x20000 0x18000 blocks → load 4 a laid_out = Some v →
  Forall (λ w, clear_of w.1 (a, 4)) (slots (descriptor_accesses 0x20000 (up (0x20000 + 0x1018)) [k_dll])) →
  load 4 a (memory_of st) = Some ((v + 0x18000) mod 2 ^ 32).
Proof.
  intros Hin Hv Hp. rewrite (load_agree _ _ _ _ _ _ (patched_agree _ _ _ _ _ Hlink Hp)) by lia.
  destruct Hrel as [Hw _]. rewrite Forall_forall in Hw. destruct (Hw _ Hin) as (x & Hx & Hx').
  rewrite Hv in Hx. by injection Hx as <-.
Qed.

Lemma linked_callbacks :
  headers (module st) = 0x20000 + 64 → codeBase (module st) = 0x20000 →
  tls_callbacks (memory_of st) st [0x210b0].
Proof.
  intros Hh Hb. exists (up (0x20040 + OffsetOptionalHeader + default 0 (offsetof IMAGE_OPTIONAL_HEADER 0 "DataDirectory")
    + sizeof IMAGE_DATA_DIRECTORY * IMAGE_DIRECTORY_ENTRY_TLS)), 0x1080.
  assert (∀ l f a v, get l f a (memory_of st) = Some v → MemmodSections.reads (memory_of st) st (field_ l f a) v) as Hf.
  { intros l f a v Hg. by apply (field_ok _ _ _ _ (with_memory (memory_of st) st)). }
  split; [unfold MemmodSections.reads, headerDirectory; erewrite bind_inl by reflexivity; cbn [module with_memory]; by rewrite Hh|].
  split; [apply Hf; apply linked_word; [computed|decided|decided]|]. rewrite bool_decide_eq_false_2 by done.
  exists ((0x90a0 + 0x18000) mod 2 ^ 32). rewrite Hb.
  split; [apply Hf; apply moved_word; [decided|computed|decided]|]. rewrite bool_decide_eq_false_2 by done.
  split_and!; [apply (moved_word 0x210a0 0x90b0); [decided|computed|decided]|done|apply linked_word; [computed|decided|decided]].
Qed.

End linked.

(** This Windows protects every page. *)
Lemma runs_protected (st : state ()) : for_each (runs_of (sections_of 0x20000 lib_k start_k)) finalize st = Ret (inl (), st).
Proof. destruct st as [[mm []] mo]. vm_compute. reflexivity. Qed.

Lemma runs_spared hm : Forall (spares hm) (runs_of (sections_of 0x20000 lib_k start_k)).
Proof.
  match goal with |- Forall _ ?rs => let v := eval vm_compute in rs in change rs with v end.
  repeat apply Forall_cons_2; [intros Hd; exfalso; apply Hd; computed..|apply Forall_nil_2].
Qed.

Lemma LoadLibrary_runs_library_witness :
  ∃ st, codeBase (module st) = 0x20000 ∧ modules (module st) = Some [9] ∧
    LoadLibrary 8 file_at file_size before = enter 8 0x210b4 (with_mach (foldl (attach 0x20000) (mach st) [0x210b0]) st).
Proof.
  pose proof (LoadLibrary_runs_library 8 file_at file_size 0x2010 3 2 lib_k start_k blocks [k_dll] before reserved
    headers_accepted image_reserved) as H. cbv zeta in H. rewrite reserved_memory, reserved_base, image_delta, laid_out_placed in H.
  destruct (H eq_refl eq_refl file_holds_library file_starts ltac:(discriminate) ltac:(discriminate) room_for_library
    image_relocatable image_linkable image_apart imports_apart ltac:(apply Nat.ltb_lt; reflexivity) ltac:(apply Nat.ltb_lt; reflexivity))
    as (st & m & H1 & H2 & H3 & H4).
  change (module st = with_modules (Some [9]) (with_isRelocated true (with_headers (0x20000 + 64) (module reserved)))) in H3.
  assert (headers (module st) = 0x20000 + 64 ∧ codeBase (module st) = 0x20000 ∧ modules (module st) = Some [9]) as (Hh & Hb & Hm)
    by (rewrite H3; repeat split; reflexivity).
  destruct (H4 (memory_of st) [0x210b0]) as (r & s2 & E & _ & _ & F).
  - exact (reflexivity (R := (⊆)) (memory_of st)).
  - exact (linked_mapped m st H1 H2).
  - apply runs_spared.
  - exact (linked_callbacks m st H1 H2 Hh Hb).
  - apply Forall_true. intros f mm Hmm. unfold attach. cbn [Syscall windows snd]. exact Hmm.
  - apply Nat.ltb_lt. reflexivity.
  - rewrite runs_protected in E. injection E as <- <-. exists st. exact (conj Hb (conj Hm F)).
Defined.
