(* ===== verification/LazyDll.v ===== *)
(** * The lazily loaded driver library

    [node/tun/wintun/dll_windows.go] with [dll_fromfile_windows.go]: [lazyProc.Find] finds a
    procedure of a library that [lazyDLL.Load] loads on first use, both behind a check, a
    mutex and a second check.  Any number of goroutines run [Find] at once; a step is the
    code between two accesses to what they share. *)

From S2P Require Import Prelude Sys Memmod.

Local Open Scope Z_scope.

(** ** State *)

(** A mutex is the goroutine that holds it. *)
Record lazyDLL := { d_name : string; d_mu : option nat; d_module : Z; d_onLoad : bool }.
Record lazyProc := { p_name : string; p_mu : option nat; p_addr : Z }.

Definition newLazyDLL (name : string) (onLoad : bool) : lazyDLL :=
  {| d_name := name; d_mu := None; d_module := 0; d_onLoad := onLoad |}.
Definition NewProc (name : string) : lazyProc := {| p_name := name; p_mu := None; p_addr := 0 |}.

(** Where a goroutine is in [Find].  [onLoad] is [setupLogger], which runs [Find] for a
    procedure of its own: its fast check, lock and second check see only that new object, so
    what it shares begins with its call of [Load]. *)
Inductive pc :=
| FindFast | FindLock | FindCheck
| LoadFast | LoadLock | LoadCheck | Loading | LoadStore (m : Z)
| OnLoadFast | OnLoadLock | OnLoadName | SetLogger (a : Z)
| LoadUnlock (r : option error)
| NameToAddr | StoreAddr (a : Z) | FindUnlock (r : option error)
| Returned (r : option error) | Panicked (e : error).

(** A goroutine that runs [Find] on the procedure [target]. *)
Record thread := { target : nat; at_pc : pc }.

(** [loads] counts the loads that succeeded, [loggers] the calls of [WintunSetLogger]. *)
Record world := {
  dll : lazyDLL;
  procs : list lazyProc;
  threads : gmap nat thread;
  loads : nat;
  loggers : nat;
}.

Definition goto (t : nat) (c : pc) (w : world) : world := {|
  dll := dll w; procs := procs w;
  threads := alter (λ th, {| target := target th; at_pc := c |}) t (threads w);
  loads := loads w; loggers := loggers w |}.
Definition with_d_mu (x : option nat) (w : world) : world := {|
  dll := {| d_name := d_name (dll w); d_mu := x; d_module := d_module (dll w); d_onLoad := d_onLoad (dll w) |};
  procs := procs w; threads := threads w; loads := loads w; loggers := loggers w |}.
Definition with_module (m : Z) (w : world) : world := {|
  dll := {| d_name := d_name (dll w); d_mu := d_mu (dll w); d_module := m; d_onLoad := d_onLoad (dll w) |};
  procs := procs w; threads := threads w; loads := loads w; loggers := loggers w |}.
Definition with_p_mu (i : nat) (x : option nat) (w : world) : world := {|
  dll := dll w; procs := alter (λ p, {| p_name := p_name p; p_mu := x; p_addr := p_addr p |}) i (procs w);
  threads := threads w; loads := loads w; loggers := loggers w |}.
Definition with_addr (i : nat) (a : Z) (w : world) : world := {|
  dll := dll w; procs := alter (λ p, {| p_name := p_name p; p_mu := p_mu p; p_addr := a |}) i (procs w);
  threads := threads w; loads := loads w; loggers := loggers w |}.
Definition loaded (w : world) : world := {|
  dll := dll w; procs := procs w; threads := threads w; loads := S (loads w); loggers := loggers w |}.
Definition logged (w : world) : world := {|
  dll := dll w; procs := procs w; threads := threads w; loads := loads w; loggers := S (loggers w) |}.

(** Goroutines that are about to call [Find] on procedures of a library not loaded yet. *)
Definition init (name : string) (onLoad : bool) (names : list string) (targets : list nat) : world := {|
  dll := newLazyDLL name onLoad;
  procs := NewProc <$> names;
  threads := map_seq 0 ((λ i, {| target := i; at_pc := FindFast |}) <$> targets);
  loads := 0; loggers := 0 |}.

(** ** Steps *)

(** [Load] of [dll_fromfile_windows.go] after its checks: [r] is what [LoadLibraryEx] gives. *)
Definition load_from_file (r : Z * option Z) : Z + error :=
  match r.2 with Some z => inr (Wrap "Unable to load library" (Errno z)) | None => inl r.1 end.

Section steps.
(** [nameToAddr] in a loaded library. *)
Variable nameToAddr : Z → string → Z + error.

(** [Load], one step of goroutine [t] that runs [Find] on [target] and is at [c]; [r] is what
    the library's loading gives, in the step that loads it. *)
Definition load_step (t target : nat) (c : pc) (r : Z + error) (w : world) : outcome world :=
  let d := dll w in
  match c with
  | LoadFast => Ret (goto t (if bool_decide (d_module d ≠ 0) then NameToAddr else LoadLock) w)
  | LoadLock =>
      match d_mu d with
      | Some _ => Block
      | None => Ret (goto t LoadCheck (with_d_mu (Some t) w))
      end
  | LoadCheck => Ret (goto t (if bool_decide (d_module d ≠ 0) then LoadUnlock None else Loading) w)
  | Loading =>
      match r with
      | inl m => Ret (goto t (LoadStore m) (loaded w))
      | inr e => Ret (goto t (LoadUnlock (Some e)) w)
      end
  | LoadStore m => Ret (goto t (if d_onLoad d then OnLoadFast else LoadUnlock None) (with_module m w))
  | OnLoadFast => Ret (goto t (if bool_decide (d_module d ≠ 0) then OnLoadName else OnLoadLock) w)
  | OnLoadLock => (* [d.mu.Lock()] by the goroutine that holds [d.mu] *) Block
  | OnLoadName =>
      match nameToAddr (d_module d) "WintunSetLogger" with
      | inl a => Ret (goto t (SetLogger a) w)
      | inr e => Ret (goto t (Panicked (Wrap "Error getting WintunSetLogger address" e))
                   (with_p_mu target None (with_d_mu None w)))
      end
  | SetLogger _ => Ret (goto t (LoadUnlock None) (logged w))
  | LoadUnlock r =>
      Ret (goto t (match r with
                   | None => NameToAddr
                   | Some e => FindUnlock (Some (Wrap ("Error loading " +:+ d_name d +:+ " DLL") e))
                   end) (with_d_mu None w))
  | _ => Block
  end.

(** [Find], one step of goroutine [t]. *)
Definition exec (t : nat) (r : Z + error) (w : world) : outcome world :=
  match threads w !! t with
  | None => Block
  | Some th =>
    match procs w !! target th with
    | None => Panic "invalid memory address or nil pointer dereference"
    | Some p =>
      match at_pc th with
      | FindFast => Ret (goto t (if bool_decide (p_addr p ≠ 0) then Returned None else FindLock) w)
      | FindLock =>
          match p_mu p with
          | Some _ => Block
          | None => Ret (goto t FindCheck (with_p_mu (target th) (Some t) w))
          end
      | FindCheck => Ret (goto t (if bool_decide (p_addr p ≠ 0) then FindUnlock None else LoadFast) w)
      | NameToAddr =>
          match nameToAddr (d_module (dll w)) (p_name p) with
          | inl a => Ret (goto t (StoreAddr a) w)
          | inr e => Ret (goto t (FindUnlock (Some (Wrap ("Error getting " +:+ p_name p +:+ " address") e))) w)
          end
      | StoreAddr a => Ret (goto t (FindUnlock None) (with_addr (target th) a w))
      | FindUnlock r => Ret (goto t (Returned r) (with_p_mu (target th) None w))
      | Returned _ | Panicked _ => Block
      | c => load_step t (target th) c r w
      end
    end
  end.

(** [Addr] once its [Find] returned [r]. *)
Definition Addr (p : lazyProc) (r : option error) : outcome Z :=
  match r with Some _ => Panic "panic(err)" | None => Ret (p_addr p) end.

(** What Windows promises: a library that was loaded and a procedure that was found are not
    at address 0. *)
Definition load_ok (r : Z + error) : Prop := match r with inl m => m ≠ 0 | inr _ => True end.

Definition step (w w' : world) : Prop := ∃ t r, load_ok r ∧ exec t r w = Ret w'.

End steps.

(** ** The invariant *)

Definition holds_p (c : pc) : bool :=
  match c with FindFast | FindLock | Returned _ | Panicked _ => false | _ => true end.

Definition holds_d (c : pc) : bool :=
  match c with
  | LoadCheck | Loading | LoadStore _ | OnLoadFast | OnLoadLock | OnLoadName | SetLogger _ | LoadUnlock _ => true
  | _ => false
  end.

(** The goroutine saw no address behind its lock. *)
Definition checked (c : pc) : bool :=
  match c with FindFast | FindLock | FindCheck | FindUnlock _ | Returned _ | Panicked _ => false | _ => true end.

Section invariant.
Variable nameToAddr : Z → string → Z + error.
Hypothesis found : ∀ m name a, nameToAddr m name = inl a → a ≠ 0.

Abbreviation exec := (exec nameToAddr).
Abbreviation load_step := (load_step nameToAddr).
Abbreviation step := (step nameToAddr).

(** What a goroutine at [c] knows of the library's handle [m], of the counts, and of the
    procedure it looks for. *)
Definition pc_ok (m : Z) (loads loggers : nat) (p : lazyProc) (c : pc) : Prop :=
  (checked c = true → p_addr p = 0) ∧
  match c with
  | Loading => m = 0 ∧ loads = 0%nat
  | LoadStore m' => m' ≠ 0 ∧ m = 0 ∧ loads = 1%nat
  | OnLoadFast | OnLoadName | SetLogger _ => m ≠ 0 ∧ loggers = 0%nat
  | OnLoadLock => False
  | LoadUnlock None | NameToAddr => m ≠ 0
  | StoreAddr a => m ≠ 0 ∧ nameToAddr m (p_name p) = inl a
  | FindUnlock None | Returned None => p_addr p ≠ 0
  | _ => True
  end.

(** The library is loaded once the handle is set, or about to be. *)
Definition loads_ok (w : world) : Prop :=
  if decide (d_module (dll w) = 0)
  then loggers w = 0%nat ∧
       (loads w = 0%nat ∨ loads w = 1%nat ∧ ∃ t th m, threads w !! t = Some th ∧ at_pc th = LoadStore m)
  else loads w = 1%nat ∧ (loggers w ≤ 1)%nat.

Record winv (w : world) : Prop := {
  inv_p t th : threads w !! t = Some th → ∃ p, procs w !! target th = Some p ∧
    (holds_p (at_pc th) = true → p_mu p = Some t) ∧
    pc_ok (d_module (dll w)) (loads w) (loggers w) p (at_pc th);
  inv_p_mu i p t : procs w !! i = Some p → p_mu p = Some t →
    ∃ th, threads w !! t = Some th ∧ target th = i ∧ holds_p (at_pc th) = true;
  inv_d t th : threads w !! t = Some th → holds_d (at_pc th) = true → d_mu (dll w) = Some t;
  inv_d_mu t : d_mu (dll w) = Some t → ∃ th, threads w !! t = Some th ∧ holds_d (at_pc th) = true;
  inv_loads : loads_ok w;
  inv_addr i p : procs w !! i = Some p → p_addr p ≠ 0 →
    d_module (dll w) ≠ 0 ∧ nameToAddr (d_module (dll w)) (p_name p) = inl (p_addr p);
}.

(** What goroutine [t] does to a mutex when it comes to hold it, or ceases to. *)
Definition mutex_step (t : nat) (h h' : bool) (mu mu' : option nat) : Prop :=
  match h, h' with
  | false, true => mu = None ∧ mu' = Some t
  | true, false => mu' = None
  | _, _ => mu' = mu
  end.

(** What the other goroutines know stays true: of the library, because they do not hold its
    mutex, or of the procedure, because they do not hold that of the procedure. *)
Lemma pc_ok_library m m' l l' g g' p c :
  holds_d c = false → m' = m ∨ m = 0 → pc_ok m l g p c → pc_ok m' l' g' p c.
Proof.
  intros Hc Hm [H1 H2]. split; [done|].
  destruct c as [| | | | | | |?| | | |?|[]| |?|[]|[]|?]; try done; destruct Hm as [->| ->]; naive_solver.
Qed.

Lemma pc_ok_procedure m l g p p' c :
  p_name p' = p_name p → p_addr p' = p_addr p ∨ p_addr p' ≠ 0 ∧ holds_p c = false →
  pc_ok m l g p c → pc_ok m l g p' c.
Proof.
  intros Hn [Ha|[Ha Hc]]; [unfold pc_ok; by rewrite Ha, Hn|]. intros [H1 H2]. split; by destruct c as [| | | | | | |?| | | |?|[]| |?|[]|[]|?].
Qed.

(** Who holds a mutex after the step of goroutine [t]. *)
Lemma mutex_step_holder t h h' mu mu' :
  mutex_step t h h' mu mu' → (h = true → mu = Some t) →
  (h' = true → mu' = Some t) ∧ (∀ u, u ≠ t → mu = Some u → mu' = Some u) ∧
  (∀ u, mu' = Some u → u = t ∧ h' = true ∨ mu = Some u ∧ (u = t → h = false)).
Proof.
  unfold mutex_step. intros Hm Hh. destruct h; [specialize (Hh eq_refl)|]; destruct h';
    [| |destruct Hm|]; subst; split_and!; try done; intros; simplify_eq; auto.
Qed.

Lemma winv_step w w' t th p p' c :
  winv w → threads w !! t = Some th → procs w !! target th = Some p →
  (∀ u, threads w' !! u = if decide (u = t) then Some {| target := target th; at_pc := c |} else threads w !! u) →
  (∀ i, procs w' !! i = if decide (i = target th) then Some p' else procs w !! i) →
  p_name p' = p_name p →
  mutex_step t (holds_p (at_pc th)) (holds_p c) (p_mu p) (p_mu p') →
  mutex_step t (holds_d (at_pc th)) (holds_d c) (d_mu (dll w)) (d_mu (dll w')) →
  p_addr p' = p_addr p ∨ p_addr p' ≠ 0 ∧ holds_p (at_pc th) = true →
  (d_module (dll w') = d_module (dll w) ∧ loads w' = loads w ∧ loggers w' = loggers w) ∨
    (holds_d (at_pc th) = true ∧ (d_module (dll w') = d_module (dll w) ∨ d_module (dll w) = 0)) →
  pc_ok (d_module (dll w')) (loads w') (loggers w') p' c →
  loads_ok w' →
  (p_addr p' ≠ 0 → d_module (dll w') ≠ 0 ∧ nameToAddr (d_module (dll w')) (p_name p') = inl (p_addr p')) →
  winv w'.
Proof.
  intros Hw Ht Hp Hts Hps Hn Hmp Hmd Ha Hlib Hc Hl Haddr.
  pose proof (inv_p w Hw t th Ht) as (p0 & Hp0 & Hmu & _). rewrite Hp in Hp0. injection Hp0 as <-.
  pose proof (inv_d w Hw t th Ht) as Hd.
  destruct (mutex_step_holder _ _ _ _ _ Hmp Hmu) as (P1 & P2 & P3).
  destruct (mutex_step_holder _ _ _ _ _ Hmd Hd) as (D1 & D2 & D3).
  split; [..|done|].
  - intros u th'. rewrite Hts. destruct (decide (u = t)) as [->|Hu].
    { intros [= <-]. simpl. exists p'. by rewrite Hps, decide_True by done. }
    intros Hu'. destruct (inv_p w Hw u th' Hu') as (q & Hq & Hqm & Hqc).
    assert (pc_ok (d_module (dll w')) (loads w') (loggers w') q (at_pc th')) as Hqc'.
    { destruct Hlib as [(-> & -> & ->)|[Hh Hm]]; [done|]. eapply pc_ok_library; [|exact Hm|exact Hqc].
      destruct (holds_d (at_pc th')) eqn:Eh; [|done]. apply (inv_d w Hw) in Hu'; [|done].
      rewrite Hd in Hu' by done. congruence. }
    rewrite Hps. destruct (decide (target th' = target th)) as [Et|Et]; [|eauto].
    rewrite Et, Hp in Hq. injection Hq as <-. exists p'. split_and!; [done|intros Hh; apply P2; auto|].
    eapply pc_ok_procedure; [done| |done]. destruct Ha as [?|[? Hh]]; [by left|right; split; [done|]].
    destruct (holds_p (at_pc th')); [|done]. specialize (Hqm eq_refl). rewrite Hmu in Hqm by done. congruence.
  - intros i q u. rewrite Hps. destruct (decide (i = target th)) as [->|Hi].
    + intros [= <-] [[-> Hh]|[Hq Hne]]%P3; [rewrite Hts, decide_True by done; by eexists|].
      destruct (inv_p_mu w Hw _ _ _ Hp Hq) as (th' & ? & ? & ?). rewrite Hts, decide_False; [by eexists|].
      intros ->. specialize (Hne eq_refl). congruence.
    + intros Hq Hm. destruct (inv_p_mu w Hw _ _ _ Hq Hm) as (th' & ? & ? & ?).
      rewrite Hts, decide_False by congruence. by eexists.
  - intros u th'. rewrite Hts. destruct (decide (u = t)) as [->|Hu]; [intros [= <-]; apply D1|].
    intros Hu' Hh. apply D2; [done|]. by apply (inv_d w Hw _ _ Hu').
  - intros u [[-> Hh]|[Hdu Hne]]%D3; [rewrite Hts, decide_True by done; by eexists|].
    destruct (inv_d_mu w Hw _ Hdu) as (th' & ? & ?). rewrite Hts, decide_False; [by eexists|].
    intros ->. specialize (Hne eq_refl). congruence.
  - intros i q. rewrite Hps. destruct (decide (i = target th)) as [->|Hi]; [by intros [= <-]|].
    intros Hq Hqa. destruct (inv_addr w Hw _ _ Hq Hqa) as [Hm Hl'].
    destruct Hlib as [(-> & _)|[_ [->|?]]]; done.
Qed.

Lemma winv_init name onLoad names targets :
  Forall (λ i, (i < length names)%nat) targets → winv (init name onLoad names targets).
Proof.
  intros Ht. split; simpl.
  - intros t th. rewrite lookup_map_seq_0, list_lookup_fmap. intros (i & Hi & ->)%fmap_Some.
    pose proof (proj1 (Forall_lookup _ _) Ht _ _ Hi) as Hlt.
    destruct (lookup_lt_is_Some_2 names i Hlt) as [n Hn].
    exists (NewProc n). rewrite list_lookup_fmap. simpl. rewrite Hn. done.
  - intros i p t. rewrite list_lookup_fmap. by intros (n & _ & ->)%fmap_Some.
  - intros t th. rewrite lookup_map_seq_0, list_lookup_fmap. by intros (i & Hi & ->)%fmap_Some.
  - done.
  - unfold loads_ok. simpl. auto.
  - intros i p. rewrite list_lookup_fmap. by intros (n & _ & ->)%fmap_Some.
Qed.

(** A step that leaves the library and the counts alone keeps [loads_ok]. *)
Lemma loads_kept w w' t th c :
  loads_ok w → threads w !! t = Some th → (∀ m, at_pc th ≠ LoadStore m) →
  (∀ u, threads w' !! u = if decide (u = t) then Some {| target := target th; at_pc := c |} else threads w !! u) →
  d_module (dll w') = d_module (dll w) → loads w' = loads w → loggers w' = loggers w → loads_ok w'.
Proof.
  unfold loads_ok. intros Hl Ht Hc Hts -> -> ->. case_decide; [|done].
  destruct Hl as [? [?|(? & u & th' & m & Hu & Hm)]]; [by auto|]. split; [done|]. right. split; [done|].
  exists u, th', m. rewrite Hts, decide_False; [done|]. intros ->. naive_solver.
Qed.

Lemma threads_goto t c w u th :
  threads w !! t = Some th →
  threads (goto t c w) !! u = if decide (u = t) then Some {| target := target th; at_pc := c |} else threads w !! u.
Proof.
  intros Ht. simpl. rewrite lookup_alter. case_decide; subst; [rewrite decide_True by done|by rewrite decide_False].
  by rewrite Ht.
Qed.

Lemma procs_alter (f : lazyProc → lazyProc) i (l : list lazyProc) p j :
  l !! i = Some p → alter f i l !! j = if decide (j = i) then Some (f p) else l !! j.
Proof.
  intros Hp. rewrite list_lookup_alter. case_decide; subst; [rewrite decide_True by done|by rewrite decide_False].
  by rewrite Hp.
Qed.

Lemma procs_same (l : list lazyProc) i p j : l !! i = Some p → l !! j = if decide (j = i) then Some p else l !! j.
Proof. intros. by case_decide; subst. Qed.

(** A step that changes nothing but where the goroutine is. *)
Lemma winv_local w t th p c :
  winv w → threads w !! t = Some th → procs w !! target th = Some p → (∀ m, at_pc th ≠ LoadStore m) →
  holds_p c = holds_p (at_pc th) → holds_d c = holds_d (at_pc th) →
  pc_ok (d_module (dll w)) (loads w) (loggers w) p c → winv (goto t c w).
Proof.
  intros Hw Ht Hp Hm Hhp Hhd Hc. eapply (winv_step w _ t th p p c); try done; try (by left).
  - intros u. by apply threads_goto.
  - intros j. by apply procs_same.
  - unfold mutex_step. rewrite Hhp. by destruct (holds_p (at_pc th)).
  - unfold mutex_step. rewrite Hhd. by destruct (holds_d (at_pc th)).
  - eapply loads_kept; [apply (inv_loads w Hw)|exact Ht|exact Hm|intros u; by apply threads_goto|done..].
  - intros Ha. by apply (inv_addr w Hw _ _ Hp).
Qed.

(** The steps that change something that is shared. *)
Ltac shared p' :=
  match goal with
  | Hw : winv ?w, Ht : threads ?w !! ?t = Some ?th, Hp : procs ?w !! _ = Some ?p |- winv (goto ?t ?c ?w') =>
      eapply (winv_step w _ t th p p' c); [exact Hw|exact Ht|exact Hp
        |intros ?; exact (threads_goto t c w' _ _ Ht)
        |intros ?; simpl; first [rewrite (procs_alter _ _ _ _ _ Hp); reflexivity|apply (procs_same _ _ _ _ Hp)]
        |try done; try (match goal with E : at_pc _ = _ |- _ => rewrite E; done end)..]
  end.

Ltac keep_loads :=
  match goal with
  | Hw : winv ?w, Ht : threads ?w !! ?t = Some ?th |- loads_ok (goto ?t ?c ?w') =>
      eapply (loads_kept w _ t th c); [apply (inv_loads w Hw)|exact Ht|congruence
        |intros ?; exact (threads_goto t c w' _ _ Ht)|done..]
  end.

(** What the invariant says of the goroutine [t]. *)
Ltac at_thread t th :=
  match goal with
  | Hw : winv ?w, Ht : threads ?w !! t = Some th |- _ =>
      destruct (inv_p w Hw t th Ht) as (p & Hp & Hmu & Hck & Hok);
      pose proof (inv_d w Hw t th Ht) as Hd; pose proof (inv_loads w Hw) as Hl;
      pose proof (inv_addr w Hw _ _ Hp) as Ha;
      assert (∀ c, (∀ m, at_pc th ≠ LoadStore m) → holds_p c = holds_p (at_pc th) →
        holds_d c = holds_d (at_pc th) → pc_ok (d_module (dll w)) (loads w) (loggers w) p c →
        winv (goto t c w)) as Hlocal by (intros; by eapply winv_local)
  end.

Lemma load_step_inv w t th r w' :
  winv w → threads w !! t = Some th → load_ok r → load_step t (target th) (at_pc th) r w = Ret w' → winv w'.
Proof.
  intros Hw Ht Hr. unfold LazyDll.load_step. at_thread t th.
  destruct (at_pc th) eqn:E; simpl in Hmu, Hck, Hok, Hd; try done.
  - (* LoadFast *) intros [= <-]. case_bool_decide; apply Hlocal; done.
  - (* LoadLock *) destruct (d_mu (dll w)) eqn:Em; [done|]. intros [= <-].
    shared p; [by left|by left|keep_loads].
  - (* LoadCheck *) intros [= <-]. case_bool_decide as Hz; apply Hlocal; try done.
    split; [done|]. split; [done|]. unfold loads_ok in Hl.
    rewrite decide_True in Hl by done. destruct Hl as [_ [?|(_ & u & th' & m & Hu & Hm)]]; [done|].
    pose proof (inv_d w Hw _ _ Hu) as Hdu. rewrite Hm in Hdu. specialize (Hdu eq_refl).
    rewrite Hd in Hdu by done. injection Hdu as <-. congruence.
  - (* Loading *) destruct Hok as [Hm0 Hl0]. destruct r as [m|e]; intros [= <-].
    + shared p; [by left| | |].
      * right. rewrite E. by split; [|left].
      * split; [done|]. simpl. by rewrite Hl0.
      * unfold loads_ok in *. simpl. rewrite decide_True in * by done. destruct Hl as [? _]. split; [done|].
        right. rewrite Hl0. split; [done|]. exists t, {| target := target th; at_pc := LoadStore m |}, m.
        rewrite lookup_alter_eq, Ht. done.
    + apply Hlocal; done.
  - (* LoadStore *) destruct Hok as (Hm & Hm0 & Hl1). intros [= <-].
    unfold loads_ok in Hl. rewrite decide_True in Hl by done. destruct Hl as [Hg _].
    shared p; [rewrite E; by destruct (d_onLoad _)|rewrite E; by destruct (d_onLoad _)|by left| | | |].
    + right. rewrite E. by split; [|right].
    + simpl. by destruct (d_onLoad _).
    + unfold loads_ok. simpl. rewrite decide_False by done. lia.
    + simpl. intros Hpa. by destruct (Ha Hpa).
  - (* OnLoadFast *) intros [= <-]. destruct Hok. case_bool_decide; [|done]. apply Hlocal; done.
  - (* OnLoadName *) destruct (nameToAddr (d_module (dll w)) "WintunSetLogger") as [a|e]; intros [= <-]; [apply Hlocal; done|].
    shared {| p_name := p_name p; p_mu := None; p_addr := p_addr p |}; [by left|by left|keep_loads].
  - (* SetLogger *) destruct Hok as [Hm Hg]. intros [= <-].
    shared p; [by left| |].
    + right. rewrite E. by split; [|left].
    + unfold loads_ok in *. simpl. rewrite decide_False in * by done. lia.
  - (* LoadUnlock *) intros [= <-]. destruct r0 as [e|].
    + shared p; [by left|by left|keep_loads].
    + shared p; [by left|by left|keep_loads].
Qed.

Lemma lazy_exec_inv w t r w' : winv w → load_ok r → exec t r w = Ret w' → winv w'.
Proof.
  intros Hw Hr. unfold LazyDll.exec. destruct (threads w !! t) as [th|] eqn:Ht; [|done].
  pose proof (λ w', load_step_inv w t th r w' Hw Ht Hr) as Hload. at_thread t th. rewrite Hp.
  destruct (at_pc th) eqn:E; simpl in Hmu, Hck, Hok, Hd; try (by apply Hload); try done.
  - (* FindFast *) intros [= <-]. case_bool_decide; apply Hlocal; done.
  - (* FindLock *) destruct (p_mu p) eqn:Em; [done|]. intros [= <-].
    shared {| p_name := p_name p; p_mu := Some t; p_addr := p_addr p |}; [by left|by left|keep_loads].
  - (* FindCheck *) intros [= <-]. case_bool_decide; apply Hlocal; done.
  - (* NameToAddr *) destruct (nameToAddr (d_module (dll w)) (p_name p)) as [a|e] eqn:En; intros [= <-]; apply Hlocal; done.
  - (* StoreAddr *) destruct Hok as [Hm En]. pose proof (found _ _ _ En) as Hne. intros [= <-].
    shared {| p_name := p_name p; p_mu := p_mu p; p_addr := a |}; [|by left|keep_loads].
    right. by rewrite E.
  - (* FindUnlock *) intros [= <-].
    shared {| p_name := p_name p; p_mu := None; p_addr := p_addr p |}; [by left|by left|keep_loads].
Qed.

Lemma step_inv w w' : winv w → step w w' → winv w'.
Proof. intros Hw (t & r & Hr & E). by eapply lazy_exec_inv. Qed.

Lemma lazy_reachable_inv name onLoad names targets w :
  Forall (λ i, (i < length names)%nat) targets → rtc step (init name onLoad names targets) w → winv w.
Proof. intros Ht. apply (rtc_invariant step winv step_inv), winv_init, Ht. Qed.

(** ** What is found is never lost *)

(** Only the goroutine behind the second check writes, and only once. *)
Lemma step_keeps w w' :
  winv w → step w w' →
  (d_module (dll w) ≠ 0 → d_module (dll w') = d_module (dll w)) ∧
  ∀ i p, procs w !! i = Some p → p_addr p ≠ 0 →
    ∃ p', procs w' !! i = Some p' ∧ p_addr p' = p_addr p ∧ p_name p' = p_name p.
Proof.
  intros Hw (t & r & _ & Hrun). unfold LazyDll.exec, LazyDll.load_step in Hrun. destruct (threads w !! t) as [th|] eqn:Ht; [|done].
  destruct (inv_p w Hw t th Ht) as (q & Hq & _ & Hck & Hok). rewrite Hq in Hrun.
  assert (∀ c (f : lazyProc → lazyProc) w1, w' = goto t c w1 → dll w1 = dll w ∨ d_module (dll w1) = d_module (dll w) ∨ d_module (dll w) = 0 →
    procs w1 = procs w ∨ (procs w1 = alter f (target th) (procs w) ∧
      (p_addr (f q) = p_addr q ∨ p_addr q = 0) ∧ p_name (f q) = p_name q) →
    (d_module (dll w) ≠ 0 → d_module (dll w') = d_module (dll w)) ∧
    ∀ i p, procs w !! i = Some p → p_addr p ≠ 0 →
      ∃ p', procs w' !! i = Some p' ∧ p_addr p' = p_addr p ∧ p_name p' = p_name p) as Hgo.
  { intros c f w1 -> Hd Hps. simpl. split; [intros ?; destruct Hd as [->|[->|?]]; congruence|].
    intros i p Hp Ha. destruct Hps as [->|(-> & Hf & Hn)]; [by exists p|].
    rewrite (procs_alter _ _ _ _ _ Hq). destruct (decide (i = target th)) as [->|]; [|by exists p].
    rewrite Hq in Hp. injection Hp as ->. exists (f p). destruct Hf; done. }
  destruct (at_pc th); simpl in Hck, Hok; repeat case_match; simplify_eq/=;
    (eapply (Hgo _ (λ q, q)); [reflexivity|by auto|by auto]) ||
    (eapply Hgo; [reflexivity|by auto|right; split; [reflexivity|by auto]]) ||
    (eapply (Hgo _ (λ q, q)); [reflexivity|by naive_solver|by auto]).
Qed.

(** ** Every run ends *)

(** The steps a goroutine has left at most. *)
Definition rank (c : pc) : nat :=
  match c with
  | FindFast => 16 | FindLock => 15 | FindCheck => 14
  | LoadFast => 13 | LoadLock => 12 | LoadCheck => 11 | Loading => 10 | LoadStore _ => 9
  | OnLoadFast => 8 | OnLoadLock => 7 | OnLoadName => 6 | SetLogger _ => 5
  | LoadUnlock _ => 4 | NameToAddr => 3 | StoreAddr _ => 2 | FindUnlock _ => 1
  | Returned _ | Panicked _ => 0
  end.

Definition total (m : gmap nat thread) : nat := sum_list ((λ x, rank (at_pc x.2)) <$> map_to_list m).

Lemma sum_list_perm (l l' : list nat) : l ≡ₚ l' → sum_list l = sum_list l'.
Proof. induction 1; simpl; lia. Qed.

Lemma total_insert m t th : m !! t = None → total (<[t := th]> m) = (rank (at_pc th) + total m)%nat.
Proof.
  intros Hm. unfold total. rewrite (sum_list_perm _ _ (fmap_Permutation _ _ _ (map_to_list_insert _ _ _ Hm))).
  done.
Qed.

Lemma total_alter m t th c :
  m !! t = Some th →
  (total (alter (λ th, {| target := target th; at_pc := c |}) t m) + rank (at_pc th) = total m + rank c)%nat.
Proof.
  intros Hm. rewrite <- (insert_delete_id m t th Hm) at 2.
  assert (alter (λ th, {| target := target th; at_pc := c |}) t m =
          <[t := {| target := target th; at_pc := c |}]> (delete t m)) as ->.
  { apply map_eq. intros u. destruct (decide (t = u)) as [<-|Hu].
    - by rewrite lookup_alter_eq, lookup_insert_eq, Hm.
    - by rewrite lookup_alter_ne, lookup_insert_ne, lookup_delete_ne. }
  rewrite !total_insert by apply lookup_delete_eq. simpl. lia.
Qed.

Lemma total_init name onLoad names targets :
  total (threads (init name onLoad names targets)) = (16 * length targets)%nat.
Proof.
  cbn [threads init]. assert (∀ k, total (map_seq k ((λ i, {| target := i; at_pc := FindFast |}) <$> targets))
    = (16 * length targets)%nat) as Hk; [|apply Hk].
  induction targets as [|i l IH]; intros k; [done|]. cbn [fmap list_fmap map_seq length]. rewrite total_insert.
  - cbn [at_pc rank]. unfold fmap in IH. rewrite IH. lia.
  - apply lookup_map_seq_None. lia.
Qed.

Lemma step_total w w' : step w w' → (total (threads w') < total (threads w))%nat.
Proof.
  intros (t & r & _ & Hrun). unfold LazyDll.exec, LazyDll.load_step in Hrun.
  destruct (threads w !! t) as [th|] eqn:Ht; [|done]. destruct (procs w !! target th) as [p|]; [|done].
  assert (∀ c, (total (alter (λ th, {| target := target th; at_pc := c |}) t (threads w)) + rank (at_pc th)
    = total (threads w) + rank c)%nat) as Htot by (intros c; by apply total_alter).
  destruct (at_pc th) eqn:E; repeat case_match; simplify_eq/=;
    match goal with |- context [alter (λ th, {| target := target th; at_pc := ?c |})] => specialize (Htot c) end;
    simpl in *; lia.
Qed.

Definition finished (c : pc) : bool := match c with Returned _ | Panicked _ => true | _ => false end.
Definition waits (c : pc) : bool := match c with FindLock | LoadLock => true | _ => false end.

(** A goroutine that is not done and does not wait for a mutex can go on. *)
Lemma runs_on w t th :
  winv w → threads w !! t = Some th → finished (at_pc th) = false → waits (at_pc th) = false →
  ∃ w', step w w'.
Proof.
  intros Hw Ht Hf Hwt. destruct (inv_p w Hw t th Ht) as (p & Hp & _ & _ & Hok).
  assert (∃ w', exec t (inr (New "")) w = Ret w') as [w' E].
  { unfold LazyDll.exec, LazyDll.load_step. rewrite Ht, Hp. destruct (at_pc th); try done; repeat case_match; eauto. }
  exists w', t, (inr (New "")). done.
Qed.

Lemma progress w t th :
  winv w → threads w !! t = Some th → finished (at_pc th) = false → ∃ w', step w w'.
Proof.
  intros Hw Ht Hf. destruct (waits (at_pc th)) eqn:Hwt; [|by eapply runs_on].
  (* the library's mutex: who holds it waits for nothing *)
  assert (∀ u thu, threads w !! u = Some thu → at_pc thu = LoadLock → ∃ w', step w w') as Hlib.
  { intros u thu Hu Hc. destruct (d_mu (dll w)) as [v|] eqn:Hd.
    - destruct (inv_d_mu w Hw v Hd) as (thv & Hv & Hh). eapply runs_on; [done|exact Hv|..];
        by destruct (at_pc thv).
    - destruct (inv_p w Hw u thu Hu) as (p & Hp & _).
      eexists _, u, (inr (New "")). split; [done|]. unfold LazyDll.exec, LazyDll.load_step. by rewrite Hu, Hp, Hc, Hd. }
  destruct (at_pc th) eqn:Hc; try done; [|by eapply Hlib].
  destruct (inv_p w Hw t th Ht) as (p & Hp & _). destruct (p_mu p) as [u|] eqn:Hm.
  - destruct (inv_p_mu w Hw _ _ _ Hp Hm) as (thu & Hu & _ & Hh).
    destruct (waits (at_pc thu)) eqn:Hwu; [destruct (at_pc thu) eqn:Ec; try done; by eapply Hlib|].
    eapply runs_on; [done|exact Hu|by destruct (at_pc thu)|done].
  - eexists _, t, (inr (New "")). split; [done|]. unfold LazyDll.exec, LazyDll.load_step. by rewrite Ht, Hp, Hc, Hm.
Qed.

(** C33: However the goroutines that look for procedures interleave, and whatever the loading
    gives each time it is tried: the library is loaded at most once and its logger is set at
    most once; a goroutine whose [Find] returned no error finds at the procedure's address
    what the library has under its name; and a handle or an address, once it is there, is
    never replaced. *)
Theorem loaded_once name onLoad names targets w :
  Forall (λ i, (i < length names)%nat) targets → rtc step (init name onLoad names targets) w →
  (loads w ≤ 1 ∧ loggers w ≤ 1)%nat ∧
  (∀ t th, threads w !! t = Some th → at_pc th = Returned None →
     ∃ p a, procs w !! target th = Some p ∧ Addr p None = Ret a ∧
            d_module (dll w) ≠ 0 ∧ nameToAddr (d_module (dll w)) (p_name p) = inl a) ∧
  (∀ w', rtc step w w' →
     (d_module (dll w) ≠ 0 → d_module (dll w') = d_module (dll w)) ∧
     ∀ i p, procs w !! i = Some p → p_addr p ≠ 0 → ∃ p', procs w' !! i = Some p' ∧ p_addr p' = p_addr p).
Proof.
  intros Ht Hr. pose proof (lazy_reachable_inv _ _ _ _ _ Ht Hr) as Hw. split_and!.
  - pose proof (inv_loads w Hw) as Hl. unfold loads_ok in Hl. case_decide; lia.
  - pose proof (inv_loads w Hw) as Hl. unfold loads_ok in Hl. case_decide; lia.
  - intros t th Hth Hc. destruct (inv_p w Hw t th Hth) as (p & Hp & _ & Hok). rewrite Hc in Hok.
    destruct Hok as [_ Ha]. destruct (inv_addr w Hw _ _ Hp Ha) as [Hm Hn]. by exists p, (p_addr p).
  - intros w' Hr'. clear Hr. induction Hr' as [w|w w1 w' Hs Hr' IH]; [by eauto|].
    destruct (step_keeps w w1 Hw Hs) as [Hm Ha]. destruct (IH (step_inv _ _ Hw Hs)) as [Hm' Ha'].
    split; [intros Hne; rewrite Hm' by (by rewrite Hm); by apply Hm|].
    intros i p Hp Hpa. destruct (Ha i p Hp Hpa) as (p1 & Hp1 & Hpa1 & _).
    destruct (Ha' i p1 Hp1) as (p' & Hp' & Hpa'); [by rewrite Hpa1|]. exists p'. by rewrite Hpa'.
Qed.

(** C34: [Find] ends.  No interleaving of the goroutines has more than sixteen steps for each of
    them, and one that can go no further has seen every goroutine return or panic: none is
    left waiting for a mutex, although [setupLogger] runs under the library's mutex and
    loads the library once more. *)
Theorem find_terminates name onLoad names targets n w :
  Forall (λ i, (i < length names)%nat) targets → nsteps step n (init name onLoad names targets) w →
  (n ≤ 16 * length targets)%nat ∧
  ((∀ w', ¬ step w w') → ∀ t th, threads w !! t = Some th → finished (at_pc th) = true).
Proof.
  intros Ht Hn. split.
  - rewrite <- (total_init name onLoad names targets). clear Ht.
    induction Hn as [w|n w w1 w' Hs _ IH]; [lia|]. apply step_total in Hs. lia.
  - intros Hstuck t th Hth. destruct (finished (at_pc th)) eqn:Hf; [done|].
    assert (winv w) as Hw by (eapply lazy_reachable_inv; [exact Ht|by apply rtc_nsteps; eauto]).
    destruct (progress w t th Hw Hth Hf) as [w' Hs]. by destruct (Hstuck w').
Qed.

End invariant.

(** ** An example: two goroutines race for one procedure, and a third loads another *)

Module LazyDemo.

Definition lookup_name (m : Z) (name : string) : Z + error :=
  if bool_decide (name = "WintunOpenAdapter"%string) then inl 0x1100 else inl 0x1200.

Lemma lookup_found m name a : lookup_name m name = inl a → a ≠ 0.
Proof. unfold lookup_name. case_bool_decide; by intros [= <-]. Qed.

Definition start : world :=
  init "wintun.dll" true ["WintunOpenAdapter"; "WintunFreeAdapter"]%string [0; 0; 1]%nat.

(** A schedule: the goroutine of each step, in order; the library loads at 0x10000. *)
Fixpoint run (ts : list nat) (w : world) : outcome world :=
  match ts with
  | [] => Ret w
  | t :: ts => w ← exec lookup_name t (inl 0x10000) w; run ts w
  end.

Lemma run_steps ts w w' : run ts w = Ret w' → nsteps (step lookup_name) (length ts) w w'.
Proof.
  revert w. induction ts as [|t ts IH]; intros w; simpl; [intros [= <-]; constructor|].
  intros (w1 & E & Hr)%outcome_bind_ret. econstructor; [|by apply IH]. by exists t, (inl 0x10000).
Qed.

Definition schedule : list nat :=
  [0; 1; 2; 0; 2; 0; 2; 0; 2; 0; 0; 0; 0; 0; 0; 0; 0; 0; 0; 0; 1; 1; 1; 2; 2; 2; 2; 2; 2]%nat.

Definition final : world := match run schedule start with Ret w => w | _ => start end.

Lemma final_run : nsteps (step lookup_name) (length schedule) start final.
Proof. apply run_steps. by vm_compute. Qed.

Lemma targets_ok : Forall (λ i, (i < 2)%nat) [0; 0; 1]%nat.
Proof. repeat constructor. Qed.

Lemma loaded_once_witness :
  (loads final ≤ 1 ∧ loggers final ≤ 1)%nat ∧
  ∃ th p a, threads final !! 1%nat = Some th ∧ at_pc th = Returned None ∧
    procs final !! target th = Some p ∧ Addr p None = Ret a ∧ lookup_name 0x10000 (p_name p) = inl a.
Proof.
  destruct (loaded_once lookup_name lookup_found "wintun.dll" true
    ["WintunOpenAdapter"; "WintunFreeAdapter"]%string [0; 0; 1]%nat final targets_ok
    (proj2 (rtc_nsteps start final) (ex_intro _ _ final_run))) as (H1 & H2 & _).
  split; [exact H1|]. destruct (H2 1%nat {| target := 0; at_pc := Returned None |})
    as (p & a & Hp & Ha & _ & Hn); [vm_compute; reflexivity|reflexivity|].
  exists {| target := 0; at_pc := Returned None |}, p, a.
  split; [vm_compute; reflexivity|]. exact (conj eq_refl (conj Hp (conj Ha Hn))).
Defined.

Lemma find_terminates_witness :
  (length schedule ≤ 48)%nat ∧
  ((∀ w', ¬ step lookup_name final w') → ∀ t th, threads final !! t = Some th → finished (at_pc th) = true).
Proof.
  exact (find_terminates lookup_name lookup_found "wintun.dll" true
    ["WintunOpenAdapter"; "WintunFreeAdapter"]%string [0; 0; 1]%nat (length schedule) final targets_ok final_run).
Defined.

End LazyDemo.
