(* ===== verification/Utf16.v ===== *)
(** * UTF-16 strings

    The conversions of [golang.org/x/sys/windows] that [node/tun/wintun] calls, as a class
    with the laws their documentation states, and an instance for the examples. *)

From S2P Require Import Prelude Message.

Local Open Scope Z_scope.

(** [UTF16FromString] is [None] for its error [EINVAL]; the units of a string exclude the
    terminating NUL that it adds. *)
Class Utf16 := {
  units : string → list Z;
  UTF16ToString : list Z → string;
}.

Definition has_nul (s : string) : bool := existsb (λ b, bool_decide (b = Byte.x00)) (string_bytes s).

(** "If s contains a NUL byte at any location, it returns (nil, EINVAL)." *)
Definition UTF16FromString `{Utf16} (s : string) : option (list Z) :=
  if has_nul s then None else Some (units s ++ [0]).

(** "UTF16ToString returns the UTF-8 encoding of the UTF-16 sequence s, with a terminating
    NUL removed": it stops at the first NUL. *)
Class Utf16Laws `(Utf16) : Prop := {
  units_no_nul s : has_nul s = false → 0 ∉ units s;
  units_range s : Forall (in_uint 16) (units s);
  to_string_units s rest : valid_string s = true → has_nul s = false → UTF16ToString (units s ++ 0 :: rest) = s;
}.

(** ** An instance that widens each byte to a unit *)

Fixpoint until_nul (l : list Z) : list Z :=
  match l with [] => [] | u :: l => if bool_decide (u = 0) then [] else u :: until_nul l end.

Definition widening : Utf16 := {|
  units s := until_nul (byte_val <$> string_bytes s);
  UTF16ToString l := bytes_string (to_byte <$> until_nul l);
|}.

Lemma until_nul_no_nul l : 0 ∉ until_nul l.
Proof.
  induction l as [|u l IH]; simpl; [apply not_elem_of_nil|]. case_bool_decide; [apply not_elem_of_nil|].
  rewrite not_elem_of_cons. auto.
Qed.

Lemma until_nul_app l rest : 0 ∉ l → until_nul (l ++ 0 :: rest) = l.
Proof.
  induction l as [|u l IH]; simpl; [done|]. intros [Hu Hl]%not_elem_of_cons.
  rewrite bool_decide_eq_false_2 by done. by rewrite IH.
Qed.

Lemma until_nul_id l : 0 ∉ l → until_nul l = l.
Proof.
  induction l as [|u l IH]; simpl; [done|]. intros [Hu Hl]%not_elem_of_cons.
  rewrite bool_decide_eq_false_2 by done. by rewrite IH.
Qed.

Lemma has_nul_bytes s : has_nul s = false → 0 ∉ byte_val <$> string_bytes s.
Proof.
  unfold has_nul. intros Hn (b & Hb & Hin)%list_elem_of_fmap.
  assert (existsb (λ b, bool_decide (b = Byte.x00)) (string_bytes s) = true); [|congruence].
  apply existsb_exists. exists b. split; [by apply list_elem_of_In|].
  apply bool_decide_eq_true_2. by apply byte_val_inj.
Qed.

#[global] Instance widening_laws : Utf16Laws widening.
Proof.
  split; simpl.
  - intros s _. apply until_nul_no_nul.
  - intros s. induction (string_bytes s) as [|b l IH]; simpl; [constructor|].
    case_bool_decide; [constructor|]. constructor; [|done]. pose proof (byte_val_range b). unfold in_uint. lia.
  - intros s rest _ Hn. apply has_nul_bytes in Hn. rewrite until_nul_app by apply until_nul_no_nul.
    rewrite until_nul_id by done. rewrite <- list_fmap_compose.
    rewrite (list_fmap_ext _ id); [by rewrite list_fmap_id, string_bytes_string|].
    intros i b _. simpl. apply to_byte_val.
Qed.

(** A NUL-terminated array gives the string back, whatever follows the terminator. *)
Section laws.
Context `{Utf16Laws}.

Lemma from_string_Some s u : UTF16FromString s = Some u ↔ has_nul s = false ∧ u = units s ++ [0].
Proof. unfold UTF16FromString. destruct (has_nul s); naive_solver. Qed.

Lemma string_round_trip s u rest :
  valid_string s = true → UTF16FromString s = Some u → UTF16ToString (u ++ rest) = s.
Proof.
  intros Hv [Hn ->]%from_string_Some. rewrite <- app_assoc. by apply to_string_units.
Qed.

End laws.
