(* ===== verification/Resource.v ===== *)
(** * Resources of an executable

    [node/tun/wintun/resource/resource_windows.go] with the stubs of [zsyscall_windows.go],
    and [Load] of [dll_fromrsrc_windows.go], which loads wintun.dll from a resource by the
    loader of [Memmod.v]. *)

From S2P Require Import Prelude Message Sys Pe Memmod Utf16.

Local Open Scope Z_scope.

(** ** zsyscall_windows.go *)

Definition errnoERROR_IO_PENDING : Z := 997.

(** [errnoErr] of the two packages; the error [errERROR_IO_PENDING] is the number itself. *)
Definition errnoErr (e : Z) : option error :=
  if bool_decide (e = 0) then None
  else if bool_decide (e = errnoERROR_IO_PENDING) then Some (Errno errnoERROR_IO_PENDING)
  else Some (Errno e).

(** The number of [syscall.EINVAL], which Go invents on Windows. *)
Class Einval := { EINVAL : Z; EINVAL_nonzero : EINVAL ≠ 0 }.

Definition memmod_errnoErr `{Einval} (e : Z) : error :=
  if bool_decide (e = 0) then Errno EINVAL
  else if bool_decide (e = errnoERROR_IO_PENDING) then Errno errnoERROR_IO_PENDING
  else Errno e.

(** [MAKEINTRESOURCE(i)], or a pointer to a NUL-terminated string. *)
Inductive resource_name := MAKEINTRESOURCE (i : Z) | NamePtr (name16 : list Z).

Definition VS_VERSION_INFO : Z := 1.
Definition RT_RCDATA : resource_name := MAKEINTRESOURCE 10.
Definition RT_VERSION : resource_name := MAKEINTRESOURCE 16.

(** The predefined types of resources, and of manifests their names. *)
Definition resource_types : list (string * resource_name) :=
  [("RT_CURSOR"%string, MAKEINTRESOURCE 1);
   ("RT_BITMAP"%string, MAKEINTRESOURCE 2);
   ("RT_ICON"%string, MAKEINTRESOURCE 3);
   ("RT_MENU"%string, MAKEINTRESOURCE 4);
   ("RT_DIALOG"%string, MAKEINTRESOURCE 5);
   ("RT_STRING"%string, MAKEINTRESOURCE 6);
   ("RT_FONTDIR"%string, MAKEINTRESOURCE 7);
   ("RT_FONT"%string, MAKEINTRESOURCE 8);
   ("RT_ACCELERATOR"%string, MAKEINTRESOURCE 9);
   ("RT_RCDATA"%string, MAKEINTRESOURCE 10);
   ("RT_MESSAGETABLE"%string, MAKEINTRESOURCE 11);
   ("RT_GROUP_CURSOR"%string, MAKEINTRESOURCE 12);
   ("RT_GROUP_ICON"%string, MAKEINTRESOURCE 14);
   ("RT_VERSION"%string, MAKEINTRESOURCE 16);
   ("RT_DLGINCLUDE"%string, MAKEINTRESOURCE 17);
   ("RT_PLUGPLAY"%string, MAKEINTRESOURCE 19);
   ("RT_VXD"%string, MAKEINTRESOURCE 20);
   ("RT_ANICURSOR"%string, MAKEINTRESOURCE 21);
   ("RT_ANIICON"%string, MAKEINTRESOURCE 22);
   ("RT_HTML"%string, MAKEINTRESOURCE 23);
   ("RT_MANIFEST"%string, MAKEINTRESOURCE 24);
   ("CREATEPROCESS_MANIFEST_RESOURCE_ID"%string, MAKEINTRESOURCE 1);
   ("ISOLATIONAWARE_MANIFEST_RESOURCE_ID"%string, MAKEINTRESOURCE 2);
   ("ISOLATIONAWARE_NOSTATICIMPORT_MANIFEST_RESOURCE_ID"%string, MAKEINTRESOURCE 3);
   ("ISOLATIONPOLICY_MANIFEST_RESOURCE_ID"%string, MAKEINTRESOURCE 4);
   ("ISOLATIONPOLICY_BROWSER_MANIFEST_RESOURCE_ID"%string, MAKEINTRESOURCE 5);
   ("MINIMUM_RESERVED_MANIFEST_RESOURCE_ID"%string, MAKEINTRESOURCE 1);
   ("MAXIMUM_RESERVED_MANIFEST_RESOURCE_ID"%string, MAKEINTRESOURCE 16)].

Definition VS_FIXEDFILEINFO : layout :=
  [u32 "Signature"; u32 "StrucVersion"; u32 "FileVersionMS"; u32 "FileVersionLS";
   u32 "ProductVersionMS"; u32 "ProductVersionLS"; u32 "FileFlagsMask"; u32 "FileFlags";
   u32 "FileOS"; u32 "FileType"; u32 "FileSubtype"; u32 "FileDateMS"; u32 "FileDateLS"].

(** The procedures of kernel32.dll and version.dll: the result and the last error. *)
Class ResourceAPI (OS : Type) := {
  FindResourceW (module : Z) (name resType : resource_name) : machine OS → (Z * Z) * machine OS;
  SizeofResource (module resInfo : Z) : machine OS → (Z * Z) * machine OS;
  LoadResource (module resInfo : Z) : machine OS → (Z * Z) * machine OS;
  LockResource (resData : Z) : machine OS → (Z * Z) * machine OS;
  (* the result, the last error, and what is stored in [value] and [size] *)
  VerQueryValueW (block : Z) (section : list Z) : machine OS → (Z * Z * Z * Z) * machine OS;
}.

Section resource.
Context `{Arch} {OS : Type} `{WinAPI OS} `{ResourceAPI OS} `{Einval} `{Utf16}.

Abbreviation M := (M OS).

(** [if r == 0 { if e1 != 0 { err = errnoErr(e1) } else { err = syscall.EINVAL } }]. *)
Definition stub_error (r e1 : Z) : option error :=
  if bool_decide (r = 0) then if bool_decide (e1 ≠ 0) then errnoErr e1 else Some (Errno EINVAL) else None.

(** A result and the error that goes with it. *)
Definition checked_result {A} (r : A) (err : option error) : M A :=
  match err with Some e => throw e | None => mret r end.

Definition findResource (module : Z) (name resType : resource_name) : M Z :=
  r ← call (FindResourceW module name resType); checked_result r.1 (stub_error r.1 r.2).

(** [size = uint32(r0)]. *)
Definition sizeofResource (module resInfo : Z) : M Z :=
  r ← call (SizeofResource module resInfo);
  let size := uwrap 32 r.1 in checked_result size (stub_error size r.2).

Definition loadResource (module resInfo : Z) : M Z :=
  r ← call (LoadResource module resInfo); checked_result r.1 (stub_error r.1 r.2).

Definition lockResource (resData : Z) : M Z :=
  r ← call (LockResource resData); checked_result r.1 (stub_error r.1 r.2).

Definition verQueryValue (block : Z) (section : list Z) : M (Z * Z) :=
  '(r1, e1, value, size) ← call (VerQueryValueW block section);
  checked_result (value, size) (stub_error r1 e1).

(** ** resource_windows.go *)

Definition FindByID (module id : Z) (resType : resource_name) : M Z :=
  findResource module (MAKEINTRESOURCE id) resType.

(** [windows.UTF16PtrFromString]. *)
Definition UTF16PtrFromString (s : string) : M (list Z) :=
  match UTF16FromString s with Some u => mret u | None => throw (Errno EINVAL) end.

Definition FindByName (module : Z) (name : string) (resType : resource_name) : M Z :=
  name16 ← UTF16PtrFromString name; findResource module (NamePtr name16) resType.

(** The slice of the resource: its address and its length, [int(size)]. *)
Definition Load (module resInfo : Z) : M (Z * Z) :=
  size ← wrap "Unable to size resource" (sizeofResource module resInfo);
  resData ← wrap "Unable to load resource" (loadResource module resInfo);
  ptr ← wrap "Unable to lock resource" (lockResource resData);
  mret (ptr, swrap wordsize size).

(** The block is a slice; [StringToUTF16Ptr] of a constant without NUL. *)
Definition VerQueryRootValue (block : Z * Z) : M Z :=
  if bool_decide (block.2 = 0) then panic "index out of range" else
  '(data, size) ← verQueryValue block.1 (units "\" ++ [0]);
  if bool_decide (size < sizeof VS_FIXEDFILEINFO) then throw (New "Incomplete VS_FIXEDFILEINFO")
  else mret data.

(** ** dll_fromrsrc_windows.go *)

Definition quote : string := String (Ascii.ascii_of_nat 34) EmptyString.

(** [Load] after its checks, up to the store of the module. *)
Definition load_from_resource (fuel : nat) (name : string) : M () :=
  let ourModule := 0 in
  resInfo ← wrap ("Unable to find " +:+ quote +:+ name +:+ quote +:+ " RCDATA resource")
    (FindByName ourModule name RT_RCDATA);
  data ← wrap "Unable to load resource" (Load ourModule resInfo);
  wrap "Unable to load library" (LoadLibrary fuel data.1 data.2).

(** ** Every failure is reported

    The number that an error carries is never 0: a call that failed without a last error is
    [EINVAL].  The two packages' [errnoErr] agree on that. *)
Definition code (e1 : Z) : Z := if bool_decide (e1 = 0) then EINVAL else e1.

Lemma code_nonzero e1 : code e1 ≠ 0.
Proof. unfold code. case_bool_decide; [apply EINVAL_nonzero|done]. Qed.

Lemma stub_error_code r e1 : stub_error r e1 = if bool_decide (r = 0) then Some (Errno (code e1)) else None.
Proof. unfold stub_error, errnoErr, code. repeat case_bool_decide; simplify_eq; congruence. Qed.

Lemma memmod_errnoErr_code e1 : memmod_errnoErr e1 = Errno (code e1).
Proof. unfold memmod_errnoErr, code. repeat case_bool_decide; congruence. Qed.

Lemma wrap_checked {A B} text (f : machine OS → A * machine OS) (r : A → B) (zero e1 : A → Z) s :
  wrap text (x ← call f; checked_result (r x) (stub_error (zero x) (e1 x))) s =
  let '(x, m) := f (mach s) in
  Ret (if bool_decide (zero x = 0) then inr (Wrap text (Errno (code (e1 x)))) else inl (r x),
       State m (Memmod.module s)).
Proof.
  unfold wrap, call, mbind, M_bind. destruct (f (mach s)) as [x m]. rewrite stub_error_code. by case_bool_decide.
Qed.

(** [Load] gives the slice of a resource exactly when its size, its handle and its
    address are all there, and otherwise stops at the first call that failed, with an error
    that names the step and carries a non-zero number: the last error, or [EINVAL] when
    Windows set none; the two packages' stubs give the same number. *)
Theorem resource_Load_reports module resInfo s :
  let '((r1, e1), m1) := SizeofResource module resInfo (mach s) in
  let '((r2, e2), m2) := LoadResource module resInfo m1 in
  let '((r3, e3), m3) := LockResource r2 m2 in
  Load module resInfo s =
    (if bool_decide (uwrap 32 r1 = 0) then
       Ret (inr (Wrap "Unable to size resource" (Errno (code e1))), State m1 (Memmod.module s))
     else if bool_decide (r2 = 0) then
       Ret (inr (Wrap "Unable to load resource" (Errno (code e2))), State m2 (Memmod.module s))
     else if bool_decide (r3 = 0) then
       Ret (inr (Wrap "Unable to lock resource" (Errno (code e3))), State m3 (Memmod.module s))
     else Ret (inl (r3, swrap wordsize (uwrap 32 r1)), State m3 (Memmod.module s))) ∧
  (code e1 ≠ 0 ∧ code e2 ≠ 0 ∧ code e3 ≠ 0) ∧
  ∀ e, memmod_errnoErr e = Errno (code e).
Proof.
  destruct (SizeofResource _ _ _) as [[r1 e1] m1] eqn:E1.
  destruct (LoadResource _ _ _) as [[r2 e2] m2] eqn:E2.
  destruct (LockResource _ _) as [[r3 e3] m3] eqn:E3.
  split; [|split; [auto using code_nonzero|apply memmod_errnoErr_code]].
  unfold Load, mbind, M_bind.
  rewrite (wrap_checked "Unable to size resource" (SizeofResource module resInfo)
             (λ r, uwrap 32 r.1) (λ r, uwrap 32 r.1) snd _ : wrap _ (sizeofResource _ _) s = _), E1. cbn [fst snd].
  case_bool_decide; [done|].
  rewrite (wrap_checked "Unable to load resource" (LoadResource module resInfo) fst fst snd _
             : wrap _ (loadResource _ _) _ = _). cbn [mach]. rewrite E2. cbn [fst snd].
  case_bool_decide; [done|].
  rewrite (wrap_checked "Unable to lock resource" (LockResource r2) fst fst snd _
             : wrap _ (lockResource _) _ = _). cbn [mach]. rewrite E3. cbn [fst snd].
  by case_bool_decide.
Qed.

End resource.
