(* ===== verification/Wintun.v ===== *)
(** * The bindings of the wintun driver

    [node/tun/wintun/wintun_windows.go] and [node/tun/wintun/session_windows.go]: programs
    over the procedures of wintun.dll, which are third-party code and the host's. *)

From S2P Require Import Prelude Message Pe Memmod LazyDll Utf16 Resource Sys.

Local Open Scope Z_scope.

Definition PoolNameMax : nat := 256.
Definition AdapterNameMax : nat := 128.
Definition PacketSizeMax : Z := 0xffff.
Definition RingCapacityMin : Z := 0x20000.
Definition RingCapacityMax : Z := 0x4000000.

(** A pool is an array of [PoolNameMax] units; an adapter and a session are handles. *)
Abbreviation Pool := (list Z).
Record Adapter := { a_handle : Z }.
Record Session := { s_handle : Z }.

(** A slice on the driver's ring: its address and its length. *)
Record packet := { Data : Z; Len : Z }.

(** ** The procedures

    [Find] is the resolution of a procedure by [LazyDll.v]; [SetFinalizer] registers
    [freeAdapter], which the garbage collector calls.  The driver answers [WintunEnumAdapters] with the handles it
    calls back with, and its result after the callbacks. *)
Inductive call :=
| Find (proc : string)
| SetFinalizer (adapter : Adapter)
| WintunSetLogger
| WintunFreeAdapter (handle : Z)
| WintunOpenAdapter (pool : Pool) (name : list Z)
| WintunCreateAdapter (pool : Pool) (name : list Z) (requestedGUID : option bytes)
| WintunDeleteAdapter (handle forceCloseSessions : Z)
| WintunEnumAdapters (pool : Pool)
| WintunEnumAdapters_return
| WintunGetAdapterName (handle : Z)
| WintunDeletePoolDriver (pool : Pool)
| WintunSetAdapterName (handle : Z) (name : list Z)
| WintunGetRunningDriverVersion
| WintunGetAdapterLUID (handle : Z)
| WintunStartSession (handle capacity : Z)
| WintunEndSession (session : Z)
| WintunGetReadWaitEvent (session : Z)
| WintunReceivePacket (session : Z)
| WintunReleaseReceivePacket (session data : Z)
| WintunAllocateSendPacket (session packetSize : Z)
| WintunSendPacket (session data : Z)
| Command (args : list string)
| Log (text : string).

(** The result, what is stored through a pointer argument, and the last error. *)
Definition reply (c : call) : Type :=
  match c with
  | Find _ => option error
  | WintunOpenAdapter _ _ | WintunEnumAdapters_return | WintunSetAdapterName _ _
  | WintunGetRunningDriverVersion | WintunStartSession _ _ | WintunAllocateSendPacket _ _ => Z * Z
  | WintunCreateAdapter _ _ _ | WintunDeleteAdapter _ _ | WintunDeletePoolDriver _
  | WintunReceivePacket _ => Z * Z * Z
  | WintunEnumAdapters _ => list Z
  | WintunGetAdapterName _ => Z * list Z * Z
  | WintunGetAdapterLUID _ | WintunGetReadWaitEvent _ => Z
  | Command _ => string * option error
  | _ => ()
  end.

Abbreviation prog := (prog reply).
Abbreviation E A := (prog (A + error)).

(** [procX.Addr()], which panics when the procedure is not found. *)
Definition resolve (proc : string) : prog () :=
  r ← do (Find proc);
  match LazyDll.Addr (NewProc proc) r with Ret _ => Done () | _ => Crash "panic(err)" end.

(** [syscall.Syscall(procX.Addr(), ...)]. *)
Definition invoke (proc : string) (c : call) : prog (reply c) := _ ← resolve proc; do c.

(** [if r == 0 { err = e1 }]: a non-nil error whatever [e1] is. *)
Definition failed (r e1 : Z) : option error := if bool_decide (r = 0) then Some (Errno e1) else None.

Section bindings.
Context `{Arch, Einval, Utf16}.

Definition setupLogger : prog () := invoke "WintunSetLogger" WintunSetLogger.

(** [copy(pool[:], poolName16)] into an array of zeros. *)
Definition MakePool (poolName : string) : Pool + error :=
  match UTF16FromString poolName with
  | None => inr (Errno EINVAL)
  | Some poolName16 =>
      if bool_decide (PoolNameMax < length poolName16)%nat then inr (New "Pool name too long")
      else inl (poolName16 ++ replicate (PoolNameMax - length poolName16) 0)
  end.

Definition Pool_String (pool : Pool) : string := UTF16ToString pool.

Definition freeAdapter (wintun : Adapter) : prog () :=
  invoke "WintunFreeAdapter" (WintunFreeAdapter (a_handle wintun)).

(** [windows.UTF16PtrFromString], [windows.UTF16FromString]. *)
Definition utf16 (s : string) : E (list Z) :=
  Done match UTF16FromString s with Some u => inl u | None => inr (Errno EINVAL) end.

Definition OpenAdapter (pool : Pool) (ifname : string) : E Adapter :=
  ifname16 ←? utf16 ifname;
  '(r0, e1) ← invoke "WintunOpenAdapter" (WintunOpenAdapter pool ifname16);
  match failed r0 e1 with
  | Some err => Done (inr err)
  | None => let wintun := {| a_handle := r0 |} in _ ← do (SetFinalizer wintun); Done (inl wintun)
  end.

(** The adapter or the error, and [rebootRequired]. *)
Definition CreateAdapter (pool : Pool) (ifname : string) (requestedGUID : option bytes)
    : prog ((Adapter + error) * bool) :=
  match UTF16FromString ifname with
  | None => Done (inr (Errno EINVAL), false)
  | Some ifname16 =>
      '(r0, p0, e1) ← invoke "WintunCreateAdapter" (WintunCreateAdapter pool ifname16 requestedGUID);
      let rebootRequired := bool_decide (p0 ≠ 0) in
      match failed r0 e1 with
      | Some err => Done (inr err, rebootRequired)
      | None =>
          let wintun := {| a_handle := r0 |} in
          _ ← do (SetFinalizer wintun); Done (inl wintun, rebootRequired)
      end
  end.

Definition Delete (wintun : Adapter) (forceCloseSessions : bool) : prog (bool * option error) :=
  let p0 := if forceCloseSessions then 1 else 0 in
  '(r1, p1, e1) ← invoke "WintunDeleteAdapter" (WintunDeleteAdapter (a_handle wintun) p0);
  Done (bool_decide (p1 ≠ 0), failed r1 e1).

(** The callback [cb] of [DeleteMatchingAdapters] on its captured variables. *)
Definition cb (matches : Adapter → prog bool) (forceCloseSessions : bool) (handle : Z)
    (captured : bool * list error) : prog (bool * list error) :=
  let '(rebootRequired, errors) := captured in
  let adapter := {| a_handle := handle |} in
  m ← matches adapter;
  if negb m then Done (rebootRequired, errors) else
  '(rebootRequired2, err) ← Delete adapter forceCloseSessions;
  Done match err with
       | Some e => (rebootRequired, errors ++ [e])
       | None => (rebootRequired || rebootRequired2, errors)
       end.

Fixpoint callbacks (f : Z → bool * list error → prog (bool * list error)) (handles : list Z)
    (captured : bool * list error) : prog (bool * list error) :=
  match handles with
  | [] => Done captured
  | h :: handles => captured ← f h captured; callbacks f handles captured
  end.

Definition DeleteMatchingAdapters (pool : Pool) (matches : Adapter → prog bool)
    (forceCloseSessions : bool) : prog (bool * list error) :=
  handles ← invoke "WintunEnumAdapters" (WintunEnumAdapters pool);
  '(rebootRequired, errors) ← callbacks (cb matches forceCloseSessions) handles (false, []);
  '(r1, e1) ← do WintunEnumAdapters_return;
  Done (rebootRequired, match failed r1 e1 with Some e => errors ++ [e] | None => errors end).

(** The array of [AdapterNameMax] zeros, with the driver's units over it. *)
Definition Name (wintun : Adapter) : E string :=
  '(r1, out, e1) ← invoke "WintunGetAdapterName" (WintunGetAdapterName (a_handle wintun));
  let ifname16 := take AdapterNameMax (out ++ replicate AdapterNameMax 0) in
  Done match failed r1 e1 with Some e => inr e | None => inl (UTF16ToString ifname16) end.

Definition DeleteDriver (pool : Pool) : prog (bool * option error) :=
  '(r1, p0, e1) ← invoke "WintunDeletePoolDriver" (WintunDeletePoolDriver pool);
  Done (bool_decide (p0 ≠ 0), failed r1 e1).

Definition SetName (wintun : Adapter) (ifname : string) : prog (option error) :=
  match UTF16FromString ifname with
  | None => Done (Some (Errno EINVAL))
  | Some ifname16 =>
      '(r1, e1) ← invoke "WintunSetAdapterName" (WintunSetAdapterName (a_handle wintun) ifname16);
      Done (failed r1 e1)
  end.

Definition RunningVersion : prog (Z * option error) :=
  '(r0, e1) ← invoke "WintunGetRunningDriverVersion" WintunGetRunningDriverVersion;
  let version := uwrap 32 r0 in Done (version, failed version e1).

Definition LUID (wintun : Adapter) : prog Z :=
  invoke "WintunGetAdapterLUID" (WintunGetAdapterLUID (a_handle wintun)).

(** ** session_windows.go *)

Definition StartSession (wintun : Adapter) (capacity : Z) : E Session :=
  '(r0, e1) ← invoke "WintunStartSession" (WintunStartSession (a_handle wintun) capacity);
  Done match failed r0 e1 with Some err => inr err | None => inl {| s_handle := r0 |} end.

(** The receiver is a value: [session.handle = 0] changes a copy. *)
Definition End_ (session : Session) : prog () := invoke "WintunEndSession" (WintunEndSession (s_handle session)).

Definition ReadWaitEvent (session : Session) : prog Z :=
  invoke "WintunGetReadWaitEvent" (WintunGetReadWaitEvent (s_handle session)).

(** [int(packetSize)]. *)
Definition unsafeSlice (data lenCap : Z) : packet := {| Data := data; Len := lenCap |}.

Definition ReceivePacket (session : Session) : E packet :=
  '(r0, packetSize, e1) ← invoke "WintunReceivePacket" (WintunReceivePacket (s_handle session));
  Done match failed r0 e1 with
       | Some err => inr err
       | None => inl (unsafeSlice r0 (swrap wordsize packetSize))
       end.

(** [&packet[0]]. *)
Definition first (p : packet) : prog Z := if bool_decide (Len p <= 0) then Crash "index out of range" else Done (Data p).

Definition ReleaseReceivePacket (session : Session) (p : packet) : prog () :=
  _ ← resolve "WintunReleaseReceivePacket";
  data ← first p;
  (do (WintunReleaseReceivePacket (s_handle session) data) : prog ()).

Definition AllocateSendPacket (session : Session) (packetSize : Z) : E packet :=
  '(r0, e1) ← invoke "WintunAllocateSendPacket" (WintunAllocateSendPacket (s_handle session) packetSize);
  Done match failed r0 e1 with Some err => inr err | None => inl (unsafeSlice r0 packetSize) end.

Definition SendPacket (session : Session) (p : packet) : prog () :=
  _ ← resolve "WintunSendPacket";
  data ← first p;
  (do (WintunSendPacket (s_handle session) data) : prog ()).

End bindings.

(** ** Pools *)

Section pools.
Context `{Einval} `{Utf16Laws}.

(** A pool holds its name.  [MakePool] makes an array of 256 units from which [String]
    gives the name back, for every valid name that has no NUL and less than 256 units; it
    refuses a name with a NUL with [EINVAL], and a longer one. *)
Theorem pool_round_trip name :
  valid_string name = true →
  match MakePool name with
  | inl pool => length pool = PoolNameMax ∧ Forall (in_uint 16) pool ∧ Pool_String pool = name
  | inr e => if has_nul name then e = Errno EINVAL
             else e = New "Pool name too long" ∧ (PoolNameMax <= length (units name))%nat
  end.
Proof.
  intros Hv. unfold MakePool. destruct (UTF16FromString name) as [u|] eqn:Hu.
  - pose proof Hu as [Hn ->]%from_string_Some. rewrite Hn. case_bool_decide as Hl.
    + rewrite length_app in Hl; simpl in Hl. split; [done|lia].
    + split; [|split].
      * rewrite length_app, length_replicate. lia.
      * rewrite !Forall_app. split; [split; [apply units_range|by repeat constructor]|].
        by apply Forall_replicate.
      * by apply string_round_trip.
  - unfold UTF16FromString in Hu. by destruct (has_nul name).
Qed.

End pools.

(** ** Deleting adapters *)

Abbreviation event := (event reply).

(** The adapters that a trace deletes, with the flag; the errors of its failed calls; and
    whether a deletion that succeeded asked for a reboot. *)
Definition deletion (e : event) : option (Z * Z) :=
  match e with existT (WintunDeleteAdapter h force) _ => Some (h, force) | _ => None end.

Definition failure (e : event) : option error :=
  match e with
  | existT (WintunDeleteAdapter _ _) (r1, _, e1) => failed r1 e1
  | existT WintunEnumAdapters_return (r1, e1) => failed r1 e1
  | _ => None
  end.

Definition reboot (e : event) : bool :=
  match e with
  | existT (WintunDeleteAdapter _ _) (r1, p1, _) => bool_decide (r1 ≠ 0) && bool_decide (p1 ≠ 0)
  | _ => false
  end.

(** A procedure that the library does not have. *)
Definition unresolved (tr : list event) : Prop := ∃ proc e, existT (Find proc) (Some e) ∈ tr.

Lemma resolve_path proc Q :
  Q [existT (Find proc) None] (Ret ()) →
  (∀ e msg, Q [existT (Find proc) (Some e)] (Panic msg)) →
  every (resolve proc) Q.
Proof. intros H1 H2 [e|]; simpl; auto. Qed.

Lemma invoke_path proc c Q :
  (∀ r, Q [existT (Find proc) None; existT c r] (Ret r)) →
  (∀ tr msg, unresolved tr → Q tr (Panic msg)) →
  every (invoke proc c) Q.
Proof.
  intros H1 H2. unfold invoke. apply every_bind, resolve_path; [exact H1|].
  intros e msg. apply H2. exists proc, e. set_solver.
Qed.

Ltac invoke := match goal with |- every (invoke ?proc ?c) _ => refine (invoke_path proc c _ _ _) end.

Lemma Delete_path (a : Adapter) force Q :
  (∀ r1 p1 e1, Q [existT (Find "WintunDeleteAdapter") None;
                  existT (WintunDeleteAdapter (a_handle a) (if force : bool then 1 else 0)) (r1, p1, e1)]
                 (Ret (bool_decide (p1 ≠ 0), failed r1 e1))) →
  (∀ tr msg, unresolved tr → Q tr (Panic msg)) →
  every (Delete a force) Q.
Proof.
  intros H1 H2. unfold Delete. apply every_bind; invoke; [|auto]. intros [[r1 p1] e1]. apply H1.
Qed.

Lemma unresolved_app_l tr tr' : unresolved tr → unresolved (tr ++ tr').
Proof. intros (p & e & He). exists p, e. set_solver. Qed.

Lemma unresolved_app_r tr tr' : unresolved tr' → unresolved (tr ++ tr').
Proof. intros (p & e & He). exists p, e. set_solver. Qed.

#[export] Hint Resolve unresolved_app_l unresolved_app_r : zeta.

Section deleting.
Variable m : Z → bool.
Variable forceCloseSessions : bool.

Abbreviation matches := (λ adapter, Done (m (a_handle adapter))).

Definition to_delete (handles : list Z) : list (Z * Z) :=
  (λ h, (h, if forceCloseSessions then 1 else 0)) <$> filter (λ h, m h = true) handles.

Lemma callbacks_path handles rebootRequired errors :
  every (callbacks (cb matches forceCloseSessions) handles (rebootRequired, errors))
    (λ tr o, match o with
             | Ret (rebootRequired', errors') =>
                 omap deletion tr = to_delete handles ∧ errors' = errors ++ omap failure tr ∧
                 rebootRequired' = rebootRequired || existsb reboot tr
             | Panic _ => unresolved tr
             | Block => False
             end).
Proof.
  revert rebootRequired errors. induction handles as [|h handles IH]; intros rb errs; cbn [callbacks].
  { simpl. by rewrite app_nil_r, orb_false_r. }
  apply every_bind, every_bind. unfold to_delete. rewrite filter_cons.
  destruct (m h) eqn:Hm; cbn [every a_handle negb app]; rewrite Hm; cbn [negb every app].
  - apply every_bind, Delete_path; [|auto]. intros r1 p1 e1. cbn [every].
    destruct (failed r1 e1) as [e|] eqn:He; cbn [every app].
    all: eapply every_mono; [|apply IH].
    all: intros tr [[rb' errs']|msg|]; [|by apply (unresolved_app_r [_; _])|done].
    all: intros (Hd & -> & ->); unfold failed in He; case_bool_decide; simplify_eq.
    all: rewrite decide_True by done.
    all: cbn [omap list_omap deletion failure reboot existsb a_handle fmap list_fmap failed]; rewrite Hd.
    all: unfold failed; repeat case_bool_decide; try done.
    all: split_and!; [done|by rewrite <- ?app_assoc|by destruct rb].
  - eapply every_mono; [|apply IH]. intros tr [[]|msg|]; cbn [app]; done.
Qed.

(** Whatever the driver replies, [DeleteMatchingAdapters] tries to delete exactly the
    enumerated adapters that match, each once and in order, with the given flag; a deletion
    that fails does not stop the others.  It returns the errors of all the calls that
    failed, in their order, that of the enumeration last, and asks for a reboot when a
    deletion that succeeded did.  It panics only when wintun.dll lacks a procedure. *)
Theorem DeleteMatchingAdapters_correct {S} (h : host reply S) pool s :
  let '(o, tr, _) := run h (DeleteMatchingAdapters pool matches forceCloseSessions) s in
  match o with
  | Ret (rebootRequired, errors) => ∃ handles,
      existT (WintunEnumAdapters pool) handles ∈ tr ∧
      omap deletion tr = to_delete handles ∧ errors = omap failure tr ∧
      rebootRequired = existsb reboot tr
  | Panic _ => unresolved tr
  | Block => False
  end.
Proof.
  set (p := DeleteMatchingAdapters pool matches forceCloseSessions).
  pose proof (every_run h p s) as H. destruct (run h p s) as [[o tr] s']. cbn [fst snd] in H.
  apply (H (λ tr o, _)). clear H. unfold p, DeleteMatchingAdapters.
  apply every_bind; invoke; [|done].
  intros handles. apply every_bind. eapply every_mono; [|apply callbacks_path].
  intros tr' [[rb errs]|msg|]; [|by apply (unresolved_app_r [_; _])|done].
  intros (Hd & -> & ->). cbn [every mbind prog_bind do app]. intros [r1 e1]. exists handles.
  cbn [omap list_omap existsb deletion failure reboot]. split; [set_solver|].
  rewrite !omap_app, existsb_app, Hd. cbn [omap list_omap existsb deletion failure reboot].
  rewrite orb_false_r, app_nil_r. by destruct (failed r1 e1); rewrite ?app_nil_r.
Qed.

End deleting.

(** ** A driver with three adapters, of which the second cannot be deleted *)
Module WintunDemo.

#[local] Instance demo_einval : Einval := {| EINVAL := 536870951; EINVAL_nonzero := ltac:(done) |}.
#[local] Existing Instance widening.
#[local] Existing Instance amd64.

Lemma pool_round_trip_witness :
  valid_string "Zetamesh" = true ∧
  ∃ pool, MakePool "Zetamesh" = inl pool ∧ length pool = PoolNameMax ∧ Pool_String pool = "Zetamesh".
Proof.
  pose proof (pool_round_trip "Zetamesh" ltac:(vm_compute; reflexivity)) as H.
  split; [vm_compute; reflexivity|].
  destruct (MakePool "Zetamesh") as [pool|e] eqn:E; [|vm_compute in E; discriminate].
  destruct H as (H1 & _ & H3). exact (ex_intro _ pool (conj eq_refl (conj H1 H3))).
Defined.

Definition driver : host reply () := λ c s,
  (match c return reply c with
   | Find _ => None
   | WintunOpenAdapter _ _ => (0, 2)
   | WintunEnumAdapters_return => (1, 0)
   | WintunSetAdapterName _ _ => (1, 0)
   | WintunGetRunningDriverVersion => (65540, 0)
   | WintunStartSession _ _ => (77, 0)
   | WintunAllocateSendPacket _ _ => (4096, 0)
   | WintunCreateAdapter _ _ _ => (11, 0, 0)
   | WintunDeleteAdapter h _ => if bool_decide (h = 12) then (0, 1, 5) else (1, 1, 0)
   | WintunDeletePoolDriver _ => (1, 0, 0)
   | WintunReceivePacket _ => (8192, 20, 0)
   | WintunEnumAdapters _ => [11; 12; 13; 14]
   | WintunGetAdapterName _ => (1, units "zetamesh" ++ [0], 0)
   | WintunGetAdapterLUID _ => 42
   | WintunGetReadWaitEvent _ => 9
   | Command _ => ("", None)
   | SetFinalizer _ | WintunSetLogger | WintunFreeAdapter _ | WintunEndSession _
   | WintunReleaseReceivePacket _ _ | WintunSendPacket _ _ | Log _ => ()
   end, s).

Example deletes :
  let '(o, tr, _) := run driver (DeleteMatchingAdapters [] (λ a, Done (bool_decide (a_handle a ≠ 13))) true) () in
  o = Ret (true, [Errno 5]) ∧ omap deletion tr = [(11, 1); (12, 1); (14, 1)].
Proof. vm_compute. split; reflexivity. Qed.

Example names : (run driver (Name {| a_handle := 11 |}) ()).1.1 = Ret (inl "zetamesh").
Proof. vm_compute. reflexivity. Qed.

End WintunDemo.
