(* ===== verification/TunWindows.v ===== *)
(** * Opening the virtual device on Windows

    [init], [NewTUN] and [Close] of [node/tun/tun_windows.go], as programs over the
    bindings of [Wintun.v]; [Read] and [Write] are in [Tun.v]. *)

From S2P Require Import Prelude Message Tun Pe Utf16 Resource Sys TunUnix Wintun.

Local Open Scope Z_scope.

Definition zetameshIfaceName : string := "zetamesh".

(** The channel [errors] of capacity 1, on which nobody sends, is left out; [state_] is what
    [Read] and [Write] use. *)
Record windowsDevice := {
  w_name : string;
  wt : Adapter;
  handle : Z;
  forcedMTU : Z;
  session : Session;
  readWait : Z;
  state_ : Windows.windowsDevice;
}.

Abbreviation prog := (Sys.prog Wintun.reply).
Abbreviation E A := (prog (A + error)).

Section device.
Context `{Arch, Einval, Utf16}.

(** [windows.InvalidHandle] is [^Handle(0)]. *)
Definition InvalidHandle : Z := up (-1).

(** [init()]. *)
Definition wintunPool : outcome Pool :=
  match MakePool "Zetamesh" with inl pool => Ret pool | inr _ => Panic "failed to make pool" end.

Definition ring_capacity : Z := 0x800000.

Definition netsh (name addr : string) : list string :=
  ["netsh"; "interface"; "ip"; "set"; "address"; "name=" +:+ quote +:+ name +:+ quote;
   "addr=" +:+ addr; "mask=255.255.0.0"; "gateway=none"].

(** An adapter of that name is deleted; an [OpenAdapter] that fails is ignored. *)
Definition delete_existing (pool : Pool) : E () :=
  r ← OpenAdapter pool zetameshIfaceName;
  match r with
  | inr _ => Done (inl ())
  | inl wt =>
      '(_, err) ← Delete wt true;
      Done match err with
           | Some e => inr (Wrap "deleting already existing interface: %w failed" e)
           | None => inl ()
           end
  end.

Definition create (pool : Pool) : E Adapter :=
  '(r, rebootRequired) ← CreateAdapter pool zetameshIfaceName None;
  match r with
  | inr e => Done (inr (Wrap "creating interface: %w failed" e))
  | inl wt =>
      _ ← (if rebootRequired : bool then do (Log "Windows indicated a reboot is required.") else Done ());
      Done (inl wt)
  end.

Definition start (wt : Adapter) : E Session :=
  r ← StartSession wt ring_capacity;
  match r with
  | inl session => Done (inl session)
  | inr e => _ ← Delete wt false; Done (inr (Wrap "Error starting session: %w" e))
  end.

Definition newDevice (name : string) (wt : Adapter) (session : Session) (readWait : Z) : windowsDevice := {|
  w_name := name; wt := wt; handle := InvalidHandle; forcedMTU := DefaultMTU;
  session := session; readWait := readWait;
  state_ := {| Windows.closed := false;
               Windows.rate := {| Windows.current := 0; Windows.nextByteCount := 0;
                                  Windows.nextStartTime := 0; Windows.changing := 0 |} |};
|}.

Definition NewTUN (pool : Pool) (addr : string) : E windowsDevice :=
  _ ←? delete_existing pool;
  wt ←? create pool;
  name ←? Wintun.Name wt;
  session ←? start wt;
  readWait ← ReadWaitEvent session;
  r ← do (Command (netsh name addr));
  Done match r.2 with
       | Some e => inr (Wrap ("output: " +:+ r.1) e)
       | None => inl (newDevice name wt session readWait)
       end.

(** [Name()] and [Flush()]. *)
Definition Name (d : windowsDevice) : string := w_name d.
Definition Flush (d : windowsDevice) : option error := None.

(** The device after [Close], and its error. *)
Definition Close (d : windowsDevice) : prog (windowsDevice * option error) :=
  let d := {| w_name := w_name d; wt := wt d; handle := handle d; forcedMTU := forcedMTU d;
              session := session d; readWait := readWait d;
              state_ := {| Windows.closed := true; Windows.rate := Windows.rate (state_ d) |} |} in
  _ ← End_ (session d);
  '(_, err) ← Delete (wt d) false;
  Done (d, err).

End device.

(** ** What is left behind

    The adapters that a trace created and did not delete, and the sessions that it started
    and did not end. *)

Abbreviation event := (Sys.event Wintun.reply).

Definition adapter_entry (e : event) : entry Z :=
  match e with
  | existT (WintunCreateAdapter _ _ _) (r0, _, _) => if bool_decide (r0 = 0) then Skips else Adds r0
  | existT (WintunDeleteAdapter h _) (r1, _, _) => if bool_decide (r1 = 0) then Skips else Takes h
  | _ => Skips
  end.

Definition session_entry (e : event) : entry Z :=
  match e with
  | existT (WintunStartSession _ _) (r0, _) => if bool_decide (r0 = 0) then Skips else Adds r0
  | existT (WintunEndSession s) _ => Takes s
  | _ => Skips
  end.

Definition adapters (tr : list event) : list Z := balance adapter_entry tr [].
Definition sessions (tr : list event) : list Z := balance session_entry tr [].

Section facts.
Context `{Arch, Einval, Utf16}.

Lemma iface_units : UTF16FromString zetameshIfaceName = Some (units zetameshIfaceName ++ [0]).
Proof. done. Qed.

Ltac path := path_with ltac:(first
  [ progress cbn [Wintun.reply]
  | progress unfold invoke, resolve, LazyDll.Addr, failed
  | match goal with
    | |- context [if ?b then do _ else Done _] => is_var b; destruct b
    end ]).

Ltac member := repeat first [apply list_elem_of_here | apply list_elem_of_further].

Ltac ledger :=
  cbv [adapters sessions balance]; cbn [foldl post adapter_entry session_entry];
  repeat (rewrite ?remove1_head; case_bool_decide; try done; cbn [foldl post]); rewrite ?remove1_head.

(** What a call of [NewTUN] leaves, by how it ended. *)
Definition leaves (addr : string) (tr : list event) (o : outcome (windowsDevice + error)) : Prop :=
  match o with
  | Ret (inl d) =>
      adapters tr = [a_handle (wt d)] ∧ sessions tr = [s_handle (session d)] ∧
      forcedMTU d = DefaultMTU ∧ last (calls tr) = Some (Command (netsh (w_name d) addr))
  | Ret (inr e) =>
      (adapters tr = [] ∧ sessions tr = []) ∨
      (∃ a n, adapters tr = [a] ∧ sessions tr = [] ∧
        (e = Errno n ∨
         e = Wrap "Error starting session: %w" (Errno n) ∧
         ∃ p1 e1, existT (WintunDeleteAdapter a 0) (0, p1, e1) ∈ tr)) ∨
      (∃ a s out e', adapters tr = [a] ∧ sessions tr = [s] ∧ e = Wrap ("output: " +:+ out) e')
  | Panic _ => unresolved tr
  | Block => False
  end.

Lemma windows_NewTUN_every pool addr : every (NewTUN pool addr) (leaves addr).
Proof.
  unfold leaves, NewTUN, delete_existing, create, start, OpenAdapter, CreateAdapter, utf16, Delete, Wintun.Name, StartSession, ReadWaitEvent. rewrite iface_units. path.
  all: try by (eexists _, _; member).
  all: ledger; simplify_eq; cbn [a_handle s_handle wt session newDevice forcedMTU w_name].
  all: first
    [ by left
    | right; left; eexists _, _; split_and!; [done|done|]; first [by left|right; split; [done|eexists _, _; by member]]
    | right; right; by repeat eexists
    | done ].
Qed.

(** C38: Whatever wintun and netsh reply, [NewTUN] ends, or panics because wintun.dll lacks a
    procedure.  It succeeds with one new adapter and one running session, which the device
    has, after netsh gave the adapter the address.  An error leaves nothing behind when the
    old adapter cannot be deleted, the new one cannot be created, or the session cannot be
    started and the adapter is deleted again; the adapter stays when its name cannot be read
    or that deletion fails; and when netsh fails, the adapter stays with its session
    running, and the caller has neither. *)
Theorem windows_NewTUN_leaves {S} (h : host Wintun.reply S) pool addr s :
  let '(o, tr, _) := run h (NewTUN pool addr) s in leaves addr tr o.
Proof. exact (run_every h _ s _ (windows_NewTUN_every pool addr)). Qed.

(** After [Close] no session of the device runs, and its adapter is gone unless [Close]
    returns the error of the deletion; the device refuses to read and to write. *)
Lemma windows_Close_releases pool addr :
  every (d ←? NewTUN pool addr; r ← Close d; Done (inl r))
    (λ tr o, match o with
             | Ret (inl (d, err)) =>
                 sessions tr = [] ∧ Windows.closed (state_ d) = true ∧
                 adapters tr = if bool_decide (err = None) then [] else [a_handle (wt d)]
             | Ret (inr _) => True
             | Panic _ => unresolved tr
             | Block => False
             end).
Proof.
  unfold Close, NewTUN, delete_existing, create, start, OpenAdapter, CreateAdapter, utf16, Delete, Wintun.Name,
    StartSession, ReadWaitEvent, End_.
  rewrite iface_units. path.
  all: try by (eexists _, _; member).
  all: ledger; simplify_eq; cbn [a_handle s_handle wt session newDevice state_ Windows.closed].
  all: done.
Qed.

End facts.

Module TunWindowsDemo.
Import WintunDemo.
#[local] Existing Instance demo_einval.
#[local] Existing Instance widening.
#[local] Existing Instance amd64.

Example windows_opens :
  let '(o, tr, _) := run driver (NewTUN [] "10.1.2.3") () in
  o = Ret (inl (newDevice "zetamesh" {| a_handle := 11 |} {| s_handle := 77 |} 9)).
Proof. vm_compute. reflexivity. Qed.

End TunWindowsDemo.
