(* ===== verification/Main.v ===== *)
(** * The command line and the start of the programs

    [main.go], and the parts of [node/node.go] ([Serve], [Stop]) and [gateway/gateway.go]
    ([Serve]) that open sockets, the virtual device and the goroutines before the loops that
    [Node.v] and [Gateway.v] model.  [NewTUN] is that of [TunUnix.v] or [TunWindows.v]; cobra,
    zap and the network are the host's. *)

From S2P Require Import Prelude Message Net Constant Pe Utf16 Resource TunUnix Wintun TunWindows Api Notifier Gateway Node Sys.
From Stdlib Require Import Ascii.

Local Open Scope Z_scope.

(** ** Flags *)

Inductive level := ErrorLevel | WarnLevel | DebugLevel | InfoLevel.

(** [strings.ToLower]; no letter outside ASCII has a lower case among those of the three
    level names. *)
Definition lower (c : ascii) : ascii :=
  let n := nat_of_ascii c in if (65 <=? n)%nat && (n <=? 90)%nat then ascii_of_nat (n + 32) else c.
Fixpoint ToLower (s : string) : string :=
  match s with EmptyString => EmptyString | String c s => String (lower c) (ToLower s) end.

(** [PersistentPreRun]. *)
Definition log_level (logLevel : string) : level :=
  if bool_decide (ToLower logLevel = "error") then ErrorLevel
  else if bool_decide (ToLower logLevel = "warn") then WarnLevel
  else if bool_decide (ToLower logLevel = "debug") then DebugLevel
  else InfoLevel.

Definition default_logLevel : string := "info".

Record GatewayOptions := {
  Host : string; Port : Z; Concurrency : Z; g_Key : string; TLSCert : string; TLSKey : string
}.

(** The options of [newGatewayCmd] and of [newJoinCmd] without flags. *)
Definition newGatewayCmd : GatewayOptions :=
  {| Host := "0.0.0.0"; Port := 2823; Concurrency := 128; g_Key := ""; TLSCert := ""; TLSKey := "" |}.
Definition newJoinCmd : Options :=
  {| Node.Gateway := "127.0.0.1:2823"; Key := ""; Address := ""; TLS := false |}.

(** What cobra makes of the arguments: one of the two commands with its options, or what it
    does itself (help, version), with its error. *)
Inductive command :=
| GatewayCmd (opt : GatewayOptions)
| JoinCmd (opt : Options)
| Builtin (err : option error).

(** ** The network and the process

    A program calls the network and the process, or, in [NewTUN], what its platform has: [C] are
    these calls, with their replies, and [dev] is a device. *)

Inductive goroutine (dev : Type) :=
| NotifierStart (conn concurrency : Z)
| ListenAndServe (addr : string)
| ListenAndServeTLS (addr cert key : string)
| ServeDev (d : dev)
| HeartbeatLoop.
Arguments NotifierStart {dev}.
Arguments ListenAndServe {dev}.
Arguments ListenAndServeTLS {dev}.
Arguments ServeDev {dev}.
Arguments HeartbeatLoop {dev}.

Inductive call (dev : Type) :=
| ListenUDP (port : Z)
| LocalPort (conn : Z)
| DialContext (local_port : Z) (address : string)
| CloseConn (conn : Z)
| Go (g : goroutine dev)
| Help
| Println (e : error)
| Exit (code : Z).
Arguments ListenUDP {dev}.
Arguments LocalPort {dev}.
Arguments DialContext {dev}.
Arguments CloseConn {dev}.
Arguments Go {dev}.
Arguments Help {dev}.
Arguments Println {dev}.
Arguments Exit {dev}.

Section start.
Context `{Message.Proto}.
Variable parse6 : string → IP.

Context {C : Type} {dev_reply : C → Type} {dev : Type}.
Variable NewTUN : string → Sys.prog dev_reply (dev + error).

(** A socket is a number; [Go] and [Exit] have no result. *)
Definition reply (c : call dev + C) : Type :=
  match c with
  | inl (ListenUDP _) | inl (DialContext _ _) => Z + error
  | inl (LocalPort _) => Z
  | inl Help => option error
  | inl _ => ()
  | inr c => dev_reply c
  end.

Abbreviation prog := (prog reply).
Abbreviation E A := (prog (A + error)).

Definition net (c : call dev) : prog (reply (inl c)) := do (inl c).

(** The calls of [NewTUN] are calls of the program. *)
Fixpoint on_platform {A} (m : Sys.prog dev_reply A) : prog A :=
  match m with
  | Done a => Done a
  | Crash msg => Crash msg
  | Do c k => Do (inr c : call dev + C) (λ r, on_platform (k r))
  end.

(** ** node.go *)

(** The closure that picks a free port. *)
Definition free_port : E Z :=
  conn ←? net (ListenUDP 0);
  defer (net (CloseConn conn)) (port ← net (LocalPort conn); Done (inl port)).

(** [Stop], where [gateway] is [n.gateway] or nil. *)
Definition Stop (gateway : option Z) : prog () :=
  match gateway with Some conn => net (CloseConn conn) | None => Done () end.

(** [defer d] in a function that returns only when it fails. *)
Fixpoint defer_failing {A} (d : prog ()) (m : E A) : E A :=
  match m with
  | Done (inl a) => Done (inl a)
  | Done (inr e) => d ≫= λ _, Done (inr e)
  | Crash msg => d ≫= λ _, Crash msg
  | Do c k => Do c (λ r, defer_failing d (k r))
  end.

(** What [Serve] runs with: the node, its socket to the gateway and its device. *)
Record serving := { s_node : Node; s_gateway : Z; s_dev : dev }.

(** [node.New], [Serve] up to [schedule], and the deferred [node.Stop] when it fails or panics.
    [schedule] returns only when its context is cancelled, which only the end of [Serve] does:
    the program stays in it, and the deferred calls of a node that serves never run. *)
Definition join (opt : Options) : E serving :=
  let node := Node.New opt in
  r ← with_error (Wrap "no free port available") free_port;
  match r with
  | inr e => _ ← Stop None; Done (inr e)
  | inl port =>
      let node := Serve_init parse6 node in
      r ← net (DialContext port (Node.Gateway opt));
      match r with
      | inr e => _ ← Stop None; Done (inr e)
      | inl conn =>
          defer_failing (Stop (Some conn))
            (dev ←? on_platform (NewTUN (Address opt));
             _ ← net (Go (ServeDev dev));
             _ ← net (Go HeartbeatLoop);
             Done (inl {| s_node := node; s_gateway := conn; s_dev := dev |}))
      end
  end.

(** [RunE] of the join command: [None] is a program that serves. *)
Definition runJoin (opt : Options) : prog (option (option error)) :=
  if bool_decide (Address opt = "") then err ← net Help; Done (Some err)
  else r ← join opt; Done match r with inl _ => None | inr e => Some (Some e) end.

(** ** gateway.go *)

(** [zap.L().Fatal] ends the process with status 1. *)
Definition fatal {A} : prog A := _ ← net (Exit 1); Crash "exit".

Definition http_address (opt : GatewayOptions) : string := Host opt +:+ ":" +:+ pretty (Port opt).

(** [Serve] up to its loop. *)
Definition gateway_start (opt : GatewayOptions) : prog processor :=
  r ← net (ListenUDP (Port opt));
  match r with
  | inr _ => fatal
  | inl conn =>
      let p := newProcessor (NewServer (g_Key opt)) newNotifier in
      _ ← net (Go (NotifierStart conn (Concurrency opt)));
      _ ← net (Go (if bool_decide (TLSCert opt = "") then ListenAndServe (http_address opt)
                  else ListenAndServeTLS (http_address opt) (TLSCert opt) (TLSKey opt)));
      Done p
  end.

(** ** main.go *)

(** [rootCmd.Execute()] on a command that was parsed. *)
Definition execute (cmd : command) : prog (option (option error)) :=
  match cmd with
  | GatewayCmd opt => _ ← gateway_start opt; Done None
  | JoinCmd opt => runJoin opt
  | Builtin err => Done (Some err)
  end.

(** [None] is a program that serves; [Some tt] one that returned from [main]. *)
Definition main (cmd : command) : prog (option ()) :=
  r ← execute cmd;
  match r with
  | None => Done None
  | Some None => Done (Some ())
  | Some (Some err) => _ ← net (Println err); _ ← net (Exit 0); Done (Some ())
  end.

(** ** The loop of a node that serves

    [schedule] of [node/handler.go], on what each turn finds: the context cancelled, a read
    that fails, or a datagram, of which the buffer takes its 4096 bytes, with the clock and the
    nonce its handler uses.  Without
    another event it waits. *)
Inductive turn := Cancelled (err : error) | ReadFailed | Received (data : bytes) (now : Z) (nonce : string).

Fixpoint schedule (Dial : string → option string) (turns : list turn) (n : Node) : outcome (Node * error) :=
  match turns with
  | [] => Block
  | Cancelled err :: _ => Ret (n, err)
  | ReadFailed :: turns => schedule Dial turns n
  | Received data now nonce :: turns =>
      n ← handlePacket Dial (cut data) now nonce n; schedule Dial turns n
  end.

(** ** What the start leaves open *)

Abbreviation event := (event reply).

Definition socket_entry (e : event) : entry Z :=
  match e with
  | existT (inl (ListenUDP _)) (inl c) | existT (inl (DialContext _ _)) (inl c) => Adds c
  | existT (inl (CloseConn c)) _ => Takes c
  | _ => Skips
  end.

Definition sockets (tr : list event) : list Z := balance socket_entry tr [].

(** The part of a trace that is [NewTUN]'s. *)
Definition platform_events (tr : list event) : list (Sys.event dev_reply) :=
  omap (λ e : event, match e with existT (inr c) r => Some (existT c r) | _ => None end) tr.

(** The calls of a node that came to serve, around those of [NewTUN]. *)
Definition join_calls (probe port : Z) (opt : Options) (platform : list C) (d : dev) : list (call dev + C) :=
  (inl <$> [ListenUDP 0; LocalPort probe; CloseConn probe; DialContext port (Node.Gateway opt)])
  ++ (inr <$> platform) ++ (inl <$> [Go (ServeDev d); Go HeartbeatLoop]).

(** How joining ends, when [left] says what a call of [NewTUN] with some outcome leaves open:
    it serves, with one socket, connected to the gateway from the port that was free, a device,
    the node's mask set and its two goroutines started; or it fails or panics, with every
    socket closed again and no goroutine, before [NewTUN] or because of it. *)
Definition join_ends (left : list (Sys.event dev_reply) → outcome (dev + error) → Prop) (opt : Options)
    (tr : list event) (o : outcome (serving + error)) : Prop :=
  match o with
  | Ret (inl v) =>
      (∃ probe port,
        calls tr = join_calls probe port opt (calls (platform_events tr)) (s_dev v) ∧
        existT (inl (LocalPort probe)) port ∈ tr) ∧
      sockets tr = [s_gateway v] ∧ s_node v = Serve_init parse6 (Node.New opt) ∧
      left (platform_events tr) (Ret (inl (s_dev v)))
  | Ret (inr e) =>
      sockets tr = [] ∧ (∀ g, inl (Go g) ∉ calls tr) ∧
      (platform_events tr = [] ∨ left (platform_events tr) (Ret (inr e)))
  | Panic msg => sockets tr = [] ∧ (∀ g, inl (Go g) ∉ calls tr) ∧ left (platform_events tr) (Panic msg)
  | Block => False
  end.

(** *** The paths of a program with [NewTUN] in it *)

Definition lift_events (tr : list (Sys.event dev_reply)) : list event :=
  (λ e : Sys.event dev_reply, match e with existT c r => existT (inr c) r end : event) <$> tr.

Lemma every_on_platform {A} (m : Sys.prog dev_reply A) Q :
  every m (λ tr, Q (lift_events tr)) → every (on_platform m) Q.
Proof.
  revert Q. induction m as [a|msg|c k IH]; intros Q; simpl; [done..|].
  intros Hm r. apply IH. exact (Hm r).
Qed.

Lemma every_defer_failing {A} d (m : E A) Q :
  every m (λ tr o, match o with
                   | Ret (inl _) => Q tr o
                   | Ret (inr e) => every d (λ tr' o', match o' with Ret _ => Q (tr ++ tr') o | _ => False end)
                   | Panic msg => every d (λ tr' o', match o' with Ret _ => Q (tr ++ tr') o | _ => False end)
                   | Block => True
                   end) →
  every (defer_failing d m) Q.
Proof.
  revert Q. induction m as [[a|e]|msg|c k IH]; intros Q; simpl.
  - done.
  - intros Hd. apply every_bind. eapply every_mono; [|exact Hd]. intros tr [[]| |]; simpl; try done. by rewrite app_nil_r.
  - intros Hd. apply every_bind. eapply every_mono; [|exact Hd]. intros tr [[]| |]; simpl; try done. by rewrite app_nil_r.
  - intros Hm r. apply IH. exact (Hm r).
Qed.

Lemma platform_lift tr : platform_events (lift_events tr) = tr.
Proof.
  induction tr as [|[c r] tr IH]; [done|]. unfold platform_events, lift_events in *. cbn [fmap list_fmap omap list_omap projT1 projT2].
  by rewrite IH.
Qed.

Lemma platform_app tr1 tr2 : platform_events (tr1 ++ tr2) = platform_events tr1 ++ platform_events tr2.
Proof. apply omap_app. Qed.

Lemma calls_lift tr : calls (lift_events tr) = inr <$> calls tr.
Proof. induction tr as [|[c r] tr IH]; [done|]. cbn. f_equal. exact IH. Qed.

Lemma sockets_lift tr l : balance socket_entry (lift_events tr) l = l.
Proof. revert l. induction tr as [|[c r] tr IH]; intros l; [done|]. apply IH. Qed.

Lemma calls_app (tr1 tr2 : list event) : calls (tr1 ++ tr2) = calls tr1 ++ calls tr2.
Proof. apply fmap_app. Qed.

(** A trace of [join] that came to [NewTUN]: the calls before it, its own, and those after. *)
Lemma joined_platform tr1 tr tr2 :
  platform_events tr1 = [] → platform_events tr2 = [] → platform_events (tr1 ++ lift_events tr ++ tr2) = tr.
Proof. intros H1 H2. by rewrite !platform_app, H1, H2, platform_lift, app_nil_r. Qed.

Lemma joined_no_go tr1 tr tr2 :
  (∀ g, inl (Go g) ∉ calls tr1) → (∀ g, inl (Go g) ∉ calls tr2) →
  ∀ g, inl (Go g) ∉ calls (tr1 ++ lift_events tr ++ tr2).
Proof.
  intros H1 H2 g. rewrite !calls_app, calls_lift, !elem_of_app, list_elem_of_fmap.
  intros [?|[(? & ? & _)|?]]; [by eapply H1|done|by eapply H2].
Qed.

Lemma join_every left opt :
  every (NewTUN (Address opt)) left → every (join opt) (join_ends left opt).
Proof.
  intros Hleft. unfold join, free_port, Stop, net.
  assert (∀ (tr : list event), Forall (λ c, match c with inl (Go _) => False | _ => True end) (calls tr) → ∀ g, inl (Go g) ∉ calls tr) as Hgo.
  { intros tr Ht g Hg. rewrite Forall_forall in Ht. by specialize (Ht _ Hg). }
  cbn [every mbind prog_bind mret prog_ret do or_return with_error defer reply]. intros [probe|e].
  2:{ split_and!; [done| |by left]. by apply Hgo; repeat constructor. }
  cbn [every mbind prog_bind mret prog_ret do or_return with_error defer reply]. intros port [].
  cbn [every mbind prog_bind mret prog_ret do or_return with_error defer reply]. intros [conn|e].
  2:{ split_and!; [unfold sockets, balance; cbn [foldl post socket_entry]; by rewrite remove1_head| |by left].
      by apply Hgo; repeat constructor. }
  cbn [every mbind prog_bind mret prog_ret do or_return with_error defer reply].
  apply every_defer_failing, every_bind, every_on_platform.
  eapply every_mono; [|exact (every_and _ _ _ Hleft (every_not_blocked _))].
  set (probed := [existT (inl (ListenUDP 0)) (inl probe); existT (inl (LocalPort probe)) port;
    existT (inl (CloseConn probe)) (); existT (inl (DialContext port (Node.Gateway opt))) (inl conn)] : list event).
  intros tr [[d|e]|msg|] [Hl Hb]; [| | |done].
  - cbn [every mbind prog_bind mret prog_ret do or_return reply]. intros [] [].
    set (tr' := lift_events tr ++ _). set (v := {| s_node := _ |}).
    assert (platform_events (probed ++ tr') = tr) as Hpl by (by apply joined_platform).
    change (join_ends left opt (probed ++ tr') (Ret (inl v))).
    unfold join_ends. rewrite Hpl. split_and!; [|..|done|done].
    + exists probe, port. split; [|unfold probed; set_solver]. unfold tr'. by rewrite !calls_app, calls_lift.
    + unfold sockets, tr'. rewrite !balance_app, sockets_lift. unfold balance. cbn [foldl post socket_entry probed].
      by rewrite remove1_head.
  - cbn [every mbind prog_bind mret prog_ret do or_return reply]. intros [].
    rewrite app_nil_r. set (tr2 := [_]).
    assert (platform_events (probed ++ lift_events tr ++ tr2) = tr) as Hpl by (by apply joined_platform).
    change (join_ends left opt (probed ++ lift_events tr ++ tr2) (Ret (inr e))).
    unfold join_ends. rewrite Hpl. split_and!; [| |by right].
    + unfold sockets. rewrite !balance_app, sockets_lift. unfold balance. cbn [foldl post socket_entry probed tr2].
      by rewrite !remove1_head.
    + apply joined_no_go; apply Hgo; repeat constructor.
  - cbn [every mbind prog_bind mret prog_ret do or_return reply]. intros [].
    set (tr2 := [_]).
    assert (platform_events (probed ++ lift_events tr ++ tr2) = tr) as Hpl by (by apply joined_platform).
    change (join_ends left opt (probed ++ lift_events tr ++ tr2) (Panic msg)).
    unfold join_ends. rewrite Hpl. split_and!; [| |done].
    + unfold sockets. rewrite !balance_app, sockets_lift. unfold balance. cbn [foldl post socket_entry probed tr2].
      by rewrite !remove1_head.
    + apply joined_no_go; apply Hgo; repeat constructor.
Qed.

(** No number of failed reads ends the loop: only the context does. *)
Lemma schedule_returns_cancelled Dial turns n n' err :
  schedule Dial turns n = Ret (n', err) → Cancelled err ∈ turns.
Proof.
  revert n. induction turns as [|[e| |data now nonce] turns IH]; intros n; simpl; [done|..].
  - intros [= _ <-]. apply list_elem_of_here.
  - intros Hs. by eapply list_elem_of_further, IH.
  - intros (n1 & _ & Hs)%outcome_bind_ret. by eapply list_elem_of_further, IH.
Qed.

(** *** The status of the process *)

(** Every call of a program satisfies [P]. *)
Fixpoint only {A} (P : call dev + C → Prop) (m : prog A) : Prop :=
  match m with Do c k => P c ∧ ∀ r, only P (k r) | _ => True end.

Lemma only_bind {A B} P (m : prog A) (f : A → prog B) :
  only P m → (∀ a, only P (f a)) → only P (m ≫= f).
Proof. induction m as [a|msg|c k IH]; simpl; [auto|done|]. intros [? Hk] Hf. split; [done|]. intros r. by apply IH. Qed.

Lemma only_defer_failing {A} P d (m : E A) : only P d → only P m → only P (defer_failing d m).
Proof.
  intros Hd. induction m as [[a|e]|msg|c k IH]; simpl; [done|..].
  - intros _. apply only_bind; [done|done].
  - intros _. apply only_bind; [done|done].
  - intros [? Hk]. split; [done|]. intros r. by apply IH.
Qed.

Lemma only_on_platform {A} (P : call dev + C → Prop) (m : Sys.prog dev_reply A) :
  (∀ c, P (inr c)) → only P (on_platform m).
Proof. intros HP. induction m as [a|msg|c k IH]; simpl; [done..|]. split; [done|]. intros r. apply IH. Qed.

Lemma only_every {A} P (m : prog A) : only P m → every m (λ tr _, Forall P (calls tr)).
Proof.
  induction m as [a|msg|c k IH]; simpl; [by constructor..|].
  intros [? Hk] r. eapply every_mono; [|exact (IH r (Hk r))]. simpl. intros tr _ Ht. by constructor.
Qed.

Definition exits_0 (c : call dev + C) : Prop := ∀ code, c = inl (Exit code) → code = 0.

Lemma join_exits_0 opt : only exits_0 (join opt).
Proof.
  unfold join, free_port, Stop, net, exits_0. cbn.
  split; [done|]. intros [probe|e]; [|done]. cbn.
  split; [done|]. intros port. split; [done|]. intros []. split; [done|]. intros [conn|e]; [|done].
  apply only_defer_failing; [by repeat split|]. apply only_bind; [by apply only_on_platform|].
  by intros [d|e]; repeat split.
Qed.

(** Every outcome of [main] that is not a crash of the log ends with status 0, also an error. *)
Lemma main_exits_0 cmd :
  every (main cmd) (λ tr o, match o with Ret (Some _) => ∀ code, inl (Exit code) ∈ calls tr → code = 0 | _ => True end).
Proof.
  destruct cmd as [opt|opt|err].
  - unfold main, execute, gateway_start, net. cbn. by intros [conn|e]; cbn.
  - assert (only exits_0 (main (JoinCmd opt))) as Ho%only_every.
    { apply (only_bind _ (execute (JoinCmd opt))).
      - cbn [execute]. unfold runJoin. case_bool_decide; [by split|].
        apply only_bind; [apply join_exits_0|by intros []].
      - intros [[err|]|]; [|done..]. split; [done|]. intros []. split; [by intros ? [= <-]|done]. }
    eapply every_mono; [|exact Ho]. intros tr [[]| |]; [|done..]. intros Ht code Hc.
    rewrite Forall_forall in Ht. by apply (Ht _ Hc).
  - destruct err as [e|]; cbn; set_solver.
Qed.

End start.

(** ** The three platforms *)

Section platforms.
Context `{Message.Proto, Arch, Einval, Utf16}.
Variable go1_11 : bool.
Variable string6 : IP → string.
Variable parse6 : string → IP.

(** C39: Whatever the network, the kernel, the driver and the commands reply, joining either
    serves, with one socket, connected to the gateway from the port that was found free, the
    node's mask set, the two goroutines started on the device, and the device as opened; or
    it fails or panics without a goroutine, and with every socket that [Serve] opened closed.  What
    is then open is what [NewTUN] leaves when it fails: on Linux and on macOS nothing, a
    descriptor that nobody owns or one that its file will close; on Windows nothing, an
    adapter, or an adapter with a running session. *)
Theorem join_start_releases {S} opt :
  (∀ (h : host reply S) s,
     let '(o, tr, _) := run h (join parse6 LinuxTun.NewTUN opt) s in
     join_ends parse6 (LinuxFacts.leaves (Address opt)) opt tr o) ∧
  (∀ (h : host reply S) s,
     let '(o, tr, _) := run h (join parse6 (DarwinTun.NewTUN go1_11 string6 parse6) opt) s in
     join_ends parse6 (DarwinTunFacts.leaves go1_11 (Address opt)) opt tr o) ∧
  (∀ pool (h : host reply S) s,
     let '(o, tr, _) := run h (join parse6 (TunWindows.NewTUN pool) opt) s in
     join_ends parse6 (TunWindows.leaves (Address opt)) opt tr o).
Proof.
  split_and!; intros; apply run_every, join_every.
  - apply LinuxFacts.linux_NewTUN_every.
  - apply DarwinTunFacts.darwin_NewTUN_every.
  - apply TunWindows.windows_NewTUN_every.
Qed.

End platforms.

Module MainDemo.

(** A network with two sockets, over the kernel of [TunUnix.v] in which the MTU cannot be set. *)
Definition host : Sys.host (@reply syscall TunUnix.reply generalDevice) () := λ c s,
  match c return reply c * () with
  | inl c =>
      (match c return reply (inl c) with
       | ListenUDP _ => inl 3
       | LocalPort _ => 40000
       | DialContext _ _ => inl 4
       | CloseConn _ => ()
       | Go _ => ()
       | Help => None
       | Println _ => ()
       | Exit _ => ()
       end, s)
  | inr c => TunUnixDemo.kernel false c s
  end.

(** The sockets are closed, and the descriptor 5 of the device is open and lost. *)
Example join_loses :
  let '(o, tr, _) := run host (join (λ _, []) LinuxTun.NewTUN
    {| Node.Gateway := "9.9.9.9:2823"; Key := ""; Address := "10.1.2.3"; TLS := false |}) () in
  o = Ret (inr (New "failed to set MTU of TUN device")) ∧ sockets tr = [] ∧ unowned (platform_events tr) = [5].
Proof. vm_compute. split_and!; reflexivity. Qed.

End MainDemo.
